(** * Pulse data-uploading scripts: staging, validation and append pipeline

    A shallow embedding of the Python sources under [src/src] (schema
    dependency resolver, foreign-key resolver, row validator, row
    transformer, staging engine, append-only writer, duplicate policy) and
    the properties of the specification stated over it.

    Conventions of the embedding.
    - Python [str] is [string]; the character set is ASCII, which is what the
      schema names, the CSV headers and the fixed vocabularies of the code
      use.  [str.strip], [str.upper] and [str.lower] are written out for it.
    - A Python [dict] whose iteration order matters is an association list
      with the dict's assignment semantics ([dict_set]: an existing key keeps
      its position, a new key goes last); a dict used only through lookups is
      a [gmap]; a [set] is a [gset].
    - Dynamically typed cell values are [pyval].
    - Effects (resolver cache, file system, staging of an entity) are
      threaded explicitly as state. *)

From Stdlib Require Import ZArith Ascii String List Bool Lia.
From stdpp Require Import base option list gmap sets strings sorting.

#[local] Set Warnings "-clear-no-such-hyp".
#[local] Open Scope string_scope.
#[local] Open Scope list_scope.

(** ** Python runtime: strings and dynamically typed values *)

Module Py.

(** [str.isspace] on ASCII: TAB, LF, VT, FF, CR, the separators FS, GS, RS,
    US, and the space. *)
Definition is_space (c : ascii) : bool :=
  let n := N_of_ascii c in
  ((9 <=? n)%N && (n <=? 13)%N) || ((28 <=? n)%N && (n <=? 32)%N).

Fixpoint lstrip (s : string) : string :=
  match s with
  | String c s' => if is_space c then lstrip s' else s
  | EmptyString => EmptyString
  end.

Definition rstrip (s : string) : string := String.rev (lstrip (String.rev s)).

(** [s.strip()] *)
Definition strip (s : string) : string := rstrip (lstrip s).

Fixpoint map_chars (f : ascii -> ascii) (s : string) : string :=
  match s with
  | String c s' => String (f c) (map_chars f s')
  | EmptyString => EmptyString
  end.

Definition upper_char (c : ascii) : ascii :=
  let n := N_of_ascii c in
  if ((97 <=? n)%N && (n <=? 122)%N) then ascii_of_N (n - 32) else c.

Definition lower_char (c : ascii) : ascii :=
  let n := N_of_ascii c in
  if ((65 <=? n)%N && (n <=? 90)%N) then ascii_of_N (n + 32) else c.

(** [s.upper()] and [s.lower()] *)
Definition upper : string -> string := map_chars upper_char.
Definition lower : string -> string := map_chars lower_char.

(** [s.startswith(p)] *)
Definition startswith (s p : string) : bool := String.prefix p s.

(** [s.endswith(p)] *)
Definition endswith (s p : string) : bool :=
  String.prefix (String.rev p) (String.rev s).

(** [sub in s] on strings *)
Fixpoint contains (sub s : string) : bool :=
  String.prefix sub s ||
  match s with
  | String _ s' => contains sub s'
  | EmptyString => false
  end.

(** [s[:-n]] for [n <= len(s)] *)
Definition drop_last (n : nat) (s : string) : string :=
  String.substring 0 (String.length s - n) s.

(** [x in l] on a list of strings *)
Definition in_list (x : string) (l : list string) : bool :=
  bool_decide (x ∈ l).

(** A float is known to the code only through [str], [int] and its truth
    value; a datetime through [str] and [isoformat]. *)
Record pyfloat := { float_str : string; float_int : Z; float_nonzero : bool }.
Record pydatetime := { dt_str : string; dt_isoformat : string }.

Inductive pyval :=
| VNone
| VBool (b : bool)
| VInt (z : Z)
| VFloat (f : pyfloat)
| VStr (s : string)
| VDatetime (d : pydatetime).

Definition digit_char (n : nat) : ascii := ascii_of_nat (48 + n).

Fixpoint digits_fuel (fuel : nat) (n : N) (acc : string) : string :=
  match fuel with
  | O => acc
  | S fuel' =>
      let acc' := String (digit_char (N.to_nat (n mod 10))) acc in
      if (n <? 10)%N then acc' else digits_fuel fuel' (n / 10)%N acc'
  end.

Definition str_of_N (n : N) : string :=
  digits_fuel (S (N.to_nat (N.log2 n))) n EmptyString.

Definition str_of_Z (z : Z) : string :=
  match z with
  | Z0 => "0"
  | Zpos p => str_of_N (Npos p)
  | Zneg p => String "-" (str_of_N (Npos p))
  end.

(** [str(v)] *)
Definition str (v : pyval) : string :=
  match v with
  | VNone => "None"
  | VBool true => "True"
  | VBool false => "False"
  | VInt z => str_of_Z z
  | VFloat f => float_str f
  | VStr s => s
  | VDatetime d => dt_str d
  end.

(** [bool(v)], the truth value used by [if v:] *)
Definition truthy (v : pyval) : bool :=
  match v with
  | VNone => false
  | VBool b => b
  | VInt z => negb (z =? 0)%Z
  | VFloat f => float_nonzero f
  | VStr s => negb (String.eqb s EmptyString)
  | VDatetime _ => true
  end.

(** [v is None or str(v).strip() == ''], the blank test of the sources *)
Definition is_blank (v : pyval) : bool :=
  match v with
  | VNone => true
  | _ => String.eqb (strip (str v)) EmptyString
  end.

(** [d[k] = v] on an insertion-ordered dict *)
Fixpoint dict_set {V} (k : string) (v : V) (d : list (string * V))
  : list (string * V) :=
  match d with
  | [] => [(k, v)]
  | (k', v') :: d' =>
      if String.eqb k' k then (k, v) :: d' else (k', v') :: dict_set k v d'
  end.

(** [d.get(k)] *)
Fixpoint dict_get {V} (k : string) (d : list (string * V)) : option V :=
  match d with
  | [] => None
  | (k', v) :: d' => if String.eqb k' k then Some v else dict_get k d'
  end.

Definition dict_keys {V} (d : list (string * V)) : list string := d.*1.

(** The string does not start with white space. *)
Definition no_lead (s : string) : Prop :=
  match s with
  | String c _ => is_space c = false
  | EmptyString => True
  end.

End Py.

(** ** policy.py: duplicate handling policy *)

Module Policy.

(** [_ENTITY_POLICIES], lines 10-13 *)
Definition _ENTITY_POLICIES : gmap string string :=
  {[ "SERVICEORDERS" := "skip" ]}.

(** First [def get_duplicate_policy], lines 16-17 *)
Definition get_duplicate_policy_def1 (entity : string) : string :=
  default "error" (_ENTITY_POLICIES !! Py.upper entity).

(** [DUPLICATE_POLICY], lines 31-42 *)
Definition DUPLICATE_POLICY : gmap string string :=
  <["SERVICEORDERS" := "skip"]>
  (<["VENDORS" := "skip"]>
  (<["PROJECTDEFINITIONS" := "skip"]>
  (<["PACKAGES" := "skip"]>
  (<["PROJECTS" := "skip"]>
  (<["SPVS" := "skip"]>
  (<["LOCATIONS" := "skip"]>
  (<["CLUSTERS" := "skip"]> ∅))))))).

(** Second [def get_duplicate_policy], lines 45-47 *)
Definition get_duplicate_policy_def2 (entity : string) : string :=
  default "skip" (DUPLICATE_POLICY !! entity).

(** The module body runs top to bottom; each [def] statement binds its
    name in the module namespace, replacing an earlier binding. *)
Definition module_defs : list (string * (string -> string)) :=
  [ ("get_duplicate_policy", get_duplicate_policy_def1);
    ("get_duplicate_policy", get_duplicate_policy_def2) ].

Definition exec_defs (defs : list (string * (string -> string)))
  : gmap string (string -> string) :=
  foldl (fun ns d => <[d.1 := d.2]> ns) ∅ defs.

(** What [from src.policy import get_duplicate_policy] yields: the binding
    of the name once the module body has run. *)
Definition get_duplicate_policy (entity : string) : string :=
  match exec_defs module_defs !! "get_duplicate_policy" with
  | Some f => f entity
  | None => EmptyString
  end.

End Policy.

(** ** cds_parser.py: dependency map *)

Module CdsParser.

Record assoc := { assoc_name : string; assoc_target : string }.
Record field := { field_name : string; field_type : string; field_key : bool }.
Record unique_constraint := { uc_name : string; uc_columns : list string }.
Record entity_def := {
  fields : list field;
  associations : list assoc;
  uniqueConstraints : list unique_constraint;
  notes : list string
}.

(** [if t and t != ename and t not in targets: targets.append(t)] *)
Definition add_target (ename : string) (targets : list string) (t : string)
  : list string :=
  if negb (String.eqb t EmptyString) && negb (String.eqb t ename)
     && negb (Py.in_list t targets)
  then targets ++ [t] else targets.

(** The inner search of the [*_ID] heuristic: the target of the first
    association whose name is [base]. *)
Fixpoint find_assoc (base : string) (assocs : list assoc) : option string :=
  match assocs with
  | [] => None
  | a :: rest =>
      if String.eqb (assoc_name a) base then Some (assoc_target a)
      else find_assoc base rest
  end.

(** [fname.endswith('_ID') and f.get('type','').upper().startswith('UUID')] *)
Definition is_uuid_id_field (f : field) : bool :=
  Py.endswith (field_name f) "_ID"
  && Py.startswith (Py.upper (field_type f)) "UUID".

(** One iteration of the loop over the fields, lines 129-141. *)
Definition id_field_step (ename : string) (assocs : list assoc)
    (targets : list string) (f : field) : list string :=
  if is_uuid_id_field f then
    let base := Py.drop_last 3 (field_name f) in
    match find_assoc base assocs with
    | Some matched => add_target ename targets matched
    | None => targets
    end
  else targets.

(** The body of the loop over the entities: the list [targets]. *)
Definition entity_targets (ename : string) (edef : entity_def) : list string :=
  let targets := foldl (add_target ename) [] (assoc_target <$> associations edef) in
  foldl (id_field_step ename (associations edef)) targets (fields edef).

(** [build_dependencies(parsed)], lines 118-143; [ents] is
    [parsed['entities']] in insertion order. *)
Definition build_dependencies (ents : list (string * entity_def))
  : list (string * list string) :=
  foldl (fun deps e => Py.dict_set e.1 (entity_targets e.1 e.2) deps) [] ents.

(** What every target list satisfies while it is built: no target twice,
    neither the entity itself nor the empty name. *)
Definition clean_targets (ename : string) (targets : list string) : Prop :=
  NoDup targets ∧ (ename ∉ targets) ∧ (EmptyString ∉ targets).

End CdsParser.

(** ** cds_parser.py: topological order *)

Module TopoSort.

(** [list.sort()] and [sorted] on names: ascending in the order of the
    character codes. *)
Definition sort_names (l : list string) : list string :=
  merge_sort String.le l.

(** [X.remove(x)] on a set: [None] is the [KeyError] of a missing element. *)
Definition set_remove (x : string) (X : gset string) : option (gset string) :=
  if decide (x ∈ X) then Some (X ∖ {[x]}) else None.

(** Line 148 *)
Definition nodes (deps : list (string * list string)) : gset string :=
  list_to_set deps.*1 ∪ list_to_set (concat deps.*2).

(** Lines 149-150: [{n: set() for n in nodes}] *)
Definition empty_sets (ns : gset string) : gmap string (gset string) :=
  gset_to_gmap ∅ ns.

(** Lines 153-154; both keys are nodes, so neither subscript can fail. *)
Definition add_edge (n : string)
    (acc : gmap string (gset string) * gmap string (gset string)) (v : string)
  : gmap string (gset string) * gmap string (gset string) :=
  (alter (fun X => {[v]} ∪ X) n acc.1, alter (fun X => {[n]} ∪ X) v acc.2).

(** Lines 151-154 *)
Definition add_edges (deps : list (string * list string))
    (acc : gmap string (gset string) * gmap string (gset string))
  : gmap string (gset string) * gmap string (gset string) :=
  foldl (fun acc item => foldl (add_edge item.1) acc item.2) acc deps.

(** The variables of the [while] loop. *)
Record state := {
  incoming : gmap string (gset string);
  outgoing : gmap string (gset string);
  ready : list string;
  order : list string
}.

(** Lines 161-166: the loop over the snapshot [list(outgoing[n])]; [None]
    is a [KeyError]. *)
Fixpoint relax (n : string) (ms : list string) (st : state) : option state :=
  match ms with
  | [] => Some st
  | m :: rest =>
      match outgoing st !! n with
      | None => None
      | Some out_n =>
          match set_remove m out_n with
          | None => None
          | Some out_n' =>
              match incoming st !! m with
              | None => None
              | Some in_m =>
                  match set_remove n in_m with
                  | None => None
                  | Some in_m' =>
                      relax n rest
                        {| incoming := <[m := in_m']> (incoming st);
                           outgoing := <[n := out_n']> (outgoing st);
                           ready :=
                             if decide (in_m' = ∅)
                             then sort_names (ready st ++ [m])
                             else ready st;
                           order := order st |}
                  end
              end
          end
      end
  end.

(** What the loop ends with. *)
Inductive outcome :=
| Finished (st : state)
| KeyError
| OutOfFuel.

Section iteration_order.

(** The order in which a [set] is iterated is not fixed by its contents:
    [enum X] is the order the run happens to use for the set [X]. *)
Variable enum : gset string -> list string.

(** The [while S:] loop, lines 158-166; [fuel] bounds its iterations. *)
Fixpoint kahn (fuel : nat) (st : state) : outcome :=
  match ready st with
  | [] => Finished st
  | n :: S' =>
      match fuel with
      | O => OutOfFuel
      | S fuel' =>
          let st := {| incoming := incoming st; outgoing := outgoing st;
                       ready := S'; order := order st ++ [n] |} in
          match outgoing st !! n with
          | None => KeyError
          | Some out_n =>
              match relax n (enum out_n) st with
              | None => KeyError
              | Some st' => kahn fuel' st'
              end
          end
      end
  end.

(** Lines 148-157: the state before the loop. *)
Definition initial_state (deps : list (string * list string)) : state :=
  let ns := nodes deps in
  let '(inc, out) := add_edges deps (empty_sets ns, empty_sets ns) in
  {| incoming := inc; outgoing := out;
     ready :=
       sort_names
         (List.filter (fun n => bool_decide (inc !! n = Some ∅)) (enum ns));
     order := [] |}.

(** [topo_sort], lines 146-170; [None] when the loop raises.  The loop
    emits one node per iteration, so the number of nodes is fuel enough. *)
Definition topo_sort (deps : list (string * list string))
  : option (list string) :=
  match kahn (size (nodes deps)) (initial_state deps) with
  | Finished st =>
      let remaining :=
        List.filter (fun n => negb (Py.in_list n (order st)))
          (enum (nodes deps)) in
      Some (order st ++ sort_names remaining)
  | _ => None
  end.

End iteration_order.

(** [A] depends on [B]: [B] is listed under the key [A]. *)
Definition depends_on (deps : list (string * list string)) (A B : string)
  : Prop :=
  ∃ vs, (A, vs) ∈ deps ∧ B ∈ vs.

(** Every chain of dependencies that starts at [x] is finite: [x] is not on
    a dependency cycle and does not depend, directly or through other
    entities, on a member of one. *)
Definition chains_end (deps : list (string * list string)) (x : string)
  : Prop :=
  Acc (fun y z => depends_on deps z y) x.

(** A node is ready once [emitted]: it is not emitted and all its
    dependencies are. *)
Definition ready_after (deps : list (string * list string))
    (emitted : list string) (x : string) : Prop :=
  x ∈ nodes deps ∧ (x ∉ emitted) ∧ (∀ d, depends_on deps x d → d ∈ emitted).

(** [B] comes before [A] in the list. *)
Definition precedes (l : list string) (B A : string) : Prop :=
  ∃ i j : nat, l !! i = Some B ∧ l !! j = Some A ∧ (i < j)%nat.

(** The emitted list [o] was built by always taking the least ready node. *)
Definition emitted_in_order (deps : list (string * list string))
    (o : list string) : Prop :=
  ∀ pre n post, o = pre ++ n :: post →
    ready_after deps pre n ∧ ∀ x, ready_after deps pre x → String.le n x.

(** Invariant of the [while] loop: [incoming] holds the dependencies not
    yet emitted, [outgoing] the dependents of the nodes not yet emitted, and
    [S] is the sorted list of the ready nodes. *)
Definition kahn_inv (deps : list (string * list string)) (st : state) : Prop :=
  (∀ k, k ∈ nodes deps →
     ∃ I, incoming st !! k = Some I
          ∧ ∀ v, v ∈ I ↔ depends_on deps k v ∧ v ∉ order st)
  ∧ (∀ k, k ∈ nodes deps →
       ∃ O, outgoing st !! k = Some O
            ∧ ∀ m, m ∈ O ↔ depends_on deps m k ∧ k ∉ order st)
  ∧ Sorted String.le (ready st)
  ∧ NoDup (ready st)
  ∧ (∀ x, x ∈ ready st ↔ ready_after deps (order st) x)
  ∧ NoDup (order st)
  ∧ emitted_in_order deps (order st).

End TopoSort.

(** ** The built schema artifact (build/schema.json) as the pipeline reads it *)

Module Schema.

Record csv_info := { csv_file : option string; csv_columns : list string }.

Record entity_info := {
  ei_fields : list CdsParser.field;
  ei_uniqueConstraints : list CdsParser.unique_constraint;
  ei_csv : option csv_info
}.

Record schema := {
  sch_enums : gmap string (list string);
  sch_entities : gmap string entity_info;
  sch_ingestionOrder : list string
}.

End Schema.

(** ** fk_resolver.py: natural-key lookups *)

Module FkResolver.

(** A row of a persisted or staged CSV file as [csv.DictReader] yields it for
    a rectangular file: column name to cell text. *)
Definition csv_row := list (string * string).

(** A spreadsheet row: merged header to cell value. *)
Definition excel_row := list (string * Py.pyval).

(** One entry of a lookup's [match] list; [.get('field')] and [.get('from')]
    are [None] when the key is absent. *)
Record match_field := { mf_field : option string; mf_from : option string }.

(** One entry of a sheet's [lookups] mapping. *)
Record lookup_def := {
  ld_entity : option string;
  ld_match : list match_field;
  ld_optional : bool
}.

(** What the resolver reads from disk: per entity, the rows of
    [data_dir/CCTECH.DRS.ENTITIES-<entity>.csv] and of
    [staging_dir/<entity>.csv] ([None] when the file does not exist);
    [staging_rows] is [None] when no staging directory is configured. *)
Record stores := {
  schema : Schema.schema;
  data_rows : string -> option (list csv_row);
  staging_rows : option (string -> option (list csv_row))
}.

(** The mutable part of an [FKResolver]: [self.cache].  [lookup_calls] is a
    ghost counter of the calls of [lookup_id]; the source has no such field,
    it only serves to state that a code path performs no lookup. *)
Record resolver := {
  cache : gmap string (list csv_row);
  lookup_calls : nat
}.

Definition new_resolver : resolver := {| cache := ∅; lookup_calls := 0 |}.

(** [_load_entity_data], lines 20-57 *)
Definition _load_entity_data (w : stores) (r : resolver) (entity : string)
  : list csv_row * resolver :=
  match cache r !! entity with
  | Some rows => (rows, r)
  | None =>
      match Schema.sch_entities (schema w) !! entity with
      | None => ([], r)
      | Some entity_info =>
          match Schema.ei_csv entity_info with
          | None => ([], r)
          | Some _ =>
              let rows := default [] (data_rows w entity) in
              let rows :=
                match staging_rows w with
                | Some staged => rows ++ default [] (staged entity)
                | None => rows
                end in
              (rows, {| cache := <[entity := rows]> (cache r);
                        lookup_calls := lookup_calls r |})
          end
      end
  end.

Definition nonempty (o : option string) : option string :=
  match o with
  | Some s => if String.eqb s EmptyString then None else Some s
  | None => None
  end.

(** One iteration of the loop that builds [criteria], lines 82-88. *)
Definition criteria_step (row_values : excel_row)
    (criteria : list (string * string)) (mf : match_field)
  : list (string * string) :=
  match nonempty (mf_field mf), nonempty (mf_from mf) with
  | Some field, Some from_col =>
      match Py.dict_get from_col row_values with
      | Some value =>
          if Py.is_blank value then criteria
          else Py.dict_set field (Py.strip (Py.str value)) criteria
      | None => criteria
      end
  | _, _ => criteria
  end.

Definition build_criteria (match_fields : list match_field)
    (row_values : excel_row) : list (string * string) :=
  foldl (criteria_step row_values) [] match_fields.

(** The test of one criterion against a candidate row, lines 97-110. *)
Definition criterion_holds (csv_row0 : csv_row) (c : string * string) : bool :=
  let field := c.1 in
  let value := c.2 in
  let csv_value := Py.strip (default EmptyString (Py.dict_get field csv_row0)) in
  if Py.endswith field "_ID" && negb (String.eqb csv_value EmptyString)
  then String.eqb csv_value value
  else String.eqb (Py.upper csv_value) (Py.upper value).

Definition row_matches (criteria : list (string * string)) (csv_row0 : csv_row)
  : bool :=
  forallb (criterion_holds csv_row0) criteria.

(** The search loop, lines 94-115: the [ID] of the first matching row. *)
Fixpoint search (criteria : list (string * string)) (data : list csv_row)
  : option string :=
  match data with
  | [] => None
  | csv_row0 :: rest =>
      if row_matches criteria csv_row0 then Py.dict_get "ID" csv_row0
      else search criteria rest
  end.

(** [lookup_id], lines 59-115 *)
Definition lookup_id (w : stores) (r : resolver) (target_entity : string)
    (match_fields : list match_field) (row_values : excel_row)
  : option string * resolver :=
  let r := {| cache := cache r; lookup_calls := S (lookup_calls r) |} in
  let '(data, r) := _load_entity_data w r target_entity in
  match data with
  | [] => (None, r)
  | _ =>
      let criteria := build_criteria match_fields row_values in
      match criteria with
      | [] => (None, r)
      | _ => (search criteria data, r)
      end
  end.

(** One iteration of the loop of [resolve_all_fks], lines 136-150. *)
Definition resolve_fk_step (w : stores) (excel_row0 : excel_row)
    (acc : list (string * option string) * resolver)
    (item : string * lookup_def)
  : list (string * option string) * resolver :=
  let '(resolved, r) := acc in
  let fk_field := item.1 in
  let lookup := item.2 in
  match nonempty (ld_entity lookup) with
  | None => (resolved, r)
  | Some target_entity =>
      match Py.dict_get fk_field excel_row0 with
      | Some v =>
          if Py.truthy v
          then (Py.dict_set fk_field (Some (Py.strip (Py.str v))) resolved, r)
          else
            let '(found_id, r) :=
              lookup_id w r target_entity (ld_match lookup) excel_row0 in
            (Py.dict_set fk_field found_id resolved, r)
      | None =>
          let '(found_id, r) :=
            lookup_id w r target_entity (ld_match lookup) excel_row0 in
          (Py.dict_set fk_field found_id resolved, r)
      end
  end.

(** [resolve_all_fks], lines 117-152; the parameter [entity] is unused by
    the source. *)
Definition resolve_all_fks (w : stores) (r : resolver) (entity : string)
    (lookups_config : list (string * lookup_def)) (excel_row0 : excel_row)
  : list (string * option string) * resolver :=
  foldl (resolve_fk_step w excel_row0) ([], r) lookups_config.

(** The criterion a match rule contributes for a source row: its target
    field and the trimmed text of the row's value under its source column,
    when both names are given and the value is not blank. *)
Definition rule_value (row_values : excel_row) (mf : match_field)
  : option (string * string) :=
  match nonempty (mf_field mf), nonempty (mf_from mf) with
  | Some field, Some from_col =>
      match Py.dict_get from_col row_values with
      | Some value =>
          if Py.is_blank value then None
          else Some (field, Py.strip (Py.str value))
      | None => None
      end
  | _, _ => None
  end.

(** The rows [lookup_id] scans for a target entity. *)
Definition loaded (w : stores) (r : resolver) (target_entity : string)
  : list csv_row :=
  (_load_entity_data w r target_entity).1.

(** The same stores with no staging directory configured. *)
Definition without_staging (w : stores) : stores :=
  {| schema := schema w; data_rows := data_rows w; staging_rows := None |}.

(** The lookup definition names a target entity ([if not target_entity]
    does not skip it). *)
Definition has_target (lookup : lookup_def) : bool :=
  match nonempty (ld_entity lookup) with
  | Some _ => true
  | None => false
  end.

(** The schema has a non-null [csv] entry for the entity. *)
Definition has_csv (w : stores) (entity : string) : Prop :=
  ∃ ei ci, Schema.sch_entities (schema w) !! entity = Some ei
           ∧ Schema.ei_csv ei = Some ci.

End FkResolver.

(** ** validator.py: type coercion and row checks *)

Module Validator.

(** What the validator takes from the Python library: [int(s)] and
    [float(s)] on text (the message of the [ValueError] on failure),
    [float(n)] on an integer, [datetime.fromisoformat] and
    [datetime.strptime]. *)
Record library := {
  int_of_str : string -> string + Z;
  float_of_str : string -> string + Py.pyfloat;
  float_of_int : Z -> Py.pyfloat;
  fromisoformat : string -> option Py.pydatetime;
  strptime : string -> string -> option Py.pydatetime
}.

Definition is_hex (c : ascii) : bool :=
  let n := N_of_ascii c in
  ((48 <=? n)%N && (n <=? 57)%N) || ((65 <=? n)%N && (n <=? 70)%N)
  || ((97 <=? n)%N && (n <=? 102)%N).

(** Consume [n] hexadecimal digits. *)
Fixpoint hex_run (n : nat) (s : string) : option string :=
  match n, s with
  | O, _ => Some s
  | S n', String c s' => if is_hex c then hex_run n' s' else None
  | S _, EmptyString => None
  end.

Definition dash_then (f : string -> option string) (s : string) : option string :=
  match s with
  | String "-" s' => f s'
  | _ => None
  end.

(** The pattern of line 52, case-insensitive, on a trimmed string:
    8-4-4-4-12 hexadecimal digits. *)
Definition uuid_match (s : string) : bool :=
  match hex_run 8 s with
  | Some s1 =>
      match dash_then (hex_run 4) s1 with
      | Some s2 =>
          match dash_then (hex_run 4) s2 with
          | Some s3 =>
              match dash_then (hex_run 4) s3 with
              | Some s4 =>
                  match dash_then (hex_run 12) s4 with
                  | Some EmptyString => true
                  | _ => false
                  end
              | None => false
              end
          | None => false
          end
      | None => false
      end
  | None => false
  end.

Definition true_words : list string := ["true"; "1"; "yes"; "t"; "y"].
Definition false_words : list string :=
  ["false"; "0"; "no"; "f"; "n"; EmptyString].
Definition timestamp_formats : list string :=
  ["%Y-%m-%d"; "%Y-%m-%d %H:%M:%S"; "%d/%m/%Y"].

(** [isinstance(value, (int, float))]: [bool] is a subclass of [int]. *)
Definition is_number (v : Py.pyval) : bool :=
  match v with
  | Py.VBool _ | Py.VInt _ | Py.VFloat _ => true
  | _ => false
  end.

(** [int(value)] on a number *)
Definition int_of_number (v : Py.pyval) : Z :=
  match v with
  | Py.VBool b => if b then 1 else 0
  | Py.VInt z => z
  | Py.VFloat f => Py.float_int f
  | _ => 0
  end.

Section with_library.
Variable lib : library.

(** [float(value)] on a number *)
Definition float_of_number (v : Py.pyval) : Py.pyfloat :=
  match v with
  | Py.VFloat f => f
  | _ => float_of_int lib (int_of_number v)
  end.

(** The loop over the fallback formats, lines 95-100. *)
Fixpoint try_formats (str_val : string) (fmts : list string)
  : option Py.pydatetime :=
  match fmts with
  | [] => None
  | fmt :: rest =>
      match strptime lib str_val fmt with
      | Some dt => Some dt
      | None => try_formats str_val rest
      end
  end.

(** [validate_type], lines 35-107: the coerced value and the error. *)
Definition validate_type (field_name : string) (value : Py.pyval)
    (field_type : string) : Py.pyval * option string :=
  if Py.is_blank value then (Py.VNone, None)
  else
    let type_upper := Py.upper field_type in
    let failed (e : string) :=
      (Py.VNone, Some ("Type coercion failed for " +:+ field_name +:+ ": " +:+ e)) in
    if Py.startswith type_upper "UUID" then
      let str_val := Py.strip (Py.str value) in
      if uuid_match str_val then (Py.VStr str_val, None)
      else (Py.VStr str_val, Some ("Invalid UUID format for " +:+ field_name))
    else if Py.contains "STRING" type_upper || Py.contains "LARGESTRING" type_upper
    then (Py.VStr (Py.strip (Py.str value)), None)
    else if Py.in_list type_upper ["INTEGER"; "INTEGER64"] then
      if is_number value then (Py.VInt (int_of_number value), None)
      else
        match int_of_str lib (Py.strip (Py.str value)) with
        | inr z => (Py.VInt z, None)
        | inl e => failed e
        end
    else if Py.contains "DECIMAL" type_upper || Py.contains "FLOAT" type_upper
    then
      if is_number value then (Py.VFloat (float_of_number value), None)
      else
        match float_of_str lib (Py.strip (Py.str value)) with
        | inr f => (Py.VFloat f, None)
        | inl e => failed e
        end
    else if Py.contains "BOOLEAN" type_upper then
      match value with
      | Py.VBool b => (Py.VBool b, None)
      | _ =>
          let str_val := Py.lower (Py.strip (Py.str value)) in
          if Py.in_list str_val true_words then (Py.VBool true, None)
          else if Py.in_list str_val false_words then (Py.VBool false, None)
          else (Py.VNone,
                Some ("Invalid boolean value '" +:+ Py.str value +:+ "' for "
                      +:+ field_name))
      end
    else if Py.contains "TIMESTAMP" type_upper then
      match value with
      | Py.VDatetime d => (Py.VStr (Py.dt_isoformat d), None)
      | _ =>
          let str_val := Py.strip (Py.str value) in
          match fromisoformat lib str_val with
          | Some dt => (Py.VStr (Py.dt_isoformat dt), None)
          | None =>
              match try_formats str_val timestamp_formats with
              | Some dt => (Py.VStr (Py.dt_isoformat dt), None)
              | None =>
                  (Py.VStr str_val,
                   Some ("Cannot parse timestamp '" +:+ Py.str value +:+ "' for "
                         +:+ field_name))
              end
          end
      end
    else (Py.VStr (Py.strip (Py.str value)), None).

End with_library.

(** A field type that reaches the boolean branch of [validate_type]. *)
Definition is_boolean_type (field_type : string) : bool :=
  let type_upper := Py.upper field_type in
  negb (Py.startswith type_upper "UUID")
  && negb (Py.contains "STRING" type_upper || Py.contains "LARGESTRING" type_upper)
  && negb (Py.in_list type_upper ["INTEGER"; "INTEGER64"])
  && negb (Py.contains "DECIMAL" type_upper || Py.contains "FLOAT" type_upper)
  && Py.contains "BOOLEAN" type_upper.


(** A row under transformation or already accepted: column to value. *)
Definition row := list (string * Py.pyval).

(** [validate_enum], lines 17-33 *)
Definition validate_enum (sch : Schema.schema) (field_name : string)
    (value : Py.pyval) (enum_type : string) : option string :=
  if Py.is_blank value then None
  else
    let str_value := Py.strip (Py.str value) in
    let allowed := default [] (Schema.sch_enums sch !! enum_type) in
    if Py.in_list str_value allowed then None
    else Some ("Invalid enum value '" +:+ str_value +:+ "' for " +:+ field_name
               +:+ ". Allowed: " +:+ String.concat ", " allowed).

(** The key of the candidate row, lines 130-140: [None] when a column is
    blank. *)
Fixpoint row_key (r : row) (columns : list string) : option (list string) :=
  match columns with
  | [] => Some []
  | col :: rest =>
      match Py.dict_get col r with
      | Some val =>
          if Py.is_blank val then None
          else
            match row_key r rest with
            | Some ks => Some (Py.upper (Py.strip (Py.str val)) :: ks)
            | None => None
            end
      | None => None
      end
  end.

(** The key of an existing row, lines 146-151: the loop stops at the first
    blank column. *)
Fixpoint existing_key (r : row) (columns : list string) : list string :=
  match columns with
  | [] => []
  | col :: rest =>
      match Py.dict_get col r with
      | Some val =>
          if Py.is_blank val then []
          else Py.upper (Py.strip (Py.str val)) :: existing_key r rest
      | None => []
      end
  end.

Definition keys_equal (k1 k2 : list string) : bool :=
  (length k1 =? length k2)%nat && bool_decide (k1 = k2).

Definition col_str (r : row) (columns : list string) : string :=
  String.concat ", "
    ((fun c => c +:+ "=" +:+ Py.str (default Py.VNone (Py.dict_get c r)))
       <$> columns).

(** One iteration of the loop over the constraints, lines 125-156. *)
Definition check_constraint (r : row) (existing_rows : list row)
    (constraint : CdsParser.unique_constraint) : list string :=
  let columns := CdsParser.uc_columns constraint in
  match row_key r columns with
  | None => []
  | Some key_values =>
      if existsb (fun existing => keys_equal (existing_key existing columns)
                                    key_values) existing_rows
      then ["Unique constraint '" +:+ CdsParser.uc_name constraint
            +:+ "' violated: " +:+ col_str r columns]
      else []
  end.

(** [validate_unique_constraints], lines 109-158 *)
Definition validate_unique_constraints (sch : Schema.schema) (entity : string)
    (r : row) (existing_rows : list row) : list string :=
  match Schema.sch_entities sch !! entity with
  | Some entity_info =>
      concat (check_constraint r existing_rows
                <$> Schema.ei_uniqueConstraints entity_info)
  | None => []
  end.

Definition has_value (r : row) (col : string) : bool :=
  match Py.dict_get col r with
  | Some v => negb (Py.is_blank v)
  | None => false
  end.

(** [validate_xor_rule], lines 160-180 *)
Definition validate_xor_rule (entity : string) (r : row) : option string :=
  if String.eqb entity "UNITSCOPE" then
    let has_rfi := has_value r "RFI_ID" in
    let has_nc := has_value r "NC_ID" in
    if has_rfi && has_nc
    then Some "XOR violation: UNITSCOPE must have RFI_ID OR NC_ID, not both"
    else if negb has_rfi && negb has_nc
    then Some "XOR violation: UNITSCOPE must have either RFI_ID or NC_ID"
    else None
  else None.

(** [validate_required_fields], lines 182-200 *)
Definition validate_required_fields (sch : Schema.schema) (entity : string)
    (r : row) : list string :=
  match Schema.sch_entities sch !! entity with
  | Some entity_info =>
      concat ((fun f : CdsParser.field =>
                 if CdsParser.field_key f && negb (has_value r (CdsParser.field_name f))
                 then ["Required key field '" +:+ CdsParser.field_name f
                       +:+ "' is missing"]
                 else [])
                <$> Schema.ei_fields entity_info)
  | None => []
  end.

(** The text a unique key compares for a column of a row. *)
Definition key_text (r : row) (col : string) : string :=
  Py.upper (Py.strip (Py.str (default Py.VNone (Py.dict_get col r)))).

(** Two rows agree on the columns: each column holds a non-blank value in
    both, and the trimmed texts are the same up to letter case. *)
Definition same_key (columns : list string) (r existing : row) : Prop :=
  ∀ col, col ∈ columns →
    has_value r col = true ∧ has_value existing col = true
    ∧ key_text r col = key_text existing col.

(** The unique constraints and the fields that the schema records for an
    entity; none for an entity it does not know. *)
Definition constraints_of (sch : Schema.schema) (entity : string)
  : list CdsParser.unique_constraint :=
  match Schema.sch_entities sch !! entity with
  | Some entity_info => Schema.ei_uniqueConstraints entity_info
  | None => []
  end.

Definition fields_of (sch : Schema.schema) (entity : string)
  : list CdsParser.field :=
  match Schema.sch_entities sch !! entity with
  | Some entity_info => Schema.ei_fields entity_info
  | None => []
  end.

(** The field type reaches none of the branches of [validate_type] that
    produce a float or parse a timestamp. *)
Definition plain_type (field_type : string) : bool :=
  let type_upper := Py.upper field_type in
  negb (Py.contains "DECIMAL" type_upper || Py.contains "FLOAT" type_upper
        || Py.contains "TIMESTAMP" type_upper).

End Validator.

(** ** dedup_config.py *)

Module DedupConfig.

(** [DEDUP_ENTITIES], lines 10-19 *)
Definition DEDUP_ENTITIES : list (string * list string) :=
  [ ("CLUSTERS", ["NAME"]);
    ("SPVS", ["NAME"]);
    ("PROJECTS", ["NAME"; "TYPE"; "CATEGORY"]);
    ("LOCATIONS", ["NAME"]);
    ("PLOTS", ["NAME"]);
    ("VENDORS", ["CODE"]);
    ("PROJECTDEFINITIONS", ["CODE"]);
    ("PACKAGES", ["NAME"]) ].

(** [should_deduplicate], lines 27-29 *)
Definition should_deduplicate (entity : string) : bool :=
  Py.in_list entity (Py.dict_keys DEDUP_ENTITIES).

(** [get_dedup_keys], lines 32-34 *)
Definition get_dedup_keys (entity : string) : list string :=
  default [] (Py.dict_get entity DEDUP_ENTITIES).

End DedupConfig.

(** ** The mapping configuration (config/mapping_generated.yaml) *)

Module Mapping.

(** One entry of [sheets].  [id_column] and [uuidPolicy] are
    [id.column] and [id.uuidPolicy] with the defaults ['ID'] and
    ['preserve'] of the readers filled in. *)
Record sheet_config := {
  entity : option string;
  sheet : option string;
  csvFile : option string;
  columnMap : list (string * string);
  defaults : list (string * Py.pyval);
  id_column : string;
  uuidPolicy : string;
  lookups : list (string * FkResolver.lookup_def)
}.

End Mapping.

(** ** transformer.py: one row, then all rows of an entity *)

Module Transformer.

Abbreviation row := Validator.row.

(** What a [RowTransformer] is built from and reads: the schema and the
    CSV stores (inside [stores]), the Python library of the validator, the
    sequence of UUIDs that [uuid.uuid4()] draws, and the rows of the CSV
    file at a path ([None] when it does not exist). *)
Record env := {
  stores : FkResolver.stores;
  lib : Validator.library;
  uuid4 : nat -> string;
  existing_csv : string -> option (list FkResolver.csv_row)
}.

(** Its mutable state: the resolver's cache and the number of UUIDs drawn. *)
Record state := {
  fk_resolver : FkResolver.resolver;
  uuids_drawn : nat
}.

Definition schema_of (e : env) : Schema.schema := FkResolver.schema (stores e).

Definition lift_row (r : FkResolver.csv_row) : row :=
  (fun kv : string * string => (kv.1, Py.VStr kv.2)) <$> r.

(** [{col: None for col in csv_columns}] *)
Definition init_output (csv_columns : list string) : row :=
  foldl (fun out col => Py.dict_set col Py.VNone out) [] csv_columns.

(** Lines 90-93 *)
Definition apply_column_map (excel_row : row) (out : row)
    (m : string * string) : row :=
  match Py.dict_get m.1 excel_row with
  | Some value => Py.dict_set m.2 value out
  | None => out
  end.

(** Lines 97-99 *)
Definition apply_default (out : row) (d : string * Py.pyval) : row :=
  match Py.dict_get d.1 out with
  | Some current => if Py.is_blank current then Py.dict_set d.1 d.2 out else out
  | None => out
  end.

(** [if resolved_id:] on an optional identifier *)
Definition resolved_truthy (o : option string) : option string :=
  FkResolver.nonempty o.

(** One iteration of the loop over the resolutions, lines 119-130. *)
Definition apply_resolution (lookups_config : list (string * FkResolver.lookup_def))
    (acc : row * list string) (res : string * option string)
  : row * list string :=
  let '(out, errors) := acc in
  let fk_field := res.1 in
  match resolved_truthy res.2 with
  | Some resolved_id => (Py.dict_set fk_field (Py.VStr resolved_id) out, errors)
  | None =>
      let is_optional :=
        match Py.dict_get fk_field lookups_config with
        | Some fk_config => FkResolver.ld_optional fk_config
        | None => false
        end in
      if negb is_optional then
        match Py.dict_get fk_field out with
        | Some current =>
            if Py.is_blank current
            then (out, errors ++ ["Could not resolve FK '" +:+ fk_field +:+ "'"])
            else (out, errors)
        | None => (out, errors)
        end
      else (out, errors)
  end.

(** One iteration of the loop over the fields, lines 133-153. *)
Definition coerce_field (e : env) (acc : row * list string)
    (f : CdsParser.field) : row * list string :=
  let '(out, errors) := acc in
  let fname := CdsParser.field_name f in
  let ftype := CdsParser.field_type f in
  match Py.dict_get fname out with
  | None => (out, errors)
  | Some value =>
      let '(coerced, type_err) :=
        Validator.validate_type (lib e) fname value ftype in
      let '(out, errors) :=
        match type_err with
        | Some err => (out, errors ++ [err])
        | None => (Py.dict_set fname coerced out, errors)
        end in
      match Schema.sch_enums (schema_of e) !! ftype with
      | Some _ =>
          match Validator.validate_enum (schema_of e) fname coerced ftype with
          | Some enum_err => (out, errors ++ [enum_err])
          | None => (out, errors)
          end
      | None => (out, errors)
      end
  end.

(** [transform_row], lines 60-171.  The result is [None] when the schema
    entry of the entity has a null [csv] (the [.get] on it raises
    [AttributeError]); otherwise the new state and the pair that the
    source returns. *)
Definition transform_row (e : env) (st : state) (entity : string)
    (sheet_config : Mapping.sheet_config) (excel_row : row)
    (existing_rows : list row)
  : option (state * (option row * list string)) :=
  let entity_info := Schema.sch_entities (schema_of e) !! entity in
  let csv_columns :=
    match entity_info with
    | None => Some []
    | Some ei => Schema.csv_columns <$> Schema.ei_csv ei
    end in
  match csv_columns with
  | None => None
  | Some csv_columns =>
      let output := init_output csv_columns in
      let output :=
        foldl (apply_column_map excel_row) output (Mapping.columnMap sheet_config) in
      let output := foldl apply_default output (Mapping.defaults sheet_config) in
      let id_column := Mapping.id_column sheet_config in
      let '(output, drawn) :=
        match Py.dict_get id_column output with
        | Some current_id =>
            if String.eqb (Mapping.uuidPolicy sheet_config) "generate_if_blank"
               && Py.is_blank current_id
            then (Py.dict_set id_column (Py.VStr (uuid4 e (uuids_drawn st))) output,
                  S (uuids_drawn st))
            else (output, uuids_drawn st)
        | None => (output, uuids_drawn st)
        end in
      let lookups_config := Mapping.lookups sheet_config in
      let '(output, errors, resolver) :=
        match lookups_config with
        | [] => (output, [], fk_resolver st)
        | _ =>
            let enhanced_row :=
              foldl (fun acc kv => Py.dict_set kv.1 kv.2 acc) excel_row output in
            let '(fk_resolutions, resolver) :=
              FkResolver.resolve_all_fks (stores e) (fk_resolver st) entity
                lookups_config enhanced_row in
            let '(output, errors) :=
              foldl (apply_resolution lookups_config) (output, []) fk_resolutions in
            (output, errors, resolver)
        end in
      let fields :=
        match entity_info with
        | Some ei => Schema.ei_fields ei
        | None => []
        end in
      let '(output, errors) := foldl (coerce_field e) (output, errors) fields in
      let errors :=
        errors ++ Validator.validate_unique_constraints (schema_of e) entity
                    output existing_rows in
      let errors :=
        match Validator.validate_xor_rule entity output with
        | Some xor_err => errors ++ [xor_err]
        | None => errors
        end in
      let errors :=
        errors ++ Validator.validate_required_fields (schema_of e) entity output in
      let st' := {| fk_resolver := resolver; uuids_drawn := drawn |} in
      match errors with
      | [] => Some (st', (Some output, []))
      | _ => Some (st', (None, errors))
      end
  end.

(** An entry of [error_records]. *)
Record error_record := {
  row_num : nat;
  excel_row : row;
  errors : list string
}.

(** The local variables of the loop of [transform_entity]. *)
Record loop_state := {
  valid_rows : list row;
  error_records : list error_record;
  all_rows : list row;
  existing_key_set : gset (list string);
  seen_keys : gset (list string);
  st : state
}.

(** Lines 222-226: the first spreadsheet column mapped to [key_field]. *)
Fixpoint excel_column_for (column_map : list (string * string))
    (key_field : string) : option string :=
  match column_map with
  | [] => None
  | (excel_key, csv_field) :: rest =>
      if String.eqb csv_field key_field then Some excel_key
      else excel_column_for rest key_field
  end.

(** Lines 228-232: one component of the batch key of a spreadsheet row. *)
Definition batch_key_value (column_map : list (string * string))
    (excel_row0 : row) (key_field : string) : string :=
  match FkResolver.nonempty (excel_column_for column_map key_field) with
  | Some excel_col =>
      match Py.dict_get excel_col excel_row0 with
      | Some v =>
          let v_or_empty := if Py.truthy v then v else Py.VStr EmptyString in
          Py.lower (Py.strip (Py.str v_or_empty))
      | None => EmptyString
      end
  | None => EmptyString
  end.

(** Lines 207 and 253: the natural key of a persisted or transformed row. *)
Definition natural_key (dedup_keys : list string) (r : row) : list string :=
  (fun k => Py.upper (Py.strip (Py.str
              (default (Py.VStr EmptyString) (Py.dict_get k r))))) <$> dedup_keys.

Definition is_unique_violation (err : string) : bool :=
  Py.contains "Unique constraint" err && Py.contains "violated" err.

Definition skipped_record (idx : nat) (excel_row0 : row) : error_record :=
  {| row_num := idx; excel_row := excel_row0;
     errors := ["Skipped due to duplicate (unique constraint)"] |}.

(** Lines 247-287: the part of the loop body after the batch filter. *)
Definition transform_and_file (e : env) (entity : string)
    (sheet_config : Mapping.sheet_config) (ls : loop_state)
    (idx : nat) (excel_row0 : row) : option loop_state :=
  match transform_row e (st ls) entity sheet_config excel_row0 (all_rows ls) with
  | None => None
  | Some (st', (transformed, errs)) =>
      let ls := {| valid_rows := valid_rows ls;
                   error_records := error_records ls;
                   all_rows := all_rows ls;
                   existing_key_set := existing_key_set ls;
                   seen_keys := seen_keys ls;
                   st := st' |} in
      let failed (errs : list string) :=
        if DedupConfig.should_deduplicate entity && existsb is_unique_violation errs
        then ls
        else if String.eqb (Policy.get_duplicate_policy entity) "skip"
                && forallb (Py.contains "Unique constraint") errs
        then {| valid_rows := valid_rows ls;
                error_records := error_records ls ++ [skipped_record idx excel_row0];
                all_rows := all_rows ls;
                existing_key_set := existing_key_set ls;
                seen_keys := seen_keys ls;
                st := st' |}
        else {| valid_rows := valid_rows ls;
                error_records := error_records ls ++
                  [{| row_num := idx; excel_row := excel_row0; errors := errs |}];
                all_rows := all_rows ls;
                existing_key_set := existing_key_set ls;
                seen_keys := seen_keys ls;
                st := st' |} in
      let accept (out : row) (keys : gset (list string)) :=
        {| valid_rows := valid_rows ls ++ [out];
           error_records := error_records ls;
           all_rows := all_rows ls ++ [out];
           existing_key_set := keys;
           seen_keys := seen_keys ls;
           st := st' |} in
      match transformed with
      | Some (c :: out') =>
          let out := c :: out' in
          if DedupConfig.should_deduplicate entity then
            let key_tuple := natural_key (DedupConfig.get_dedup_keys entity) out in
            if bool_decide (key_tuple ∈ existing_key_set ls) then Some ls
            else Some (accept out ({[ key_tuple ]} ∪ existing_key_set ls))
          else Some (accept out (existing_key_set ls))
      | _ => Some (failed errs)
      end
  end.

(** The loop body, lines 213-287. *)
Definition transform_step (e : env) (entity : string)
    (sheet_config : Mapping.sheet_config) (acc : option loop_state)
    (item : nat * row) : option loop_state :=
  match acc with
  | None => None
  | Some ls =>
      let '(idx, excel_row0) := item in
      if DedupConfig.should_deduplicate entity then
        let key_values :=
          batch_key_value (Mapping.columnMap sheet_config) excel_row0
            <$> DedupConfig.get_dedup_keys entity in
        if forallb (fun v => String.eqb v EmptyString) key_values then Some ls
        else if bool_decide (key_values ∈ seen_keys ls) then Some ls
        else
          transform_and_file e entity sheet_config
            {| valid_rows := valid_rows ls;
               error_records := error_records ls;
               all_rows := all_rows ls;
               existing_key_set := existing_key_set ls;
               seen_keys := {[ key_values ]} ∪ seen_keys ls;
               st := st ls |}
            idx excel_row0
      else transform_and_file e entity sheet_config ls idx excel_row0
  end.

(** [enumerate(rows, start=1)] *)
Definition enumerate1 {A} (l : list A) : list (nat * A) :=
  zip (seq 1 (length l)) l.

(** [transform_entity], lines 173-289: the new state, [valid_rows] and
    [error_records]; [None] when the schema entry of the entity has a null
    [csv] ([AttributeError]). *)
Definition transform_entity (e : env) (s : state) (entity : string)
    (sheet_config : Mapping.sheet_config) (excel_rows : list row)
  : option (state * (list row * list error_record)) :=
  let csv_path :=
    match Schema.sch_entities (schema_of e) !! entity with
    | None => Some None
    | Some ei =>
        match Schema.ei_csv ei with
        | None => None
        | Some csv_info => Some (FkResolver.nonempty (Schema.csv_file csv_info))
        end
    end in
  match csv_path with
  | None => None
  | Some None => Some (s, ([], []))
  | Some (Some path) =>
      let existing_rows := lift_row <$> default [] (existing_csv e path) in
      let keys :=
        if DedupConfig.should_deduplicate entity
        then list_to_set
               (natural_key (DedupConfig.get_dedup_keys entity) <$> existing_rows)
        else ∅ in
      let init :=
        {| valid_rows := []; error_records := []; all_rows := existing_rows;
           existing_key_set := keys; seen_keys := ∅; st := s |} in
      match foldl (transform_step e entity sheet_config) (Some init)
              (enumerate1 excel_rows) with
      | Some ls => Some (st ls, (valid_rows ls, error_records ls))
      | None => None
      end
  end.

(** The keys of [out] include [lo] and are among [hi]. *)
Definition keys_between (lo hi : list string) (out : row) : Prop :=
  (∀ k, k ∈ lo → k ∈ out.*1) ∧ (∀ k, k ∈ out.*1 → k ∈ hi).

(** [csv_columns] as [transform_row] reads it: the columns of the schema's
    CSV entry, none for an entity the schema does not know, and [None]
    (the read raises) when the entry is null. *)
Definition csv_columns_of (e : env) (entity : string) : option (list string) :=
  match Schema.sch_entities (schema_of e) !! entity with
  | Some ei => Schema.csv_columns <$> Schema.ei_csv ei
  | None => Some []
  end.

(** All the errors that [transform_row] collects after the coercion of
    the fields, for the coerced row [out]. *)
Definition checks (e : env) (entity : string) (out : row)
    (existing_rows : list row) : list string :=
  Validator.validate_unique_constraints (schema_of e) entity out existing_rows
  ++ match Validator.validate_xor_rule entity out with
     | Some xor_err => [xor_err]
     | None => []
     end
  ++ Validator.validate_required_fields (schema_of e) entity out.

(** What one iteration of the loop of [transform_entity] does to the loop
    variables, for the source row [excel_row0] numbered [idx]: the row is
    dropped silently (master data only), or its transformed row is accepted,
    or an error record is filed for it. *)
Inductive step_effect (e : env) (entity : string)
    (sheet_config : Mapping.sheet_config) (ls : loop_state) (idx : nat)
    (excel_row0 : row) (ls' : loop_state) : Prop :=
| Dropped :
    DedupConfig.should_deduplicate entity = true →
    valid_rows ls' = valid_rows ls →
    error_records ls' = error_records ls →
    all_rows ls' = all_rows ls →
    existing_key_set ls' = existing_key_set ls →
    step_effect e entity sheet_config ls idx excel_row0 ls'
| Accepted (st1 : state) (out : row) (errs : list string) :
    transform_row e (st ls) entity sheet_config excel_row0 (all_rows ls)
      = Some (st1, (Some out, errs)) →
    valid_rows ls' = valid_rows ls ++ [out] →
    error_records ls' = error_records ls →
    all_rows ls' = all_rows ls ++ [out] →
    (if DedupConfig.should_deduplicate entity
     then (natural_key (DedupConfig.get_dedup_keys entity) out
             ∉ existing_key_set ls)
          ∧ existing_key_set ls'
            = {[ natural_key (DedupConfig.get_dedup_keys entity) out ]}
              ∪ existing_key_set ls
     else existing_key_set ls' = existing_key_set ls) →
    step_effect e entity sheet_config ls idx excel_row0 ls'
| Recorded (rec : error_record) :
    row_num rec = idx →
    excel_row rec = excel_row0 →
    valid_rows ls' = valid_rows ls →
    error_records ls' = error_records ls ++ [rec] →
    all_rows ls' = all_rows ls →
    existing_key_set ls' = existing_key_set ls →
    step_effect e entity sheet_config ls idx excel_row0 ls'.

(** [csv_path] as [transform_entity] computes it, lines 186-191: [None]
    when the read raises (null [csv] entry), [Some None] when there is no
    path (unknown entity, or no [file]). *)
Definition csv_path_of (e : env) (entity : string) : option (option string) :=
  match Schema.sch_entities (schema_of e) !! entity with
  | None => Some None
  | Some ei =>
      match Schema.ei_csv ei with
      | None => None
      | Some csv_info => Some (FkResolver.nonempty (Schema.csv_file csv_info))
      end
  end.

(** The rows of the entity's CSV file as [transform_entity] loads them. *)
Definition persisted_rows (e : env) (path : string) : list row :=
  lift_row <$> default [] (existing_csv e path).

(** The error records as pairs of row number and source row. *)
Definition recorded (errs : list error_record) : list (nat * row) :=
  (fun rec => (row_num rec, excel_row rec)) <$> errs.

End Transformer.

(** ** staging_engine.py: staging of one entity, then the multi-pass loop *)

Module StagingEngine.

Abbreviation row := Validator.row.

(** The dict that [stage_entity] returns has one of two shapes: the early
    returns of lines 96-101 and 107-112 (counts 0 and a single [msg] entry),
    or the result of lines 138-145, where [error_count] is the length of
    [errors]. *)
Inductive stage_result :=
| NotStaged (entity : string) (msg : string)
| Staged (entity sheet : string) (valid_count : nat)
    (staged_file : option string) (errors : list Transformer.error_record).

(** [result['error_count']] *)
Definition error_count (r : stage_result) : nat :=
  match r with
  | NotStaged _ _ => 0
  | Staged _ _ _ _ errors => length errors
  end.

(** [result['valid_count']] *)
Definition valid_count (r : stage_result) : nat :=
  match r with
  | NotStaged _ _ => 0
  | Staged _ _ n _ _ => n
  end.

(** Lines 186-194: the entity has errors and one of them is a foreign-key
    resolution error. *)
Definition has_fk_error (r : stage_result) : bool :=
  match r with
  | NotStaged _ _ => false
  | Staged _ _ _ _ errs =>
      (0 <? length errs)%nat
      && existsb (fun err_rec =>
                    existsb (Py.contains "Could not resolve FK")
                      (Transformer.errors err_rec)) errs
  end.

(** Lines 184-194: [entities_with_fk_errors], in the order of [results]. *)
Definition entities_with_fk_errors (results : list (string * stage_result))
  : list string :=
  (List.filter (fun er => has_fk_error er.2) results).*1.

(** [sum(results[e]['error_count'] for e in entities)]; [None] is the
    [KeyError] of [results[e]]. *)
Fixpoint sum_errors (results : list (string * stage_result))
    (entities : list string) : option nat :=
  match entities with
  | [] => Some 0
  | e :: rest =>
      match Py.dict_get e results, sum_errors results rest with
      | Some r, Some n => Some (error_count r + n)
      | _, _ => None
      end
  end.

(** Line 164: [{s.get('entity'): s for s in sheets if s.get('entity')}] *)
Definition entity_to_config (sheets : list Mapping.sheet_config)
  : list (string * Mapping.sheet_config) :=
  foldl (fun d s =>
           match FkResolver.nonempty (Mapping.entity s) with
           | Some e => Py.dict_set e s d
           | None => d
           end) [] sheets.

Definition max_passes : nat := 5.

(** What a call of one of the operations around the engine ends with: its
    value, or the exception that leaves it. *)
Inductive attempt (A : Type) :=
| Ok (a : A)
| Exc (exc : string).
Arguments Ok {A} a.
Arguments Exc {A} exc.

(** What [stage_all] ends with.  [Raised exc pass] is the exception of one
    of the operations it calls: [stage_all] has no handler, so the exception
    leaves it; [pass] is a ghost, the number of the pass in which it was
    raised.  [KeyError] is that of [entity_to_config[entity]] or
    [results[e]]. *)
Inductive outcome (A : Type) :=
| Returned (a : A)
| Raised (exc : string) (pass : nat)
| KeyError
| OutOfFuel.
Arguments Returned {A} a.
Arguments Raised {A} exc pass.
Arguments KeyError {A}.
Arguments OutOfFuel {A}.

(** Ghost record of one retry pass: its number, the error totals compared
    on line 222, and [results] when the pass ends.  The source keeps no such
    record; the passes are only visible in its console output. *)
Record pass_record := {
  pass_no : nat;
  errors_before : nat;
  errors_after : nat;
  results_after : list (string * stage_result)
}.

Section engine.

(** The engine's surroundings: the state of the world (workbook, data and
    staging directories, the current transformer with its resolver cache)
    and the effectful operations the engine calls, each of which can raise.
    The engine's console output (its [print] calls) is left out. *)
Variable World : Type.
(** [_read_excel_data(sheet_name)], lines 44-77 *)
Variable read_excel_data : World -> string -> attempt (list row).
(** [self.transformer.transform_entity(entity, sheet_config, excel_rows)] *)
Variable transform_entity :
  World -> string -> Mapping.sheet_config -> list row ->
  attempt ((list row * list Transformer.error_record) * World).
(** Lines 124-136: write the staged CSV of the entity. *)
Variable write_staged : World -> string -> list row -> attempt World.
(** Lines 202-207: a new transformer with the staging directory enabled. *)
Variable new_transformer : World -> World.
Variable staging_dir : string.

(** [stage_entity], lines 79-145 *)
Definition stage_entity (w : World) (entity : string)
    (sheet_config : Mapping.sheet_config) : attempt (stage_result * World) :=
  match FkResolver.nonempty (Mapping.sheet sheet_config),
        FkResolver.nonempty (Mapping.csvFile sheet_config) with
  | Some sheet_name, Some csv_file =>
      match read_excel_data w sheet_name with
      | Exc exc => Exc exc
      | Ok [] => Ok (NotStaged entity "No data rows found in Excel", w)
      | Ok excel_rows =>
          match transform_entity w entity sheet_config excel_rows with
          | Exc exc => Exc exc
          | Ok ((valid_rows, error_records), w) =>
              match valid_rows with
              | [] =>
                  Ok (Staged entity sheet_name (length valid_rows) None
                        error_records, w)
              | _ =>
                  match write_staged w entity valid_rows with
                  | Exc exc => Exc exc
                  | Ok w =>
                      Ok (Staged entity sheet_name (length valid_rows)
                            (Some (staging_dir +:+ "/" +:+ entity +:+ ".csv"))
                            error_records, w)
                  end
              end
          end
      end
  | _, _ => Ok (NotStaged entity "Missing sheet or csvFile in config", w)
  end.

(** Pass 1, lines 168-176; an exception ends it. *)
Definition first_pass (cfg : list (string * Mapping.sheet_config))
    (ingestion_order : list string) (w : World)
  : attempt (list (string * stage_result) * World) :=
  foldl (fun acc entity =>
           match acc with
           | Exc exc => Exc exc
           | Ok (results, w) =>
               match Py.dict_get entity cfg with
               | None => acc
               | Some sheet_config =>
                   match stage_entity w entity sheet_config with
                   | Exc exc => Exc exc
                   | Ok (result, w) => Ok (Py.dict_set entity result results, w)
                   end
               end
           end) (Ok ([], w)) ingestion_order.

(** Lines 212-217: re-stage the listed entities in pass [pass_num]. *)
Fixpoint restage (pass_num : nat) (cfg : list (string * Mapping.sheet_config))
    (entities : list string) (results : list (string * stage_result))
    (w : World) : outcome (list (string * stage_result) * World) :=
  match entities with
  | [] => Returned (results, w)
  | entity :: rest =>
      match Py.dict_get entity cfg with
      | None => KeyError
      | Some sheet_config =>
          match stage_entity w entity sheet_config with
          | Exc exc => Raised exc pass_num
          | Ok (result, w) =>
              restage pass_num cfg rest (Py.dict_set entity result results) w
          end
      end
  end.

(** The [while pass_num <= max_passes] loop, lines 182-226, with the ghost
    log of its passes.  [fuel] bounds the number of loop tests. *)
Fixpoint retry_loop (fuel : nat) (cfg : list (string * Mapping.sheet_config))
    (pass_num : nat) (results : list (string * stage_result)) (w : World)
  : outcome (list (string * stage_result) * World * list pass_record) :=
  match fuel with
  | O => OutOfFuel
  | S fuel' =>
      if (pass_num <=? max_passes)%nat then
        match entities_with_fk_errors results with
        | [] => Returned (results, w, [])
        | fk_entities =>
            let w := new_transformer w in
            match sum_errors results fk_entities with
            | None => KeyError
            | Some total_errors_before =>
                match restage pass_num cfg fk_entities results w with
                | Returned (results', w') =>
                    match sum_errors results' fk_entities with
                    | Some total_errors_after =>
                        let record :=
                          {| pass_no := pass_num;
                             errors_before := total_errors_before;
                             errors_after := total_errors_after;
                             results_after := results' |} in
                        if (total_errors_before <=? total_errors_after)%nat
                        then Returned (results', w', [record])
                        else
                          match retry_loop fuel' cfg (S pass_num) results' w'
                          with
                          | Returned (final, w'', log) =>
                              Returned (final, w'', record :: log)
                          | Raised exc pass => Raised exc pass
                          | KeyError => KeyError
                          | OutOfFuel => OutOfFuel
                          end
                    | None => KeyError
                    end
                | Raised exc pass => Raised exc pass
                | KeyError => KeyError
                | OutOfFuel => OutOfFuel
                end
            end
        end
      else Returned (results, w, [])
  end.

(** [stage_all], lines 147-228, returning [results], the world it leaves,
    and the ghost trace: [results] after pass 1 and the log of the retry
    passes. *)
Definition stage_all_traced (sheets : list Mapping.sheet_config)
    (ingestion_order : list string) (w : World)
  : outcome (list (string * stage_result) * World
             * (list (string * stage_result) * list pass_record)) :=
  let cfg := entity_to_config sheets in
  match first_pass cfg ingestion_order w with
  | Exc exc => Raised exc 1
  | Ok (results, w) =>
      match retry_loop max_passes cfg 2 results w with
      | Returned (final, w', log) => Returned (final, w', (results, log))
      | Raised exc pass => Raised exc pass
      | KeyError => KeyError
      | OutOfFuel => OutOfFuel
      end
  end.

(** [stage_all] as the source returns it. *)
Definition stage_all (sheets : list Mapping.sheet_config)
    (ingestion_order : list string) (w : World)
  : outcome (list (string * stage_result)) :=
  match stage_all_traced sheets ingestion_order w with
  | Returned (final, _, _) => Returned final
  | Raised exc pass => Raised exc pass
  | KeyError => KeyError
  | OutOfFuel => OutOfFuel
  end.

End engine.

(** The error records of a result. *)
Definition errors_of (r : stage_result) : list Transformer.error_record :=
  match r with
  | NotStaged _ _ => []
  | Staged _ _ _ _ errors => errors
  end.

(** The message reports a foreign key that was not resolved: the text
    [Could not resolve FK] occurs in it. *)
Definition fk_resolution_error (msg : string) : Prop :=
  ∃ pre post, msg = pre +:+ "Could not resolve FK" +:+ post.

(** The error records of the result contain a foreign-key resolution
    error. *)
Definition holds_fk_error (r : stage_result) : Prop :=
  ∃ rec msg,
    rec ∈ errors_of r ∧ msg ∈ Transformer.errors rec ∧ fk_resolution_error msg.

(** No entity's error records contain a foreign-key resolution error. *)
Definition converged (results : list (string * stage_result)) : Prop :=
  ∀ e r, (e, r) ∈ results → ¬ holds_fk_error r.

(** The error count of the listed entities in [results], added up. *)
Definition error_total (results : list (string * stage_result))
    (entities : list string) : nat :=
  sum_list ((fun e => match Py.dict_get e results with
                      | Some r => error_count r
                      | None => 0
                      end) <$> entities).

(** The retried entities' error total did not decrease in the pass. *)
Definition no_improvement (p : pass_record) : Prop :=
  (errors_before p <= errors_after p)%nat.

(** [results] after pass [p] (1-based) of a run with the given trace. *)
Definition results_after_pass (first : list (string * stage_result))
    (log : list pass_record) (p : nat)
  : option (list (string * stage_result)) :=
  (first :: (results_after <$> log)) !! (p - 1).

(** The sheet configs that name the entity. *)
Definition sheets_of (sheets : list Mapping.sheet_config) (e : string)
  : list Mapping.sheet_config :=
  List.filter
    (fun s => bool_decide (FkResolver.nonempty (Mapping.entity s) = Some e))
    sheets.

End StagingEngine.

(** ** The csv module of the Python library, dialect [excel] *)

Module Csv.

Definition CR : ascii := ascii_of_nat 13.
Definition LF : ascii := ascii_of_nat 10.
Definition quotechar : ascii := ascii_of_nat 34.
Definition delimiter : ascii := ",".

Definition is_newline (c : ascii) : bool :=
  Ascii.eqb c CR || Ascii.eqb c LF.

(** The lines of a text file opened with [newline='']: a line ends after
    LF, after CR LF, or after a CR that no LF follows, and keeps its line
    ending; text after the last line ending is a last line. *)
Fixpoint lines_from (cur : list ascii) (s : list ascii) : list (list ascii) :=
  match s with
  | [] => match cur with [] => [] | _ => [reverse cur] end
  | c :: rest =>
      if Ascii.eqb c LF then reverse (c :: cur) :: lines_from [] rest
      else if Ascii.eqb c CR then
        match rest with
        | c' :: rest' =>
            if Ascii.eqb c' LF then reverse (c' :: c :: cur) :: lines_from [] rest'
            else reverse (c :: cur) :: lines_from [] rest
        | [] => [reverse (c :: cur)]
        end
      else lines_from (c :: cur) rest
  end.

Definition split_lines (s : list ascii) : list (list ascii) := lines_from [] s.

(** The states of the reader that the dialect can reach. *)
Inductive parser_state :=
| START_RECORD
| START_FIELD
| IN_FIELD
| IN_QUOTED_FIELD
| QUOTE_IN_QUOTED_FIELD
| EAT_CRNL.

(** The reader: its state, the field being collected (last character
    first) and the fields of the record so far (last field first). *)
Record parser := {
  state : parser_state;
  field : list ascii;
  fields : list string
}.

Definition reset : parser := {| state := START_RECORD; field := []; fields := [] |}.

Definition save_field (p : parser) (s : parser_state) : parser :=
  {| state := s; field := [];
     fields := string_of_list_ascii (reverse (field p)) :: fields p |}.

Definition add_char (p : parser) (c : ascii) (s : parser_state) : parser :=
  {| state := s; field := c :: field p; fields := fields p |}.

Definition set_state (p : parser) (s : parser_state) : parser :=
  {| state := s; field := field p; fields := fields p |}.

(** [parse_process_char] at the start of a field. *)
Definition start_field (p : parser) (c : option ascii) : parser :=
  match c with
  | None => save_field p START_RECORD
  | Some c =>
      if is_newline c then save_field p EAT_CRNL
      else if Ascii.eqb c quotechar then set_state p IN_QUOTED_FIELD
      else if Ascii.eqb c delimiter then save_field p START_FIELD
      else add_char p c IN_FIELD
  end.

(** [parse_process_char]: one character of a line, or the end of the line
    ([None]).  A character other than a line ending cannot follow a line
    ending inside a line, so the error of the state [EAT_CRNL] does not
    arise; the model leaves the state unchanged there. *)
Definition process_char (p : parser) (c : option ascii) : parser :=
  match state p with
  | START_RECORD =>
      match c with
      | None => p
      | Some c' =>
          if is_newline c' then set_state p EAT_CRNL
          else start_field p c
      end
  | START_FIELD => start_field p c
  | IN_FIELD =>
      match c with
      | None => save_field p START_RECORD
      | Some c =>
          if is_newline c then save_field p EAT_CRNL
          else if Ascii.eqb c delimiter then save_field p START_FIELD
          else add_char p c IN_FIELD
      end
  | IN_QUOTED_FIELD =>
      match c with
      | None => p
      | Some c =>
          if Ascii.eqb c quotechar then set_state p QUOTE_IN_QUOTED_FIELD
          else add_char p c IN_QUOTED_FIELD
      end
  | QUOTE_IN_QUOTED_FIELD =>
      match c with
      | None => save_field p START_RECORD
      | Some c =>
          if Ascii.eqb c quotechar then add_char p c IN_QUOTED_FIELD
          else if Ascii.eqb c delimiter then save_field p START_FIELD
          else if is_newline c then save_field p EAT_CRNL
          else add_char p c IN_FIELD
      end
  | EAT_CRNL =>
      match c with
      | None => set_state p START_RECORD
      | Some _ => p
      end
  end.

(** The characters of a line, in order. *)
Definition feed (p : parser) (cs : list ascii) : parser :=
  foldl (fun p c => process_char p (Some c)) p cs.

(** One line: its characters, then the end of the line. *)
Definition process_line (p : parser) (line : list ascii) : parser :=
  process_char (feed p line) None.

(** The records that iterating a reader yields.  A record is complete when
    a line leaves the reader at the start of a record; at the end of the
    input, a pending field or an open quote yields a last record. *)
Fixpoint read_records (p : parser) (lines : list (list ascii))
  : list (list string) :=
  match lines with
  | [] =>
      match field p, state p with
      | [], IN_QUOTED_FIELD | _ :: _, _ =>
          [reverse (fields (save_field p START_RECORD))]
      | [], _ => []
      end
  | line :: rest =>
      let p := process_line p line in
      match state p with
      | START_RECORD => reverse (fields p) :: read_records reset rest
      | _ => read_records p rest
      end
  end.

(** [list(csv.reader(f))] for a file with the given content. *)
Definition reader (content : string) : list (list string) :=
  read_records reset (split_lines (list_ascii_of_string content)).

(** A row that [csv.DictReader] yields: the value is [None] for a column
    the line has no cell for.  The cells beyond the header, which the
    reader stores under the key [None], are left out: no caller reads them. *)
Definition dict_row := list (string * option string).

(** [dict(zip(fieldnames, row))], then [None] for the field names that
    the line has no cell for. *)
Definition zip_row (fieldnames : list string) (cells : list string) : dict_row :=
  foldl (fun d hc => Py.dict_set hc.1 hc.2 d) []
    (imap (fun i h => (h, cells !! i)) fieldnames).

(** [csv.DictReader(f)]: the field names (the first record) and the rows;
    empty records are skipped. *)
Definition dict_reader (content : string) : list string * list dict_row :=
  match reader content with
  | [] => ([], [])
  | fieldnames :: records =>
      (fieldnames,
       zip_row fieldnames
         <$> List.filter (fun r => negb (bool_decide (r = []))) records)
  end.

Definition needs_quotes (s : list ascii) : bool :=
  existsb (fun c => Ascii.eqb c delimiter || Ascii.eqb c quotechar
                    || is_newline c) s.

Definition double_quotes (s : list ascii) : list ascii :=
  s ≫= (fun c => if Ascii.eqb c quotechar then [c; c] else [c]).

(** One field as the writer emits it with minimal quoting. *)
Definition format_field (s : list ascii) : list ascii :=
  if needs_quotes s then quotechar :: double_quotes s ++ [quotechar] else s.

Fixpoint join_fields (fs : list (list ascii)) : list ascii :=
  match fs with
  | [] => []
  | [f] => format_field f
  | f :: rest => format_field f ++ delimiter :: join_fields rest
  end.

(** [writer.writerow(cells)]: the text written, line ending included.  A
    record of one empty field is written as a pair of quotes. *)
Definition format_row (cells : list string) : string :=
  let fs := list_ascii_of_string <$> cells in
  let body :=
    match fs with
    | [ [] ] => [quotechar; quotechar]
    | _ => join_fields fs
    end in
  string_of_list_ascii (body ++ [CR; LF]).

(** [DictWriter(f, fieldnames, extrasaction='ignore').writerow(rowdict)]:
    the cell of each field name, [''] for a missing key or [None]. *)
Definition dict_row_cells (fieldnames : list string) (rowdict : dict_row)
  : list string :=
  (fun h => default EmptyString (default None (Py.dict_get h rowdict)))
    <$> fieldnames.

(** *** The reader as one pass over the characters

    The same records, computed by feeding the characters one at a time: the
    end of a line is signalled after LF, and after CR once the next
    character is seen not to be LF.  This form composes over concatenation
    of texts; [reader_stream] (below, among the properties) relates it to
    [reader]. *)

(** Where the pass is within the current line: at its start, inside it, or
    just after a CR that may still be followed by LF. *)
Inductive line_mode := LineStart | InLine | AfterCR.

Record stream := {
  emitted : list (list string);
  cur : parser;
  mode : line_mode
}.

(** The end of a line: a complete record is emitted and the reader reset. *)
Definition end_of_line (recs : list (list string)) (p : parser)
  : list (list string) * parser :=
  let p := process_char p None in
  match state p with
  | START_RECORD => (recs ++ [reverse (fields p)], reset)
  | _ => (recs, p)
  end.

(** A character that does not follow a pending CR. *)
Definition stream_char (recs : list (list string)) (p : parser) (c : ascii)
  : stream :=
  let p := process_char p (Some c) in
  if Ascii.eqb c LF then
    let '(recs, p) := end_of_line recs p in
    {| emitted := recs; cur := p; mode := LineStart |}
  else if Ascii.eqb c CR then {| emitted := recs; cur := p; mode := AfterCR |}
  else {| emitted := recs; cur := p; mode := InLine |}.

Definition stream_step (st : stream) (c : ascii) : stream :=
  match mode st with
  | AfterCR =>
      if Ascii.eqb c LF then
        let '(recs, p) :=
          end_of_line (emitted st) (process_char (cur st) (Some c)) in
        {| emitted := recs; cur := p; mode := LineStart |}
      else
        let '(recs, p) := end_of_line (emitted st) (cur st) in
        stream_char recs p c
  | _ => stream_char (emitted st) (cur st) c
  end.

(** The end of the input: a pending line is ended, and a pending field or
    an open quote yields a last record. *)
Definition stream_finish (st : stream) : list (list string) :=
  let '(recs, p) :=
    match mode st with
    | LineStart => (emitted st, cur st)
    | _ => end_of_line (emitted st) (cur st)
    end in
  recs ++ read_records p [].

(** The mode of the pass after the characters [cur] of a line (none of
    them a line ending). *)
Definition mode_of (cur : list ascii) : line_mode :=
  match cur with [] => LineStart | _ => InLine end.

Definition stream_start : stream :=
  {| emitted := []; cur := reset; mode := LineStart |}.

Definition stream_run (st : stream) (s : list ascii) : stream :=
  foldl stream_step st s.

(** The content ends where a record ends: the pass is at the start of a
    line with no record begun, so text appended to it starts a new record. *)
Definition complete (content : string) : Prop :=
  let st := stream_run stream_start (list_ascii_of_string content) in
  cur st = reset ∧ mode st = LineStart.

(** The reader is where a field starts. *)
Definition at_field_start (s : parser_state) : Prop :=
  s = START_RECORD ∨ s = START_FIELD.

End Csv.

(** ** append_writer.py: appending staged rows to the persisted files *)

Module AppendWriter.

(** The file system: path to content. *)
Abbreviation files := (gmap string string).

Definition slash : ascii := "/".
Definition dot : ascii := ".".

Fixpoint take_until (c : ascii) (s : list ascii) : list ascii :=
  match s with
  | [] => []
  | x :: rest => if Ascii.eqb x c then [] else x :: take_until c rest
  end.

(** [Path(p).name]: the last component of the path. *)
Definition path_name (p : string) : list ascii :=
  reverse (take_until slash (reverse (list_ascii_of_string p))).

(** [Path(p).stem]: the name without its last suffix; a leading or a
    trailing dot does not start a suffix. *)
Definition path_stem (p : string) : string :=
  let rname := reverse (path_name p) in
  let j := length (take_until dot rname) in
  string_of_list_ascii
    (if (0 <? j)%nat && (j <? length rname - 1)%nat
     then reverse (drop (S j) rname)
     else reverse rname).

(** An [AppendOnlyWriter]. *)
Record writer := {
  data_dir : string;
  staging_dir : string;
  backup_dir : string
}.

(** The dict that [append_entity] returns. *)
Record append_result := {
  res_entity : string;
  appended : nat;
  backup : option string;
  error : option string
}.

(** What a call ends with: a result, or an exception that leaves it. *)
Inductive outcome :=
| Returns (r : append_result)
| Raises (exc : string).

(** What goes wrong during the write, decided by the surroundings (disk,
    permissions): nothing; the opening of the target fails; or the writing
    of row [k] (counted from 0) fails after [partial] of its text has
    reached the file.  [msg] is the text of the exception.  In the last two
    cases the write fails in the same way and the copy that restores the
    backup fails as well, with the exception [rmsg]. *)
Inductive fault :=
| NoFault
| FailOpen (msg : string)
| FailAtRow (k : nat) (partial : string) (msg : string)
| FailOpenRestore (msg rmsg : string) (leftover : option string)
| FailAtRowRestore (k : nat) (partial : string) (msg rmsg : string)
    (leftover : option string).

(** What the copy of the backup over the target does in the handler, lines
    124-125, when it fails: the exception it raises and what it leaves in
    the target, nothing new ([None]) or some content. *)
Definition restore_fault (flt : fault) : option (string * option string) :=
  match flt with
  | FailOpenRestore _ rmsg leftover => Some (rmsg, leftover)
  | FailAtRowRestore _ _ _ rmsg leftover => Some (rmsg, leftover)
  | _ => None
  end.

(** The path that [_backup_csv] copies to, lines 25-27; [timestamp] is
    [datetime.now().strftime('%Y%m%d_%H%M%S')]. *)
Definition backup_path_of (self : writer) (timestamp : string)
    (csv_path : string) : string :=
  backup_dir self +:+ "/" +:+ path_stem csv_path +:+ "_" +:+ timestamp
  +:+ ".bak.csv".

(** [_backup_csv], lines 20-30 *)
Definition _backup_csv (self : writer) (timestamp : string) (fs : files)
    (csv_path : string) : option string * files :=
  match fs !! csv_path with
  | None => (None, fs)
  | Some content =>
      let backup_path := backup_path_of self timestamp csv_path in
      (Some backup_path, <[backup_path := content]> fs)
  end.

(** The first record of a file, [[]] for an empty file. *)
Definition first_record (content : string) : list string :=
  match Csv.reader content with
  | [] => []
  | header :: _ => header
  end.

(** [_get_headers], lines 32-52: the pair (existing, staged). *)
Definition _get_headers (fs : files) (csv_path : string)
    (staged_content : string) : list string * list string :=
  (match fs !! csv_path with
   | Some content => first_record content
   | None => []
   end,
   first_record staged_content).

(** [{h: row.get(h, '') for h in headers}], lines 101 and 112 *)
Definition out_row (headers : list string) (r : Csv.dict_row) : Csv.dict_row :=
  foldl (fun d h =>
           Py.dict_set h (default (Some EmptyString) (Py.dict_get h r)) d)
    [] headers.

(** The text that the loop over the staged rows writes for one row. *)
Definition row_text (headers : list string) (r : Csv.dict_row) : string :=
  Csv.format_row (Csv.dict_row_cells headers (out_row headers r)).

(** The text that reaches the file while the rows are written: all of it
    when nothing goes wrong, otherwise the rows before the failing one and
    the part of that one; and the exception, if one is raised. *)
Definition written (flt : fault) (texts : list string)
  : string * option string :=
  match flt with
  | FailAtRow k partial msg | FailAtRowRestore k partial msg _ _ =>
      if (k <? length texts)%nat
      then (String.concat EmptyString (take k texts) +:+ partial, Some msg)
      else (String.concat EmptyString texts, None)
  | _ => (String.concat EmptyString texts, None)
  end.

(** The [try] block, lines 94-113: the files after it and the exception
    raised in it, if any. *)
Definition write_rows (flt : fault) (fs : files) (csv_path : string)
    (existing_headers staged_headers : list string) (staged_content : string)
  : files * option string :=
  let rows := (Csv.dict_reader staged_content).2 in
  match flt with
  | FailOpen msg | FailOpenRestore msg _ _ => (fs, Some msg)
  | _ =>
      match fs !! csv_path with
      | Some content =>
          let '(text, exc) := written flt (row_text existing_headers <$> rows) in
          (<[csv_path := content +:+ text]> fs, exc)
      | None =>
          let '(text, exc) := written flt (row_text staged_headers <$> rows) in
          (<[csv_path := Csv.format_row staged_headers +:+ text]> fs, exc)
      end
  end.

(** [append_entity], lines 54-132 *)
Definition append_entity (self : writer) (timestamp : string) (flt : fault)
    (fs : files) (entity csv_file staged_file : string) : outcome * files :=
  let csv_path := csv_file in
  match fs !! staged_file with
  | None =>
      (Returns {| res_entity := entity; appended := 0; backup := None;
                  error := Some "Staged file not found" |}, fs)
  | Some staged_content =>
      let '(existing_headers, staged_headers) :=
        _get_headers fs csv_path staged_content in
      let '(backup_path, fs) := _backup_csv self timestamp fs csv_path in
      match fs !! staged_file with
      | None => (Raises "FileNotFoundError", fs)
      | Some staged_content =>
          match Csv.reader staged_content with
          | [] => (Raises "StopIteration", fs)
          | _ :: records =>
              let rows_to_append := length records in
              match write_rows flt fs csv_path existing_headers staged_headers
                      staged_content with
              | (fs, None) =>
                  (Returns {| res_entity := entity; appended := rows_to_append;
                              backup := backup_path; error := None |}, fs)
              | (fs, Some e) =>
                  let failed :=
                    Returns {| res_entity := entity; appended := 0;
                               backup := backup_path;
                               error := Some ("Failed to append: " +:+ e) |} in
                  match backup_path with
                  | Some bp =>
                      match fs !! bp with
                      | Some saved =>
                          match restore_fault flt with
                          | None => (failed, <[csv_path := saved]> fs)
                          | Some (rmsg, leftover) =>
                              (Raises rmsg,
                               match leftover with
                               | Some content => <[csv_path := content]> fs
                               | None => fs
                               end)
                          end
                      | None => (failed, fs)
                      end
                  | None => (failed, fs)
                  end
              end
          end
      end
  end.

(** The header and the data rows of a persisted file, as [csv.DictReader]
    and every reader of the pipeline see them. *)
Definition header_of (content : string) : list string :=
  (Csv.dict_reader content).1.

Definition data_rows_of (content : string) : list Csv.dict_row :=
  (Csv.dict_reader content).2.

(** The content ends with a line ending. *)
Definition ends_with_newline (content : string) : bool :=
  match reverse (list_ascii_of_string content) with
  | c :: _ => Csv.is_newline c
  | [] => false
  end.


(** The cell written for the column [h] of a staged row: its text, and
    the empty text when the row has no such column or no value for it. *)
Definition cell (r : Csv.dict_row) (h : string) : string :=
  default EmptyString (default None (Py.dict_get h r)).

(** The record written for a staged row under the given header. *)
Definition aligned_cells (headers : list string) (r : Csv.dict_row)
  : list string :=
  cell r <$> headers.

(** The row that [csv.DictReader] yields for that record. *)
Definition aligned_row (headers : list string) (r : Csv.dict_row)
  : Csv.dict_row :=
  Csv.zip_row headers (aligned_cells headers r).

(** Line 161: [self.data_dir / f"CCTECH.DRS.ENTITIES-{entity}.csv"] *)
Definition target_of (self : writer) (entity : string) : string :=
  data_dir self +:+ "/" +:+ "CCTECH.DRS.ENTITIES-" +:+ entity +:+ ".csv".

(** Lines 150-155: the result for an entity with nothing to append. *)
Definition nothing_to_append (entity : string) : append_result :=
  {| res_entity := entity; appended := 0; backup := None;
     error := Some "No valid rows to append" |}.

(** [stage_result.get('staged_file')], when it is a non-empty path. *)
Definition staged_file_of (sr : StagingEngine.stage_result) : option string :=
  match sr with
  | StagingEngine.NotStaged _ _ => None
  | StagingEngine.Staged _ _ _ staged_file _ => FkResolver.nonempty staged_file
  end.

(** What [append_all] ends with: its results, or an exception raised by a
    call of [append_entity]. *)
Inductive all_outcome :=
| AllReturned (results : list (string * append_result))
| AllRaised (exc : string).

(** [append_all], lines 134-171.  [clock] gives the timestamp of the
    backup taken for an entity and [faults] what goes wrong while its rows
    are written. *)
Fixpoint append_all_from (self : writer) (clock : string -> string)
    (faults : string -> fault)
    (items : list (string * StagingEngine.stage_result))
    (results : list (string * append_result)) (fs : files)
  : all_outcome * files :=
  match items with
  | [] => (AllReturned results, fs)
  | (entity, stage_result) :: rest =>
      match staged_file_of stage_result,
            StagingEngine.valid_count stage_result with
      | Some staged_file, S _ =>
          match append_entity self (clock entity) (faults entity) fs entity
                  (target_of self entity) staged_file with
          | (Returns result, fs) =>
              append_all_from self clock faults rest
                (Py.dict_set entity result results) fs
          | (Raises exc, fs) => (AllRaised exc, fs)
          end
      | _, _ =>
          append_all_from self clock faults rest
            (Py.dict_set entity (nothing_to_append entity) results) fs
      end
  end.

Definition append_all (self : writer) (clock : string -> string)
    (faults : string -> fault)
    (staging_results : list (string * StagingEngine.stage_result))
    (fs : files) : all_outcome * files :=
  append_all_from self clock faults staging_results [] fs.

(** The entity has rows to append: a staged file and a valid count above
    zero. *)
Definition has_rows (sr : StagingEngine.stage_result) : bool :=
  match staged_file_of sr, StagingEngine.valid_count sr with
  | Some _, S _ => true
  | _, _ => false
  end.

End AppendWriter.

(** ** staging_engine.py: the staged file that [stage_entity] writes *)

Module StagedCsv.

(** The text that [csv.writer] writes for one value: nothing for [None],
    a string as it is, [str(v)] for any other value. *)
Definition cell_text (v : Py.pyval) : string :=
  match v with
  | Py.VNone => EmptyString
  | _ => Py.str v
  end.

(** Line 135, [{col: row.get(col, '') for col in csv_columns}], in the
    order in which [DictWriter] lays the cells out, that of [fieldnames]. *)
Definition output_cells (csv_columns : list string) (row : Validator.row)
  : list string :=
  (fun col => cell_text (default (Py.VStr EmptyString) (Py.dict_get col row)))
    <$> csv_columns.

(** Lines 131-136: [writeheader()], then one [writerow] per valid row. *)
Definition staged_content (csv_columns : list string)
    (valid_rows : list Validator.row) : string :=
  String.concat EmptyString
    (Csv.format_row <$> csv_columns :: (output_cells csv_columns <$> valid_rows)).

(** Lines 128-136 on the files: [staging_dir / f"{entity}.csv"] is
    opened for writing, an existing file is replaced. *)
Definition write_staged (staging_dir : string) (csv_columns : list string)
    (fs : gmap string string) (entity : string)
    (valid_rows : list Validator.row) : gmap string string :=
  <[staging_dir +:+ "/" +:+ entity +:+ ".csv"
    := staged_content csv_columns valid_rows]> fs.

End StagedCsv.

(** ** cds_parser.py: the body of an [@assert.unique] annotation *)

Module CdsUnique.

(** [s.split(sep)] for a separator of one character *)
Fixpoint split (sep : ascii) (s : string) : list string :=
  match s with
  | EmptyString => [EmptyString]
  | String c s' =>
      if Ascii.eqb c sep then EmptyString :: split sep s'
      else match split sep s' with
           | p :: ps => String c p :: ps
           | [] => [String c EmptyString]
           end
  end.

(** [s.split(sep, 1)] for [s] that contains [sep]: the text before the
    first [sep] and the text after it. *)
Fixpoint split_once (sep : ascii) (s : string) : string * string :=
  match s with
  | EmptyString => (EmptyString, EmptyString)
  | String c s' =>
      if Ascii.eqb c sep then (EmptyString, s')
      else let '(a, b) := split_once sep s' in (String c a, b)
  end.

(** [[p.strip() for p in s.split(',') if p.strip()]], lines 23 and 44 *)
Definition stripped_pieces (s : string) : list string :=
  List.filter (fun p => negb (String.eqb p EmptyString))
    (Py.strip <$> split ","%char s).

(** One iteration of the loop of lines 28-32 on [(buf, acc)]. *)
Definition rejoin_step (st : list string * string) (p : string)
  : list string * string :=
  let '(buf, acc) := st in
  let acc :=
    acc +:+ (if String.eqb acc EmptyString then EmptyString else ",") +:+ p in
  if Py.contains "]" p then (buf ++ [acc], EmptyString) else (buf, acc).

(** Lines 26-34: [buf] after the loop. *)
Definition rejoin (parts : list string) : list string :=
  let '(buf, acc) := foldl rejoin_step ([], EmptyString) parts in
  if String.eqb acc EmptyString then buf else buf ++ [acc].

(** The rest of a match of [(.*?)\]] from the start of [s]: the text before
    the first bracket that closes, which a line feed must not precede. *)
Fixpoint until_bracket (s : string) : option string :=
  match s with
  | EmptyString => None
  | String c s' =>
      if Ascii.eqb c "]"%char then Some EmptyString
      else if Ascii.eqb c Csv.LF then None
      else String c <$> until_bracket s'
  end.

(** [re.match(r"\[(.*?)\]", cols)]: [m.group(1)], [None] without a match *)
Definition match_columns (cols : string) : option string :=
  match cols with
  | String c rest => if Ascii.eqb c "["%char then until_bracket rest else None
  | EmptyString => None
  end.

(** Lines 36-45: the constraint of one pair, none when the pair is skipped. *)
Definition parse_pair (pair : string) : option CdsParser.unique_constraint :=
  if Py.contains ":" pair then
    let '(name, cols) := split_once ":"%char pair in
    match match_columns (Py.strip cols) with
    | Some group1 =>
        Some {| CdsParser.uc_name := Py.strip name;
                CdsParser.uc_columns := stripped_pieces group1 |}
    | None => None
    end
  else None.

(** [_parse_unique], lines 21-46 *)
Definition _parse_unique (body : string) : list CdsParser.unique_constraint :=
  omap parse_pair (rejoin (stripped_pieces body)).

(** A name as the annotations of the schema write it: not empty, without
    white space, comma, colon and closing bracket in it. *)
Definition plain (s : string) : Prop :=
  s ≠ EmptyString
  ∧ ∀ ch, ch ∈ list_ascii_of_string s →
          Py.is_space ch = false ∧ ch ∉ [","; ":"; "]"]%char.

End CdsUnique.

(** ** csv_introspect.py: the CSV files of the data directory *)

Module CsvIntrospect.

(** [s.split(c)[-1]]: what follows the last [c], all of [s] without one. *)
Definition last_piece (c : ascii) (s : list ascii) : list ascii :=
  reverse (AppendWriter.take_until c (reverse s)).

(** Lines 10-14: the entity that a file stands for. *)
Definition entity_of (p : string) : string :=
  let name := list_ascii_of_string (AppendWriter.path_stem p) in
  string_of_list_ascii
    (if existsb (Ascii.eqb "-"%char) name then last_piece "-"%char name
     else name).

(** [list_csv_headers], lines 6-25.  [listing] is
    [sorted(data_dir.glob('*.csv'))]; [None] is the exception of opening a
    file that is not there. *)
Definition list_csv_headers (listing : list string) (fs : gmap string string)
  : option (list (string * Schema.csv_info)) :=
  foldl (fun results p =>
           results ← results;
           content ← fs !! p;
           Some (Py.dict_set (entity_of p)
                   {| Schema.csv_file := Some p;
                      Schema.csv_columns :=
                        AppendWriter.first_record content |}
                   results))
    (Some []) listing.

End CsvIntrospect.

(** ** introspect_excel.py, and the data rows of a sheet *)

Module IntrospectExcel.

(** A worksheet as the code reads it through openpyxl: [header_row i] is
    [next(ws.iter_rows(min_row=i, max_row=i, values_only=True), None)], and
    [rows_from i] are the tuples that
    [ws.iter_rows(min_row=i, values_only=True)] yields. *)
Record worksheet := {
  header_row : nat -> option (list Py.pyval);
  rows_from : nat -> list (list Py.pyval)
}.

(** A workbook: [wb.sheetnames], and [wb[name]] by [Py.dict_get]. *)
Definition workbook := list (string * worksheet).

(** An entry of [result['sheets']]. *)
Record sheet_info := {
  name : string;
  headers : list string;
  raw_headers : list (list string)
}.

(** Line 50: [str(cell).strip() if cell is not None else ''] *)
Definition cell_text (cell : Py.pyval) : string :=
  match cell with
  | Py.VNone => EmptyString
  | _ => Py.strip (Py.str cell)
  end.

(** Lines 46-51: the header rows that are there and not empty tuples. *)
Definition read_raw_headers (ws : worksheet) (header_rows : nat)
  : list (list string) :=
  omap (fun row_idx =>
          match header_row ws row_idx with
          | Some (cell :: cells) => Some (cell_text <$> cell :: cells)
          | _ => None
          end) (seq 1 header_rows).

(** Line 57: [max(len(row) for row in raw_headers)], on a non-empty list *)
Definition max_cols (raw_headers : list (list string)) : nat :=
  foldr Nat.max 0 (length <$> raw_headers).

(** Lines 60-62: [while len(row) < max_cols: row.append('')] *)
Definition normalize (max_cols : nat) (row : list string) : list string :=
  row ++ replicate (max_cols - length row) EmptyString.

(** Lines 67-71: the non-empty stripped cells of a column, from the top
    header row down; [None] is the [IndexError] of
    [raw_headers[row_idx][col_idx]]. *)
Definition parts (raw_headers : list (list string)) (col_idx : nat)
  : option (list string) :=
  vals ← mapM (fun row : list string => row !! col_idx) raw_headers;
  Some (List.filter (fun val => negb (String.eqb val EmptyString))
          (Py.strip <$> vals)).

(** Lines 74-82 *)
Definition header_name (parts : list string) : string :=
  match parts with
  | [] => EmptyString
  | [p] => p
  | _ => String.concat " > " parts
  end.

(** Lines 86-87: [while headers and not headers[-1]: headers.pop()] *)
Fixpoint pop_from_end (reversed : list string) : list string :=
  match reversed with
  | h :: rest =>
      if String.eqb h EmptyString then pop_from_end rest else reversed
  | [] => []
  end.

Definition pop_empty (headers : list string) : list string :=
  reverse (pop_from_end (reverse headers)).

(** Lines 43-93, the body of the loop for one sheet: the entries it adds
    to [result['sheets']], none when the sheet has no header row. *)
Definition introspect_sheet (header_rows : nat) (sheet_name : string)
    (ws : worksheet) : option (list sheet_info) :=
  match read_raw_headers ws header_rows with
  | [] => Some []
  | raw =>
      let max_cols := max_cols raw in
      let raw := normalize max_cols <$> raw in
      headers ← mapM (fun col_idx => header_name <$> parts raw col_idx)
                  (seq 0 max_cols);
      Some [ {| name := sheet_name; headers := pop_empty headers;
                raw_headers := raw |} ]
  end.

(** [introspect_workbook], lines 9-96: [result['sheets']]; [None] is an
    exception ([KeyError] of [wb[sheet_name]], [IndexError]). *)
Definition introspect_workbook (wb : workbook) (header_rows : nat)
  : option (list sheet_info) :=
  sheets ← mapM (fun sheet_name =>
                   ws ← Py.dict_get sheet_name wb;
                   introspect_sheet header_rows sheet_name ws) wb.*1;
  Some (concat sheets).

(** staging_engine.py, lines 67-72: the dict of one data row. *)
Definition row_dict (headers : list string) (row_data : list Py.pyval)
  : Validator.row :=
  foldl (fun d (iv : nat * Py.pyval) =>
           match headers !! iv.1 with
           | Some h => Py.dict_set h iv.2 d
           | None => d
           end) [] (imap pair row_data).

(** [_read_excel_data], staging_engine.py lines 44-77 *)
Definition read_excel_data (wb : workbook) (sheet_name : string)
    (header_rows : nat) : option (list Validator.row) :=
  excel_info ← introspect_workbook wb header_rows;
  match List.find (fun s => String.eqb (name s) sheet_name) excel_info with
  | None => Some []
  | Some sheet_info =>
      ws ← Py.dict_get sheet_name wb;
      Some (row_dict (headers sheet_info)
              <$> List.filter (existsb Py.truthy)
                    (rows_from ws (header_rows + 1)))
  end.

End IntrospectExcel.

(** ** build_schema.py: the schema report *)

Module BuildSchema.

(** The entry of an entity in [schema.json]. *)
Record entity_report := {
  er_fields : list CdsParser.field;
  er_associations : list CdsParser.assoc;
  er_uniqueConstraints : list CdsParser.unique_constraint;
  er_notes : list string;
  er_csv : option Schema.csv_info;
  missingInCsv : list string;
  extraInCsv : list string;
  idField : option string;
  uuidRequired : bool
}.

(** The body of the loop of [compare_schema_to_csv], lines 13-33;
    [csv_info] is [csvs.get(ename, None)]. *)
Definition compare_entity (edef : CdsParser.entity_def)
    (csv_info : option Schema.csv_info) : entity_report :=
  let csv_columns :=
    match csv_info with
    | Some info => Schema.csv_columns info
    | None => []
    end in
  let schema_cols := CdsParser.field_name <$> CdsParser.fields edef in
  {| er_fields := CdsParser.fields edef;
     er_associations := CdsParser.associations edef;
     er_uniqueConstraints := CdsParser.uniqueConstraints edef;
     er_notes := CdsParser.notes edef;
     er_csv := csv_info;
     missingInCsv :=
       List.filter (fun c => negb (Py.in_list c csv_columns)) schema_cols;
     extraInCsv :=
       List.filter (fun c => negb (Py.in_list c schema_cols)) csv_columns;
     idField :=
       CdsParser.field_name
         <$> head (List.filter CdsParser.field_key (CdsParser.fields edef));
     uuidRequired :=
       existsb (fun f => CdsParser.field_key f
                         && Py.startswith (Py.upper (CdsParser.field_type f))
                              "UUID")
         (CdsParser.fields edef) |}.

(** [compare_schema_to_csv], lines 9-34 *)
Definition compare_schema_to_csv (entities : list (string * CdsParser.entity_def))
    (csvs : list (string * Schema.csv_info)) : list (string * entity_report) :=
  foldl (fun out e =>
           Py.dict_set e.1 (compare_entity e.2 (Py.dict_get e.1 csvs)) out)
    [] entities.

(** The entry as the pipeline reads it back from [schema.json]. *)
Definition entity_info_of (r : entity_report) : Schema.entity_info :=
  {| Schema.ei_fields := er_fields r;
     Schema.ei_uniqueConstraints := er_uniqueConstraints r;
     Schema.ei_csv := er_csv r |}.

Section iteration_order.
Variable enum : gset string -> list string.

(** [main], lines 50-51: [ingestionOrder]. *)
Definition ingestion_order (entities : list (string * CdsParser.entity_def))
  : option (list string) :=
  TopoSort.topo_sort enum (CdsParser.build_dependencies entities).

(** [main], lines 45-58: the report written to [schema.json], as the
    pipeline reads it. *)
Definition build_schema (enums : gmap string (list string))
    (entities : list (string * CdsParser.entity_def))
    (csvs : list (string * Schema.csv_info)) : option Schema.schema :=
  order ← ingestion_order entities;
  Some {| Schema.sch_enums := enums;
          Schema.sch_entities :=
            list_to_map
              (prod_map id entity_info_of
                 <$> compare_schema_to_csv entities csvs);
          Schema.sch_ingestionOrder := order |}.

End iteration_order.

End BuildSchema.

(** ** Concrete schemas and rows used by the examples *)

Module Samples.

(** The entity [ORDERS] has the UUID field [VENDOR_ID], an association to
    [CUSTOMERS] and an association to itself. *)
Definition c5_orders : CdsParser.entity_def :=
  {| CdsParser.fields :=
       [ {| CdsParser.field_name := "ID"; CdsParser.field_type := "UUID";
            CdsParser.field_key := true |};
         {| CdsParser.field_name := "VENDOR_ID"; CdsParser.field_type := "UUID";
            CdsParser.field_key := false |} ];
     CdsParser.associations :=
       [ {| CdsParser.assoc_name := "CUSTOMER";
            CdsParser.assoc_target := "CUSTOMERS" |};
         {| CdsParser.assoc_name := "PARENT";
            CdsParser.assoc_target := "ORDERS" |} ];
     CdsParser.uniqueConstraints := [];
     CdsParser.notes := [] |}.

(** An entity whose only declaration is the UUID field [VENDOR_ID]. *)
Definition c5_lonely : CdsParser.entity_def :=
  {| CdsParser.fields :=
       [ {| CdsParser.field_name := "VENDOR_ID"; CdsParser.field_type := "UUID";
            CdsParser.field_key := false |} ];
     CdsParser.associations := [];
     CdsParser.uniqueConstraints := [];
     CdsParser.notes := [] |}.

(** A store with one persisted vendor. *)
Definition vendors_info : Schema.entity_info :=
  {| Schema.ei_fields := [];
     Schema.ei_uniqueConstraints := [];
     Schema.ei_csv :=
       Some {| Schema.csv_file := Some "data/CCTECH.DRS.ENTITIES-VENDORS.csv";
               Schema.csv_columns := ["ID"; "CODE"; "NAME"] |} |}.

Definition vendors_store : FkResolver.stores :=
  {| FkResolver.schema :=
       {| Schema.sch_enums := ∅;
          Schema.sch_entities := {[ "VENDORS" := vendors_info ]};
          Schema.sch_ingestionOrder := ["VENDORS"] |};
     FkResolver.data_rows := fun entity =>
       if String.eqb entity "VENDORS"
       then Some [ [("ID", "v-1"); ("CODE", "V001"); ("NAME", "Acme")] ]
       else None;
     FkResolver.staging_rows := None |}.

Definition rule_code : FkResolver.match_field :=
  {| FkResolver.mf_field := Some "CODE";
     FkResolver.mf_from := Some "Vendor Code" |}.

Definition rule_name : FkResolver.match_field :=
  {| FkResolver.mf_field := Some "NAME";
     FkResolver.mf_from := Some "Vendor Name" |}.

(** A source row with a vendor code and a blank vendor name. *)
Definition row_code_only : FkResolver.excel_row :=
  [("Vendor Code", Py.VStr "V001"); ("Vendor Name", Py.VNone)].

Definition vendor_lookup : FkResolver.lookup_def :=
  {| FkResolver.ld_entity := Some "VENDORS";
     FkResolver.ld_match := [rule_code];
     FkResolver.ld_optional := false |}.

(** The same lookup without its [entity] key. *)
Definition vendor_lookup_no_entity : FkResolver.lookup_def :=
  {| FkResolver.ld_entity := None;
     FkResolver.ld_match := [rule_code];
     FkResolver.ld_optional := false |}.

(** Source rows that carry a value in the foreign key's own column. *)
Definition row_with_id (v : Py.pyval) : FkResolver.excel_row :=
  [("VENDOR_ID", v); ("Vendor Code", Py.VStr "V001")].

(** A library whose parsers reject every text. *)
Definition strict_library : Validator.library :=
  {| Validator.int_of_str := fun _ => inl "invalid literal for int()";
     Validator.float_of_str := fun _ => inl "could not convert string to float";
     Validator.float_of_int := fun z =>
       {| Py.float_str := Py.str_of_Z z +:+ ".0"; Py.float_int := z;
          Py.float_nonzero := negb (z =? 0)%Z |};
     Validator.fromisoformat := fun _ => None;
     Validator.strptime := fun _ _ => None |}.

(** The master entity CLUSTERS with one persisted row, and a sheet that
    maps the spreadsheet column [Cluster] to [NAME]. *)
Definition clusters_path : string := "data/CCTECH.DRS.ENTITIES-CLUSTERS.csv".

Definition clusters_info : Schema.entity_info :=
  {| Schema.ei_fields :=
       [ {| CdsParser.field_name := "ID"; CdsParser.field_type := "UUID";
            CdsParser.field_key := true |};
         {| CdsParser.field_name := "NAME";
            CdsParser.field_type := "String(100)";
            CdsParser.field_key := false |} ];
     Schema.ei_uniqueConstraints := [];
     Schema.ei_csv :=
       Some {| Schema.csv_file := Some clusters_path;
               Schema.csv_columns := ["ID"; "NAME"] |} |}.

Definition clusters_persisted : list FkResolver.csv_row :=
  [ [("ID", "11111111-1111-4111-8111-111111111111"); ("NAME", "North")] ].

Definition clusters_env : Transformer.env :=
  {| Transformer.stores :=
       {| FkResolver.schema :=
            {| Schema.sch_enums := ∅;
               Schema.sch_entities := {[ "CLUSTERS" := clusters_info ]};
               Schema.sch_ingestionOrder := ["CLUSTERS"] |};
          FkResolver.data_rows := fun entity =>
            if String.eqb entity "CLUSTERS" then Some clusters_persisted
            else None;
          FkResolver.staging_rows := None |};
     Transformer.lib := strict_library;
     Transformer.uuid4 := fun _ => "00000000-0000-4000-8000-000000000000";
     Transformer.existing_csv := fun path =>
       if String.eqb path clusters_path then Some clusters_persisted else None |}.

Definition clusters_sheet : Mapping.sheet_config :=
  {| Mapping.entity := Some "CLUSTERS";
     Mapping.sheet := Some "Projects";
     Mapping.csvFile := Some clusters_path;
     Mapping.columnMap := [("Cluster", "NAME")];
     Mapping.defaults := [];
     Mapping.id_column := "ID";
     Mapping.uuidPolicy := "generate_if_blank";
     Mapping.lookups := [] |}.

(** Two spreadsheet rows, both naming the persisted cluster. *)
Definition clusters_rows : list Validator.row :=
  [ [("Cluster", Py.VStr "north")]; [("Cluster", Py.VStr " NORTH ")] ].

Definition fresh_state : Transformer.state :=
  {| Transformer.fk_resolver := FkResolver.new_resolver;
     Transformer.uuids_drawn := 0 |}.

(** A dependency map with the cycle [B]-[C] and the entity [A], which
    depends on [B] and on which nothing depends. *)
Definition deps_behind_cycle : list (string * list string) :=
  [("A", ["B"]); ("B", ["C"]); ("C", ["B"])].

(** The master entities of the pipeline and a cycle [X]-[Y]. *)
Definition deps_sample : list (string * list string) :=
  [("LOCATIONS", ["CLUSTERS"]); ("PROJECTS", ["SPVS"; "LOCATIONS"]);
   ("SPVS", []); ("CLUSTERS", []); ("X", ["Y"]); ("Y", ["X"])].

(** Iteration of a set in the reverse of the order of [elements]. *)
Definition reverse_enum (X : gset string) : list string := reverse (elements X).

(** A toy surrounding for the staging engine: the world counts the
    transformers created for retry passes, and each new transformer resolves
    one more foreign key of the three service orders. *)
Definition so_sheet : Mapping.sheet_config :=
  {| Mapping.entity := Some "SERVICEORDERS";
     Mapping.sheet := Some "Orders";
     Mapping.csvFile := Some "data/CCTECH.DRS.ENTITIES-SERVICEORDERS.csv";
     Mapping.columnMap := [("SO", "SO_NUMBER")];
     Mapping.defaults := [];
     Mapping.id_column := "ID";
     Mapping.uuidPolicy := "generate_if_blank";
     Mapping.lookups := [("VENDOR_ID", vendor_lookup)] |}.

Definition so_row (i : nat) : Validator.row :=
  [("SO", Py.VInt (Z.of_nat i)); ("Vendor Code", Py.VStr "V001")].

Definition fk_error (i : nat) : Transformer.error_record :=
  {| Transformer.row_num := i;
     Transformer.excel_row := so_row i;
     Transformer.errors := ["Could not resolve FK 'VENDOR_ID'"] |}.

Definition toy_read_excel (rows : nat) (w : nat) (sheet_name : string)
  : StagingEngine.attempt (list Validator.row) :=
  StagingEngine.Ok (so_row <$> seq 1 rows).

Definition toy_transform (resolving step : nat) (w : nat) (entity : string)
    (sheet_config : Mapping.sheet_config) (excel_rows : list Validator.row)
  : StagingEngine.attempt
      ((list Validator.row * list Transformer.error_record) * nat) :=
  let resolved := Nat.min (length excel_rows) (step * Nat.min w resolving) in
  StagingEngine.Ok
    ((take resolved excel_rows,
      fk_error <$> seq (S resolved) (length excel_rows - resolved)), w).

Definition toy_write (w : nat) (entity : string) (rows : list Validator.row)
  : StagingEngine.attempt nat := StagingEngine.Ok w.

(** The run of the toy engine on [rows] service orders: the error counts of
    the final results and the log as (pass, before, after). *)
Definition toy_run (rows resolving step : nat)
  : option (list nat * list (nat * nat * nat)) :=
  match StagingEngine.stage_all_traced nat (toy_read_excel rows)
          (toy_transform resolving step) toy_write S "staging" [so_sheet]
          ["VENDORS"; "SERVICEORDERS"] 0 with
  | StagingEngine.Returned (final, _, (_, log)) =>
      Some (StagingEngine.error_count <$> final.*2,
            (fun p => (StagingEngine.pass_no p, StagingEngine.errors_before p,
                       StagingEngine.errors_after p)) <$> log)
  | _ => None
  end.

(** A persisted file whose last line has no line ending, the same file
    with it, and a staged file with one row and an extra column. *)
Definition crlf : string := String Csv.CR (String Csv.LF EmptyString).

Definition target_path : string := "data/CCTECH.DRS.ENTITIES-CLUSTERS.csv".
Definition staged_path : string := "staging/CLUSTERS.csv".

Definition target_unterminated : string :=
  "ID,NAME" +:+ crlf +:+ "c-1,North".

Definition target_terminated : string :=
  "ID,NAME" +:+ crlf +:+ "c-1,North" +:+ crlf.

Definition staged_one_row : string :=
  "NAME,REGION,ID" +:+ crlf +:+ "South,R2,c-2" +:+ crlf.

(** A staged file with a blank line between its header and its row. *)
Definition staged_blank_line : string :=
  "NAME,REGION,ID" +:+ crlf +:+ crlf +:+ "South,R2,c-2" +:+ crlf.

(** A staged file with two rows, the second one short. *)
Definition staged_two_rows : string :=
  "NAME,REGION,ID" +:+ crlf +:+ "South,R2,c-2" +:+ crlf +:+ "East" +:+ crlf.

Definition the_writer : AppendWriter.writer :=
  {| AppendWriter.data_dir := "data";
     AppendWriter.staging_dir := "staging";
     AppendWriter.backup_dir := "backups" |}.

Definition files_with (target : string) : gmap string string :=
  {[ target_path := target; staged_path := staged_one_row ]}.

(** The target file after [append_entity] on the two files. *)
Definition target_after (flt : AppendWriter.fault) (target : string)
  : option string :=
  (AppendWriter.append_entity the_writer "20251103_120000" flt
     (files_with target) "CLUSTERS" target_path staged_path).2 !! target_path.

(** A spreadsheet row naming a cluster that is not persisted, the row
    that [transform_row] makes of it, and the state after one UUID. *)
Definition south_row : Validator.row := [("Cluster", Py.VStr " South ")].

Definition south_out : Validator.row :=
  [("ID", Py.VStr "00000000-0000-4000-8000-000000000000");
   ("NAME", Py.VStr "South")].

Definition one_drawn : Transformer.state :=
  {| Transformer.fk_resolver := FkResolver.new_resolver;
     Transformer.uuids_drawn := 1 |}.

(** Four rows of the cluster sheet: a new cluster, the persisted one, the
    new one again in other letters, and a row without a cluster. *)
Definition cluster_batch : list Validator.row :=
  [ south_row; [("Cluster", Py.VStr "north")]; [("Cluster", Py.VStr "SOUTH")];
    [("Cluster", Py.VNone)] ].

(** The transactional entity SERVICEORDERS: its number is unique, its
    vendor is looked up by code among the persisted vendors. *)
Definition orders_path : string := "data/CCTECH.DRS.ENTITIES-SERVICEORDERS.csv".

Definition orders_info : Schema.entity_info :=
  {| Schema.ei_fields :=
       [ {| CdsParser.field_name := "ID"; CdsParser.field_type := "UUID";
            CdsParser.field_key := true |};
         {| CdsParser.field_name := "SO_NUMBER";
            CdsParser.field_type := "String(20)";
            CdsParser.field_key := false |};
         {| CdsParser.field_name := "VENDOR_ID"; CdsParser.field_type := "UUID";
            CdsParser.field_key := false |} ];
     Schema.ei_uniqueConstraints :=
       [ {| CdsParser.uc_name := "unique_so";
            CdsParser.uc_columns := ["SO_NUMBER"] |} ];
     Schema.ei_csv :=
       Some {| Schema.csv_file := Some orders_path;
               Schema.csv_columns := ["ID"; "SO_NUMBER"; "VENDOR_ID"] |} |}.

Definition orders_env : Transformer.env :=
  {| Transformer.stores :=
       {| FkResolver.schema :=
            {| Schema.sch_enums := ∅;
               Schema.sch_entities :=
                 {[ "VENDORS" := vendors_info; "SERVICEORDERS" := orders_info ]};
               Schema.sch_ingestionOrder := ["VENDORS"; "SERVICEORDERS"] |};
          FkResolver.data_rows := fun entity =>
            if String.eqb entity "VENDORS"
            then Some [ [("ID", "11111111-2222-4333-8444-555555555555");
                         ("CODE", "V001"); ("NAME", "Acme")] ]
            else None;
          FkResolver.staging_rows := None |};
     Transformer.lib := strict_library;
     Transformer.uuid4 := fun _ => "00000000-0000-4000-8000-000000000000";
     Transformer.existing_csv := fun _ => None |}.

(** Four service orders: the first, the first again, one whose vendor is
    unknown, and another good one; the rows staged and the records filed
    for them. *)
Definition order_batch : list Validator.row :=
  [ [("SO", Py.VInt 4501); ("Vendor Code", Py.VStr "V001")];
    [("SO", Py.VInt 4501); ("Vendor Code", Py.VStr "V001")];
    [("SO", Py.VInt 4502); ("Vendor Code", Py.VStr "V999")];
    [("SO", Py.VInt 4503); ("Vendor Code", Py.VStr "v001 ")] ].

Definition order_out (so_number : string) : Validator.row :=
  [("ID", Py.VStr "00000000-0000-4000-8000-000000000000");
   ("SO_NUMBER", Py.VStr so_number);
   ("VENDOR_ID", Py.VStr "11111111-2222-4333-8444-555555555555")].

Definition order_valid : list Validator.row :=
  [order_out "4501"; order_out "4503"].

Definition order_errors : list Transformer.error_record :=
  [ Transformer.skipped_record 2
      [("SO", Py.VInt 4501); ("Vendor Code", Py.VStr "V001")];
    {| Transformer.row_num := 3;
       Transformer.excel_row :=
         [("SO", Py.VInt 4502); ("Vendor Code", Py.VStr "V999")];
       Transformer.errors := ["Could not resolve FK 'VENDOR_ID'"] |} ].

(** Staging results: one staged row for CLUSTERS, nothing for SPVS. *)
Definition cluster_staging : list (string * StagingEngine.stage_result) :=
  [ ("CLUSTERS", StagingEngine.Staged "CLUSTERS" "Projects" 1 (Some staged_path) []);
    ("SPVS", StagingEngine.NotStaged "SPVS" "No data rows found in Excel") ].

(** The schema that [build_schema] writes for a repository whose only
    entity, ORDERS, has no CSV file in the data directory. *)
Definition unfiled_info : Schema.entity_info :=
  {| Schema.ei_fields := CdsParser.fields c5_orders;
     Schema.ei_uniqueConstraints := [];
     Schema.ei_csv := None |}.

Definition unfiled_env : Transformer.env :=
  {| Transformer.stores :=
       {| FkResolver.schema :=
            {| Schema.sch_enums := ∅;
               Schema.sch_entities := {[ "ORDERS" := unfiled_info ]};
               Schema.sch_ingestionOrder := ["CUSTOMERS"; "ORDERS"] |};
          FkResolver.data_rows := fun _ => None;
          FkResolver.staging_rows := None |};
     Transformer.lib := strict_library;
     Transformer.uuid4 := fun _ => "00000000-0000-4000-8000-000000000000";
     Transformer.existing_csv := fun _ => None |}.

(** A sheet with three header rows (the second one is short, the third
    row is missing cells), a blank column between the headers and two blank
    columns at the right end; then four data rows: one in full, one of
    zeros and empty cells only, one wider than the headers, one short. *)
Definition projects_sheet : IntrospectExcel.worksheet :=
  {| IntrospectExcel.header_row := fun i =>
       match i with
       | 1 => Some [Py.VStr "Cluster"; Py.VNone; Py.VStr " Vendor ";
                    Py.VStr "Vendor"; Py.VNone; Py.VStr "  "]
       | 2 => Some [Py.VNone; Py.VNone; Py.VStr "Code"]
       | 3 => Some [Py.VNone; Py.VNone; Py.VNone; Py.VStr "Name"; Py.VNone;
                    Py.VNone]
       | _ => None
       end;
     IntrospectExcel.rows_from := fun i =>
       match i with
       | 4 => [ [Py.VStr "North"; Py.VInt 7; Py.VStr "V001"; Py.VStr "Acme"];
                [Py.VInt 0; Py.VStr EmptyString; Py.VNone; Py.VBool false];
                [Py.VStr "South"; Py.VNone; Py.VStr "V002"; Py.VNone;
                 Py.VStr "beyond"; Py.VInt 1];
                [Py.VNone; Py.VInt 3] ]
       | _ => []
       end |}.

(** A sheet of the mapping for the entity ORDERS. *)
Definition unfiled_sheet : Mapping.sheet_config :=
  {| Mapping.entity := Some "ORDERS";
     Mapping.sheet := Some "Orders";
     Mapping.csvFile := Some "data/CCTECH.DRS.ENTITIES-ORDERS.csv";
     Mapping.columnMap := [("Order", "ID")];
     Mapping.defaults := [];
     Mapping.id_column := "ID";
     Mapping.uuidPolicy := "preserve";
     Mapping.lookups := [] |}.

(** The engine around the transformer of [unfiled_env], whose schema
    declares ORDERS without a CSV file: one row is read from the sheet, and
    [transform_entity] is the transformer's own, its exception included. *)
Definition unfiled_read (w : Transformer.state) (sheet_name : string)
  : StagingEngine.attempt (list Validator.row) :=
  StagingEngine.Ok [[("Order", Py.VStr "4501")]].

Definition unfiled_transform (w : Transformer.state) (entity : string)
    (sheet_config : Mapping.sheet_config) (excel_rows : list Validator.row)
  : StagingEngine.attempt
      ((list Validator.row * list Transformer.error_record)
       * Transformer.state) :=
  match Transformer.transform_entity unfiled_env w entity sheet_config
          excel_rows with
  | Some (w', out) => StagingEngine.Ok (out, w')
  | None => StagingEngine.Exc "AttributeError"
  end.

Definition unfiled_write (w : Transformer.state) (entity : string)
    (rows : list Validator.row) : StagingEngine.attempt Transformer.state :=
  StagingEngine.Ok w.

(** The master entity PROJECTS, whose natural key is NAME, TYPE and
    CATEGORY, over a persisted file with the given rows; [uuid] is the UUID
    that a run draws. *)
Definition projects_path : string := "data/CCTECH.DRS.ENTITIES-PROJECTS.csv".

Definition projects_info : Schema.entity_info :=
  {| Schema.ei_fields :=
       [ {| CdsParser.field_name := "ID"; CdsParser.field_type := "UUID";
            CdsParser.field_key := true |};
         {| CdsParser.field_name := "NAME";
            CdsParser.field_type := "String(100)";
            CdsParser.field_key := false |};
         {| CdsParser.field_name := "TYPE";
            CdsParser.field_type := "String(50)";
            CdsParser.field_key := false |};
         {| CdsParser.field_name := "CATEGORY";
            CdsParser.field_type := "String(50)";
            CdsParser.field_key := false |} ];
     Schema.ei_uniqueConstraints := [];
     Schema.ei_csv :=
       Some {| Schema.csv_file := Some projects_path;
               Schema.csv_columns := ["ID"; "NAME"; "TYPE"; "CATEGORY"] |} |}.

Definition projects_env (persisted : list FkResolver.csv_row) (uuid : string)
  : Transformer.env :=
  {| Transformer.stores :=
       {| FkResolver.schema :=
            {| Schema.sch_enums := ∅;
               Schema.sch_entities := {[ "PROJECTS" := projects_info ]};
               Schema.sch_ingestionOrder := ["PROJECTS"] |};
          FkResolver.data_rows := fun entity =>
            if String.eqb entity "PROJECTS" then Some persisted else None;
          FkResolver.staging_rows := None |};
     Transformer.lib := strict_library;
     Transformer.uuid4 := fun _ => uuid;
     Transformer.existing_csv := fun path =>
       if String.eqb path projects_path then Some persisted else None |}.

Definition projects_mapping : Mapping.sheet_config :=
  {| Mapping.entity := Some "PROJECTS";
     Mapping.sheet := Some "Projects";
     Mapping.csvFile := Some projects_path;
     Mapping.columnMap :=
       [("Project", "NAME"); ("Project Type", "TYPE");
        ("Project Category", "CATEGORY")];
     Mapping.defaults := [];
     Mapping.id_column := "ID";
     Mapping.uuidPolicy := "generate_if_blank";
     Mapping.lookups := [] |}.

(** The spreadsheet: one project, its type and category left blank; and a
    second spreadsheet whose project has both. *)
Definition alpha_sheet_rows : list Validator.row :=
  [ [("Project", Py.VStr "Alpha"); ("Project Type", Py.VNone);
     ("Project Category", Py.VNone)] ].

Definition beta_sheet_rows : list Validator.row :=
  [ [("Project", Py.VStr "Beta"); ("Project Type", Py.VStr "Solar");
     ("Project Category", Py.VStr "A")] ].

Definition first_uuid : string := "00000000-0000-4000-8000-000000000001".
Definition second_uuid : string := "00000000-0000-4000-8000-000000000002".

(** The row that the first run stages for the project Alpha, and the record
    that the persisted file holds for it once the row is appended. *)
Definition alpha_staged (uuid : string) : Validator.row :=
  [("ID", Py.VStr uuid); ("NAME", Py.VStr "Alpha"); ("TYPE", Py.VNone);
   ("CATEGORY", Py.VNone)].

Definition alpha_persisted : FkResolver.csv_row :=
  [("ID", first_uuid); ("NAME", "Alpha"); ("TYPE", EmptyString);
   ("CATEGORY", EmptyString)].

Definition beta_persisted : FkResolver.csv_row :=
  [("ID", first_uuid); ("NAME", "Beta"); ("TYPE", "Solar");
   ("CATEGORY", "A")].

End Samples.
(** * Properties *)

Example strip_ex : Py.strip "  ab c  " = "ab c".
Proof. reflexivity. Qed.

Example str_ex : Py.str (Py.VInt (-1230)) = "-1230" /\ Py.str (Py.VInt 7) = "7".
Proof. split; reflexivity. Qed.

Example upper_ex : Py.upper "Site-1 a_z" = "SITE-1 A_Z".
Proof. reflexivity. Qed.


(** ** Insertion-ordered dicts *)

Section dict_facts.
Context {V : Type}.
Implicit Types (k : string) (v : V) (d : list (string * V)).

Lemma dict_get_set_eq k v d : Py.dict_get k (Py.dict_set k v d) = Some v.
Proof.
  induction d as [|[k' v'] d IH]; simpl.
  - by rewrite String.eqb_refl.
  - destruct (String.eqb k' k) eqn:E; simpl.
    + by rewrite String.eqb_refl.
    + by rewrite E.
Qed.

Lemma dict_get_set_ne k k' v d :
  k ≠ k' → Py.dict_get k' (Py.dict_set k v d) = Py.dict_get k' d.
Proof.
  intros Hne. induction d as [|[k0 v0] d IH]; simpl.
  - by apply String.eqb_neq in Hne as ->.
  - destruct (String.eqb k0 k) eqn:E; simpl.
    + apply String.eqb_eq in E as ->.
      by apply String.eqb_neq in Hne as ->.
    + by rewrite IH.
Qed.

Lemma dict_get_Some_elem k v d : Py.dict_get k d = Some v → (k, v) ∈ d.
Proof.
  induction d as [|[k0 v0] d IH]; simpl; [done|].
  destruct (String.eqb k0 k) eqn:E.
  - apply String.eqb_eq in E as ->. intros [= ->]. left.
  - intros ?. right. auto.
Qed.

Lemma dict_get_None k d : Py.dict_get k d = None ↔ k ∉ d.*1.
Proof.
  induction d as [|[k0 v0] d IH]; simpl.
  - split; [intros _; apply not_elem_of_nil | done].
  - destruct (String.eqb k0 k) eqn:E.
    + apply String.eqb_eq in E as ->. split; [done|]. intros []. left.
    + apply String.eqb_neq in E. rewrite IH, not_elem_of_cons.
      split; [intros ?; split; [congruence|done] | by intros [_ ?]].
Qed.

Lemma dict_get_NoDup k v d :
  NoDup d.*1 → (k, v) ∈ d → Py.dict_get k d = Some v.
Proof.
  induction d as [|[k0 v0] d IH]; simpl; intros Hnd Hin.
  - by apply elem_of_nil in Hin.
  - apply NoDup_cons in Hnd as [Hk0 Hnd].
    apply elem_of_cons in Hin as [[= <- <-]|Hin].
    + by rewrite String.eqb_refl.
    + destruct (String.eqb k0 k) eqn:E; [|by apply IH].
      apply String.eqb_eq in E as ->.
      destruct Hk0. apply list_elem_of_fmap. by exists (k, v).
Qed.

(** Filling a dict from a list of items: keys not among the items keep their
    entry, and with distinct keys every item is found under its key. *)
Lemma dict_get_fill_other {E} (key : E → string) (val : E → V) (l : list E) d k :
  k ∉ key <$> l →
  Py.dict_get k (foldl (fun d x => Py.dict_set (key x) (val x) d) d l)
  = Py.dict_get k d.
Proof.
  revert d. induction l as [|x l IH]; intros d Hk; simpl; [done|].
  rewrite fmap_cons in Hk. apply not_elem_of_cons in Hk as [Hne Hk].
  rewrite IH by done. by apply dict_get_set_ne.
Qed.

Lemma dict_get_fill {E} (key : E → string) (val : E → V) (l : list E) d e :
  NoDup (key <$> l) → e ∈ l →
  Py.dict_get (key e)
    (foldl (fun d x => Py.dict_set (key x) (val x) d) d l) = Some (val e).
Proof.
  revert d. induction l as [|x l IH]; intros d Hnd Hin; simpl in *.
  - by apply elem_of_nil in Hin.
  - apply NoDup_cons in Hnd as [Hx Hnd].
    apply elem_of_cons in Hin as [->|Hin]; [|by apply IH].
    rewrite dict_get_fill_other by done. apply dict_get_set_eq.
Qed.

End dict_facts.

(** ** Duplicate policy (policy.py) *)

Lemma policy_effective_binding :
  Policy.exec_defs Policy.module_defs !! "get_duplicate_policy"
  = Some Policy.get_duplicate_policy_def2.
Proof.
  unfold Policy.exec_defs, Policy.module_defs. simpl.
  apply lookup_insert_eq.
Qed.

Lemma get_duplicate_policy_is_def2 entity :
  Policy.get_duplicate_policy entity = Policy.get_duplicate_policy_def2 entity.
Proof.
  unfold Policy.get_duplicate_policy. by rewrite policy_effective_binding.
Qed.

(** The shadowed first definition would answer ['error'] for the same name. *)
Example policy_def1_unknown :
  Policy.get_duplicate_policy_def1 "WIDGETS" = "error".
Proof. vm_compute. reflexivity. Qed.

(** C10.  For every entity name that is not a key of [DUPLICATE_POLICY],
    [get_duplicate_policy] returns ['skip'] and not ['error']: the name is
    bound to the second definition of the module, whose default is ['skip']. *)
Theorem C10_default_policy_is_skip (entity : string) :
  Policy.DUPLICATE_POLICY !! entity = None →
  Policy.exec_defs Policy.module_defs !! "get_duplicate_policy"
    = Some Policy.get_duplicate_policy_def2
  ∧ Policy.get_duplicate_policy entity = "skip"
  ∧ Policy.get_duplicate_policy entity ≠ "error".
Proof.
  intros Hnone. split; [apply policy_effective_binding|].
  rewrite get_duplicate_policy_is_def2.
  unfold Policy.get_duplicate_policy_def2. rewrite Hnone. simpl.
  split; [done|discriminate].
Qed.

Lemma C10_default_policy_is_skip_witness :
  Policy.DUPLICATE_POLICY !! "WIDGETS" = None
  ∧ Policy.get_duplicate_policy "WIDGETS" = "skip".
Proof.
  assert (H : Policy.DUPLICATE_POLICY !! "WIDGETS" = None)
    by (vm_compute; reflexivity).
  split; [exact H|].
  exact (proj1 (proj2 (C10_default_policy_is_skip "WIDGETS" H))).
Defined.

(** ** Dependency map (cds_parser.build_dependencies) *)

Section build_dependencies_facts.
Import CdsParser.

Lemma add_target_elem ename targets t B :
  B ∈ add_target ename targets t
  ↔ B ∈ targets ∨ (B = t ∧ t ≠ EmptyString ∧ t ≠ ename).
Proof.
  unfold add_target, Py.in_list.
  destruct (String.eqb_spec t EmptyString) as [->|Hne]; simpl.
  { split; [auto|]. intros [?|(_ & ? & _)]; done. }
  destruct (String.eqb_spec t ename) as [->|Hne']; simpl.
  { split; [auto|]. intros [?|(_ & _ & ?)]; done. }
  case_bool_decide as Hin; simpl.
  - split; [auto|]. intros [?|(-> & _)]; done.
  - rewrite elem_of_app, list_elem_of_singleton. naive_solver.
Qed.

Lemma foldl_add_target_elem ename ts acc B :
  B ∈ foldl (add_target ename) acc ts
  ↔ B ∈ acc ∨ (B ∈ ts ∧ B ≠ EmptyString ∧ B ≠ ename).
Proof.
  revert acc. induction ts as [|t ts IH]; intros acc; simpl.
  - split; [auto|]. intros [?|[Hin _]]; [done|]. by apply elem_of_nil in Hin.
  - rewrite IH, add_target_elem, elem_of_cons. naive_solver.
Qed.

Lemma find_assoc_Some base assocs m :
  find_assoc base assocs = Some m →
  ∃ a, a ∈ assocs ∧ assoc_name a = base ∧ assoc_target a = m.
Proof.
  induction assocs as [|a assocs IH]; simpl; [done|].
  destruct (String.eqb_spec (assoc_name a) base) as [Heq|_].
  - intros [= <-]. exists a. split; [left|done].
  - intros (a' & ? & ?)%IH. exists a'. split; [by right|done].
Qed.

(** Once the association targets are in [targets], the [*_ID] heuristic
    changes nothing: the only entity it can add is an association target. *)
Lemma id_field_step_fixed ename assocs targets f :
  (∀ a, a ∈ assocs → assoc_target a ≠ EmptyString →
        assoc_target a ≠ ename → assoc_target a ∈ targets) →
  id_field_step ename assocs targets f = targets.
Proof.
  intros Hall. unfold id_field_step.
  destruct (is_uuid_id_field f); [|done].
  destruct (find_assoc _ assocs) as [m|] eqn:Hfind; [|done].
  apply find_assoc_Some in Hfind as (a & Ha & _ & <-).
  unfold add_target, Py.in_list.
  destruct (String.eqb_spec (assoc_target a) EmptyString); [done|].
  destruct (String.eqb_spec (assoc_target a) ename); [done|].
  rewrite bool_decide_eq_true_2; [done|]. by apply Hall.
Qed.

Lemma entity_targets_assocs ename edef :
  entity_targets ename edef
  = foldl (add_target ename) [] (assoc_target <$> associations edef).
Proof.
  unfold entity_targets.
  set (targets := foldl (add_target ename) [] _).
  assert (Hall : ∀ a, a ∈ associations edef → assoc_target a ≠ EmptyString →
            assoc_target a ≠ ename → assoc_target a ∈ targets).
  { intros a Ha H1 H2. apply foldl_add_target_elem. right.
    split; [|done]. apply list_elem_of_fmap. by exists a. }
  induction (fields edef) as [|f fs IH]; simpl; [done|].
  by rewrite id_field_step_fixed.
Qed.

Lemma build_dependencies_lookup ents A edef :
  NoDup ents.*1 → (A, edef) ∈ ents →
  Py.dict_get A (build_dependencies ents) = Some (entity_targets A edef).
Proof.
  intros Hnd Hin.
  exact (dict_get_fill fst (fun e => entity_targets e.1 e.2) ents [] (A, edef)
           Hnd Hin).
Qed.

End build_dependencies_facts.

(** C5, as the code has it.  The dependency map gives every entity [A] of
    the schema a target list, and [B] is in it exactly when [A] declares an
    association with the non-empty target [B] and [B] is not [A] itself.  A
    field [<X>_ID] of UUID type adds an edge only through an association
    named [X] of the same entity, which is an association target already. *)
Theorem C5_edges_are_association_targets
    (ents : list (string * CdsParser.entity_def)) (A : string)
    (edef : CdsParser.entity_def) :
  NoDup ents.*1 → (A, edef) ∈ ents →
  ∃ targets,
    Py.dict_get A (CdsParser.build_dependencies ents) = Some targets
    ∧ ∀ B, B ∈ targets
           ↔ (∃ a, a ∈ CdsParser.associations edef
                   ∧ CdsParser.assoc_target a = B)
             ∧ B ≠ EmptyString ∧ B ≠ A.
Proof.
  intros Hnd Hin. exists (CdsParser.entity_targets A edef).
  split; [by apply build_dependencies_lookup|].
  intros B. rewrite entity_targets_assocs, foldl_add_target_elem.
  rewrite list_elem_of_fmap. split.
  - intros [Hnil|[(a & -> & Ha) [? ?]]]; [by apply elem_of_nil in Hnil|].
    split; [by exists a|done].
  - intros [(a & Ha & <-) [? ?]]. right. split; [by exists a|done].
Qed.

Lemma C5_edges_are_association_targets_witness :
  ∃ targets,
    Py.dict_get "ORDERS" (CdsParser.build_dependencies [("ORDERS", Samples.c5_orders)])
      = Some targets
    ∧ ∀ B, B ∈ targets
           ↔ (∃ a, a ∈ CdsParser.associations Samples.c5_orders
                   ∧ CdsParser.assoc_target a = B)
             ∧ B ≠ EmptyString ∧ B ≠ "ORDERS".
Proof.
  apply (C5_edges_are_association_targets [("ORDERS", Samples.c5_orders)]).
  - simpl. apply NoDup_singleton.
  - left.
Defined.

(** C5 as stated fails: an entity whose only declaration is a field
    [VENDOR_ID] of UUID type (not self-referential) gets no edge at all. *)
Lemma C5_counterexample :
  (∃ f, f ∈ CdsParser.fields Samples.c5_lonely ∧ CdsParser.is_uuid_id_field f = true
        ∧ Py.drop_last 3 (CdsParser.field_name f) = "VENDOR"
        ∧ Py.drop_last 3 (CdsParser.field_name f) ≠ "ORDERS")
  ∧ CdsParser.build_dependencies
      [("VENDOR", Samples.c5_lonely); ("VENDORS", Samples.c5_lonely); ("ORDERS", Samples.c5_lonely)]
    = [("VENDOR", []); ("VENDORS", []); ("ORDERS", [])]
  ∧ ¬ ∃ B, B ∈ default []
        (Py.dict_get "ORDERS"
           (CdsParser.build_dependencies
              [("VENDOR", Samples.c5_lonely); ("VENDORS", Samples.c5_lonely);
               ("ORDERS", Samples.c5_lonely)])).
Proof.
  split; [|split].
  - eexists. split; [left|]. split; [vm_compute; reflexivity|].
    split; [vm_compute; reflexivity|]. vm_compute. discriminate.
  - vm_compute. reflexivity.
  - intros [B HB]. vm_compute in HB. by apply elem_of_nil in HB.
Qed.

(** ** Foreign-key resolver (fk_resolver.py) *)

Section fk_resolver_facts.
Import FkResolver.

Lemma criteria_step_rule_value row_values criteria mf :
  criteria_step row_values criteria mf
  = match rule_value row_values mf with
    | Some c => Py.dict_set c.1 c.2 criteria
    | None => criteria
    end.
Proof.
  unfold criteria_step, rule_value.
  destruct (nonempty (mf_field mf)), (nonempty (mf_from mf)); try done.
  destruct (Py.dict_get _ row_values); [|done].
  by destruct (Py.is_blank _).
Qed.

Lemma build_criteria_no_value match_fields row_values :
  (∀ mf, mf ∈ match_fields → rule_value row_values mf = None) →
  build_criteria match_fields row_values = [].
Proof.
  unfold build_criteria. intros Hall.
  enough (∀ acc, foldl (criteria_step row_values) acc match_fields = acc) by done.
  induction match_fields as [|mf mfs IH]; intros acc; simpl; [done|].
  rewrite criteria_step_rule_value, (Hall mf) by left.
  apply IH. intros mf' ?. apply Hall. by right.
Qed.

Lemma dict_set_elem_other {V} k (v : V) d c :
  c ∈ d → c.1 ≠ k → c ∈ Py.dict_set k v d.
Proof.
  induction d as [|[k' v'] d IH]; simpl; intros Hin Hne.
  - by apply elem_of_nil in Hin.
  - apply elem_of_cons in Hin as [->|Hin]; simpl in *.
    + apply String.eqb_neq in Hne as ->. left.
    + destruct (String.eqb k' k); right; auto.
Qed.

Lemma dict_set_elem_new {V} k (v : V) d : (k, v) ∈ Py.dict_set k v d.
Proof.
  induction d as [|[k' v'] d IH]; simpl; [left|].
  destruct (String.eqb k' k); [left|by right].
Qed.

(** With distinct target fields, every rule that has a value is a criterion. *)
Lemma build_criteria_complete match_fields row_values mf c :
  NoDup (omap (fun mf => fst <$> rule_value row_values mf) match_fields) →
  mf ∈ match_fields → rule_value row_values mf = Some c →
  c ∈ build_criteria match_fields row_values.
Proof.
  unfold build_criteria. generalize (@nil (string * string)).
  induction match_fields as [|mf0 mfs IH]; intros acc Hnd Hin Hc.
  - by apply elem_of_nil in Hin.
  - simpl. rewrite criteria_step_rule_value.
    simpl in Hnd. apply elem_of_cons in Hin as [->|Hin].
    + rewrite Hc in *. simpl in Hnd. apply NoDup_cons in Hnd as [Hfresh _].
      clear IH. assert (Hacc : c ∈ Py.dict_set c.1 c.2 acc).
      { destruct c. apply dict_set_elem_new. }
      revert Hacc. generalize (Py.dict_set c.1 c.2 acc). clear acc.
      induction mfs as [|mf1 mfs IH]; intros acc Hacc; simpl; [done|].
      rewrite criteria_step_rule_value. simpl in Hfresh.
      destruct (rule_value row_values mf1) as [c1|] eqn:H1; simpl in Hfresh.
      * apply not_elem_of_cons in Hfresh as [Hne Hfresh].
        apply IH; [done|]. apply dict_set_elem_other; [done|congruence].
      * by apply IH.
    + destruct (rule_value row_values mf0) as [c0|] eqn:H0; simpl in Hnd.
      * apply NoDup_cons in Hnd as [_ Hnd]. by apply IH.
      * by apply IH.
Qed.

Lemma search_Some criteria data id :
  search criteria data = Some id →
  ∃ csv_row0, csv_row0 ∈ data ∧ row_matches criteria csv_row0 = true
              ∧ Py.dict_get "ID" csv_row0 = Some id.
Proof.
  induction data as [|row data IH]; simpl; [done|].
  destruct (row_matches criteria row) eqn:Hm.
  - intros Hid. exists row. split; [left|done].
  - intros (row' & ? & ?)%IH. exists row'. split; [by right|done].
Qed.

Lemma loaded_calls w c n m target_entity :
  loaded w {| cache := c; lookup_calls := n |} target_entity
  = loaded w {| cache := c; lookup_calls := m |} target_entity.
Proof.
  unfold loaded, _load_entity_data. simpl.
  destruct (c !! target_entity); [done|].
  destruct (Schema.sch_entities (schema w) !! target_entity) as [ei|]; [|done].
  by destruct (Schema.ei_csv ei).
Qed.

Lemma lookup_id_result w r target_entity match_fields row_values :
  (lookup_id w r target_entity match_fields row_values).1
  = match loaded w r target_entity with
    | [] => None
    | data =>
        match build_criteria match_fields row_values with
        | [] => None
        | criteria => search criteria data
        end
    end.
Proof.
  unfold lookup_id. destruct r as [c n].
  rewrite (loaded_calls w c n (S n)). unfold loaded. simpl.
  destruct (_load_entity_data w _ target_entity) as [data r'] eqn:Hload.
  simpl. destruct data; [done|].
  by destruct (build_criteria match_fields row_values).
Qed.

End fk_resolver_facts.

(** C3, as the code has it.  When no match rule finds a non-blank value in
    the source row, [lookup_id] returns [None]; and when it returns an
    identifier, that is the [ID] of a loaded row of the target entity that
    satisfies every rule for which the source row supplies a non-blank value
    (rules without a value are left out of the comparison).  The rules that
    have a value are taken to name distinct target fields. *)
Theorem C3_lookup_uses_supplied_rules
    (w : FkResolver.stores) (r : FkResolver.resolver) (target_entity : string)
    (match_fields : list FkResolver.match_field)
    (row_values : FkResolver.excel_row) :
  NoDup (omap (fun mf => fst <$> FkResolver.rule_value row_values mf)
           match_fields) →
  ((∀ mf, mf ∈ match_fields → FkResolver.rule_value row_values mf = None) →
   (FkResolver.lookup_id w r target_entity match_fields row_values).1 = None)
  ∧ (∀ id,
       (FkResolver.lookup_id w r target_entity match_fields row_values).1
         = Some id →
       ∃ csv_row0,
         csv_row0 ∈ FkResolver.loaded w r target_entity
         ∧ Py.dict_get "ID" csv_row0 = Some id
         ∧ ∀ mf c, mf ∈ match_fields →
                   FkResolver.rule_value row_values mf = Some c →
                   FkResolver.criterion_holds csv_row0 c = true).
Proof.
  intros Hnd. rewrite lookup_id_result. split.
  - intros Hall. rewrite build_criteria_no_value by done.
    by destruct (FkResolver.loaded _ _ _).
  - intros id Hres.
    assert (Hs : FkResolver.search
                   (FkResolver.build_criteria match_fields row_values)
                   (FkResolver.loaded w r target_entity) = Some id).
    { destruct (FkResolver.loaded _ _ _); [done|].
      by destruct (FkResolver.build_criteria _ _). }
    apply search_Some in Hs as (row & Hin & Hm & Hid).
    exists row. split; [done|]. split; [done|].
    intros mf c Hmf Hc.
    unfold FkResolver.row_matches in Hm.
    rewrite forallb_forall in Hm. apply Hm, list_elem_of_In.
    by eapply build_criteria_complete.
Qed.

Lemma C3_lookup_uses_supplied_rules_witness :
  (FkResolver.lookup_id Samples.vendors_store FkResolver.new_resolver "VENDORS"
     [Samples.rule_code; Samples.rule_name] Samples.row_code_only).1
    = Some "v-1"
  ∧ ∃ csv_row0,
      csv_row0 ∈ FkResolver.loaded Samples.vendors_store
                   FkResolver.new_resolver "VENDORS"
      ∧ Py.dict_get "ID" csv_row0 = Some "v-1"
      ∧ ∀ mf c, mf ∈ [Samples.rule_code; Samples.rule_name] →
                FkResolver.rule_value Samples.row_code_only mf = Some c →
                FkResolver.criterion_holds csv_row0 c = true.
Proof.
  assert (Hres : (FkResolver.lookup_id Samples.vendors_store
                    FkResolver.new_resolver "VENDORS"
                    [Samples.rule_code; Samples.rule_name]
                    Samples.row_code_only).1 = Some "v-1")
    by (vm_compute; reflexivity).
  split; [exact Hres|].
  refine (proj2 (C3_lookup_uses_supplied_rules Samples.vendors_store
                   FkResolver.new_resolver "VENDORS"
                   [Samples.rule_code; Samples.rule_name]
                   Samples.row_code_only _) "v-1" Hres).
  vm_compute. apply NoDup_singleton.
Defined.

(** C3 as stated fails: the source row has no value for the rule on [NAME],
    yet the lookup is carried out on the rule on [CODE] alone and returns
    the identifier of the vendor. *)
Lemma C3_counterexample :
  Samples.rule_name ∈ [Samples.rule_code; Samples.rule_name]
  ∧ Py.dict_get "Vendor Name" Samples.row_code_only = Some Py.VNone
  ∧ (FkResolver.lookup_id Samples.vendors_store FkResolver.new_resolver
       "VENDORS" [Samples.rule_code; Samples.rule_name]
       Samples.row_code_only).1 = Some "v-1"
  ∧ (FkResolver.lookup_id Samples.vendors_store FkResolver.new_resolver
       "VENDORS" [Samples.rule_code; Samples.rule_name]
       Samples.row_code_only).1 ≠ None.
Proof.
  split; [right; left|]. split; [reflexivity|].
  split; [vm_compute; reflexivity|]. vm_compute. discriminate.
Qed.

Section resolve_all_fks_facts.
Import FkResolver.

Lemma resolve_fk_step_other w row acc item k :
  item.1 ≠ k →
  Py.dict_get k (resolve_fk_step w row acc item).1 = Py.dict_get k acc.1.
Proof.
  intros Hne. destruct acc as [resolved r], item as [fk lookup].
  unfold resolve_fk_step. simpl in *.
  destruct (nonempty (ld_entity lookup)) as [target|]; [|done].
  destruct (Py.dict_get fk row) as [v|]; [destruct (Py.truthy v)|];
    try destruct (lookup_id _ _ _ _ _) as [found r']; simpl;
    by apply dict_get_set_ne.
Qed.

Lemma resolve_fold_other w row l acc k :
  k ∉ l.*1 →
  Py.dict_get k (foldl (resolve_fk_step w row) acc l).1 = Py.dict_get k acc.1.
Proof.
  revert acc. induction l as [|item l IH]; intros acc Hk; simpl; [done|].
  rewrite fmap_cons in Hk. apply not_elem_of_cons in Hk as [Hne Hk].
  rewrite IH by done. by apply resolve_fk_step_other.
Qed.

Lemma resolve_fk_step_passthrough w row resolved r fk lookup target v :
  nonempty (ld_entity lookup) = Some target →
  Py.dict_get fk row = Some v → Py.truthy v = true →
  resolve_fk_step w row (resolved, r) (fk, lookup)
  = (Py.dict_set fk (Some (Py.strip (Py.str v))) resolved, r).
Proof.
  intros Ht Hv Htrue. unfold resolve_fk_step. simpl.
  by rewrite Ht, Hv, Htrue.
Qed.

End resolve_all_fks_facts.

(** C4, as the code has it.  For a foreign-key field of the lookups
    configuration whose lookup definition names a target entity, when the
    source row holds a truthy value under the field's own column,
    [resolve_all_fks] maps the field to the text of that value with the
    surrounding whitespace trimmed; the step for the field leaves the
    resolver untouched (no call of [lookup_id], no change of the cache),
    whatever the stores contain. *)
Theorem C4_own_column_passthrough
    (w : FkResolver.stores) (r : FkResolver.resolver) (entity : string)
    (lookups_config : list (string * FkResolver.lookup_def))
    (excel_row0 : FkResolver.excel_row)
    (fk_field : string) (lookup : FkResolver.lookup_def)
    (target_entity : string) (v : Py.pyval) :
  NoDup lookups_config.*1 →
  (fk_field, lookup) ∈ lookups_config →
  FkResolver.nonempty (FkResolver.ld_entity lookup) = Some target_entity →
  Py.dict_get fk_field excel_row0 = Some v →
  Py.truthy v = true →
  Py.dict_get fk_field
    (FkResolver.resolve_all_fks w r entity lookups_config excel_row0).1
    = Some (Some (Py.strip (Py.str v)))
  ∧ ∀ w' resolved r',
      FkResolver.resolve_fk_step w' excel_row0 (resolved, r') (fk_field, lookup)
      = (Py.dict_set fk_field (Some (Py.strip (Py.str v))) resolved, r').
Proof.
  intros Hnd Hin Ht Hv Htrue. split.
  - unfold FkResolver.resolve_all_fks.
    generalize (@nil (string * option string), r).
    induction lookups_config as [|item l IH]; intros acc.
    { by apply elem_of_nil in Hin. }
    simpl in *. apply NoDup_cons in Hnd as [Hfresh Hnd].
    apply elem_of_cons in Hin as [<-|Hin]; [|by apply IH].
    rewrite resolve_fold_other by done. destruct acc as [resolved r0].
    erewrite resolve_fk_step_passthrough by done. apply dict_get_set_eq.
  - intros w' resolved r'. by eapply resolve_fk_step_passthrough.
Qed.

(** The row supplies [v-9] in [VENDOR_ID]; a lookup by vendor code would
    have found [v-1]. *)
Lemma C4_own_column_passthrough_witness :
  (FkResolver.lookup_id Samples.vendors_store FkResolver.new_resolver "VENDORS"
     [Samples.rule_code] (Samples.row_with_id (Py.VStr "v-9"))).1 = Some "v-1"
  ∧ Py.dict_get "VENDOR_ID"
      (FkResolver.resolve_all_fks Samples.vendors_store FkResolver.new_resolver
         "SERVICEORDERS" [("VENDOR_ID", Samples.vendor_lookup)]
         (Samples.row_with_id (Py.VStr "v-9"))).1
    = Some (Some "v-9").
Proof.
  split; [vm_compute; reflexivity|].
  refine (proj1 (C4_own_column_passthrough Samples.vendors_store
                   FkResolver.new_resolver "SERVICEORDERS"
                   [("VENDOR_ID", Samples.vendor_lookup)]
                   (Samples.row_with_id (Py.VStr "v-9"))
                   "VENDOR_ID" Samples.vendor_lookup "VENDORS" (Py.VStr "v-9")
                   _ _ _ _ _)).
  - simpl. apply NoDup_singleton.
  - left.
  - reflexivity.
  - reflexivity.
  - reflexivity.
Defined.

(** C4 as stated fails in three ways.  A value with surrounding blanks is
    not returned verbatim but trimmed; the non-blank value [0] is not passed
    through but replaced by the result of a lookup; and a field whose lookup
    definition has no target entity is not returned at all. *)
Lemma C4_counterexample :
  (Py.is_blank (Py.VStr " v-9 ") = false
   ∧ (FkResolver.resolve_all_fks Samples.vendors_store FkResolver.new_resolver
        "SERVICEORDERS" [("VENDOR_ID", Samples.vendor_lookup)]
        (Samples.row_with_id (Py.VStr " v-9 "))).1
     = [("VENDOR_ID", Some "v-9")]
   ∧ "v-9" ≠ " v-9 ")
  ∧ (Py.is_blank (Py.VInt 0) = false
     ∧ FkResolver.resolve_all_fks Samples.vendors_store FkResolver.new_resolver
         "SERVICEORDERS" [("VENDOR_ID", Samples.vendor_lookup)]
         (Samples.row_with_id (Py.VInt 0))
       = ([("VENDOR_ID", Some "v-1")],
          {| FkResolver.cache :=
               {[ "VENDORS" :=
                    [ [("ID", "v-1"); ("CODE", "V001"); ("NAME", "Acme")] ] ]};
             FkResolver.lookup_calls := 1 |}))
  ∧ (Py.is_blank (Py.VStr "v-9") = false
     ∧ (FkResolver.resolve_all_fks Samples.vendors_store
          FkResolver.new_resolver "SERVICEORDERS"
          [("VENDOR_ID", Samples.vendor_lookup_no_entity)]
          (Samples.row_with_id (Py.VStr "v-9"))).1 = []).
Proof.
  repeat split; try (vm_compute; reflexivity).
  discriminate.
Qed.

(** ** Type coercion (validator.validate_type) *)

Section validate_type_facts.
Import Validator.

Lemma lower_empty s : Py.lower s = EmptyString → s = EmptyString.
Proof. by destruct s. Qed.

Lemma in_list_true x l : x ∈ l → Py.in_list x l = true.
Proof. intros. by apply bool_decide_eq_true_2. Qed.

Lemma in_list_false x l : x ∉ l → Py.in_list x l = false.
Proof. intros. by apply bool_decide_eq_false_2. Qed.

Lemma validate_type_blank lib field_name value field_type :
  Py.is_blank value = true →
  validate_type lib field_name value field_type = (Py.VNone, None).
Proof. intros Hb. unfold validate_type. by rewrite Hb. Qed.

(** On a boolean type and a non-blank value the function is its boolean
    branch. *)
Lemma validate_type_boolean_branch lib field_name value field_type :
  is_boolean_type field_type = true → Py.is_blank value = false →
  validate_type lib field_name value field_type
  = match value with
    | Py.VBool b => (Py.VBool b, None)
    | _ =>
        let str_val := Py.lower (Py.strip (Py.str value)) in
        if Py.in_list str_val true_words then (Py.VBool true, None)
        else if Py.in_list str_val false_words then (Py.VBool false, None)
        else (Py.VNone,
              Some ("Invalid boolean value '" +:+ Py.str value +:+ "' for "
                    +:+ field_name))
    end.
Proof.
  unfold is_boolean_type, validate_type. intros Hty Hb. rewrite Hb.
  repeat (apply andb_prop in Hty as [Hty ?]).
  repeat match goal with
         | H : negb ?b = true |- _ => apply negb_true_iff in H; rewrite H
         end.
  by match goal with H : Py.contains "BOOLEAN" _ = true |- _ => rewrite H end.
Qed.

End validate_type_facts.

(** C9, as the code has it.  Blank or absent input coerces to null without
    error for every type.  On a boolean-typed field and a non-blank value,
    the trimmed, lower-cased text decides: one of true, 1, yes, t, y gives
    true; one of false, 0, no, f, n gives false; any other text gives an
    error.  The empty string is blank and therefore gives null, not false. *)
Theorem C9_boolean_vocabulary_and_blank
    (lib : Validator.library) (field_name : string) (value : Py.pyval)
    (field_type : string) :
  (Py.is_blank value = true →
   Validator.validate_type lib field_name value field_type = (Py.VNone, None))
  ∧ (Validator.is_boolean_type field_type = true →
     Py.is_blank value = false →
     (Py.lower (Py.strip (Py.str value)) ∈ ["true"; "1"; "yes"; "t"; "y"] →
      Validator.validate_type lib field_name value field_type
      = (Py.VBool true, None))
     ∧ (Py.lower (Py.strip (Py.str value)) ∈ ["false"; "0"; "no"; "f"; "n"] →
        Validator.validate_type lib field_name value field_type
        = (Py.VBool false, None))
     ∧ (Py.lower (Py.strip (Py.str value))
          ∉ ["true"; "1"; "yes"; "t"; "y"; "false"; "0"; "no"; "f"; "n"] →
        ∃ msg, Validator.validate_type lib field_name value field_type
               = (Py.VNone, Some msg))).
Proof.
  split; [apply validate_type_blank|].
  intros Hty Hb. rewrite validate_type_boolean_branch by done.
  assert (Hne : Py.lower (Py.strip (Py.str value)) ≠ EmptyString).
  { intros He%lower_empty. unfold Py.is_blank in Hb.
    destruct value; try done; by rewrite He in Hb. }
  set (word := Py.lower (Py.strip (Py.str value))) in *.
  assert (Hbool : ∀ b, value = Py.VBool b →
            word = if b then "true" else "false").
  { intros b ->. by destruct b. }
  split; [|split].
  - intros Hin. destruct value as [|b| | | |]; cbv zeta;
      try (rewrite (in_list_true word) by done; done).
    rewrite (Hbool b eq_refl) in Hin. destruct b; [done|].
    exfalso. set_solver.
  - intros Hin.
    assert (word ∉ Validator.true_words).
    { unfold Validator.true_words. intros Hin'.
      repeat (apply elem_of_cons in Hin as [Hin|Hin];
              [rewrite Hin in Hin'; set_solver|]).
      by apply elem_of_nil in Hin. }
    assert (word ∈ Validator.false_words).
    { unfold Validator.false_words. set_solver. }
    destruct value as [|b| | | |]; cbv zeta;
      try (rewrite (in_list_false word), (in_list_true word) by done; done).
    rewrite (Hbool b eq_refl) in Hin. destruct b; [|done].
    exfalso. set_solver.
  - intros Hnot.
    assert (word ∉ Validator.true_words).
    { unfold Validator.true_words. set_solver. }
    assert (word ∉ Validator.false_words).
    { unfold Validator.false_words. set_solver. }
    destruct value as [|b| | | |]; cbv zeta;
      try (rewrite !(in_list_false word) by done; by eexists).
    exfalso. apply Hnot. rewrite (Hbool b eq_refl). destruct b; set_solver.
Qed.

Lemma C9_boolean_vocabulary_and_blank_witness :
  Validator.validate_type Samples.strict_library "ACTIVE" (Py.VStr " Yes ")
    "Boolean" = (Py.VBool true, None)
  ∧ Validator.validate_type Samples.strict_library "ACTIVE" (Py.VInt 0)
      "Boolean" = (Py.VBool false, None)
  ∧ (∃ msg, Validator.validate_type Samples.strict_library "ACTIVE"
              (Py.VStr "maybe") "Boolean" = (Py.VNone, Some msg))
  ∧ Validator.validate_type Samples.strict_library "ACTIVE" (Py.VStr "  ")
      "Integer" = (Py.VNone, None).
Proof.
  pose proof (C9_boolean_vocabulary_and_blank Samples.strict_library "ACTIVE")
    as H.
  split; [|split; [|split]].
  - apply (H (Py.VStr " Yes ") "Boolean"); [reflexivity..|]. compute_done.
  - apply (H (Py.VInt 0) "Boolean"); [reflexivity..|]. compute_done.
  - apply (H (Py.VStr "maybe") "Boolean"); [reflexivity..|]. compute_done.
  - apply (H (Py.VStr "  ") "Integer"). reflexivity.
Defined.

(** C9 as stated fails: the empty string, listed among the texts that mean
    false, is coerced to null on a boolean field, not to false. *)
Lemma C9_counterexample :
  Validator.is_boolean_type "Boolean" = true
  ∧ EmptyString ∈ Validator.false_words
  ∧ Validator.validate_type Samples.strict_library "ACTIVE"
      (Py.VStr EmptyString) "Boolean" = (Py.VNone, None)
  ∧ Validator.validate_type Samples.strict_library "ACTIVE"
      (Py.VStr EmptyString) "Boolean" ≠ (Py.VBool false, None).
Proof.
  split; [reflexivity|]. split; [unfold Validator.false_words; set_solver|].
  split; [reflexivity|]. vm_compute. discriminate.
Qed.

(** ** Row transformer (transformer.py) *)

(** C6 fails on the code.  PROJECTS is a master-data entity whose natural
    key is NAME, TYPE and CATEGORY.  The spreadsheet holds one project,
    Alpha, and leaves its type and category blank.  The first run, against
    an empty store, stages the row; written to the staged file and appended,
    it becomes the persisted record [Alpha] with an empty type and an empty
    category.  The second run on the same spreadsheet, against the store
    that now holds this record, stages the row again, under a new UUID and
    without an error record, where the claim has it dropped: the key of the
    transformed row is [ALPHA, NONE, NONE], a [None] cell being read as the
    text [None], and the key of the persisted row is [ALPHA] with two empty
    texts, so the check of line 254 does not see the record. *)
Theorem C6_blank_key_cell_is_restaged :
  DedupConfig.should_deduplicate "PROJECTS" = true
  ∧ DedupConfig.get_dedup_keys "PROJECTS" = ["NAME"; "TYPE"; "CATEGORY"]
  ∧ snd <$> Transformer.transform_entity
              (Samples.projects_env [] Samples.first_uuid) Samples.fresh_state
              "PROJECTS" Samples.projects_mapping Samples.alpha_sheet_rows
    = Some ([Samples.alpha_staged Samples.first_uuid], [])
  ∧ StagedCsv.output_cells ["ID"; "NAME"; "TYPE"; "CATEGORY"]
      (Samples.alpha_staged Samples.first_uuid)
    = Samples.alpha_persisted.*2
  ∧ Samples.alpha_persisted.*1 = ["ID"; "NAME"; "TYPE"; "CATEGORY"]
  ∧ snd <$> Transformer.transform_entity
              (Samples.projects_env [Samples.alpha_persisted]
                 Samples.second_uuid)
              Samples.fresh_state "PROJECTS" Samples.projects_mapping
              Samples.alpha_sheet_rows
    = Some ([Samples.alpha_staged Samples.second_uuid], [])
  ∧ Transformer.natural_key ["NAME"; "TYPE"; "CATEGORY"]
      (Samples.alpha_staged Samples.second_uuid)
    = ["ALPHA"; "NONE"; "NONE"]
  ∧ Transformer.natural_key ["NAME"; "TYPE"; "CATEGORY"]
      (Transformer.lift_row Samples.alpha_persisted)
    = ["ALPHA"; EmptyString; EmptyString].
Proof. repeat split; vm_compute; reflexivity. Qed.

(** A project that has a type and a category is dropped by the second run,
    as the claim says: no staged row and no error record. *)
Example master_row_with_full_key_is_dropped :
  snd <$> Transformer.transform_entity
            (Samples.projects_env [Samples.beta_persisted] Samples.second_uuid)
            Samples.fresh_state "PROJECTS" Samples.projects_mapping
            Samples.beta_sheet_rows
  = Some ([], []).
Proof. vm_compute. reflexivity. Qed.

(** ** Staging engine (staging_engine.py) *)

Section dict_keys_facts.
Context {V : Type}.

Lemma dict_set_keys k (v : V) d k' :
  k' ∈ (Py.dict_set k v d).*1 ↔ k' = k ∨ k' ∈ d.*1.
Proof.
  induction d as [|[k0 v0] d IH]; simpl.
  - rewrite list_elem_of_singleton. split; [auto|].
    intros [?|Hin]; [done|]. by apply elem_of_nil in Hin.
  - destruct (String.eqb_spec k0 k) as [->|Hne]; simpl;
      rewrite !elem_of_cons; [tauto|]. rewrite IH. tauto.
Qed.

Lemma dict_get_is_Some k (d : list (string * V)) :
  is_Some (Py.dict_get k d) ↔ k ∈ d.*1.
Proof.
  rewrite <- not_eq_None_Some, dict_get_None.
  split; [apply dec_stable | auto].
Qed.

(** A new key goes last, an existing key keeps its place. *)
Lemma dict_set_keys_new k (v : V) (d : list (string * V)) :
  k ∉ d.*1 → (Py.dict_set k v d).*1 = d.*1 ++ [k].
Proof.
  induction d as [|[k' v'] d IH]; [done|].
  rewrite fmap_cons. intros [Hne Hk]%not_elem_of_cons.
  cbn [Py.dict_set]. destruct (String.eqb k' k) eqn:E.
  - apply String.eqb_eq in E. simpl in Hne. congruence.
  - rewrite fmap_cons, IH by done. done.
Qed.

Lemma dict_set_keys_old k (v : V) (d : list (string * V)) :
  k ∈ d.*1 → (Py.dict_set k v d).*1 = d.*1.
Proof.
  induction d as [|[k' v'] d IH].
  - by intros ?%elem_of_nil.
  - rewrite fmap_cons. cbn [Py.dict_set]. destruct (String.eqb k' k) eqn:E.
    + apply String.eqb_eq in E as ->. done.
    + apply String.eqb_neq in E. intros [?|?]%elem_of_cons; [simpl in *; congruence|].
      rewrite fmap_cons, IH by done. done.
Qed.

Lemma dict_set_NoDup k (v : V) (d : list (string * V)) :
  NoDup d.*1 → NoDup (Py.dict_set k v d).*1.
Proof.
  intros Hnd. destruct (decide (k ∈ d.*1)) as [Hin|Hout].
  - by rewrite dict_set_keys_old.
  - rewrite dict_set_keys_new by done. apply NoDup_app. split; [done|].
    split; [|apply NoDup_singleton].
    by intros x Hx ->%list_elem_of_singleton.
Qed.

End dict_keys_facts.

Section substring_facts.

Lemma prefix_spec (p s : string) :
  String.prefix p s = true ↔ ∃ post, s = p +:+ post.
Proof.
  revert s. induction p as [|a p IH]; intros s.
  - split; [|by destruct s]. intros _. by exists s.
  - destruct s as [|b s]; cbn.
    + split; [done|]. by intros [post ?].
    + destruct (ascii_dec a b) as [->|Hne].
      * rewrite IH. split; intros [post Hp]; exists post.
        -- by rewrite Hp.
        -- by injection Hp.
      * split; [done|]. intros [post Hp]. injection Hp as ? _. done.
Qed.

(** [sub in s] holds exactly when [sub] occurs in [s]. *)
Lemma contains_spec (sub s : string) :
  Py.contains sub s = true ↔ ∃ pre post, s = pre +:+ sub +:+ post.
Proof.
  induction s as [|c s IH]; cbn [Py.contains].
  - rewrite orb_false_r, prefix_spec. split.
    + intros [post Hp]. by exists EmptyString, post.
    + intros (pre & post & Hp). destruct pre; [by exists post|done].
  - rewrite orb_true_iff, prefix_spec, IH. split.
    + intros [[post Hp]|(pre & post & Hp)].
      * by exists EmptyString, post.
      * exists (String c pre), post. by rewrite Hp.
    + intros (pre & post & Hp). destruct pre as [|a pre].
      * left. by exists post.
      * right. injection Hp as -> Hp. by exists pre, post.
Qed.

End substring_facts.

Section fk_error_facts.
Import StagingEngine.

Implicit Types (results : list (string * stage_result)).

(** The test of lines 186-192 is true exactly of the results whose error
    records contain a foreign-key resolution error. *)
Lemma has_fk_error_spec (r : stage_result) :
  has_fk_error r = true ↔ holds_fk_error r.
Proof.
  unfold holds_fk_error, fk_resolution_error.
  destruct r as [entity msg|entity sheet n staged errs]; cbn.
  - split; [done|]. by intros (rec & m & ?%elem_of_nil & _).
  - rewrite andb_true_iff, existsb_exists. split.
    + intros [_ (rec & Hrec & (m & Hm & Hc)%existsb_exists)].
      exists rec, m. split; [by apply list_elem_of_In|].
      split; [by apply list_elem_of_In|]. by apply contains_spec.
    + intros (rec & m & Hrec & Hm & Hc). split.
      * destruct errs; [by apply elem_of_nil in Hrec|done].
      * exists rec. split; [by apply list_elem_of_In|].
        apply existsb_exists. exists m. split; [by apply list_elem_of_In|].
        by apply contains_spec.
Qed.

Lemma entities_with_fk_errors_elem results e :
  e ∈ entities_with_fk_errors results
  ↔ ∃ r, (e, r) ∈ results ∧ holds_fk_error r.
Proof.
  unfold entities_with_fk_errors. rewrite list_elem_of_fmap. split.
  - intros ([e' r] & -> & [Hin Hfk]%list_elem_of_In%filter_In).
    exists r. split; [by apply list_elem_of_In|]. by apply has_fk_error_spec.
  - intros (r & Hin & Hfk). exists (e, r). split; [done|].
    apply list_elem_of_In, filter_In. split; [by apply list_elem_of_In|].
    by apply has_fk_error_spec.
Qed.

Lemma entities_with_fk_errors_keys results e :
  e ∈ entities_with_fk_errors results → e ∈ results.*1.
Proof.
  intros (r & Hin & _)%entities_with_fk_errors_elem.
  apply list_elem_of_fmap. by exists (e, r).
Qed.

(** The loop's test on line 195 is the convergence of the claim. *)
Lemma converged_spec results :
  entities_with_fk_errors results = [] ↔ converged results.
Proof.
  unfold converged. split.
  - intros Hnil e r Hin Hfk.
    assert (He : e ∈ entities_with_fk_errors results)
      by (apply entities_with_fk_errors_elem; eauto).
    rewrite Hnil in He. by apply elem_of_nil in He.
  - intros Hconv.
    destruct (entities_with_fk_errors results) as [|e es] eqn:Hfk; [done|].
    assert (He : e ∈ entities_with_fk_errors results) by (rewrite Hfk; left).
    apply entities_with_fk_errors_elem in He as (r & Hin & Hr).
    by destruct (Hconv e r Hin).
Qed.

Lemma entities_with_fk_errors_NoDup results :
  NoDup results.*1 → NoDup (entities_with_fk_errors results).
Proof.
  unfold entities_with_fk_errors.
  induction results as [|[e r] results IH]; [done|].
  rewrite fmap_cons. intros [Hnotin Hnd]%NoDup_cons. cbn [List.filter snd].
  destruct (has_fk_error r); [|by apply IH].
  rewrite fmap_cons. apply NoDup_cons. split; [|by apply IH].
  intros ([e' r'] & Heq & [Hin _]%list_elem_of_In%filter_In)%list_elem_of_fmap.
  cbn in Heq. subst e'. apply Hnotin, list_elem_of_fmap.
  exists (e, r'). split; [done|]. by apply list_elem_of_In.
Qed.

(** The retried entities of a pass: each once, and exactly those whose
    result holds a foreign-key resolution error. *)
Lemma retried_spec results :
  NoDup results.*1 →
  NoDup (entities_with_fk_errors results)
  ∧ ∀ e, e ∈ entities_with_fk_errors results
         ↔ ∃ r, Py.dict_get e results = Some r ∧ holds_fk_error r.
Proof.
  intros Hnd. split; [by apply entities_with_fk_errors_NoDup|].
  intros e. rewrite entities_with_fk_errors_elem. split.
  - intros (r & Hin & Hr). exists r. split; [by apply dict_get_NoDup|done].
  - intros (r & Hget & Hr). exists r. split; [|done].
    by apply dict_get_Some_elem.
Qed.

Lemma sum_errors_is_Some results entities :
  (∀ e, e ∈ entities → e ∈ results.*1) → is_Some (sum_errors results entities).
Proof.
  induction entities as [|e es IH]; intros Hin; simpl; [done|].
  destruct (proj2 (dict_get_is_Some e results)) as [r ->]; [apply Hin; left|].
  destruct IH as [n ->]; [|done]. intros e' ?. apply Hin. by right.
Qed.

(** The sum of line 210 and line 219 is the error total of the claim. *)
Lemma sum_errors_total results entities n :
  sum_errors results entities = Some n → n = error_total results entities.
Proof.
  unfold error_total. revert n.
  induction entities as [|e es IH]; intros n; cbn.
  - by intros [= <-].
  - destruct (Py.dict_get e results) as [r|]; [|done].
    destruct (sum_errors results es) as [m|]; [|done].
    intros [= <-]. by rewrite (IH m eq_refl).
Qed.

End fk_error_facts.

Section staging_engine_facts.
Import StagingEngine.

Context (World : Type).
Context (read_excel_data : World → string → attempt (list row)).
Context (transform_entity :
  World → string → Mapping.sheet_config → list row →
  attempt ((list row * list Transformer.error_record) * World)).
Context (write_staged : World → string → list row → attempt World).
Context (new_transformer : World → World).
Context (staging_dir : string).

Local Abbreviation stage_entity :=
  (stage_entity World read_excel_data transform_entity write_staged staging_dir).
Local Abbreviation restage :=
  (restage World read_excel_data transform_entity write_staged staging_dir).
Local Abbreviation first_pass :=
  (first_pass World read_excel_data transform_entity write_staged staging_dir).
Local Abbreviation retry_loop :=
  (retry_loop World read_excel_data transform_entity write_staged
     new_transformer staging_dir).

Implicit Types (cfg : list (string * Mapping.sheet_config)).
Implicit Types (results : list (string * stage_result)).

(** Pass 1, when no exception ends it, leaves one result for each entity of
    the ingestion order that has a sheet config. *)
Lemma first_pass_keys cfg order w results w' :
  first_pass cfg order w = Ok (results, w') →
  NoDup results.*1
  ∧ ∀ e, e ∈ results.*1 ↔ e ∈ order ∧ is_Some (Py.dict_get e cfg).
Proof.
  unfold StagingEngine.first_pass.
  set (step := fun (acc : attempt (list (string * stage_result) * World))
                   (entity : string) =>
         match acc with
         | Exc exc => Exc exc
         | Ok (results, w) =>
             match Py.dict_get entity cfg with
             | None => acc
             | Some sheet_config =>
                 match stage_entity w entity sheet_config with
                 | Exc exc => Exc exc
                 | Ok (result, w) => Ok (Py.dict_set entity result results, w)
                 end
             end
         end).
  assert (Hexc : ∀ l exc, foldl step (Exc exc) l = Exc exc).
  { induction l as [|x l IH]; intros exc; [done|]. cbn. apply IH. }
  assert (Hgen : ∀ l results0 w0,
            NoDup results0.*1 →
            foldl step (Ok (results0, w0)) l = Ok (results, w') →
            NoDup results.*1
            ∧ ∀ e, e ∈ results.*1
                   ↔ e ∈ results0.*1 ∨ e ∈ l ∧ is_Some (Py.dict_get e cfg)).
  { induction l as [|entity l IH]; intros results0 w0 Hnd; cbn [foldl].
    - intros [= <- <-]. split; [done|]. intros e. rewrite elem_of_nil. tauto.
    - unfold step at 2.
      destruct (Py.dict_get entity cfg) as [sc|] eqn:Hsc.
      + destruct (stage_entity w0 entity sc) as [[result w1]|exc];
          [|by rewrite Hexc].
        intros Hrun. apply IH in Hrun as [Hnd' Hkeys];
          [|by apply dict_set_NoDup].
        split; [done|]. intros e. rewrite Hkeys, dict_set_keys, elem_of_cons.
        split.
        * intros [[->|?]|[? ?]]; [|by left|by right; split; [right|]].
          right. split; [by left|]. by rewrite Hsc.
        * intros [?|[[->|?] ?]]; [left; by right|left; by left|].
          right. done.
      + intros Hrun. apply IH in Hrun as [Hnd' Hkeys]; [|done].
        split; [done|]. intros e. rewrite Hkeys, elem_of_cons. split.
        * intros [?|[? ?]]; [by left|by right; split; [right|]].
        * intros [?|[[->|?] Hs]]; [by left| |by right].
          rewrite Hsc in Hs. by destruct Hs. }
  intros Hrun. apply Hgen in Hrun as [Hnd Hkeys]; [|apply NoDup_nil_2].
  split; [done|]. intros e. rewrite Hkeys. cbn. rewrite elem_of_nil. tauto.
Qed.

(** Re-staging raises no [KeyError]: it ends with new results for the same
    entities, or with the exception of an operation, in the same pass. *)
Lemma restage_spec (pass_num : nat) cfg entities results w :
  (∀ e, e ∈ entities → is_Some (Py.dict_get e cfg)) →
  match restage pass_num cfg entities results w with
  | Returned (results', w') =>
      (∀ e, e ∈ results'.*1 ↔ e ∈ entities ∨ e ∈ results.*1)
      ∧ (NoDup results.*1 → NoDup results'.*1)
  | Raised exc pass => pass = pass_num
  | KeyError | OutOfFuel => False
  end.
Proof.
  revert results w. induction entities as [|e es IH]; intros results w Hcfg.
  - cbn. split; [|done]. intros e. rewrite elem_of_nil. tauto.
  - cbn [StagingEngine.restage]. destruct (Hcfg e) as [sc ->]; [left|].
    destruct (stage_entity w e sc) as [[result w1]|exc]; [|done].
    specialize (IH (Py.dict_set e result results) w1).
    destruct (restage pass_num cfg es (Py.dict_set e result results) w1)
      as [[results' w']|exc p| |].
    + destruct IH as [Hkeys Hnd]; [intros e' ?; apply Hcfg; by right|].
      split.
      * intros e'. rewrite Hkeys, dict_set_keys, elem_of_cons. tauto.
      * intros ?. by apply Hnd, dict_set_NoDup.
    + apply IH. intros e' ?. apply Hcfg. by right.
    + apply IH. intros e' ?. apply Hcfg. by right.
    + apply IH. intros e' ?. apply Hcfg. by right.
Qed.

(** The loop ends when it has fuel for its remaining tests, by returning or
    with the exception of an operation in one of its passes.  When it
    returns, it has logged at most as many passes as remained; it stopped at
    a pass that still allowed a further one exactly on convergence or no
    improvement; and its log holds the error totals of the retried
    entities. *)
Lemma retry_loop_spec (fuel : nat) cfg (pass_num : nat) results w :
  (∀ e, e ∈ results.*1 → is_Some (Py.dict_get e cfg)) →
  NoDup results.*1 →
  (7 ≤ fuel + pass_num)%nat → (1 ≤ fuel)%nat →
  match retry_loop fuel cfg pass_num results w with
  | Returned (final, w', log) =>
      (length log ≤ 6 - pass_num)%nat
      ∧ last (results :: (results_after <$> log)) = Some final
      ∧ (∀ (i : nat) rs,
           (results :: (results_after <$> log)) !! i = Some rs →
           (pass_num + i ≤ 5)%nat →
           (i = length log
            ↔ converged rs
              ∨ ∃ (j : nat) rec,
                  i = S j ∧ log !! j = Some rec ∧ no_improvement rec))
      ∧ (∀ (j : nat) rec, log !! j = Some rec →
           ∃ prev retried,
             (results :: (results_after <$> log)) !! j = Some prev
             ∧ pass_no rec = (pass_num + j)%nat
             ∧ NoDup retried
             ∧ (∀ e, e ∈ retried
                     ↔ ∃ r, Py.dict_get e prev = Some r ∧ holds_fk_error r)
             ∧ errors_before rec = error_total prev retried
             ∧ errors_after rec = error_total (results_after rec) retried)
  | Raised exc pass => (pass_num ≤ pass)%nat ∧ (pass ≤ 5)%nat
  | KeyError | OutOfFuel => False
  end.
Proof.
  revert pass_num results w.
  induction fuel as [|fuel IH]; intros pass_num results w Hcfg Hnd Hfuel Hpos;
    [lia|].
  cbn [StagingEngine.retry_loop]. unfold max_passes.
  destruct (Nat.leb_spec pass_num 5) as [Hle|Hgt].
  2:{ split; [simpl; lia|]. split; [done|]. split.
      - intros [|i] rs Hi ?; [lia|done].
      - intros j rec Hj. done. }
  destruct (entities_with_fk_errors results) as [|e es] eqn:Hfk.
  { split; [simpl; lia|]. split; [done|]. split.
    - intros [|i] rs Hi _; [|done]. injection Hi as <-.
      split; [|done]. intros _. left. by apply converged_spec.
    - intros j rec Hj. done. }
  assert (Hnc : ¬ converged results).
  { intros Hc%converged_spec. by rewrite Hfk in Hc. }
  assert (Hkeys : ∀ e', e' ∈ e :: es → e' ∈ results.*1).
  { intros e' He'. apply entities_with_fk_errors_keys. by rewrite Hfk. }
  destruct (retried_spec results Hnd) as [Hrnd Hrmem]. rewrite Hfk in Hrnd, Hrmem.
  destruct (sum_errors_is_Some results (e :: es) Hkeys) as [before Hbefore].
  rewrite Hbefore.
  pose proof (restage_spec pass_num cfg (e :: es) results (new_transformer w))
    as Hre.
  destruct (restage pass_num cfg (e :: es) results (new_transformer w))
    as [[results' w']|exc p| |].
  2:{ rewrite Hre; [lia|]. intros e' He'. by apply Hcfg, Hkeys. }
  2,3: (apply Hre; intros e' He'; by apply Hcfg, Hkeys).
  destruct Hre as [Hkeys' Hnd']; [intros e' He'; by apply Hcfg, Hkeys|].
  specialize (Hnd' Hnd).
  destruct (sum_errors_is_Some results' (e :: es)) as [after Hafter].
  { intros e' He'. apply Hkeys'. by left. }
  rewrite Hafter.
  apply sum_errors_total in Hbefore, Hafter.
  set (record := {| pass_no := pass_num; errors_before := before;
                    errors_after := after; results_after := results' |}).
  assert (Hrec0 : ∃ prev retried, Some results = Some prev
            ∧ pass_no record = (pass_num + 0)%nat
            ∧ NoDup retried
            ∧ (∀ e0, e0 ∈ retried
                     ↔ ∃ r, Py.dict_get e0 prev = Some r ∧ holds_fk_error r)
            ∧ errors_before record = error_total prev retried
            ∧ errors_after record = error_total (results_after record) retried).
  { exists results, (e :: es). cbn. by rewrite Nat.add_0_r. }
  destruct (Nat.leb_spec before after) as [Hnoimp|Himp].
  - split; [simpl; lia|]. split; [done|]. split.
    + intros [|[|i]] rs Hi _; simpl in Hi; [| |done]; injection Hi as <-.
      * split; [done|]. intros [?|(j & ? & ? & _)]; done.
      * split; [|done]. intros _. right. by exists 0%nat, record.
    + intros [|j] rec Hj; [|done]. by injection Hj as <-.
  - specialize (IH (S pass_num) results' w').
    destruct (retry_loop fuel cfg (S pass_num) results' w')
      as [[[final w''] log]|exc p| |].
    + destruct IH as (Hlen & Hlast & HQ & HR); [|done|lia|lia|].
      { intros e' [He'|He']%Hkeys'; [by apply Hcfg, Hkeys|by apply Hcfg]. }
      split; [simpl; lia|]. split; [done|]. split.
      * intros [|i] rs Hi Hp.
        -- injection Hi as <-. split; [done|].
           intros [?|(j & ? & ? & _)]; done.
        -- simpl in Hi. specialize (HQ i rs Hi ltac:(lia)). simpl. split.
           ++ intros Heq. destruct (proj1 HQ ltac:(lia))
                as [?|(j & rec & -> & Hj & Hn)]; [by left|].
              right. by exists (S j), rec.
           ++ intros [Hc|(j & rec & Heq & Hj & Hn)].
              ** f_equal. apply HQ. by left.
              ** injection Heq as ->. destruct j as [|j].
                 --- injection Hj as <-. unfold no_improvement in Hn.
                     simpl in Hn. lia.
                 --- f_equal. apply HQ. right. by exists j, rec.
      * intros [|j] rec Hj.
        -- by injection Hj as <-.
        -- destruct (HR j rec Hj) as (prev & retried & ? & Hno & ?).
           exists prev, retried. split; [done|]. split; [lia|done].
    + destruct IH as [? ?]; [|done|lia|lia|lia].
      intros e' [He'|He']%Hkeys'; [by apply Hcfg, Hkeys|by apply Hcfg].
    + apply IH; [|done|lia|lia].
      intros e' [He'|He']%Hkeys'; [by apply Hcfg, Hkeys|by apply Hcfg].
    + apply IH; [|done|lia|lia].
      intros e' [He'|He']%Hkeys'; [by apply Hcfg, Hkeys|by apply Hcfg].
Qed.

End staging_engine_facts.

(** C2.  Whatever the operations around it do, raising included,
    [stage_all] ends: its loop needs no more than [max_passes] tests and it
    raises no [KeyError] of its own, so it returns, or an exception of one
    of the operations leaves it, raised in one of the passes 1 to 5.  When
    it returns, it has made at most 5 passes in total, and at every pass [p]
    before the fifth the run ends with that pass exactly when no entity's
    error records contain a foreign-key resolution error after it
    (convergence), or [p] is a retry pass in which the error total of the
    retried entities did not decrease (no improvement).  The retried
    entities of a pass are those whose result before the pass holds a
    foreign-key resolution error, and the totals compared are their error
    counts added up before and after the pass. *)
Theorem C2_stage_all_stops_within_five_passes
    (World : Type)
    (read_excel_data :
       World → string → StagingEngine.attempt (list Validator.row))
    (transform_entity :
       World → string → Mapping.sheet_config → list Validator.row →
       StagingEngine.attempt
         ((list Validator.row * list Transformer.error_record) * World))
    (write_staged :
       World → string → list Validator.row → StagingEngine.attempt World)
    (new_transformer : World → World)
    (staging_dir : string)
    (sheets : list Mapping.sheet_config) (ingestion_order : list string)
    (w : World) :
  match StagingEngine.stage_all_traced World read_excel_data transform_entity
          write_staged new_transformer staging_dir sheets ingestion_order w
  with
  | StagingEngine.Returned (final, w', (first, log)) =>
      StagingEngine.stage_all World read_excel_data transform_entity
        write_staged new_transformer staging_dir sheets ingestion_order w
      = StagingEngine.Returned final
      ∧ (1 + length log ≤ 5)%nat
      ∧ StagingEngine.results_after_pass first log (1 + length log)
        = Some final
      ∧ (∀ (p : nat) rs,
           (1 ≤ p)%nat → (p < 5)%nat →
           StagingEngine.results_after_pass first log p = Some rs →
           (p = (1 + length log)%nat
            ↔ StagingEngine.converged rs
              ∨ ∃ rec, (2 ≤ p)%nat ∧ log !! (p - 2)%nat = Some rec
                       ∧ StagingEngine.no_improvement rec))
      ∧ (∀ (j : nat) rec, log !! j = Some rec →
           ∃ prev retried,
             StagingEngine.results_after_pass first log (S j) = Some prev
             ∧ StagingEngine.pass_no rec = (j + 2)%nat
             ∧ NoDup retried
             ∧ (∀ e, e ∈ retried
                     ↔ ∃ r, Py.dict_get e prev = Some r
                            ∧ StagingEngine.holds_fk_error r)
             ∧ StagingEngine.errors_before rec
               = StagingEngine.error_total prev retried
             ∧ StagingEngine.errors_after rec
               = StagingEngine.error_total (StagingEngine.results_after rec)
                   retried)
  | StagingEngine.Raised exc pass =>
      StagingEngine.stage_all World read_excel_data transform_entity
        write_staged new_transformer staging_dir sheets ingestion_order w
      = StagingEngine.Raised exc pass
      ∧ (1 ≤ pass)%nat ∧ (pass ≤ 5)%nat
  | StagingEngine.KeyError | StagingEngine.OutOfFuel => False
  end.
Proof.
  unfold StagingEngine.stage_all, StagingEngine.stage_all_traced.
  pose proof (first_pass_keys World read_excel_data transform_entity
                write_staged new_transformer staging_dir
                (StagingEngine.entity_to_config sheets) ingestion_order w)
    as Hfirst.
  destruct (StagingEngine.first_pass _ _ _ _ _ _ _ _) as [[first w1]|exc];
    [|split; [done|lia]].
  destruct (Hfirst first w1 eq_refl) as [Hnd Hkeys].
  pose proof (retry_loop_spec World read_excel_data transform_entity
                write_staged new_transformer staging_dir
                StagingEngine.max_passes
                (StagingEngine.entity_to_config sheets) 2 first w1) as Hloop.
  destruct (StagingEngine.retry_loop _ _ _ _ _ _ _ _ _ _ _)
    as [[[final w'] log]|exc p| |].
  - destruct Hloop as (Hlen & Hlast & HQ & HR);
      [by intros e [_ ?]%Hkeys|done|unfold StagingEngine.max_passes; lia..|].
    split; [done|]. split; [simpl in Hlen; lia|]. split.
    { unfold StagingEngine.results_after_pass. rewrite last_lookup in Hlast.
      simpl in Hlast. rewrite length_fmap in Hlast.
      by replace (1 + length log - 1)%nat with (length log) by lia. }
    split.
    + intros p rs Hp1 Hp5 Hrs. unfold StagingEngine.results_after_pass in Hrs.
      specialize (HQ (p - 1)%nat rs Hrs ltac:(lia)). split.
      * intros ->. destruct (proj1 HQ ltac:(lia))
          as [?|(j & rec & Hj & Hrec & Hn)]; [by left|].
        right. exists rec. split; [lia|]. split; [|done].
        by replace (1 + length log - 2)%nat with j by lia.
      * intros [Hc|(rec & Hp2 & Hrec & Hn)].
        -- enough (p - 1 = length log)%nat by lia. apply HQ. by left.
        -- enough (p - 1 = length log)%nat by lia. apply HQ. right.
           exists (p - 2)%nat, rec. split; [lia|done].
    + intros j rec Hj.
      destruct (HR j rec Hj) as (prev & retried & Hprev & Hno & ?).
      exists prev, retried. unfold StagingEngine.results_after_pass.
      replace (S j - 1)%nat with j by lia. split; [done|]. split; [lia|done].
  - destruct Hloop as [? ?];
      [by intros e [_ ?]%Hkeys|done|unfold StagingEngine.max_passes; lia..|].
    split; [done|]. lia.
  - apply Hloop;
      [by intros e [_ ?]%Hkeys|done|unfold StagingEngine.max_passes; lia..].
  - apply Hloop;
      [by intros e [_ ?]%Hkeys|done|unfold StagingEngine.max_passes; lia..].
Qed.

(** ** Topological order (cds_parser.topo_sort) *)

Section topo_graph.
Import TopoSort.

Implicit Types (deps : list (string * list string)).
Implicit Types (acc : gmap string (gset string) * gmap string (gset string)).

Lemma elem_of_concat {A} (x : A) (ls : list (list A)) :
  x ∈ concat ls ↔ ∃ l, x ∈ l ∧ l ∈ ls.
Proof.
  induction ls as [|l ls IH]; simpl.
  - split; [by intros ?%elem_of_nil|]. by intros (? & _ & ?%elem_of_nil).
  - rewrite elem_of_app, IH. split.
    + intros [?|(l' & ? & ?)]; [exists l; split; [done|left]|].
      exists l'. split; [done|by right].
    + intros (l' & ? & [->|?]%elem_of_cons); [by left|right; eauto].
Qed.

Lemma depends_on_nodes deps A B :
  depends_on deps A B → A ∈ nodes deps ∧ B ∈ nodes deps.
Proof.
  intros (vs & Hin & HB). unfold nodes. split.
  - apply elem_of_union_l, elem_of_list_to_set, list_elem_of_fmap.
    by exists (A, vs).
  - apply elem_of_union_r, elem_of_list_to_set, elem_of_concat.
    exists vs. split; [done|]. apply list_elem_of_fmap. by exists (A, vs).
Qed.

Lemma depends_on_cons deps item A B :
  depends_on (item :: deps) A B
  ↔ (A = item.1 ∧ B ∈ item.2) ∨ depends_on deps A B.
Proof.
  unfold depends_on. split.
  - intros (vs & [<-|Hin]%elem_of_cons & HB); [by left|right; eauto].
  - intros [[-> HB]|(vs & Hin & HB)].
    + exists item.2. split; [|done]. destruct item. left.
    + exists vs. split; [by right|done].
Qed.

Lemma add_edge_fold_incoming n vs acc k :
  (foldl (add_edge n) acc vs).1 !! k
  = if decide (k = n) then (fun I => list_to_set vs ∪ I) <$> acc.1 !! k
    else acc.1 !! k.
Proof.
  revert acc. induction vs as [|v vs IH]; intros acc; cbn [foldl].
  - case_decide; [|done]. destruct (acc.1 !! k) as [I|]; simpl; [|done].
    f_equal. set_solver.
  - rewrite IH. unfold add_edge. cbn [fst snd]. case_decide as Hk; [subst|].
    + rewrite lookup_alter_eq. destruct (acc.1 !! n) as [I|]; simpl; [|done].
      f_equal. set_solver.
    + by rewrite lookup_alter_ne.
Qed.

Lemma add_edge_fold_outgoing n vs acc k :
  (foldl (add_edge n) acc vs).2 !! k
  = if decide (k ∈ vs) then (fun O => {[n]} ∪ O) <$> acc.2 !! k
    else acc.2 !! k.
Proof.
  revert acc. induction vs as [|v vs IH]; intros acc; cbn [foldl].
  - rewrite decide_False; [done|]. apply not_elem_of_nil.
  - rewrite IH. unfold add_edge. cbn [fst snd].
    destruct (decide (k = v)) as [->|Hne].
    + rewrite lookup_alter_eq. rewrite (decide_True (P := v ∈ v :: vs)) by left.
      destruct (acc.2 !! v) as [O|]; simpl; [|by case_decide].
      case_decide; simpl; f_equal; set_solver.
    + rewrite lookup_alter_ne by done.
      destruct (decide (k ∈ vs)) as [Hin|Hnin].
      * by rewrite (decide_True (P := k ∈ v :: vs)) by by right.
      * rewrite (decide_False (P := k ∈ v :: vs)); [done|].
        by intros [?|?]%elem_of_cons.
Qed.

(** After the edges of [ds] are added, a node's incoming set has gained its
    dependencies in [ds] and its outgoing set its dependents in [ds]. *)
Lemma add_edges_spec ds acc k :
  (∀ I, acc.1 !! k = Some I →
     ∃ I', (add_edges ds acc).1 !! k = Some I'
           ∧ ∀ v, v ∈ I' ↔ v ∈ I ∨ depends_on ds k v)
  ∧ (∀ O, acc.2 !! k = Some O →
       ∃ O', (add_edges ds acc).2 !! k = Some O'
             ∧ ∀ m, m ∈ O' ↔ m ∈ O ∨ depends_on ds m k).
Proof.
  unfold add_edges. revert acc.
  induction ds as [|[n vs] ds IH]; intros acc; cbn [foldl fst snd].
  - split; intros X HX; exists X; (split; [done|]); intros x;
      (split; [auto|]); intros [?|(? & Hnil & _)]; try done;
      by apply elem_of_nil in Hnil.
  - specialize (IH (foldl (add_edge n) acc vs)). destruct IH as [IHi IHo].
    split.
    + intros I HI.
      pose proof (add_edge_fold_incoming n vs acc k) as Hk. rewrite HI in Hk.
      destruct (decide (k = n)) as [->|Hne]; simpl in Hk.
      * destruct (IHi _ Hk) as (I' & -> & HI'). exists I'. split; [done|].
        intros v. rewrite HI', depends_on_cons. simpl. set_solver.
      * destruct (IHi _ Hk) as (I' & -> & HI'). exists I'. split; [done|].
        intros v. rewrite HI', depends_on_cons. simpl. naive_solver.
    + intros O HO.
      pose proof (add_edge_fold_outgoing n vs acc k) as Hk. rewrite HO in Hk.
      destruct (decide (k ∈ vs)) as [Hin|Hnin]; simpl in Hk.
      * destruct (IHo _ Hk) as (O' & -> & HO'). exists O'. split; [done|].
        intros m. rewrite HO', depends_on_cons. simpl. set_solver.
      * destruct (IHo _ Hk) as (O' & -> & HO'). exists O'. split; [done|].
        intros m. rewrite HO', depends_on_cons. simpl. naive_solver.
Qed.

End topo_graph.

Lemma elem_of_bool_filter {A} (f : A → bool) (l : list A) x :
  x ∈ List.filter f l ↔ x ∈ l ∧ f x = true.
Proof. by rewrite !list_elem_of_In, filter_In. Qed.

Lemma NoDup_bool_filter {A} (f : A → bool) (l : list A) :
  NoDup l → NoDup (List.filter f l).
Proof.
  induction 1 as [|x l Hx Hnd IH]; simpl; [constructor|].
  destruct (f x); [|done]. constructor; [|done].
  rewrite elem_of_bool_filter. tauto.
Qed.

Section topo_relax.
Import TopoSort.

Lemma sort_names_Sorted l : Sorted String.le (sort_names l).
Proof. apply (Sorted_merge_sort String.le). Qed.

Lemma sort_names_Permutation l : sort_names l ≡ₚ l.
Proof. apply (merge_sort_Permutation String.le). Qed.

Lemma set_remove_Some x (X : gset string) :
  x ∈ X → set_remove x X = Some (X ∖ {[x]}).
Proof. intros. unfold set_remove. by rewrite decide_True. Qed.

(** The inner loop over the dependents [ms] of the emitted node [n]: it
    raises no [KeyError], takes [n] out of the incoming set of each of them,
    empties them out of [outgoing[n]], and adds to the sorted ready list
    exactly those whose incoming set was [{n}]. *)
Lemma relax_spec n ms st :
  NoDup ms →
  (∃ O, outgoing st !! n = Some O ∧ ∀ m, m ∈ ms → m ∈ O) →
  (∀ m, m ∈ ms → ∃ I, incoming st !! m = Some I ∧ n ∈ I) →
  ∃ st',
    relax n ms st = Some st'
    ∧ order st' = order st
    ∧ (∀ k, incoming st' !! k
            = if decide (k ∈ ms)
              then (fun I => I ∖ {[n]}) <$> incoming st !! k
              else incoming st !! k)
    ∧ (∀ k, outgoing st' !! k
            = if decide (k = n)
              then (fun O => O ∖ list_to_set ms) <$> outgoing st !! k
              else outgoing st !! k)
    ∧ (Sorted String.le (ready st) → Sorted String.le (ready st'))
    ∧ ready st'
        ≡ₚ ready st
           ++ List.filter
                (fun m => bool_decide (incoming st !! m = Some {[n]})) ms.
Proof.
  revert st. induction ms as [|m ms IH]; intros st Hnd (O & HO & HmsO) Hinc.
  - exists st. split; [done|]. split; [done|]. split.
    { intros k. rewrite decide_False; [done|]. apply not_elem_of_nil. }
    split.
    { intros k. case_decide; [subst|done]. rewrite HO. simpl. f_equal.
      set_solver. }
    split; [done|]. simpl. by rewrite app_nil_r.
  - apply NoDup_cons in Hnd as [Hm Hnd].
    destruct (Hinc m) as (I & HI & HnI); [left|].
    cbn [relax]. rewrite HO, (set_remove_Some m O) by (apply HmsO; left).
    rewrite HI, (set_remove_Some n I) by done.
    set (st1 := {| incoming := _; outgoing := _; ready := _; order := _ |}).
    destruct (IH st1 Hnd) as (st' & Hrel & Hord & Hin' & Hout' & Hsort & Hperm).
    { exists (O ∖ {[m]}). split; [apply lookup_insert_eq|].
      intros m' Hm'. apply elem_of_difference. split; [apply HmsO; by right|].
      rewrite elem_of_singleton. by intros ->. }
    { intros m' Hm'. destruct (Hinc m') as (I' & HI' & ?); [by right|].
      exists I'. split; [|done]. subst st1. cbn [incoming].
      rewrite lookup_insert_ne; [done|]. by intros ->. }
    exists st'. split; [done|]. split; [done|]. split; [|split; [|split]].
    + intros k. rewrite Hin'. subst st1. cbn [incoming].
      destruct (decide (k = m)) as [->|Hne].
      * rewrite decide_False by done. rewrite lookup_insert_eq.
        rewrite (decide_True (P := m ∈ m :: ms)) by left. by rewrite HI.
      * rewrite lookup_insert_ne by done.
        destruct (decide (k ∈ ms)) as [Hk|Hk].
        -- by rewrite (decide_True (P := k ∈ m :: ms)) by by right.
        -- rewrite (decide_False (P := k ∈ m :: ms)); [done|].
           by intros [?|?]%elem_of_cons.
    + intros k. rewrite Hout'. subst st1. cbn [outgoing].
      destruct (decide (k = n)) as [->|Hne]; [|by rewrite lookup_insert_ne].
      rewrite lookup_insert_eq, HO. simpl. f_equal. set_solver.
    + intros Hs. apply Hsort. subst st1. cbn [ready].
      case_decide; [apply sort_names_Sorted|done].
    + rewrite Hperm. subst st1. cbn [ready incoming].
      rewrite (filter_ext_in
                 (fun m0 => bool_decide (<[m:=I ∖ {[n]}]> (incoming st) !! m0
                                         = Some {[n]}))
                 (fun m0 => bool_decide (incoming st !! m0 = Some {[n]}))).
      2:{ intros m' Hm'%list_elem_of_In. rewrite lookup_insert_ne; [done|].
          by intros ->. }
      cbn [List.filter]. rewrite HI.
      destruct (decide (I ∖ {[n]} = ∅)) as [Hemp|Hnemp].
      * rewrite bool_decide_eq_true_2.
        2:{ f_equal. apply set_eq. intros x. rewrite elem_of_singleton.
            split; [|by intros ->]. intros Hx.
            destruct (decide (x = n)) as [|Hxn]; [done|].
            assert (x ∈ I ∖ {[n]}) as Hx' by set_solver.
            rewrite Hemp in Hx'. by apply not_elem_of_empty in Hx'. }
        rewrite sort_names_Permutation.
        rewrite <- app_assoc. done.
      * rewrite bool_decide_eq_false_2; [done|].
        intros [= ->]. apply Hnemp. set_solver.
Qed.

End topo_relax.

Section topo_kahn.
Import TopoSort.

Context (deps : list (string * list string)).
Context (enum : gset string → list string).
Hypothesis enum_perm : ∀ X, enum X ≡ₚ elements X.

Lemma enum_elem X x : x ∈ enum X ↔ x ∈ X.
Proof. by rewrite enum_perm, elem_of_elements. Qed.

Lemma enum_NoDup X : NoDup (enum X).
Proof. rewrite enum_perm. apply NoDup_elements. Qed.

Lemma snoc_split {A} (pre post o : list A) x n :
  pre ++ x :: post = o ++ [n] →
  (post = [] ∧ pre = o ∧ x = n)
  ∨ ∃ post', post = post' ++ [n] ∧ o = pre ++ x :: post'.
Proof.
  destruct post as [|p post] using rev_ind.
  - intros [-> ->]%(app_inj_tail pre o x n). by left.
  - clear IHpost.
    replace (pre ++ x :: post ++ [p]) with ((pre ++ x :: post) ++ [p])
      by by rewrite <- app_assoc.
    intros [<- ->]%app_inj_tail. right. by exists post.
Qed.

(** Emitted nodes have all their dependencies emitted. *)
Lemma emitted_closed o x d :
  emitted_in_order deps o → x ∈ o → depends_on deps x d → d ∈ o.
Proof.
  intros Hem (pre & post & ->)%list_elem_of_split Hd.
  destruct (Hem pre x post eq_refl) as [(_ & _ & Hdeps) _].
  apply elem_of_app. left. by apply Hdeps.
Qed.

Lemma emitted_nodes o x : emitted_in_order deps o → x ∈ o → x ∈ nodes deps.
Proof.
  intros Hem (pre & post & ->)%list_elem_of_split.
  by destruct (Hem pre x post eq_refl) as [(? & _) _].
Qed.

Lemma initial_state_inv : kahn_inv deps (initial_state enum deps).
Proof.
  unfold initial_state.
  destruct (add_edges deps (empty_sets (nodes deps), empty_sets (nodes deps)))
    as [inc out] eqn:Hedges.
  assert (Hinc : ∀ k, k ∈ nodes deps →
            ∃ I, inc !! k = Some I ∧ ∀ v, v ∈ I ↔ depends_on deps k v).
  { intros k Hk.
    destruct (proj1 (add_edges_spec deps
                       (empty_sets (nodes deps), empty_sets (nodes deps)) k) ∅)
      as (I & HI & HIv).
    { simpl. unfold empty_sets. rewrite lookup_gset_to_gmap.
      by rewrite option_guard_True. }
    rewrite Hedges in HI. exists I. split; [done|]. intros v. rewrite HIv.
    set_solver. }
  assert (Hout : ∀ k, k ∈ nodes deps →
            ∃ O, out !! k = Some O ∧ ∀ m, m ∈ O ↔ depends_on deps m k).
  { intros k Hk.
    destruct (proj2 (add_edges_spec deps
                       (empty_sets (nodes deps), empty_sets (nodes deps)) k) ∅)
      as (O & HO & HOm).
    { simpl. unfold empty_sets. rewrite lookup_gset_to_gmap.
      by rewrite option_guard_True. }
    rewrite Hedges in HO. exists O. split; [done|]. intros m. rewrite HOm.
    set_solver. }
  unfold kahn_inv. cbn [incoming outgoing ready order].
  split; [|split; [|split; [|split; [|split; [|split]]]]].
  - intros k Hk. destruct (Hinc k Hk) as (I & ? & HI). exists I.
    split; [done|]. intros v. rewrite HI. split; [|tauto].
    intros ?. split; [done|]. apply not_elem_of_nil.
  - intros k Hk. destruct (Hout k Hk) as (O & ? & HO). exists O.
    split; [done|]. intros m. rewrite HO. split; [|tauto].
    intros ?. split; [done|]. apply not_elem_of_nil.
  - apply sort_names_Sorted.
  - rewrite sort_names_Permutation. apply NoDup_bool_filter, enum_NoDup.
  - intros x. rewrite sort_names_Permutation, elem_of_bool_filter.
    rewrite enum_elem, bool_decide_eq_true.
    unfold ready_after. split.
    + intros [Hx Hemp]. split; [done|]. split; [apply not_elem_of_nil|].
      intros d Hd. destruct (Hinc x Hx) as (I & HI & HIv).
      rewrite HI in Hemp. injection Hemp as ->.
      apply HIv in Hd. by apply not_elem_of_empty in Hd.
    + intros (Hx & _ & Hnone). split; [done|].
      destruct (Hinc x Hx) as (I & -> & HIv). f_equal.
      apply set_eq. intros v. rewrite HIv. split.
      * intros Hd. by apply Hnone, elem_of_nil in Hd.
      * by intros ?%not_elem_of_empty.
  - apply NoDup_nil_2.
  - intros pre n post Heq. by destruct pre.
Qed.

(** One iteration of the [while] loop keeps the invariant and emits the
    head of the ready list. *)
Lemma kahn_step st n S' :
  kahn_inv deps st → ready st = n :: S' →
  ∃ O st',
    outgoing st !! n = Some O
    ∧ relax n (enum O)
        {| incoming := incoming st; outgoing := outgoing st;
           ready := S'; order := order st ++ [n] |} = Some st'
    ∧ order st' = order st ++ [n]
    ∧ n ∈ nodes deps ∧ (n ∉ order st)
    ∧ kahn_inv deps st'.
Proof.
  intros (Hin & Hout & Hsorted & Hnd & Hready & Hndo & Hem) HS.
  rewrite HS in Hsorted, Hnd, Hready.
  assert (Hn : ready_after deps (order st) n) by (apply Hready; left).
  destruct Hn as (HnN & Hno & Hndeps).
  destruct (Hout n HnN) as (O & HO & HOm).
  assert (HOdep : ∀ m, m ∈ O ↔ depends_on deps m n).
  { intros m. rewrite HOm. tauto. }
  apply NoDup_cons in Hnd as [HnS' HndS'].
  assert (Hleast : ∀ x, x ∈ S' → String.le n x).
  { apply Sorted_StronglySorted in Hsorted; [|apply _].
    apply StronglySorted_inv in Hsorted as [_ Hall].
    intros x Hx. by eapply Forall_forall in Hall. }
  set (st1 := {| incoming := incoming st; outgoing := outgoing st;
                 ready := S'; order := order st ++ [n] |}).
  destruct (relax_spec n (enum O) st1)
    as (st' & Hrel & Hord & Hin' & Hout' & Hsort' & Hperm).
  { apply enum_NoDup. }
  { exists O. split; [done|]. intros m. by rewrite enum_elem. }
  { intros m Hm%enum_elem%HOdep.
    destruct (Hin m) as (I & HI & HIv); [by apply (depends_on_nodes deps m n)|].
    exists I. split; [done|]. by apply HIv. }
  exists O, st'. split; [done|]. split; [done|]. split; [done|].
  split; [done|]. split; [done|].
  subst st1. cbn [incoming outgoing ready order] in *.
  assert (Hnew : ∀ x, x ∈ ready st'
            ↔ x ∈ S' ∨ (depends_on deps x n ∧ incoming st !! x = Some {[n]})).
  { intros x. rewrite Hperm, elem_of_app, elem_of_bool_filter, enum_elem.
    rewrite bool_decide_eq_true, HOdep. done. }
  unfold kahn_inv. rewrite Hord.
  split; [|split; [|split; [|split; [|split; [|split]]]]].
  - intros k Hk. destruct (Hin k Hk) as (I & HI & HIv).
    rewrite Hin', HI. destruct (decide (k ∈ enum O)) as [Hkm|Hkm].
    + exists (I ∖ {[n]}). split; [done|]. intros v.
      rewrite elem_of_difference, HIv, not_elem_of_app, elem_of_singleton,
        list_elem_of_singleton. tauto.
    + exists I. split; [done|]. intros v.
      rewrite HIv, not_elem_of_app, list_elem_of_singleton.
      split; [|tauto]. intros [Hd ?]. split; [done|]. split; [done|].
      intros ->. by apply Hkm, enum_elem, HOdep.
  - intros k Hk. destruct (Hout k Hk) as (Ok & HOk & HOkm).
    rewrite Hout'. destruct (decide (k = n)) as [->|Hne].
    + rewrite HO. exists (O ∖ list_to_set (enum O)). split; [done|].
      intros m. rewrite elem_of_difference, elem_of_list_to_set, enum_elem.
      rewrite not_elem_of_app, list_elem_of_singleton. tauto.
    + exists Ok. split; [done|]. intros m.
      rewrite HOkm, not_elem_of_app, list_elem_of_singleton. tauto.
  - apply Hsort'. by apply Sorted_inv in Hsorted as [? _].
  - rewrite Hperm. apply NoDup_app. split; [done|]. split.
    + intros x Hx [Hxm _]%elem_of_bool_filter.
      apply enum_elem, HOdep in Hxm.
      assert (ready_after deps (order st) x) as (_ & _ & Hxdeps)
        by (apply Hready; by right).
      by apply Hno, Hxdeps.
    + apply NoDup_bool_filter, enum_NoDup.
  - intros x. rewrite Hnew. unfold ready_after.
    rewrite not_elem_of_app, list_elem_of_singleton. split.
    + intros [Hx|[Hxn Hxi]].
      * assert (ready_after deps (order st) x) as (? & ? & Hxdeps)
          by (apply Hready; by right).
        split; [done|]. split; [split; [done|by intros ->]|].
        intros d Hd. apply elem_of_app. left. by apply Hxdeps.
      * assert (HxN : x ∈ nodes deps) by by apply (depends_on_nodes deps x n).
        destruct (Hin x HxN) as (I & HI & HIv). rewrite HI in Hxi.
        injection Hxi as ->.
        split; [done|]. split; [split|].
        -- intros Hxo. apply Hno. by apply (emitted_closed (order st) x n).
        -- intros ->. by apply Hno, Hndeps.
        -- intros d Hd. apply elem_of_app.
           destruct (decide (d ∈ order st)) as [|Hdo]; [by left|right].
           assert (d ∈ ({[n]} : gset string)) as ->%elem_of_singleton
             by by apply HIv.
           apply list_elem_of_singleton. done.
    + intros (HxN & [Hxo Hxn] & Hxdeps).
      destruct (decide (x ∈ O)) as [HxO|HxO].
      * right. apply HOdep in HxO. split; [done|].
        destruct (Hin x HxN) as (I & -> & HIv). f_equal. apply set_eq.
        intros v. rewrite HIv, elem_of_singleton. split.
        -- intros [Hd Hvo]. apply Hxdeps, elem_of_app in Hd as [?|Hd]; [done|].
           by apply list_elem_of_singleton in Hd.
        -- intros ->. done.
      * left. assert (x ∈ n :: S') as [?|?]%elem_of_cons; [|done..].
        apply Hready. split; [done|]. split; [done|]. intros d Hd.
        pose proof (Hxdeps d Hd) as [?|Hd']%elem_of_app; [done|].
        apply list_elem_of_singleton in Hd' as ->. exfalso.
        by apply HxO, HOdep.
  - apply NoDup_app. split; [done|]. split; [|apply NoDup_singleton].
    intros x Hx ->%list_elem_of_singleton. done.
  - intros pre x post Heq. symmetry in Heq.
    apply snoc_split in Heq as [(-> & -> & ->)|(post' & -> & Heq)].
    + split; [done|]. intros y Hy%Hready.
      apply elem_of_cons in Hy as [->|Hy]; [done|by apply Hleast].
    + by apply (Hem pre x post').
Qed.

(** The loop ends without error once it has fuel for the nodes not yet
    emitted, with the invariant and an empty ready list. *)
Lemma kahn_finishes (fuel : nat) st :
  kahn_inv deps st →
  (size (nodes deps) ≤ fuel + length (order st))%nat →
  ∃ st', kahn enum fuel st = Finished st'
         ∧ kahn_inv deps st' ∧ ready st' = [].
Proof.
  revert st. induction fuel as [|fuel IH]; intros st Hinv Hfuel.
  - destruct (ready st) as [|n S'] eqn:HS.
    { exists st. simpl. by rewrite HS. }
    exfalso. destruct (kahn_step st n S' Hinv HS)
      as (O & st' & _ & _ & _ & HnN & Hno & _).
    destruct Hinv as (_ & _ & _ & _ & _ & Hndo & Hem).
    assert (Hsub : list_to_set (n :: order st) ⊆ nodes deps).
    { intros x [->|Hx]%elem_of_list_to_set%elem_of_cons; [done|].
      by apply (emitted_nodes (order st)). }
    apply subseteq_size in Hsub. rewrite size_list_to_set in Hsub.
    + simpl in *. lia.
    + by constructor.
  - destruct (ready st) as [|n S'] eqn:HS.
    { exists st. simpl. by rewrite HS. }
    destruct (kahn_step st n S' Hinv HS)
      as (O & st' & HO & Hrel & Hord & HnN & Hno & Hinv').
    cbn [kahn]. rewrite HS. cbn [outgoing]. rewrite HO, Hrel.
    apply IH; [done|]. rewrite Hord, length_app. simpl. lia.
Qed.

End topo_kahn.

Section topo_result.
Import TopoSort.

Context (deps : list (string * list string)).

(** Two emission sequences that always take the least ready node and stop
    only when no node is ready are the same sequence. *)
Lemma emitted_unique_from pre s1 s2 :
  emitted_in_order deps (pre ++ s1) → emitted_in_order deps (pre ++ s2) →
  (∀ x, ¬ ready_after deps (pre ++ s1) x) →
  (∀ x, ¬ ready_after deps (pre ++ s2) x) →
  s1 = s2.
Proof.
  revert pre s2. induction s1 as [|x s1 IH]; intros pre [|y s2] H1 H2 N1 N2.
  - done.
  - exfalso. rewrite app_nil_r in N1. apply (N1 y).
    by destruct (H2 pre y s2 eq_refl).
  - exfalso. rewrite app_nil_r in N2. apply (N2 x).
    by destruct (H1 pre x s1 eq_refl).
  - destruct (H1 pre x s1 eq_refl) as [Hx Hxl].
    destruct (H2 pre y s2 eq_refl) as [Hy Hyl].
    assert (x = y) as <-.
    { apply (anti_symm String.le); [by apply Hxl|by apply Hyl]. }
    f_equal. apply (IH (pre ++ [x])); by rewrite <- app_assoc.
Qed.

Lemma emitted_chains_end o x :
  emitted_in_order deps o → x ∈ o → chains_end deps x.
Proof.
  intros Hem.
  enough (Hall : ∀ pre post, o = pre ++ post → ∀ y, y ∈ pre → chains_end deps y).
  { intros Hx. apply (Hall o [] (eq_sym (app_nil_r o)) x Hx). }
  induction pre as [|z pre IH] using rev_ind; intros post Heq y Hy.
  - by apply elem_of_nil in Hy.
  - rewrite <- app_assoc in Heq. simpl in Heq.
    apply elem_of_app in Hy as [Hy|Hy%list_elem_of_singleton].
    + by apply (IH (z :: post)).
    + subst y. destruct (Hem pre z post Heq) as [(_ & _ & Hdeps) _].
      constructor. intros d Hd. apply (IH (z :: post) Heq). by apply Hdeps.
Qed.

Lemma chains_end_emitted o x :
  (∀ y, ¬ ready_after deps o y) →
  x ∈ nodes deps → chains_end deps x → x ∈ o.
Proof.
  intros Hnone Hx Hacc. induction Hacc as [x _ IH].
  destruct (decide (x ∈ o)) as [|Hxo]; [done|]. exfalso.
  apply (Hnone x). split; [done|]. split; [done|].
  intros d Hd. apply IH; [done|]. by apply (depends_on_nodes deps x d).
Qed.

Lemma precedes_prefix (pre post : list string) B A :
  B ∈ pre → A ∈ post → precedes (pre ++ post) B A.
Proof.
  intros (i & Hi)%list_elem_of_lookup (j & Hj)%list_elem_of_lookup.
  exists i, (length pre + j)%nat. split; [by apply lookup_app_l_Some|].
  split.
  - rewrite lookup_app_r by lia. by replace (length pre + j - length pre)%nat
      with j by lia.
  - apply lookup_lt_Some in Hi. lia.
Qed.

Context (enum : gset string → list string).
Hypothesis enum_perm : ∀ X, enum X ≡ₚ elements X.

(** The shape of the result, for one iteration order of the sets. *)
Lemma topo_sort_shape :
  ∃ resolved rest,
    topo_sort enum deps = Some (resolved ++ rest)
    ∧ emitted_in_order deps resolved
    ∧ (∀ x, ¬ ready_after deps resolved x)
    ∧ NoDup resolved
    ∧ Sorted String.le rest ∧ NoDup rest
    ∧ (∀ x, x ∈ rest ↔ x ∈ nodes deps ∧ x ∉ resolved).
Proof.
  destruct (kahn_finishes deps enum enum_perm (size (nodes deps))
              (initial_state enum deps)) as (st & Hk & Hinv & Hready).
  { by apply initial_state_inv. }
  { lia. }
  destruct Hinv as (_ & _ & _ & _ & Hr & Hnd & Hem).
  exists (order st), (sort_names
                        (List.filter (fun n => negb (Py.in_list n (order st)))
                           (enum (nodes deps)))).
  split; [unfold topo_sort; by rewrite Hk|]. split; [done|]. split.
  { intros x Hx%Hr. rewrite Hready in Hx. by apply elem_of_nil in Hx. }
  split; [done|]. split; [apply sort_names_Sorted|]. split.
  { rewrite sort_names_Permutation.
    apply NoDup_bool_filter, enum_NoDup, enum_perm. }
  intros x. rewrite sort_names_Permutation, elem_of_bool_filter.
  rewrite (enum_elem enum enum_perm), negb_true_iff.
  unfold Py.in_list. by rewrite bool_decide_eq_false.
Qed.

End topo_result.

(** C1, as the code has it.  Whatever order the sets are iterated in,
    [topo_sort] returns (no [KeyError], the loop ends) the same list for a
    given dependency map: the resolved nodes, each of them the lexically
    least node that was ready when it was emitted, followed by the remaining
    nodes sorted lexically; every node occurs once.  A node is resolved
    exactly when every chain of dependencies starting from it is finite, so
    the members of cycles, and the nodes that depend on them, are among the
    remaining ones.  If [A] depends on [B] and every chain of dependencies
    from [B] is finite, then [B] comes before [A]. *)
Theorem C1_topo_sort_order
    (deps : list (string * list string)) (enum : gset string → list string) :
  (∀ X, enum X ≡ₚ elements X) →
  ∃ resolved rest,
    TopoSort.topo_sort enum deps = Some (resolved ++ rest)
    ∧ NoDup (resolved ++ rest)
    ∧ (∀ x, x ∈ resolved ++ rest ↔ x ∈ TopoSort.nodes deps)
    ∧ TopoSort.emitted_in_order deps resolved
    ∧ (∀ x, x ∈ resolved
            ↔ x ∈ TopoSort.nodes deps ∧ TopoSort.chains_end deps x)
    ∧ Sorted String.le rest
    ∧ (∀ A B, TopoSort.depends_on deps A B → TopoSort.chains_end deps B →
              TopoSort.precedes (resolved ++ rest) B A)
    ∧ (∀ enum', (∀ X, enum' X ≡ₚ elements X) →
                TopoSort.topo_sort enum' deps = Some (resolved ++ rest)).
Proof.
  intros Henum.
  destruct (topo_sort_shape deps enum Henum)
    as (resolved & rest & Hres & Hem & Hnone & Hnd & Hsorted & Hndr & Hrest).
  assert (Hresolved : ∀ x, x ∈ resolved
            ↔ x ∈ TopoSort.nodes deps ∧ TopoSort.chains_end deps x).
  { intros x. split.
    - intros Hx. split; [by apply (emitted_nodes deps resolved)|].
      by apply (emitted_chains_end deps resolved).
    - intros [? ?]. by apply (chains_end_emitted deps). }
  exists resolved, rest. split; [done|]. split.
  { apply NoDup_app. split; [done|]. split; [|done].
    intros x Hx [_ Hx']%Hrest. done. }
  split.
  { intros x. rewrite elem_of_app, Hrest. split.
    - intros [Hx|[? _]]; [by apply (emitted_nodes deps resolved)|done].
    - intros Hx. destruct (decide (x ∈ resolved)); [by left|by right]. }
  split; [done|]. split; [done|]. split; [done|]. split.
  - intros A B Hdep HB.
    destruct (depends_on_nodes deps A B Hdep) as [HA HBn].
    assert (HBr : B ∈ resolved) by (by apply Hresolved).
    destruct (decide (A ∈ resolved)) as [HAr|HAr].
    + apply list_elem_of_split in HAr as (pre & post & ->).
      destruct (Hem pre A post eq_refl) as [(_ & _ & Hdeps) _].
      rewrite <- app_assoc. apply precedes_prefix; [by apply Hdeps|left].
    + apply precedes_prefix; [done|]. by apply Hrest.
  - intros enum' Henum'.
    destruct (topo_sort_shape deps enum' Henum')
      as (resolved' & rest' & -> & Hem' & Hnone' & Hnd' & Hsorted' & Hndr'
          & Hrest').
    assert (resolved' = resolved) as ->.
    { by apply (emitted_unique_from deps []). }
    do 2 f_equal. apply (Sorted_unique String.le); [done..|].
    apply NoDup_Permutation; [done..|]. intros x. by rewrite Hrest, Hrest'.
Qed.

Lemma C1_topo_sort_order_witness :
  ∃ resolved rest,
    TopoSort.topo_sort elements Samples.deps_sample = Some (resolved ++ rest)
    ∧ TopoSort.topo_sort Samples.reverse_enum Samples.deps_sample
      = Some (resolved ++ rest)
    ∧ ∀ A B, TopoSort.depends_on Samples.deps_sample A B →
             TopoSort.chains_end Samples.deps_sample B →
             TopoSort.precedes (resolved ++ rest) B A.
Proof.
  destruct (C1_topo_sort_order Samples.deps_sample elements)
    as (resolved & rest & Hres & _ & _ & _ & _ & _ & Hprec & Hdet).
  { intros X. reflexivity. }
  exists resolved, rest. split; [exact Hres|]. split; [|exact Hprec].
  apply Hdet. intros X. unfold Samples.reverse_enum. apply reverse_Permutation.
Defined.

Example topo_sort_sample :
  TopoSort.topo_sort elements Samples.deps_sample
  = Some ["CLUSTERS"; "LOCATIONS"; "SPVS"; "PROJECTS"; "X"; "Y"]
  ∧ TopoSort.topo_sort Samples.reverse_enum Samples.deps_sample
    = Some ["CLUSTERS"; "LOCATIONS"; "SPVS"; "PROJECTS"; "X"; "Y"].
Proof. split; vm_compute; reflexivity. Qed.

(** C1 as stated fails: [A] depends on [B], no cycle passes through both
    ([B] does not depend on [A], not even through other entities), and yet
    [A] is placed before [B], because [B] lies on a cycle with [C] and all
    three entities are appended in lexical order. *)
Lemma C1_counterexample :
  TopoSort.depends_on Samples.deps_behind_cycle "A" "B"
  ∧ ¬ tc (TopoSort.depends_on Samples.deps_behind_cycle) "B" "A"
  ∧ TopoSort.topo_sort elements Samples.deps_behind_cycle
    = Some ["A"; "B"; "C"]
  ∧ ¬ TopoSort.precedes ["A"; "B"; "C"] "B" "A".
Proof.
  split; [|split; [|split]].
  - exists ["B"]. split; [left|left].
  - assert (Hstep : ∀ x y,
              TopoSort.depends_on Samples.deps_behind_cycle x y →
              x = "B" ∨ x = "C" → y = "B" ∨ y = "C").
    { intros x y (vs & Hin & Hy) Hx. unfold Samples.deps_behind_cycle in Hin.
      repeat (apply elem_of_cons in Hin as [Hin|Hin];
              [injection Hin as -> ->|]);
        [| | |by apply elem_of_nil in Hin].
      - by destruct Hx.
      - apply list_elem_of_singleton in Hy. by right.
      - apply list_elem_of_singleton in Hy. by left. }
    assert (Hreach : ∀ x y,
              tc (TopoSort.depends_on Samples.deps_behind_cycle) x y →
              x = "B" ∨ x = "C" → y = "B" ∨ y = "C").
    { induction 1 as [x y Hxy|x y z Hxy _ IH]; intros Hx; [by eapply Hstep|].
      apply IH. by eapply Hstep. }
    intros Hba. by destruct (Hreach _ _ Hba (or_introl eq_refl)).
  - vm_compute. reflexivity.
  - intros (i & j & Hi & Hj & Hlt).
    destruct i as [|[|[|i]]]; simpl in Hi; try done.
    destruct j as [|[|[|j]]]; simpl in Hj; try done. lia.
Qed.

Lemma C2_stage_all_stops_within_five_passes_witness :
  ∃ final w' first log,
    StagingEngine.stage_all_traced nat (Samples.toy_read_excel 3)
      (Samples.toy_transform 5 1) Samples.toy_write S "staging"
      [Samples.so_sheet] ["VENDORS"; "SERVICEORDERS"] 0
      = StagingEngine.Returned (final, w', (first, log))
    ∧ (1 + length log ≤ 5)%nat
    ∧ StagingEngine.results_after_pass first log (1 + length log) = Some final.
Proof.
  pose proof (C2_stage_all_stops_within_five_passes nat
                (Samples.toy_read_excel 3) (Samples.toy_transform 5 1)
                Samples.toy_write S "staging" [Samples.so_sheet]
                ["VENDORS"; "SERVICEORDERS"] 0) as Hrun.
  destruct (StagingEngine.stage_all_traced nat (Samples.toy_read_excel 3)
              (Samples.toy_transform 5 1) Samples.toy_write S "staging"
              [Samples.so_sheet] ["VENDORS"; "SERVICEORDERS"] 0)
    as [[[final w'] [first log]]|exc p| |] eqn:Htrace.
  - destruct Hrun as (_ & Hlen & Hlast & _).
    exists final, w', first, log.
    split; [reflexivity|]. split; [exact Hlen|exact Hlast].
  - vm_compute in Htrace. discriminate.
  - destruct Hrun.
  - destruct Hrun.
Defined.

(** A run that an exception ends.  The schema declares ORDERS without a
    CSV file and the mapping has a sheet for it: [transform_entity] raises
    in pass 1, and the exception leaves [stage_all]. *)
Example stage_all_raises :
  StagingEngine.stage_all Transformer.state Samples.unfiled_read
    Samples.unfiled_transform Samples.unfiled_write id "staging"
    [Samples.unfiled_sheet] ["CUSTOMERS"; "ORDERS"] Samples.fresh_state
  = StagingEngine.Raised "AttributeError" 1.
Proof. vm_compute. reflexivity. Qed.

(** Runs of the toy engine: convergence after four passes; no improvement
    in pass 3; no improvement in pass 2; and five passes used up with one
    error left. *)
Example stage_all_runs :
  Samples.toy_run 3 5 1 = Some ([0], [(2, 3, 2); (3, 2, 1); (4, 1, 0)])
  ∧ Samples.toy_run 3 1 1 = Some ([2], [(2, 3, 2); (3, 2, 2)])
  ∧ Samples.toy_run 3 0 9 = Some ([3], [(2, 3, 3)])
  ∧ Samples.toy_run 5 9 1
    = Some ([1], [(2, 5, 4); (3, 4, 3); (4, 3, 2); (5, 2, 1)]).
Proof. repeat split; vm_compute; reflexivity. Qed.

(** ** Append-only writer (append_writer.py) *)

(** C7 fails on the code.  The persisted file has the header [ID,NAME] and
    one data row, and its last line has no line ending.  [append_entity]
    reports one appended row, but the text of the staged row is glued to the
    last line: the file still has one data row, not two, and the row that
    was there before has changed. *)
Theorem C7_append_glues_row_to_unterminated_line :
  AppendWriter.header_of Samples.target_unterminated = ["ID"; "NAME"]
  ∧ AppendWriter.data_rows_of Samples.target_unterminated
    = [ [("ID", Some "c-1"); ("NAME", Some "North")] ]
  ∧ AppendWriter.ends_with_newline Samples.target_unterminated = false
  ∧ (AppendWriter.append_entity Samples.the_writer "20251103_120000"
       AppendWriter.NoFault (Samples.files_with Samples.target_unterminated)
       "CLUSTERS" Samples.target_path Samples.staged_path).1
    = AppendWriter.Returns
        {| AppendWriter.res_entity := "CLUSTERS";
           AppendWriter.appended := 1;
           AppendWriter.backup :=
             Some "backups/CCTECH.DRS.ENTITIES-CLUSTERS_20251103_120000.bak.csv";
           AppendWriter.error := None |}
  ∧ Samples.target_after AppendWriter.NoFault Samples.target_unterminated
    = Some ("ID,NAME" +:+ Samples.crlf +:+ "c-1,Northc-2,South" +:+ Samples.crlf)
  ∧ (AppendWriter.data_rows_of
       <$> Samples.target_after AppendWriter.NoFault Samples.target_unterminated)
    = Some [ [("ID", Some "c-1"); ("NAME", Some "Northc-2")] ].
Proof. repeat split; vm_compute; reflexivity. Qed.

(** On the same file with its last line ended, the row is appended as the
    claim says: the staged column [REGION] is dropped, the columns follow
    the header of the target. *)
Example append_to_terminated_file :
  (AppendWriter.data_rows_of
     <$> Samples.target_after AppendWriter.NoFault Samples.target_terminated)
  = Some [ [("ID", Some "c-1"); ("NAME", Some "North")];
           [("ID", Some "c-2"); ("NAME", Some "South")] ]
  ∧ (AppendWriter.header_of
       <$> Samples.target_after AppendWriter.NoFault Samples.target_terminated)
    = Some ["ID"; "NAME"].
Proof. split; vm_compute; reflexivity. Qed.




(** ** The csv reader as one pass *)

Section csv_stream.
Import Csv.

Lemma feed_snoc p cs c :
  feed p (cs ++ [c]) = process_char (feed p cs) (Some c).
Proof. unfold feed. by rewrite foldl_app. Qed.

Lemma read_records_line p line rest :
  read_records p (line :: rest)
  = (end_of_line [] (feed p line)).1
    ++ read_records (end_of_line [] (feed p line)).2 rest.
Proof.
  cbn [read_records]. unfold process_line, end_of_line.
  by destruct (state (process_char (feed p line) None)).
Qed.

Lemma end_of_line_emitted recs p :
  end_of_line recs p = (recs ++ (end_of_line [] p).1, (end_of_line [] p).2).
Proof.
  unfold end_of_line. destruct (state (process_char p None)); simpl;
    by rewrite ?app_nil_r.
Qed.

Lemma stream_lines s :
  (∀ p0 cur recs,
     stream_finish
       (stream_run {| emitted := recs; cur := feed p0 (reverse cur);
                      mode := mode_of cur |} s)
     = recs ++ read_records p0 (lines_from cur s))
  ∧ (∀ p0 cur recs,
       stream_finish
         (stream_run {| emitted := recs; cur := feed p0 (reverse (CR :: cur));
                        mode := AfterCR |} s)
       = recs ++ read_records p0
                   match s with
                   | c' :: rest' =>
                       if Ascii.eqb c' LF
                       then reverse (c' :: CR :: cur) :: lines_from [] rest'
                       else reverse (CR :: cur) :: lines_from [] s
                   | [] => [reverse (CR :: cur)]
                   end).
Proof.
  induction s as [|c rest [IHA IHB]].
  - split; intros p0 cur recs; unfold stream_run, stream_finish; cbn [foldl].
    + destruct cur as [|x cur]; cbn [mode_of mode emitted Csv.cur lines_from].
      * done.
      * rewrite read_records_line, end_of_line_emitted.
        cbn [fst snd]. by rewrite <- app_assoc.
    + cbn [mode emitted Csv.cur].
      rewrite read_records_line, end_of_line_emitted.
      cbn [fst snd]. by rewrite <- app_assoc.
  - assert (IHA0 : ∀ p recs,
              stream_finish
                (stream_run {| emitted := recs; cur := p; mode := LineStart |}
                   rest)
              = recs ++ read_records p (lines_from [] rest)).
    { intros p recs. apply (IHA p [] recs). }
    assert (HA : ∀ p0 cur recs,
              stream_finish
                (stream_run {| emitted := recs; cur := feed p0 (reverse cur);
                               mode := mode_of cur |} (c :: rest))
              = recs ++ read_records p0 (lines_from cur (c :: rest))).
    { intros p0 cur recs. unfold stream_run. cbn [foldl].
      assert (Hstep : stream_step {| emitted := recs;
                                     cur := feed p0 (reverse cur);
                                     mode := mode_of cur |} c
                      = stream_char recs (feed p0 (reverse cur)) c).
      { unfold stream_step. by destruct cur. }
      rewrite Hstep. unfold stream_char. cbn [lines_from].
      rewrite <- feed_snoc, <- reverse_cons.
      destruct (Ascii.eqb c LF) eqn:HLF.
      - rewrite end_of_line_emitted, read_records_line.
        fold (stream_run {| emitted := recs ++ (end_of_line [] (feed p0 (reverse (c :: cur)))).1;
                            cur := (end_of_line [] (feed p0 (reverse (c :: cur)))).2;
                            mode := LineStart |} rest).
        rewrite IHA0. by rewrite <- app_assoc.
      - destruct (Ascii.eqb c CR) eqn:HCR.
        + apply Ascii.eqb_eq in HCR as ->. apply IHB.
        + apply (IHA p0 (c :: cur) recs). }
    split; [exact HA|]. intros p0 cur recs. unfold stream_run. cbn [foldl].
    unfold stream_step. cbn [mode emitted Csv.cur].
    destruct (Ascii.eqb c LF) eqn:HLF.
    + rewrite <- feed_snoc, <- reverse_cons.
      rewrite end_of_line_emitted, read_records_line.
      fold (stream_run {| emitted := recs ++ (end_of_line [] (feed p0 (reverse (c :: CR :: cur)))).1;
                          cur := (end_of_line [] (feed p0 (reverse (c :: CR :: cur)))).2;
                          mode := LineStart |} rest).
      rewrite IHA0. by rewrite <- app_assoc.
    + rewrite end_of_line_emitted, read_records_line.
      pose proof (HA (end_of_line [] (feed p0 (reverse (CR :: cur)))).2 []
                    (recs ++ (end_of_line [] (feed p0 (reverse (CR :: cur)))).1))
        as HA'.
      unfold stream_run in HA'. cbn [foldl] in HA'.
      unfold stream_step in HA' at 1. cbn [mode_of mode emitted Csv.cur] in HA'.
      rewrite <- app_assoc in HA'. exact HA'.
Qed.

(** The records of [reader] are those of the pass over the characters. *)
Lemma reader_stream content :
  reader content
  = stream_finish (stream_run stream_start (list_ascii_of_string content)).
Proof.
  unfold reader, split_lines.
  exact (eq_sym (proj1 (stream_lines (list_ascii_of_string content)) reset [] [])).
Qed.

End csv_stream.

(** * Further properties of the pipeline *)

(** ** Python strings: [strip] *)

Section strip_facts.

Lemma app_String x (a b : string) : String x a +:+ b = String x (a +:+ b).
Proof. reflexivity. Qed.

Lemma app_Empty (b : string) : EmptyString +:+ b = b.
Proof. reflexivity. Qed.

Lemma string_app_assoc (a b c : string) : a +:+ (b +:+ c) = (a +:+ b) +:+ c.
Proof. induction a as [|x a IH]; [done|]. by rewrite !app_String, IH. Qed.

Lemma rev_app_spec s acc : String.rev_app s acc = String.rev s +:+ acc.
Proof.
  unfold String.rev. revert acc.
  induction s as [|c s IH]; intros acc; simpl; [done|].
  rewrite (IH (String c acc)), (IH (String c EmptyString)).
  by rewrite <- string_app_assoc.
Qed.

Lemma rev_String c s : String.rev (String c s) = String.rev s +:+ String c EmptyString.
Proof. unfold String.rev at 1. simpl. apply rev_app_spec. Qed.

Lemma string_app_nil_r s : s +:+ EmptyString = s.
Proof. induction s as [|x s IH]; [done|]. by rewrite app_String, IH. Qed.

Lemma rev_app_distr a b : String.rev (a +:+ b) = String.rev b +:+ String.rev a.
Proof.
  induction a as [|c a IH].
  - by rewrite app_Empty, string_app_nil_r.
  - by rewrite app_String, !rev_String, IH, string_app_assoc.
Qed.

Lemma rev_involutive s : String.rev (String.rev s) = s.
Proof.
  induction s as [|c s IH]; [done|].
  by rewrite rev_String, rev_app_distr, IH.
Qed.

Lemma lstrip_no_lead s : Py.no_lead (Py.lstrip s).
Proof.
  induction s as [|c s IH]; simpl; [done|].
  destruct (Py.is_space c) eqn:Hc; [done|]. simpl. done.
Qed.

Lemma lstrip_fixed s : Py.no_lead s → Py.lstrip s = s.
Proof. destruct s as [|c s]; simpl; [done|]. by intros ->. Qed.

Lemma lstrip_suffix s : ∃ pre, s = pre +:+ Py.lstrip s.
Proof.
  induction s as [|c s [pre IH]]; simpl.
  - by exists EmptyString.
  - destruct (Py.is_space c).
    + exists (String c pre). by rewrite app_String, <- IH.
    + by exists EmptyString.
Qed.

Lemma rstrip_prefix s : ∃ suf, s = Py.rstrip s +:+ suf.
Proof.
  unfold Py.rstrip. destruct (lstrip_suffix (String.rev s)) as [pre Hpre].
  exists (String.rev pre).
  by rewrite <- rev_app_distr, <- Hpre, rev_involutive.
Qed.

Lemma rstrip_no_lead s : Py.no_lead s → Py.no_lead (Py.rstrip s).
Proof.
  intros Hs. destruct (rstrip_prefix s) as [suf Hsuf].
  destruct (Py.rstrip s) as [|c u]; [done|].
  rewrite Hsuf in Hs. done.
Qed.

Lemma rstrip_fixed s : Py.no_lead (String.rev s) → Py.rstrip s = s.
Proof.
  intros Hs. unfold Py.rstrip. by rewrite lstrip_fixed, rev_involutive.
Qed.

Lemma strip_no_lead s : Py.no_lead (Py.strip s).
Proof. apply rstrip_no_lead, lstrip_no_lead. Qed.

Lemma strip_no_trail s : Py.no_lead (String.rev (Py.strip s)).
Proof.
  unfold Py.strip, Py.rstrip. rewrite rev_involutive. apply lstrip_no_lead.
Qed.

(** [strip] leaves a trimmed string as it is. *)
Lemma strip_strip s : Py.strip (Py.strip s) = Py.strip s.
Proof.
  unfold Py.strip at 1.
  rewrite (lstrip_fixed (Py.strip s)) by apply strip_no_lead.
  apply rstrip_fixed, strip_no_trail.
Qed.

End strip_facts.

(** ** Insertion-ordered dicts *)

Section dict_more.
Context {V : Type}.
Implicit Types (d : list (string * V)).

Lemma dict_set_elem k v d x : x ∈ Py.dict_set k v d → x = (k, v) ∨ x ∈ d.
Proof.
  induction d as [|[k' v'] d IH]; simpl.
  - intros ->%list_elem_of_singleton. by left.
  - destruct (String.eqb k' k).
    + intros [->|?]%elem_of_cons; [by left|]. right. by right.
    + intros [->|[->|?]%IH]%elem_of_cons; [right; left|by left|].
      right. by right.
Qed.

Lemma dict_fold_elem {E} (key : E → string) (val : E → V) (l : list E) d x :
  x ∈ foldl (fun d e => Py.dict_set (key e) (val e) d) d l →
  x ∈ d ∨ ∃ e, e ∈ l ∧ x = (key e, val e).
Proof.
  revert d. induction l as [|e l IH]; intros d; simpl; [by left|].
  intros [[->|?]%dict_set_elem|(e' & ? & ->)]%IH.
  - right. exists e. split; [left|done].
  - by left.
  - right. exists e'. split; [by right|done].
Qed.

End dict_more.

(** ** cds_parser.build_dependencies: the target lists *)

Section build_dependencies_invariants.
Import CdsParser.

Lemma add_target_clean ename targets t :
  clean_targets ename targets → clean_targets ename (add_target ename targets t).
Proof.
  intros (Hnd & Hself & Hempty). unfold add_target, Py.in_list.
  destruct (String.eqb t EmptyString) eqn:E1; [done|].
  destruct (String.eqb t ename) eqn:E2; [done|].
  case_bool_decide as Hin; [done|]. simpl.
  apply String.eqb_neq in E1, E2. unfold clean_targets.
  rewrite NoDup_app, !elem_of_app, !list_elem_of_singleton.
  split; [|split].
  - split; [done|]. split; [|apply NoDup_singleton].
    by intros x ? ->%list_elem_of_singleton.
  - intros [?|?]; congruence.
  - intros [?|?]; congruence.
Qed.

Lemma entity_targets_clean ename edef : clean_targets ename (entity_targets ename edef).
Proof.
  unfold entity_targets.
  assert (H1 : ∀ ts acc, clean_targets ename acc →
            clean_targets ename (foldl (add_target ename) acc ts)).
  { induction ts as [|t ts IH]; intros acc Hacc; simpl; [done|].
    by apply IH, add_target_clean. }
  assert (H2 : ∀ fs acc, clean_targets ename acc →
            clean_targets ename (foldl (id_field_step ename (associations edef)) acc fs)).
  { induction fs as [|f fs IH]; intros acc Hacc; simpl; [done|].
    apply IH. unfold id_field_step.
    destruct (is_uuid_id_field f); [|done].
    destruct (find_assoc _ _); [|done]. by apply add_target_clean. }
  apply H2, H1. split; [apply NoDup_nil_2|].
  split; apply not_elem_of_nil.
Qed.

End build_dependencies_invariants.

(** X1.  In the dependency map that [build_dependencies] returns, the
    target list of every entity names no target twice, does not name the
    entity itself, and does not contain the empty name: the map has no
    self-loops and no parallel edges, whatever the schema declares. *)
Theorem build_dependencies_targets_clean
    (ents : list (string * CdsParser.entity_def)) (A : string)
    (targets : list string) :
  (A, targets) ∈ CdsParser.build_dependencies ents →
  NoDup targets ∧ (A ∉ targets) ∧ (EmptyString ∉ targets).
Proof.
  unfold CdsParser.build_dependencies.
  intros [Hin|(e & _ & [= -> ->])]%dict_fold_elem.
  - by apply elem_of_nil in Hin.
  - apply entity_targets_clean.
Qed.

Lemma build_dependencies_targets_clean_witness :
  NoDup ["CUSTOMERS"] ∧ ("ORDERS" ∉ ["CUSTOMERS"])
  ∧ (EmptyString ∉ ["CUSTOMERS"]).
Proof.
  apply (build_dependencies_targets_clean
           [("ORDERS", Samples.c5_orders)] "ORDERS" ["CUSTOMERS"]).
  vm_compute. left.
Defined.

(** ** fk_resolver: the cache, the order of the rows, the resolved fields *)

Section fk_resolver_more.
Import FkResolver.

Lemma lookup_id_resolver w r target_entity match_fields row_values :
  (lookup_id w r target_entity match_fields row_values).2
  = (_load_entity_data w {| cache := cache r; lookup_calls := S (lookup_calls r) |}
       target_entity).2.
Proof.
  unfold lookup_id.
  destruct (_load_entity_data w _ target_entity) as [data r'].
  destruct data; [done|]. by destruct (build_criteria _ _).
Qed.

Lemma load_entity_data_caches w r entity :
  is_Some (cache r !! entity) ∨ has_csv w entity →
  cache (_load_entity_data w r entity).2 !! entity = Some (loaded w r entity).
Proof.
  unfold loaded, _load_entity_data.
  destruct (cache r !! entity) as [rows|] eqn:Hc; [done|].
  intros [[? [=]]|(ei & ci & -> & ->)]. simpl. apply lookup_insert_eq.
Qed.

Lemma loaded_cached w r entity rows :
  cache r !! entity = Some rows → loaded w r entity = rows.
Proof. unfold loaded, _load_entity_data. by intros ->. Qed.

Lemma search_app_matched criteria d s csv_row0 :
  csv_row0 ∈ d → row_matches criteria csv_row0 = true →
  search criteria (d ++ s) = search criteria d.
Proof.
  induction d as [|x d IH]; [by intros ?%elem_of_nil|].
  intros Hin Hm. simpl. destruct (row_matches criteria x) eqn:Hx; [done|].
  apply elem_of_cons in Hin as [->|Hin]; [congruence|]. by apply IH.
Qed.

End fk_resolver_more.

(** X2.  A resolver reads the rows of a target entity once.  After a
    first lookup of the entity (known to the schema with a CSV entry, or
    cached already), every later lookup of that entity through the same
    resolver answers from the rows read then: under any later contents of
    the data and staging files it returns what it would have returned at
    the time of the first lookup. *)
Theorem lookup_id_answers_from_first_read
    (w w' : FkResolver.stores) (r : FkResolver.resolver)
    (target_entity : string)
    (match_fields0 match_fields : list FkResolver.match_field)
    (row_values0 row_values : FkResolver.excel_row) :
  is_Some (FkResolver.cache r !! target_entity)
  ∨ FkResolver.has_csv w target_entity →
  (FkResolver.lookup_id w'
     (FkResolver.lookup_id w r target_entity match_fields0 row_values0).2
     target_entity match_fields row_values).1
  = (FkResolver.lookup_id w r target_entity match_fields row_values).1.
Proof.
  intros Hpre. rewrite !lookup_id_result, lookup_id_resolver.
  destruct r as [c n]. cbn [FkResolver.cache FkResolver.lookup_calls].
  rewrite (loaded_cached w' _ target_entity
             (FkResolver.loaded w {| FkResolver.cache := c;
                                     FkResolver.lookup_calls := S n |}
                target_entity)).
  - by rewrite (loaded_calls w c (S n) n).
  - by apply load_entity_data_caches.
Qed.

Lemma lookup_id_answers_from_first_read_witness :
  (FkResolver.lookup_id
     {| FkResolver.schema := FkResolver.schema Samples.vendors_store;
        FkResolver.data_rows := fun _ => None;
        FkResolver.staging_rows := None |}
     (FkResolver.lookup_id Samples.vendors_store FkResolver.new_resolver
        "VENDORS" [] []).2
     "VENDORS" [Samples.rule_code] Samples.row_code_only).1
  = (FkResolver.lookup_id Samples.vendors_store FkResolver.new_resolver
       "VENDORS" [Samples.rule_code] Samples.row_code_only).1.
Proof.
  apply (lookup_id_answers_from_first_read Samples.vendors_store).
  right. exists Samples.vendors_info.
  eexists. split; [vm_compute; reflexivity|reflexivity].
Defined.

(** X3.  The rows of the data directory are searched before the rows
    of the staging directory: when a persisted row of the target entity
    satisfies the criteria, [lookup_id] returns what it returns with no
    staging directory at all, so a staged row is consulted only when no
    persisted row matches. *)
Theorem lookup_id_prefers_persisted_rows
    (w : FkResolver.stores) (r : FkResolver.resolver) (target_entity : string)
    (match_fields : list FkResolver.match_field)
    (row_values : FkResolver.excel_row) (csv_row0 : FkResolver.csv_row) :
  FkResolver.cache r !! target_entity = None →
  csv_row0 ∈ default [] (FkResolver.data_rows w target_entity) →
  FkResolver.row_matches
    (FkResolver.build_criteria match_fields row_values) csv_row0 = true →
  (FkResolver.lookup_id w r target_entity match_fields row_values).1
  = (FkResolver.lookup_id (FkResolver.without_staging w) r target_entity
       match_fields row_values).1.
Proof.
  intros Hc Hin Hm. rewrite !lookup_id_result.
  unfold FkResolver.loaded, FkResolver._load_entity_data. rewrite Hc.
  cbn [FkResolver.without_staging FkResolver.schema FkResolver.data_rows
       FkResolver.staging_rows].
  destruct (Schema.sch_entities (FkResolver.schema w) !! target_entity)
    as [ei|]; [|done].
  destruct (Schema.ei_csv ei); [|done]. cbn [fst].
  destruct (FkResolver.staging_rows w) as [staged|]; [|done].
  destruct (default [] (FkResolver.data_rows w target_entity))
    as [|x d] eqn:Hd; [by apply elem_of_nil in Hin|].
  rewrite <- app_comm_cons.
  destruct (FkResolver.build_criteria match_fields row_values)
    as [|crit crits] eqn:Hcr; [done|].
  rewrite app_comm_cons. by eapply search_app_matched.
Qed.

Lemma lookup_id_prefers_persisted_rows_witness :
  (FkResolver.lookup_id
     {| FkResolver.schema := FkResolver.schema Samples.vendors_store;
        FkResolver.data_rows := FkResolver.data_rows Samples.vendors_store;
        FkResolver.staging_rows := Some (fun _ =>
          Some [ [("ID", "v-2"); ("CODE", "V001"); ("NAME", "Staged")] ]) |}
     FkResolver.new_resolver "VENDORS" [Samples.rule_code]
     Samples.row_code_only).1
  = (FkResolver.lookup_id Samples.vendors_store FkResolver.new_resolver
       "VENDORS" [Samples.rule_code] Samples.row_code_only).1.
Proof.
  apply (lookup_id_prefers_persisted_rows
           {| FkResolver.schema := FkResolver.schema Samples.vendors_store;
              FkResolver.data_rows := FkResolver.data_rows Samples.vendors_store;
              FkResolver.staging_rows := Some (fun _ =>
                Some [ [("ID", "v-2"); ("CODE", "V001"); ("NAME", "Staged")] ]) |}
           FkResolver.new_resolver "VENDORS" [Samples.rule_code]
           Samples.row_code_only
           [("ID", "v-1"); ("CODE", "V001"); ("NAME", "Acme")]).
  - reflexivity.
  - left.
  - vm_compute. reflexivity.
Defined.

Section resolve_all_fks_fields.
Import FkResolver.

Lemma resolve_fk_step_keys w row acc item :
  item.1 ∉ acc.1.*1 →
  (resolve_fk_step w row acc item).1.*1
  = acc.1.*1 ++ (if has_target item.2 then [item.1] else []).
Proof.
  destruct acc as [resolved r], item as [fk lookup]. cbn [fst snd].
  intros Hfresh. unfold resolve_fk_step, has_target. cbn [fst snd].
  destruct (nonempty (ld_entity lookup)) as [target|];
    [|by rewrite app_nil_r].
  destruct (Py.dict_get fk row) as [v|]; [destruct (Py.truthy v)|];
    try destruct (lookup_id _ _ _ _ _) as [found r']; cbn [fst];
    by apply dict_set_keys_new.
Qed.

Lemma resolve_fold_keys w row l acc :
  NoDup l.*1 → (∀ k, k ∈ l.*1 → k ∉ acc.1.*1) →
  (foldl (resolve_fk_step w row) acc l).1.*1
  = acc.1.*1 ++ (List.filter (fun item => has_target item.2) l).*1.
Proof.
  revert acc. induction l as [|item l IH]; intros acc Hnd Hfresh.
  - simpl. by rewrite app_nil_r.
  - rewrite fmap_cons in Hnd, Hfresh. apply NoDup_cons in Hnd as [Hitem Hnd].
    cbn [foldl]. rewrite IH; [|done|].
    + rewrite resolve_fk_step_keys by (apply Hfresh; left).
      cbn [List.filter]. destruct (has_target item.2).
      * by rewrite fmap_cons, <- app_assoc.
      * by rewrite app_nil_r.
    + intros k Hk. rewrite resolve_fk_step_keys by (apply Hfresh; left).
      rewrite elem_of_app. intros [Hacc|Hnew].
      * revert Hacc. apply Hfresh. by right.
      * destruct (has_target item.2); [|by apply elem_of_nil in Hnew].
        apply list_elem_of_singleton in Hnew as ->. done.
Qed.

End resolve_all_fks_fields.

(** X4.  [resolve_all_fks] returns one entry for every configured
    lookup that names a target entity, in the order of the configuration,
    and no entry for any other field: a lookup with a missing or empty
    [entity] is left out of the result, not reported as unresolved. *)
Theorem resolve_all_fks_fields_resolved
    (w : FkResolver.stores) (r : FkResolver.resolver) (entity : string)
    (lookups_config : list (string * FkResolver.lookup_def))
    (excel_row0 : FkResolver.excel_row) :
  NoDup lookups_config.*1 →
  (FkResolver.resolve_all_fks w r entity lookups_config excel_row0).1.*1
  = (List.filter (fun item => FkResolver.has_target item.2) lookups_config).*1.
Proof.
  intros Hnd. unfold FkResolver.resolve_all_fks.
  rewrite resolve_fold_keys; [done|done|].
  intros k _. apply not_elem_of_nil.
Qed.

Lemma resolve_all_fks_fields_resolved_witness :
  (FkResolver.resolve_all_fks Samples.vendors_store FkResolver.new_resolver
     "SERVICEORDERS"
     [("VENDOR_ID", Samples.vendor_lookup);
      ("PROJECT_ID", Samples.vendor_lookup_no_entity)]
     Samples.row_code_only).1.*1
  = (List.filter (fun item => FkResolver.has_target item.2)
       [("VENDOR_ID", Samples.vendor_lookup);
        ("PROJECT_ID", Samples.vendor_lookup_no_entity)]).*1.
Proof.
  apply (resolve_all_fks_fields_resolved Samples.vendors_store).
  apply NoDup_cons. split.
  - intros Hin. apply list_elem_of_singleton in Hin. discriminate Hin.
  - apply NoDup_singleton.
Defined.

(** ** validator: unique constraints and required fields *)

Section unique_constraints.
Import Validator.
Implicit Types (r x : row) (columns : list string).

Lemma has_value_true r col :
  has_value r col = true
  ↔ ∃ v, Py.dict_get col r = Some v ∧ Py.is_blank v = false.
Proof.
  unfold has_value. destruct (Py.dict_get col r) as [v|].
  - rewrite negb_true_iff. split; [by exists v|]. by intros (? & [= <-] & ?).
  - split; [done|]. by intros (? & ? & ?).
Qed.

Lemma row_key_spec r columns :
  row_key r columns
  = if forallb (has_value r) columns then Some (key_text r <$> columns)
    else None.
Proof.
  induction columns as [|col columns IH]; [done|].
  cbn [row_key forallb]. rewrite fmap_cons. unfold has_value at 1.
  destruct (Py.dict_get col r) as [v|] eqn:Hget; [|done].
  destruct (Py.is_blank v); [done|]. cbn [negb andb]. rewrite IH.
  destruct (forallb (has_value r) columns); [|done].
  do 2 f_equal. unfold key_text. by rewrite Hget.
Qed.

(** The key of an existing row is complete exactly when all its columns
    have values; otherwise it is shorter. *)
Lemma existing_key_spec x columns :
  if forallb (has_value x) columns
  then existing_key x columns = key_text x <$> columns
  else (length (existing_key x columns) < length columns)%nat.
Proof.
  induction columns as [|col columns IH]; [done|].
  cbn [existing_key forallb]. rewrite fmap_cons. unfold has_value at 1.
  destruct (Py.dict_get col x) as [v|] eqn:Hget; [|simpl; lia].
  destruct (Py.is_blank v); [simpl; lia|]. cbn [negb andb].
  destruct (forallb (has_value x) columns).
  - rewrite IH. f_equal. unfold key_text. by rewrite Hget.
  - simpl. lia.
Qed.

Lemma keys_equal_same_key r x columns :
  forallb (has_value r) columns = true →
  keys_equal (existing_key x columns) (key_text r <$> columns) = true
  ↔ same_key columns r x.
Proof.
  intros Hr. unfold keys_equal, same_key.
  rewrite andb_true_iff, Nat.eqb_eq, bool_decide_eq_true, length_fmap.
  pose proof (existing_key_spec x columns) as Hx.
  rewrite forallb_forall in Hr.
  destruct (forallb (has_value x) columns) eqn:Hall.
  - rewrite forallb_forall in Hall. rewrite Hx, length_fmap. split.
    + intros [_ Heq] col Hcol. split; [by apply Hr, list_elem_of_In|].
      split; [by apply Hall, list_elem_of_In|].
      apply list_elem_of_lookup in Hcol as [i Hi].
      apply (f_equal (fun l => l !! i)) in Heq.
      rewrite !list_lookup_fmap, Hi in Heq. simpl in Heq. congruence.
    + intros Hsame. split; [done|]. apply list_fmap_ext.
      intros i col Hi. symmetry. apply Hsame. by eapply list_elem_of_lookup_2.
  - split; [lia|]. intros Hsame. exfalso.
    apply not_true_iff_false in Hall. apply Hall, forallb_forall.
    intros col Hcol%list_elem_of_In. by apply Hsame.
Qed.

Lemma check_constraint_nil r existing_rows c :
  check_constraint r existing_rows c = []
  ↔ ∀ x, x ∈ existing_rows → ¬ same_key (CdsParser.uc_columns c) r x.
Proof.
  unfold check_constraint. rewrite row_key_spec.
  destruct (forallb (has_value r) (CdsParser.uc_columns c)) eqn:Hr.
  - destruct (existsb _ existing_rows) eqn:Hex.
    + split; [done|]. intros Hnone. exfalso.
      apply existsb_exists in Hex as (x & Hx%list_elem_of_In & Heq).
      apply (Hnone x Hx). by apply keys_equal_same_key.
    + split; [|done]. intros _ x Hx Hsame.
      apply not_true_iff_false in Hex. apply Hex, existsb_exists.
      exists x. split; [by apply list_elem_of_In|].
      by apply keys_equal_same_key.
  - split; [|done]. intros _ x _ Hsame.
    apply not_true_iff_false in Hr. apply Hr, forallb_forall.
    intros col Hcol%list_elem_of_In. by apply Hsame.
Qed.

Lemma check_constraint_length r existing_rows c :
  (length (check_constraint r existing_rows c) ≤ 1)%nat.
Proof.
  unfold check_constraint. destruct (row_key _ _); [|simpl; lia].
  destruct (existsb _ _); simpl; lia.
Qed.

Lemma concat_nil_Forall {A} (ls : list (list A)) :
  concat ls = [] ↔ Forall (fun l => l = []) ls.
Proof.
  induction ls as [|l ls IH]; simpl.
  - split; [constructor|done].
  - rewrite Forall_cons, <- IH. split.
    + by intros [-> ->]%app_eq_nil.
    + by intros [-> ->].
Qed.

Lemma validate_unique_constraints_nil sch entity r existing_rows :
  validate_unique_constraints sch entity r existing_rows = []
  ↔ ∀ c x, c ∈ constraints_of sch entity → x ∈ existing_rows →
           ¬ same_key (CdsParser.uc_columns c) r x.
Proof.
  unfold validate_unique_constraints, constraints_of.
  destruct (Schema.sch_entities sch !! entity) as [ei|].
  - rewrite concat_nil_Forall, Forall_fmap, Forall_forall. split.
    + intros Hall c x Hc. by apply check_constraint_nil, Hall.
    + intros Hnone c Hc. apply check_constraint_nil. intros x. by apply Hnone.
  - split; [|done]. by intros _ c x ?%elem_of_nil.
Qed.

End unique_constraints.

(** X5.  [validate_unique_constraints] reports no violation exactly
    when, for every unique constraint that the schema records for the
    entity, no existing row agrees with the candidate row on all columns of
    the constraint (each column non-blank in both rows, the trimmed texts
    equal up to letter case); a candidate with a blank or missing key
    column is never reported, and each constraint contributes at most one
    message. *)
Theorem validate_unique_constraints_exact
    (sch : Schema.schema) (entity : string) (r : Validator.row)
    (existing_rows : list Validator.row) :
  (Validator.validate_unique_constraints sch entity r existing_rows = []
   ↔ ∀ c x, c ∈ Validator.constraints_of sch entity → x ∈ existing_rows →
            ¬ Validator.same_key (CdsParser.uc_columns c) r x)
  ∧ (length (Validator.validate_unique_constraints sch entity r existing_rows)
     ≤ length (Validator.constraints_of sch entity))%nat.
Proof.
  split; [apply validate_unique_constraints_nil|].
  unfold Validator.validate_unique_constraints, Validator.constraints_of.
  destruct (Schema.sch_entities sch !! entity) as [ei|]; [|done].
  induction (Schema.ei_uniqueConstraints ei) as [|c cs IH]; [done|].
  rewrite fmap_cons. cbn [concat]. rewrite length_app.
  pose proof (check_constraint_length r existing_rows c). simpl. lia.
Qed.

Lemma validate_required_fields_nil sch entity (r : Validator.row) :
  Validator.validate_required_fields sch entity r = []
  ↔ ∀ f, f ∈ Validator.fields_of sch entity →
         CdsParser.field_key f = true →
         Validator.has_value r (CdsParser.field_name f) = true.
Proof.
  unfold Validator.validate_required_fields, Validator.fields_of.
  destruct (Schema.sch_entities sch !! entity) as [ei|].
  - rewrite concat_nil_Forall, Forall_fmap, Forall_forall. split.
    + intros Hall f Hf Hkey. specialize (Hall f Hf). simpl in Hall.
      rewrite Hkey in Hall.
      by destruct (Validator.has_value r (CdsParser.field_name f)).
    + intros Hall f Hf. simpl.
      destruct (CdsParser.field_key f) eqn:Hkey; [|done].
      by rewrite (Hall f Hf Hkey).
  - split; [|done]. by intros _ f ?%elem_of_nil.
Qed.

(** X6.  [validate_required_fields] reports no error exactly when every
    key field that the schema records for the entity has a non-blank value
    in the row; fields that are not keys are never required, and an entity
    unknown to the schema has no required field. *)
Theorem validate_required_fields_exact
    (sch : Schema.schema) (entity : string) (r : Validator.row) :
  Validator.validate_required_fields sch entity r = []
  ↔ ∀ f, f ∈ Validator.fields_of sch entity →
         CdsParser.field_key f = true →
         Validator.has_value r (CdsParser.field_name f) = true.
Proof. apply validate_required_fields_nil. Qed.

(** ** validator.validate_type: coercion is stable *)

Section validate_type_stable.
Import Validator.

Lemma rev_empty s : String.rev s = EmptyString → s = EmptyString.
Proof. intros H. by rewrite <- (rev_involutive s), H. Qed.

Lemma lstrip_app_nonspace a c b :
  Py.is_space c = false → Py.lstrip (a +:+ String c b) ≠ EmptyString.
Proof.
  intros Hc. induction a as [|x a IH].
  - rewrite app_Empty. simpl. by rewrite Hc.
  - rewrite app_String. simpl. by destruct (Py.is_space x).
Qed.

(** A text that starts with a character other than white space does not
    trim to the empty text. *)
Lemma strip_nonempty c rest :
  Py.is_space c = false → Py.strip (String c rest) ≠ EmptyString.
Proof.
  intros Hc. unfold Py.strip. rewrite lstrip_fixed by done.
  unfold Py.rstrip. rewrite rev_String. intros H%rev_empty.
  by apply lstrip_app_nonspace in H.
Qed.

Lemma digit_char_nonspace (k : nat) :
  (k < 10)%nat → Py.is_space (Py.digit_char k) = false.
Proof. intros Hk. do 10 (destruct k as [|k]; [reflexivity|]). lia. Qed.

Lemma digits_fuel_head (fuel : nat) n acc :
  ∃ c rest, Py.digits_fuel (S fuel) n acc = String c rest
            ∧ Py.is_space c = false.
Proof.
  revert n acc. induction fuel as [|fuel IH]; intros n acc.
  - exists (Py.digit_char (N.to_nat (n mod 10))), acc. split.
    + simpl. by destruct (n <? 10)%N.
    + apply digit_char_nonspace.
      pose proof (N.mod_lt n 10 ltac:(done)). lia.
  - change (Py.digits_fuel (S (S fuel)) n acc)
      with (let acc' := String (Py.digit_char (N.to_nat (n mod 10))) acc in
            if (n <? 10)%N then acc'
            else Py.digits_fuel (S fuel) (n / 10)%N acc').
    cbv zeta. destruct (n <? 10)%N; [|apply IH].
    eexists _, _. split; [done|]. apply digit_char_nonspace.
    pose proof (N.mod_lt n 10 ltac:(done)). lia.
Qed.

Lemma int_not_blank z : Py.is_blank (Py.VInt z) = false.
Proof.
  unfold Py.is_blank. apply String.eqb_neq. cbn [Py.str].
  destruct z as [|p|p]; cbn [Py.str_of_Z].
  - by apply strip_nonempty.
  - unfold Py.str_of_N. destruct (digits_fuel_head
      (N.to_nat (N.log2 (N.pos p))) (N.pos p) EmptyString) as (c & rest & -> & Hc).
    by apply strip_nonempty.
  - by apply strip_nonempty.
Qed.

Lemma bool_not_blank b : Py.is_blank (Py.VBool b) = false.
Proof. by destruct b. Qed.

Lemma stripped_not_blank v :
  Py.is_blank v = false → Py.is_blank (Py.VStr (Py.strip (Py.str v))) = false.
Proof.
  intros Hb. unfold Py.is_blank. cbn [Py.str]. rewrite strip_strip.
  by destruct v.
Qed.

End validate_type_stable.

(** X7.  Type coercion is stable.  For a field type that reaches neither
    the decimal/float branch nor the timestamp branch of [validate_type]
    (identifiers, strings, integers, booleans and unrecognised types), a
    value that was coerced without error coerces to itself, again without
    error: validating an already validated row changes nothing. *)
Theorem validate_type_idempotent
    (lib : Validator.library) (field_name : string) (value coerced : Py.pyval)
    (field_type : string) :
  Validator.plain_type field_type = true →
  Validator.validate_type lib field_name value field_type = (coerced, None) →
  Validator.validate_type lib field_name coerced field_type = (coerced, None).
Proof.
  unfold Validator.plain_type, Validator.validate_type. cbv zeta.
  intros Hplain. apply negb_true_iff in Hplain.
  apply orb_false_iff in Hplain as [Hdec Hts].
  destruct (Py.is_blank value) eqn:Hb; [by intros [= <-]|].
  pose proof (stripped_not_blank value Hb) as Hs.
  destruct (Py.startswith (Py.upper field_type) "UUID").
  { destruct (Validator.uuid_match (Py.strip (Py.str value))) eqn:Hu;
      intros [= <-]. rewrite Hs. cbn [Py.str]. by rewrite strip_strip, Hu. }
  destruct (Py.contains "STRING" (Py.upper field_type)
            || Py.contains "LARGESTRING" (Py.upper field_type)).
  { intros [= <-]. rewrite Hs. cbn [Py.str]. by rewrite strip_strip. }
  destruct (Py.in_list (Py.upper field_type) ["INTEGER"; "INTEGER64"]).
  { destruct (Validator.is_number value).
    - intros [= <-]. by rewrite int_not_blank.
    - destruct (Validator.int_of_str lib _); intros [= <-].
      by rewrite int_not_blank. }
  rewrite Hdec.
  destruct (Py.contains "BOOLEAN" (Py.upper field_type)).
  { destruct value as [|b| | | |];
      try (destruct (Py.in_list _ Validator.true_words);
           [|destruct (Py.in_list _ Validator.false_words)]);
      intros [= <-]; by rewrite bool_not_blank. }
  rewrite Hts. intros [= <-]. rewrite Hs. cbn [Py.str]. by rewrite strip_strip.
Qed.

Lemma validate_type_idempotent_witness :
  Validator.validate_type Samples.strict_library "ACTIVE" (Py.VBool true)
    "Boolean"
  = (Py.VBool true, None).
Proof.
  apply (validate_type_idempotent Samples.strict_library "ACTIVE"
           (Py.VStr " Yes ") (Py.VBool true) "Boolean").
  - reflexivity.
  - vm_compute. reflexivity.
Defined.

(** ** transformer.transform_row: the columns and the checks of a row *)

Section transform_row_stages.
Import Transformer.

Lemma keys_between_set lo hi out k v :
  keys_between lo hi out → k ∈ hi → keys_between lo hi (Py.dict_set k v out).
Proof.
  intros [Hlo Hhi] Hk. split; intros k'; rewrite dict_set_keys.
  - intros ?. right. by apply Hlo.
  - intros [->|?]; [done|by apply Hhi].
Qed.

Lemma keys_between_present lo hi out k v :
  keys_between lo hi out → Py.dict_get k out = Some v → k ∈ hi.
Proof.
  intros [_ Hhi] Hget. apply Hhi, dict_get_is_Some. by rewrite Hget.
Qed.

Lemma init_output_keys cols k : k ∈ (init_output cols).*1 ↔ k ∈ cols.
Proof.
  unfold init_output.
  assert (Hgen : ∀ acc : row,
            k ∈ (foldl (fun out col => Py.dict_set col Py.VNone out) acc cols).*1
            ↔ k ∈ acc.*1 ∨ k ∈ cols).
  { induction cols as [|c cols IH]; intros acc; simpl.
    - rewrite elem_of_nil. tauto.
    - rewrite IH, dict_set_keys, elem_of_cons. tauto. }
  rewrite Hgen. simpl. rewrite elem_of_nil. tauto.
Qed.

Lemma column_map_fold_between lo hi excel_row0 ms out :
  keys_between lo hi out → (∀ m, m ∈ ms → m.2 ∈ hi) →
  keys_between lo hi (foldl (apply_column_map excel_row0) out ms).
Proof.
  revert out. induction ms as [|m ms IH]; intros out Hout Hms; simpl; [done|].
  apply IH; [|intros m' ?; apply Hms; by right].
  unfold apply_column_map. destruct (Py.dict_get m.1 excel_row0); [|done].
  apply keys_between_set; [done|]. apply Hms. left.
Qed.

Lemma defaults_fold_between lo hi ds out :
  keys_between lo hi out → keys_between lo hi (foldl apply_default out ds).
Proof.
  revert out. induction ds as [|d ds IH]; intros out Hout; simpl; [done|].
  apply IH. unfold apply_default.
  destruct (Py.dict_get d.1 out) as [current|] eqn:Hget; [|done].
  destruct (Py.is_blank current); [|done].
  apply keys_between_set; [done|]. by eapply keys_between_present.
Qed.

Lemma resolutions_fold_between lo hi cfg rs acc :
  keys_between lo hi acc.1 → (∀ res, res ∈ rs → res.1 ∈ hi) →
  keys_between lo hi (foldl (apply_resolution cfg) acc rs).1.
Proof.
  revert acc. induction rs as [|res rs IH]; intros [out errs] Hout Hrs; [done|].
  cbn [foldl]. apply IH; [|intros res' ?; apply Hrs; by right].
  unfold apply_resolution. cbn [fst] in Hout.
  destruct (resolved_truthy res.2); cbn [fst].
  - apply keys_between_set; [done|]. apply Hrs. left.
  - destruct (negb _); [|done].
    destruct (Py.dict_get res.1 out); [|done]. by destruct (Py.is_blank _).
Qed.

Lemma coerce_fold_between lo hi e fs acc :
  keys_between lo hi acc.1 →
  keys_between lo hi (foldl (coerce_field e) acc fs).1.
Proof.
  revert acc. induction fs as [|f fs IH]; intros [out errs] Hout; [done|].
  cbn [foldl]. apply IH. unfold coerce_field. cbn [fst] in Hout.
  destruct (Py.dict_get (CdsParser.field_name f) out) as [value|] eqn:Hget;
    [|done].
  destruct (Validator.validate_type _ _ _ _) as [coerced [err|]];
    destruct (Schema.sch_enums _ !! _);
    try destruct (Validator.validate_enum _ _ _ _);
    cbn [fst]; try done;
    (apply keys_between_set; [done|]; by eapply keys_between_present).
Qed.

Lemma resolve_all_fks_keys_configured w r entity cfg row res :
  res ∈ (FkResolver.resolve_all_fks w r entity cfg row).1 → res.1 ∈ cfg.*1.
Proof.
  unfold FkResolver.resolve_all_fks.
  assert (Hgen : ∀ acc,
            res ∈ (foldl (FkResolver.resolve_fk_step w row) acc cfg).1 →
            res ∈ acc.1 ∨ res.1 ∈ cfg.*1).
  { induction cfg as [|item cfg IH]; intros acc; simpl; [by left|].
    intros [Hin|?]%IH; [|right; by right].
    destruct acc as [resolved r0], item as [fk lookup].
    unfold FkResolver.resolve_fk_step in Hin. cbn [fst snd] in *.
    destruct (FkResolver.nonempty _); [|by left].
    destruct (Py.dict_get fk row) as [v|]; [destruct (Py.truthy v)|];
      try destruct (FkResolver.lookup_id _ _ _ _ _) as [found r'];
      cbn [fst] in Hin;
      apply dict_set_elem in Hin as [->|?]; (by left) || (right; left). }
  intros [Hin|?]%Hgen; [by apply elem_of_nil in Hin|done].
Qed.

(** What a call of [transform_row] that returns is made of: the coerced
    row, whose keys are the CSV columns of the entity and possibly targets
    of the column map and fields of the lookups; the errors collected up to
    the coercion; and the checks on the coerced row.  The row is returned
    exactly when there is no error at all. *)
Lemma transform_row_stages e st0 entity sheet_config excel_row0 existing st'
    o errs :
  transform_row e st0 entity sheet_config excel_row0 existing
    = Some (st', (o, errs)) →
  ∃ cols out errs0,
    csv_columns_of e entity = Some cols
    ∧ keys_between cols
        (cols ++ (Mapping.columnMap sheet_config).*2
         ++ (Mapping.lookups sheet_config).*1) out
    ∧ (o = Some out ∧ errs = [] ∧ errs0 = []
         ∧ checks e entity out existing = []
       ∨ o = None ∧ errs = errs0 ++ checks e entity out existing ∧ errs ≠ []).
Proof.
  unfold transform_row, csv_columns_of.
  destruct (match Schema.sch_entities (schema_of e) !! entity with
            | Some ei => Schema.csv_columns <$> Schema.ei_csv ei
            | None => Some []
            end) as [cols|]; [|done].
  set (hi := cols ++ (Mapping.columnMap sheet_config).*2
             ++ (Mapping.lookups sheet_config).*1).
  assert (H0 : keys_between cols hi (init_output cols)).
  { split; intros k; rewrite init_output_keys; [done|].
    intros ?. subst hi. apply elem_of_app. by left. }
  apply column_map_fold_between
    with (excel_row0 := excel_row0) (ms := Mapping.columnMap sheet_config) in H0.
  2:{ intros m Hm. subst hi. rewrite !elem_of_app. right. left.
      apply list_elem_of_fmap. by exists m. }
  apply defaults_fold_between with (ds := Mapping.defaults sheet_config) in H0.
  set (out1 := foldl apply_default _ _) in *.
  set (idres := match Py.dict_get (Mapping.id_column sheet_config) out1 with
                | Some _ => _ | None => _ end).
  assert (H2 : keys_between cols hi idres.1).
  { subst idres.
    destruct (Py.dict_get _ out1) as [current|] eqn:Hget; [|done].
    destruct (_ && _); [|done].
    apply keys_between_set; [done|]. by eapply keys_between_present. }
  destruct idres as [out2 drawn]. cbn [fst] in H2.
  set (fkres := match Mapping.lookups sheet_config with
                | [] => _ | _ => _ end).
  assert (H3 : keys_between cols hi fkres.1.1).
  { subst fkres. destruct (Mapping.lookups sheet_config) as [|l ls] eqn:Hl;
      [done|].
    destruct (FkResolver.resolve_all_fks _ _ _ _ _) as [res r'] eqn:Hres.
    pose proof (resolutions_fold_between cols hi (l :: ls) res (out2, []) H2)
      as H.
    destruct (foldl _ _ res). apply H. intros x Hx. subst hi.
    rewrite !elem_of_app. right. right.
    eapply resolve_all_fks_keys_configured. by rewrite Hres. }
  destruct fkres as [[out3 errs3] r3]. cbn [fst] in H3.
  pose proof (coerce_fold_between cols hi e
                (match Schema.sch_entities (schema_of e) !! entity with
                 | Some ei => Schema.ei_fields ei | None => [] end)
                (out3, errs3) H3) as H4.
  destruct (foldl (coerce_field e) _ _) as [out4 errs4]. cbn [fst] in H4.
  intros Hres. exists cols, out4, errs4. split; [done|]. split; [done|].
  unfold checks.
  set (u := Validator.validate_unique_constraints _ _ _ _) in *.
  set (q := Validator.validate_required_fields _ _ _) in *.
  destruct (Validator.validate_xor_rule entity out4) as [xor_err|].
  - right. rewrite <- !app_assoc in Hres. cbn [app] in Hres.
    destruct (errs4 ++ u ++ xor_err :: q) as [|x l] eqn:Hall.
    + apply app_eq_nil in Hall as [_ Hall].
      by apply app_eq_nil in Hall as [_ Hall].
    + injection Hres as _ <- <-. split; [done|]. split; [|done].
      by rewrite <- Hall.
  - rewrite <- !app_assoc in Hres. cbn [app].
    destruct (errs4 ++ u ++ q) as [|x l] eqn:Hall.
    + injection Hres as _ <- <-. left.
      apply app_eq_nil in Hall as [-> Hall]. by rewrite Hall.
    + injection Hres as _ <- <-. by right.
Qed.

End transform_row_stages.

(** ** transformer.transform_entity: the loop over the source rows *)

Section transform_entity_loop.
Import Transformer.

Context (e : env) (entity : string) (sheet_config : Mapping.sheet_config).

Lemma transform_and_file_effect (ls : loop_state) (seen : gset (list string))
    (idx : nat) (excel_row0 : row) (ls' : loop_state) :
  transform_and_file e entity sheet_config
    {| valid_rows := valid_rows ls; error_records := error_records ls;
       all_rows := all_rows ls; existing_key_set := existing_key_set ls;
       seen_keys := seen; st := st ls |} idx excel_row0 = Some ls' →
  step_effect e entity sheet_config ls idx excel_row0 ls'.
Proof.
  unfold transform_and_file.
  cbn [st all_rows valid_rows error_records existing_key_set seen_keys].
  destruct (transform_row e (st ls) entity sheet_config excel_row0 (all_rows ls))
    as [[st1 [transformed errs]]|] eqn:Htr; [|done].
  assert (Hfailed :
    ∀ ls0, Some
      (if DedupConfig.should_deduplicate entity
          && existsb is_unique_violation errs
       then {| valid_rows := valid_rows ls; error_records := error_records ls;
               all_rows := all_rows ls;
               existing_key_set := existing_key_set ls;
               seen_keys := seen; st := st1 |}
       else if String.eqb (Policy.get_duplicate_policy entity) "skip"
               && forallb (Py.contains "Unique constraint") errs
       then {| valid_rows := valid_rows ls;
               error_records := error_records ls ++ [skipped_record idx excel_row0];
               all_rows := all_rows ls;
               existing_key_set := existing_key_set ls;
               seen_keys := seen; st := st1 |}
       else {| valid_rows := valid_rows ls;
               error_records := error_records ls ++
                 [{| row_num := idx; excel_row := excel_row0; errors := errs |}];
               all_rows := all_rows ls;
               existing_key_set := existing_key_set ls;
               seen_keys := seen; st := st1 |}) = Some ls0 →
      step_effect e entity sheet_config ls idx excel_row0 ls0).
  { intros ls0.
    destruct (DedupConfig.should_deduplicate entity) eqn:Hd; cbn [andb].
    - destruct (existsb is_unique_violation errs).
      + intros [= <-]. by apply Dropped.
      + destruct (_ && _); intros [= <-].
        * by apply (Recorded _ _ _ _ _ _ _ (skipped_record idx excel_row0)).
        * by apply (Recorded _ _ _ _ _ _ _
                      {| row_num := idx; excel_row := excel_row0;
                         errors := errs |}).
    - destruct (_ && _); intros [= <-].
      + by apply (Recorded _ _ _ _ _ _ _ (skipped_record idx excel_row0)).
      + by apply (Recorded _ _ _ _ _ _ _
                    {| row_num := idx; excel_row := excel_row0;
                       errors := errs |}). }
  destruct transformed as [[|c out']|]; [by apply Hfailed| |by apply Hfailed].
  destruct (DedupConfig.should_deduplicate entity) eqn:Hd.
  - case_bool_decide as Hin.
    + intros [= <-]. by apply Dropped.
    + intros [= <-]. eapply Accepted; [done..|]. by rewrite Hd.
  - intros [= <-]. eapply Accepted; [done..|]. by rewrite Hd.
Qed.

Lemma transform_step_effect ls idx excel_row0 ls' :
  transform_step e entity sheet_config (Some ls) (idx, excel_row0) = Some ls' →
  step_effect e entity sheet_config ls idx excel_row0 ls'.
Proof.
  unfold transform_step.
  destruct (DedupConfig.should_deduplicate entity) eqn:Hd.
  - destruct (forallb _ _); [intros [= <-]; by apply Dropped|].
    case_bool_decide; [intros [= <-]; by apply Dropped|].
    apply transform_and_file_effect.
  - destruct ls as [v er a k sk s0].
    apply (transform_and_file_effect
             {| valid_rows := v; error_records := er; all_rows := a;
                existing_key_set := k; seen_keys := sk; st := s0 |} sk).
Qed.

Lemma transform_fold_None items :
  foldl (transform_step e entity sheet_config) None items = None.
Proof. by induction items. Qed.

(** An invariant of the loop: it holds of the rows processed so far and the
    loop variables, and every effect of an iteration keeps it. *)
Lemma transform_fold_inv (I : list (nat * row) → loop_state → Prop) items :
  (∀ seen ls idx r ls',
     I seen ls → step_effect e entity sheet_config ls idx r ls' →
     I (seen ++ [(idx, r)]) ls') →
  ∀ seen ls ls',
    I seen ls →
    foldl (transform_step e entity sheet_config) (Some ls) items = Some ls' →
    I (seen ++ items) ls'.
Proof.
  intros Hstep. induction items as [|[idx r] items IH]; intros seen ls ls' HI.
  - intros [= <-]. by rewrite app_nil_r.
  - cbn [foldl].
    destruct (transform_step e entity sheet_config (Some ls) (idx, r))
      as [ls1|] eqn:H1; [|by rewrite transform_fold_None].
    intros Hrest. rewrite (cons_middle _ seen items), app_assoc.
    apply (IH _ ls1); [|done]. eapply Hstep; [done|].
    by apply transform_step_effect.
Qed.

End transform_entity_loop.

Section transform_entity_results.
Import Transformer.

(** The two ways in which [transform_entity] returns: at once with empty
    lists when the entity has no CSV path, or with the variables of its
    loop over the enumerated source rows. *)
Lemma transform_entity_Some e s entity sheet_config excel_rows s' valid errs :
  transform_entity e s entity sheet_config excel_rows = Some (s', (valid, errs)) →
  (csv_path_of e entity = Some None ∧ valid = [] ∧ errs = [] ∧ s' = s)
  ∨ ∃ path ls',
      csv_path_of e entity = Some (Some path)
      ∧ foldl (transform_step e entity sheet_config)
          (Some {| valid_rows := []; error_records := [];
                   all_rows := persisted_rows e path;
                   existing_key_set :=
                     if DedupConfig.should_deduplicate entity
                     then list_to_set
                            (natural_key (DedupConfig.get_dedup_keys entity)
                               <$> persisted_rows e path)
                     else ∅;
                   seen_keys := ∅; st := s |})
          (enumerate1 excel_rows) = Some ls'
      ∧ valid = valid_rows ls' ∧ errs = error_records ls' ∧ s' = st ls'.
Proof.
  unfold transform_entity, csv_path_of, persisted_rows.
  destruct (Schema.sch_entities (schema_of e) !! entity) as [ei|].
  - destruct (Schema.ei_csv ei) as [ci|]; [|done].
    destruct (FkResolver.nonempty (Schema.csv_file ci)) as [path|].
    + destruct (foldl _ _ _) as [ls'|] eqn:Hfold; [|done].
      intros [= <- <- <-]. right. by exists path, ls'.
    + intros [= <- <- <-]. by left.
  - intros [= <- <- <-]. by left.
Qed.

Lemma enumerate1_lookup {A} (l : list A) (i : nat) (x : A) :
  (i, x) ∈ enumerate1 l ↔ (1 ≤ i)%nat ∧ l !! (i - 1)%nat = Some x.
Proof.
  unfold enumerate1. rewrite elem_of_lookup_zip_with. split.
  - intros (j & y & z & [= -> ->] & [-> Hj]%lookup_seq & Hz).
    split; [lia|]. by replace (1 + j - 1)%nat with j by lia.
  - intros [Hi Hx]. exists (i - 1)%nat, i, x. split; [done|].
    split; [|done]. apply lookup_seq. apply lookup_lt_Some in Hx. lia.
Qed.

Lemma enumerate1_length {A} (l : list A) : length (enumerate1 l) = length l.
Proof.
  unfold enumerate1. rewrite length_zip, length_seq. lia.
Qed.

End transform_entity_results.

(** X8.  A row that [transform_row] returns has passed every check on
    its coerced form: no error was collected, the row has a cell for every
    CSV column of the entity (and no cell besides CSV columns, targets of
    the column map and lookup fields), it agrees with none of the rows it
    was checked against on the columns of any unique constraint, every key
    field of the entity is non-blank in it, and the XOR rule holds. *)
Theorem transform_row_returns_checked_row
    (e : Transformer.env) (st0 st' : Transformer.state) (entity : string)
    (sheet_config : Mapping.sheet_config) (excel_row0 out : Validator.row)
    (existing : list Validator.row) (errs : list string) :
  Transformer.transform_row e st0 entity sheet_config excel_row0 existing
    = Some (st', (Some out, errs)) →
  errs = []
  ∧ (∃ cols, Transformer.csv_columns_of e entity = Some cols
             ∧ Transformer.keys_between cols
                 (cols ++ (Mapping.columnMap sheet_config).*2
                  ++ (Mapping.lookups sheet_config).*1) out)
  ∧ (∀ c x, c ∈ Validator.constraints_of (Transformer.schema_of e) entity →
            x ∈ existing →
            ¬ Validator.same_key (CdsParser.uc_columns c) out x)
  ∧ (∀ f, f ∈ Validator.fields_of (Transformer.schema_of e) entity →
          CdsParser.field_key f = true →
          Validator.has_value out (CdsParser.field_name f) = true)
  ∧ Validator.validate_xor_rule entity out = None.
Proof.
  intros (cols & out' & errs0 & Hcols & Hkeys
          & [([= <-] & -> & -> & Hchecks)|([=] & _)])%transform_row_stages.
  unfold Transformer.checks in Hchecks.
  apply app_eq_nil in Hchecks as [Hu Hchecks].
  apply app_eq_nil in Hchecks as [Hx Hq].
  split; [done|]. split; [by exists cols|]. split.
  { by apply validate_unique_constraints_nil. }
  split.
  { by apply validate_required_fields_nil. }
  by destruct (Validator.validate_xor_rule entity out).
Qed.

Section transform_entity_invariants.
Import Transformer.

Context (e : env) (entity : string) (sheet_config : Mapping.sheet_config).

Local Abbreviation nk := (natural_key (DedupConfig.get_dedup_keys entity)).

(** Rows processed, rows staged and records filed. *)
Lemma loop_counts items ls ls' :
  foldl (transform_step e entity sheet_config) (Some ls) items = Some ls' →
  (length (valid_rows ls') + length (error_records ls')
   ≤ length (valid_rows ls) + length (error_records ls) + length items)%nat
  ∧ (DedupConfig.should_deduplicate entity = false →
     length (valid_rows ls') + length (error_records ls')
     = (length (valid_rows ls) + length (error_records ls) + length items)%nat).
Proof.
  intros Hfold.
  pose proof (transform_fold_inv e entity sheet_config
    (fun seen l =>
       (length (valid_rows l) + length (error_records l)
        ≤ length (valid_rows ls) + length (error_records ls) + length seen)%nat
       ∧ (DedupConfig.should_deduplicate entity = false →
          length (valid_rows l) + length (error_records l)
          = (length (valid_rows ls) + length (error_records ls)
             + length seen)%nat)) items) as Hinv.
  apply (Hinv) with (seen := []) (ls := ls) in Hfold; [done| |simpl; lia].
  clear. intros seen l idx r l' [Hle Heq] Heff. rewrite length_app. simpl.
  destruct Heff as [Hd Hv He _ _|st1 out errs _ Hv He _ _|rec _ _ Hv He _ _];
    rewrite Hv, He, ?length_app; simpl.
  - split; [lia|]. intros Hd'. congruence.
  - split; [lia|]. intros Hd'. specialize (Heq Hd'). lia.
  - split; [lia|]. intros Hd'. specialize (Heq Hd'). lia.
Qed.

(** The error records follow the source rows: as pairs of row number and
    row they are a subsequence of the rows processed. *)
Lemma loop_records items ls ls' :
  foldl (transform_step e entity sheet_config) (Some ls) items = Some ls' →
  ∃ new, error_records ls' = error_records ls ++ new
         ∧ sublist (recorded new) items.
Proof.
  intros Hfold.
  pose proof (transform_fold_inv e entity sheet_config
    (fun seen l => ∃ new, error_records l = error_records ls ++ new
                          ∧ sublist (recorded new) seen) items) as Hinv.
  apply (Hinv) with (seen := []) (ls := ls) in Hfold; [done| |].
  - clear. intros seen l idx r l' (new & Hnew & Hsub) Heff.
    destruct Heff as [_ _ He _ _|st1 out errs _ _ He _ _|rec Hn Hr _ He _ _].
    + exists new. split; [congruence|]. by apply sublist_inserts_r.
    + exists new. split; [congruence|]. by apply sublist_inserts_r.
    + exists (new ++ [rec]). split.
      * by rewrite He, Hnew, <- app_assoc.
      * unfold recorded. rewrite fmap_app. apply sublist_app; [done|].
        simpl. by rewrite Hn, Hr.
  - exists []. by rewrite app_nil_r.
Qed.

(** Master data: the natural keys of the staged rows are pairwise distinct
    and in the key set, which otherwise holds the keys it started with. *)
Lemma loop_master_keys (items : list (nat * row)) (ls ls' : loop_state)
    (K0 : gset (list string)) :
  DedupConfig.should_deduplicate entity = true →
  foldl (transform_step e entity sheet_config) (Some ls) items = Some ls' →
  valid_rows ls = [] → existing_key_set ls = K0 →
  NoDup (nk <$> valid_rows ls')
  ∧ ∀ r, r ∈ valid_rows ls' → nk r ∉ K0.
Proof.
  intros Hd Hfold Hv HK.
  pose proof (transform_fold_inv e entity sheet_config
    (fun seen l =>
       NoDup (nk <$> valid_rows l)
       ∧ (∀ r, r ∈ valid_rows l → nk r ∉ K0)
       ∧ existing_key_set l ≡ K0 ∪ list_to_set (nk <$> valid_rows l)) items)
    as Hinv.
  apply (Hinv) with (seen := []) (ls := ls) in Hfold.
  - destruct Hfold as (? & ? & _). done.
  - clear Hinv Hfold Hv HK. intros seen l idx r l' (Hnd & Hfresh & Hset) Heff.
    destruct Heff as [_ Hv _ _ Hk|st1 out errs _ Hv _ _ Hk|rec _ _ Hv _ _ Hk].
    + by rewrite Hv, Hk.
    + rewrite Hd in Hk. destruct Hk as [Hnew Hk]. rewrite Hv, Hk.
      rewrite fmap_app. cbn [fmap list_fmap].
      assert (Hout : (nk out ∉ K0) ∧ (nk out ∉ nk <$> valid_rows l)).
      { rewrite Hset in Hnew. set_solver. }
      destruct Hout as [HoutK Houtv]. split; [|split].
      * apply NoDup_app. split; [done|]. split; [|apply NoDup_singleton].
        intros x Hx ->%list_elem_of_singleton. done.
      * intros r' [?| ->%list_elem_of_singleton]%elem_of_app; [auto|done].
      * rewrite Hset, list_to_set_app_L. set_solver.
    + by rewrite Hv, Hk.
  - rewrite Hv, HK. split; [apply NoDup_nil_2|]. split; [|set_solver].
    by intros r ?%elem_of_nil.
Qed.

(** No staged row agrees with a row that was there before, or with a row
    staged before it, on the columns of a unique constraint. *)
Lemma loop_unique items ls ls' (existing : list row) :
  foldl (transform_step e entity sheet_config) (Some ls) items = Some ls' →
  valid_rows ls = [] → all_rows ls = existing →
  ∀ c, c ∈ Validator.constraints_of (schema_of e) entity →
    (∀ r x, r ∈ valid_rows ls' → x ∈ existing →
            ¬ Validator.same_key (CdsParser.uc_columns c) r x)
    ∧ (∀ (i j : nat) r1 r2,
         valid_rows ls' !! i = Some r1 → valid_rows ls' !! j = Some r2 →
         (i < j)%nat →
         ¬ Validator.same_key (CdsParser.uc_columns c) r2 r1).
Proof.
  intros Hfold Hv Ha c Hc.
  pose proof (transform_fold_inv e entity sheet_config
    (fun seen l =>
       all_rows l = existing ++ valid_rows l
       ∧ (∀ r x, r ∈ valid_rows l → x ∈ existing →
                 ¬ Validator.same_key (CdsParser.uc_columns c) r x)
       ∧ (∀ (i j : nat) r1 r2,
            valid_rows l !! i = Some r1 → valid_rows l !! j = Some r2 →
            (i < j)%nat →
            ¬ Validator.same_key (CdsParser.uc_columns c) r2 r1)) items)
    as Hinv.
  apply (Hinv) with (seen := []) (ls := ls) in Hfold.
  - destruct Hfold as (_ & ? & ?). done.
  - clear Hinv Hfold Hv Ha. intros seen l idx r l' (Hall & Hex & Hpair) Heff.
    destruct Heff as [_ Hv _ Ha _|st1 out errs Htr Hv _ Ha _|rec _ _ Hv _ Ha _].
    + by rewrite Hv, Ha.
    + apply transform_row_stages in Htr
        as (cols & out' & errs0 & _ & _
            & [([= <-] & _ & _ & Hchecks)|([=] & _)]).
      unfold checks in Hchecks. apply app_eq_nil in Hchecks as [Hu _].
      pose proof (proj1 (validate_unique_constraints_nil _ _ _ _) Hu c) as Hno.
      rewrite Hv, Ha, Hall. split; [by rewrite <- app_assoc|]. split.
      * intros r' x [?| ->%list_elem_of_singleton]%elem_of_app Hx; [by auto|].
        apply Hno; [done|]. rewrite Hall, elem_of_app. by left.
      * intros i j r1 r2 H1 H2 Hlt.
        apply lookup_app_Some in H2 as [H2|[Hj H2]].
        { apply lookup_lt_Some in H2 as Hjl.
          rewrite lookup_app_l in H1 by lia. by eapply Hpair. }
        apply list_lookup_singleton_Some in H2 as [Hj0 <-].
        rewrite lookup_app_l in H1 by lia.
        apply Hno; [done|]. rewrite Hall, elem_of_app. right.
        by eapply list_elem_of_lookup_2.
    + by rewrite Hv, Ha.
  - rewrite Hv, Ha, app_nil_r. split; [done|]. split.
    + by intros r x ?%elem_of_nil.
    + by intros i j r1 r2 ?.
Qed.

End transform_entity_invariants.

Lemma transform_row_returns_checked_row_witness :
  ∃ cols,
    Transformer.csv_columns_of Samples.clusters_env "CLUSTERS" = Some cols
    ∧ Transformer.keys_between cols
        (cols ++ (Mapping.columnMap Samples.clusters_sheet).*2
         ++ (Mapping.lookups Samples.clusters_sheet).*1) Samples.south_out.
Proof.
  destruct (transform_row_returns_checked_row Samples.clusters_env
              Samples.fresh_state Samples.one_drawn "CLUSTERS"
              Samples.clusters_sheet Samples.south_row Samples.south_out [] [])
    as (_ & H & _).
  - vm_compute. reflexivity.
  - exact H.
Defined.

Section transform_entity_returns.
Import Transformer.

(** The result of [transform_entity] without the state it leaves. *)
Lemma transform_entity_snd e s entity sheet_config excel_rows valid errs :
  snd <$> transform_entity e s entity sheet_config excel_rows
    = Some (valid, errs) →
  ∃ s', transform_entity e s entity sheet_config excel_rows
        = Some (s', (valid, errs)).
Proof.
  destruct (transform_entity _ _ _ _ _) as [[s' [v er]]|]; [|done].
  intros [= <- <-]. by exists s'.
Qed.

End transform_entity_returns.

(** X9.  [transform_entity] never returns more staged rows and error
    records than it was given source rows; and for an entity that is not
    master data (not in [DEDUP_ENTITIES]) and has a CSV path, every source
    row is accounted for: it becomes a staged row or an error record, none
    is dropped silently. *)
Theorem transform_entity_accounts_for_rows
    (e : Transformer.env) (s : Transformer.state) (entity : string)
    (sheet_config : Mapping.sheet_config) (excel_rows valid : list Validator.row)
    (errs : list Transformer.error_record) :
  snd <$> Transformer.transform_entity e s entity sheet_config excel_rows
    = Some (valid, errs) →
  (length valid + length errs ≤ length excel_rows)%nat
  ∧ (DedupConfig.should_deduplicate entity = false →
     (∃ path, Transformer.csv_path_of e entity = Some (Some path)) →
     (length valid + length errs)%nat = length excel_rows).
Proof.
  intros [s' [(Hp & -> & -> & _)|(path & ls' & Hp & Hfold & -> & -> & _)]
            %transform_entity_Some]%transform_entity_snd.
  - split; [simpl; lia|]. intros _ [path Hpath]. congruence.
  - apply loop_counts in Hfold as [Hle Heq]. simpl in Hle, Heq.
    rewrite enumerate1_length in Hle, Heq. split; [lia|].
    intros Hd _. by apply Heq.
Qed.

Lemma transform_entity_accounts_for_rows_witness :
  (length Samples.order_valid + length Samples.order_errors
   ≤ length Samples.order_batch)%nat
  ∧ (DedupConfig.should_deduplicate "SERVICEORDERS" = false →
     (∃ path, Transformer.csv_path_of Samples.orders_env "SERVICEORDERS"
              = Some (Some path)) →
     (length Samples.order_valid + length Samples.order_errors)%nat
     = length Samples.order_batch).
Proof.
  apply (transform_entity_accounts_for_rows Samples.orders_env
           Samples.fresh_state "SERVICEORDERS" Samples.so_sheet
           Samples.order_batch
           Samples.order_valid Samples.order_errors).
  vm_compute. reflexivity.
Defined.

(** X10.  The error records of [transform_entity] point at the source
    rows they were filed for: read as pairs of row number and row they are
    a subsequence of the source rows numbered from 1, so each record holds
    the row found at its (1-based) number, and the records come in
    ascending row order. *)
Theorem transform_entity_error_records_follow_rows
    (e : Transformer.env) (s : Transformer.state) (entity : string)
    (sheet_config : Mapping.sheet_config) (excel_rows valid : list Validator.row)
    (errs : list Transformer.error_record) :
  snd <$> Transformer.transform_entity e s entity sheet_config excel_rows
    = Some (valid, errs) →
  sublist (Transformer.recorded errs) (Transformer.enumerate1 excel_rows)
  ∧ ∀ rec, rec ∈ errs →
      (1 ≤ Transformer.row_num rec)%nat
      ∧ excel_rows !! (Transformer.row_num rec - 1)%nat
        = Some (Transformer.excel_row rec).
Proof.
  intros [s' [(Hp & -> & -> & _)|(path & ls' & Hp & Hfold & -> & -> & _)]
            %transform_entity_Some]%transform_entity_snd.
  - split; [apply sublist_nil_l|]. by intros rec ?%elem_of_nil.
  - apply loop_records in Hfold as (new & Hnew & Hsub). simpl in Hnew.
    rewrite Hnew. split; [done|]. intros rec Hrec.
    apply enumerate1_lookup. eapply elem_of_sublist; [|done].
    unfold Transformer.recorded. apply list_elem_of_fmap. by exists rec.
Qed.

Lemma transform_entity_error_records_follow_rows_witness :
  sublist (Transformer.recorded Samples.order_errors)
    (Transformer.enumerate1 Samples.order_batch).
Proof.
  destruct (transform_entity_error_records_follow_rows Samples.orders_env
           Samples.fresh_state "SERVICEORDERS" Samples.so_sheet
           Samples.order_batch
           Samples.order_valid Samples.order_errors)
    as [H _].
  - vm_compute. reflexivity.
  - exact H.
Defined.

(** Rows that agree on the columns have the same natural key for them. *)
Lemma same_key_natural_key (columns : list string) (r x : Validator.row) :
  Validator.same_key columns r x →
  Transformer.natural_key columns r = Transformer.natural_key columns x.
Proof.
  intros Hsame. unfold Transformer.natural_key.
  apply list_fmap_ext. intros i k Hk.
  destruct (Hsame k) as (Hr & Hx & Heq); [by eapply list_elem_of_lookup_2|].
  unfold Validator.has_value, Validator.key_text in *.
  destruct (Py.dict_get k r); [|done]. by destruct (Py.dict_get k x).
Qed.

(** X11.  For a master-data entity, no row that [transform_entity] stages
    agrees on the dedup columns with a row staged before it in the same
    batch, or with a row of the entity's persisted CSV file, where two rows
    agree on the columns when each column holds a non-blank value in both
    and the two values are the same text after trimming, without regard to
    letter case: a batch adds a master record with a complete key once,
    however often the spreadsheet repeats it, and not at all when the file
    already holds it. *)
Theorem transform_entity_master_keys_distinct
    (e : Transformer.env) (s : Transformer.state) (entity : string)
    (sheet_config : Mapping.sheet_config) (excel_rows valid : list Validator.row)
    (errs : list Transformer.error_record) :
  DedupConfig.should_deduplicate entity = true →
  snd <$> Transformer.transform_entity e s entity sheet_config excel_rows
    = Some (valid, errs) →
  (∀ (i j : nat) r1 r2,
     valid !! i = Some r1 → valid !! j = Some r2 → (i < j)%nat →
     ¬ Validator.same_key (DedupConfig.get_dedup_keys entity) r2 r1)
  ∧ (∀ path r x,
       Transformer.csv_path_of e entity = Some (Some path) →
       r ∈ valid → x ∈ Transformer.persisted_rows e path →
       ¬ Validator.same_key (DedupConfig.get_dedup_keys entity) r x).
Proof.
  intros Hd [s' [(Hp & -> & -> & _)|(path & ls' & Hp & Hfold & -> & -> & _)]
               %transform_entity_Some]%transform_entity_snd.
  - split; [by intros i j r1 r2 ?|]. by intros path r x _ ?%elem_of_nil.
  - rewrite Hd in Hfold.
    eapply loop_master_keys in Hfold as [Hnd Hfresh]; [|done..].
    split.
    + intros i j r1 r2 Hi Hj Hlt Hsame%same_key_natural_key.
      enough (j = i) by lia.
      eapply NoDup_lookup; [exact Hnd| |].
      * rewrite list_lookup_fmap, Hj. reflexivity.
      * rewrite list_lookup_fmap, Hi. simpl. by rewrite Hsame.
    + intros path' r x Hp' Hr Hx Hsame%same_key_natural_key.
      rewrite Hp in Hp'. injection Hp' as <-. specialize (Hfresh r Hr).
      cbn [Transformer.existing_key_set] in Hfresh.
      rewrite elem_of_list_to_set in Hfresh. apply Hfresh.
      rewrite Hsame. apply list_elem_of_fmap. by exists x.
Qed.

Lemma transform_entity_master_keys_distinct_witness :
  DedupConfig.should_deduplicate "CLUSTERS" = true
  ∧ snd <$> Transformer.transform_entity Samples.clusters_env
              Samples.fresh_state "CLUSTERS" Samples.clusters_sheet
              Samples.cluster_batch
    = Some ([Samples.south_out], [])
  ∧ ∀ x,
      x ∈ Transformer.persisted_rows Samples.clusters_env
            Samples.clusters_path →
      ¬ Validator.same_key (DedupConfig.get_dedup_keys "CLUSTERS")
          Samples.south_out x.
Proof.
  assert (Hd : DedupConfig.should_deduplicate "CLUSTERS" = true)
    by reflexivity.
  assert (Hrun : snd <$> Transformer.transform_entity Samples.clusters_env
                   Samples.fresh_state "CLUSTERS" Samples.clusters_sheet
                   Samples.cluster_batch
                 = Some ([Samples.south_out], []))
    by (vm_compute; reflexivity).
  split; [exact Hd|]. split; [exact Hrun|].
  destruct (transform_entity_master_keys_distinct Samples.clusters_env
              Samples.fresh_state "CLUSTERS" Samples.clusters_sheet
              Samples.cluster_batch [Samples.south_out] [] Hd Hrun)
    as [_ Hstore].
  intros x Hx. apply (Hstore Samples.clusters_path); [|left|exact Hx].
  vm_compute. reflexivity.
Defined.

(** X12.  The rows that [transform_entity] stages respect the unique
    constraints of the entity among themselves and against the persisted
    file: for every unique constraint, no staged row agrees with a row of
    the entity's CSV file, or with a row staged before it in the same batch,
    on all columns of the constraint. *)
Theorem transform_entity_staged_rows_unique
    (e : Transformer.env) (s : Transformer.state) (entity : string)
    (sheet_config : Mapping.sheet_config) (excel_rows valid : list Validator.row)
    (errs : list Transformer.error_record) (c : CdsParser.unique_constraint) :
  snd <$> Transformer.transform_entity e s entity sheet_config excel_rows
    = Some (valid, errs) →
  c ∈ Validator.constraints_of (Transformer.schema_of e) entity →
  (∀ path r x,
     Transformer.csv_path_of e entity = Some (Some path) →
     r ∈ valid → x ∈ Transformer.persisted_rows e path →
     ¬ Validator.same_key (CdsParser.uc_columns c) r x)
  ∧ (∀ (i j : nat) r1 r2,
       valid !! i = Some r1 → valid !! j = Some r2 → (i < j)%nat →
       ¬ Validator.same_key (CdsParser.uc_columns c) r2 r1).
Proof.
  intros [s' [(Hp & -> & -> & _)|(path & ls' & Hp & Hfold & -> & -> & _)]
            %transform_entity_Some]%transform_entity_snd Hc.
  - split; [by intros path r x _ ?%elem_of_nil|]. by intros i j r1 r2 ?.
  - eapply loop_unique in Hfold as [Hex Hpair]; [|done..].
    split; [|done]. intros path' r x Hp' Hr Hx. rewrite Hp in Hp'.
    injection Hp' as <-. by apply Hex.
Qed.

Lemma transform_entity_staged_rows_unique_witness :
  ¬ Validator.same_key ["SO_NUMBER"] (Samples.order_out "4503")
      (Samples.order_out "4501").
Proof.
  destruct (transform_entity_staged_rows_unique Samples.orders_env
           Samples.fresh_state "SERVICEORDERS" Samples.so_sheet
           Samples.order_batch
           Samples.order_valid Samples.order_errors
           {| CdsParser.uc_name := "unique_so";
              CdsParser.uc_columns := ["SO_NUMBER"] |})
    as [_ H].
  - vm_compute. reflexivity.
  - vm_compute. left.
  - apply (H 0%nat 1%nat); [reflexivity|reflexivity|lia].
Defined.

(** ** staging_engine: which entities are staged, and which are re-staged *)

Section dict_order.
Context {V : Type}.
Implicit Types (d : list (string * V)).

Lemma dict_get_elem k v d : Py.dict_get k d = Some v → (k, v) ∈ d.
Proof.
  induction d as [|[k0 v0] d IH]; simpl; [done|].
  destruct (String.eqb k0 k) eqn:E.
  - apply String.eqb_eq in E as ->. intros [= ->]. left.
  - intros ?. right. auto.
Qed.

End dict_order.

Section staging_engine_more.
Import StagingEngine.

Context (World : Type).
Context (read_excel_data : World → string → attempt (list row)).
Context (transform_entity :
  World → string → Mapping.sheet_config → list row →
  attempt ((list row * list Transformer.error_record) * World)).
Context (write_staged : World → string → list row → attempt World).
Context (new_transformer : World → World).
Context (staging_dir : string).

Local Abbreviation stage_entity :=
  (stage_entity World read_excel_data transform_entity write_staged staging_dir).
Local Abbreviation restage :=
  (restage World read_excel_data transform_entity write_staged staging_dir).
Local Abbreviation retry_loop :=
  (retry_loop World read_excel_data transform_entity write_staged
     new_transformer staging_dir).

Implicit Types (cfg : list (string * Mapping.sheet_config)).
Implicit Types (results : list (string * stage_result)).

Lemma restage_frame (pass_num : nat) cfg entities results w results' w' :
  restage pass_num cfg entities results w = Returned (results', w') →
  (∀ e, e ∈ entities → e ∈ results.*1) →
  results'.*1 = results.*1
  ∧ ∀ e, e ∉ entities → Py.dict_get e results' = Py.dict_get e results.
Proof.
  revert results w.
  induction entities as [|entity es IH]; intros results w; cbn [StagingEngine.restage].
  - intros [= <- <-] _. done.
  - destruct (Py.dict_get entity cfg) as [sc|]; [|done].
    destruct (stage_entity w entity sc) as [[result w1]|exc]; [|done].
    intros Hre Hin. apply IH in Hre as [Hkeys Hframe].
    + rewrite dict_set_keys_old in Hkeys by (apply Hin; left).
      split; [done|]. intros e [Hne He]%not_elem_of_cons.
      rewrite Hframe by done. by apply dict_get_set_ne.
    + intros e He. rewrite dict_set_keys. right. apply Hin. by right.
Qed.

Lemma no_fk_error_not_retried results e r :
  NoDup results.*1 → Py.dict_get e results = Some r →
  ¬ holds_fk_error r → e ∉ entities_with_fk_errors results.
Proof.
  intros Hnd Hget Hno (r' & Hget' & Hfk)%retried_spec; [|done].
  congruence.
Qed.

(** The retry passes keep the entities of [results] and their order, and
    leave the result of an entity without foreign-key error as it is. *)
Lemma retry_loop_frame (fuel : nat) cfg (pass_num : nat) results w final w' log :
  retry_loop fuel cfg pass_num results w = Returned (final, w', log) →
  NoDup results.*1 →
  final.*1 = results.*1
  ∧ ∀ e r, Py.dict_get e results = Some r → ¬ holds_fk_error r →
           Py.dict_get e final = Some r.
Proof.
  revert pass_num results w log.
  induction fuel as [|fuel IH]; intros pass_num results w log; [done|].
  cbn [StagingEngine.retry_loop].
  destruct (pass_num <=? max_passes)%nat; [|by intros [= <- <- <-]].
  destruct (entities_with_fk_errors results) as [|e0 es] eqn:Hfk;
    [by intros [= <- <- <-]|].
  destruct (sum_errors results (e0 :: es)) as [before|]; [|done].
  destruct (restage pass_num cfg (e0 :: es) results (new_transformer w))
    as [[results' w1]|exc p| |] eqn:Hre; [|done..].
  intros Hret Hnd.
  apply restage_frame in Hre as [Hkeys Hframe].
  2:{ intros e He. apply entities_with_fk_errors_keys. by rewrite Hfk. }
  assert (Hkeep : ∀ e r, Py.dict_get e results = Some r →
            ¬ holds_fk_error r → Py.dict_get e results' = Some r).
  { intros e r Hget Hno. rewrite Hframe; [done|]. rewrite <- Hfk.
    by eapply no_fk_error_not_retried. }
  destruct (sum_errors results' (e0 :: es)) as [after|]; [|done].
  destruct (before <=? after)%nat.
  - injection Hret as <- <- <-. done.
  - destruct (retry_loop fuel cfg (S pass_num) results' w1)
      as [[[final' w''] log']|exc p| |] eqn:Hrec; [|done..].
    injection Hret as <- <- <-.
    apply IH in Hrec as [Hkeys' Hkeep']; [|by rewrite Hkeys].
    split; [congruence|]. intros e r Hget Hno. apply Hkeep'; [|done].
    by apply Hkeep.
Qed.

End staging_engine_more.

Section entity_to_config_facts.
Import StagingEngine.

Lemma entity_to_config_snoc sheets s :
  entity_to_config (sheets ++ [s])
  = match FkResolver.nonempty (Mapping.entity s) with
    | Some e => Py.dict_set e s (entity_to_config sheets)
    | None => entity_to_config sheets
    end.
Proof. unfold entity_to_config. by rewrite foldl_app. Qed.

Lemma filter_snoc {A} (f : A → bool) (l : list A) (x : A) :
  List.filter f (l ++ [x]) = List.filter f l ++ (if f x then [x] else []).
Proof.
  induction l as [|y l IH]; simpl; [by destruct (f x)|].
  destruct (f y); simpl; by rewrite IH.
Qed.

Lemma entity_to_config_last sheets e :
  Py.dict_get e (entity_to_config sheets) = last (sheets_of sheets e).
Proof.
  unfold sheets_of.
  induction sheets as [|s sheets IH] using rev_ind; [done|].
  rewrite entity_to_config_snoc, filter_snoc.
  destruct (FkResolver.nonempty (Mapping.entity s)) as [e'|] eqn:He'.
  - destruct (decide (e' = e)) as [->|Hne].
    + rewrite bool_decide_eq_true_2 by done.
      by rewrite dict_get_set_eq, last_snoc.
    + rewrite bool_decide_eq_false_2 by congruence.
      by rewrite dict_get_set_ne, app_nil_r.
  - rewrite bool_decide_eq_false_2 by congruence. by rewrite app_nil_r.
Qed.

End entity_to_config_facts.

(** X13.  [stage_all] stages one sheet per entity: the config that the
    engine uses for an entity is the last sheet of the mapping that names
    it, so earlier sheets naming the same entity are never staged; a sheet
    without an entity name is not used at all. *)
Theorem entity_to_config_last_sheet_wins
    (sheets : list Mapping.sheet_config) (e : string) :
  Py.dict_get e (StagingEngine.entity_to_config sheets)
  = last (StagingEngine.sheets_of sheets e).
Proof. apply entity_to_config_last. Qed.

(** X14.  [stage_all] ends: it returns, or an exception of one of its
    operations leaves it, raised in one of the passes 1 to 5.  When it
    returns, its result has exactly one entry for each entity of the
    ingestion order that some sheet of the mapping names (an entity with a
    sheet but absent from the ingestion order is never staged).  The retry
    passes keep these entries and their order, and never re-stage an entity
    whose result after the first pass holds no foreign-key resolution error:
    its entry in the final result is the one of the first pass. *)
Theorem stage_all_restages_only_fk_failures
    (World : Type)
    (read_excel_data :
       World → string → StagingEngine.attempt (list Validator.row))
    (transform_entity :
       World → string → Mapping.sheet_config → list Validator.row →
       StagingEngine.attempt
         ((list Validator.row * list Transformer.error_record) * World))
    (write_staged :
       World → string → list Validator.row → StagingEngine.attempt World)
    (new_transformer : World → World)
    (staging_dir : string)
    (sheets : list Mapping.sheet_config) (ingestion_order : list string)
    (w : World) :
  match StagingEngine.stage_all_traced World read_excel_data transform_entity
          write_staged new_transformer staging_dir sheets ingestion_order w
  with
  | StagingEngine.Returned (final, w', (first, log)) =>
      NoDup final.*1
      ∧ (∀ e, e ∈ final.*1
              ↔ e ∈ ingestion_order ∧ StagingEngine.sheets_of sheets e ≠ [])
      ∧ final.*1 = first.*1
      ∧ ∀ e r, Py.dict_get e first = Some r →
               ¬ StagingEngine.holds_fk_error r →
               Py.dict_get e final = Some r
  | StagingEngine.Raised exc pass => (1 ≤ pass)%nat ∧ (pass ≤ 5)%nat
  | StagingEngine.KeyError | StagingEngine.OutOfFuel => False
  end.
Proof.
  unfold StagingEngine.stage_all_traced.
  pose proof (first_pass_keys World read_excel_data transform_entity
                write_staged new_transformer staging_dir
                (StagingEngine.entity_to_config sheets) ingestion_order w)
    as Hfirst.
  destruct (StagingEngine.first_pass _ _ _ _ _ _ _ _) as [[first w1]|exc];
    [|lia].
  destruct (Hfirst first w1 eq_refl) as [Hnd Hkeys].
  pose proof (retry_loop_spec World read_excel_data transform_entity
                write_staged new_transformer staging_dir
                StagingEngine.max_passes
                (StagingEngine.entity_to_config sheets) 2 first w1) as Hloop.
  destruct (StagingEngine.retry_loop _ _ _ _ _ _ _ _ _ _ _)
    as [[[final w'] log]|exc p| |] eqn:Hrun.
  - apply retry_loop_frame in Hrun as [Hsame Hkeep]; [|done].
    split; [by rewrite Hsame|]. split; [|done].
    intros e. rewrite Hsame, Hkeys, entity_to_config_last.
    split; intros [? Hs]; (split; [done|]).
    + destruct Hs as [s Hs]. intros Hnil. by rewrite Hnil in Hs.
    + destruct (StagingEngine.sheets_of sheets e) as [|s l] using rev_ind;
        [done|]. rewrite last_snoc. by eexists.
  - destruct Hloop as [? ?];
      [by intros e [_ ?]%Hkeys|done|unfold StagingEngine.max_passes; lia..|].
    lia.
  - apply Hloop;
      [by intros e [_ ?]%Hkeys|done|unfold StagingEngine.max_passes; lia..].
  - apply Hloop;
      [by intros e [_ ?]%Hkeys|done|unfold StagingEngine.max_passes; lia..].
Qed.

(** ** append_writer.append_entity: a successful append *)

Section append_success.
Import AppendWriter.

Lemma append_entity_no_fault self timestamp (fs : gmap string string)
    entity csv_file staged_file original staged_content header records :
  fs !! csv_file = Some original →
  fs !! staged_file = Some staged_content →
  Csv.reader staged_content = header :: records →
  backup_path_of self timestamp csv_file ≠ csv_file →
  backup_path_of self timestamp csv_file ≠ staged_file →
  append_entity self timestamp NoFault fs entity csv_file staged_file
  = (Returns {| res_entity := entity; appended := length records;
                backup := Some (backup_path_of self timestamp csv_file);
                error := None |},
     <[csv_file :=
         original +:+ String.concat EmptyString
                        (row_text (first_record original)
                           <$> data_rows_of staged_content)]>
       (<[backup_path_of self timestamp csv_file := original]> fs)).
Proof.
  intros Hcsv Hstaged Hrd Hbc Hbs.
  unfold append_entity, _get_headers, _backup_csv.
  rewrite Hstaged, Hcsv.
  set (bp := backup_path_of self timestamp csv_file) in *.
  rewrite lookup_insert_ne by done. rewrite Hstaged, Hrd.
  unfold write_rows, data_rows_of, written.
  rewrite lookup_insert_ne by done. by rewrite Hcsv.
Qed.

End append_success.

(** X15.  A successful append only extends the target.  When the target
    and the staged file exist (the staged file with at least its header
    record) and the backup is a file of its own, [append_entity] without a
    write failure returns no error and names the backup; the new content of
    the target is its old content followed by the text of one line per
    staged row, laid out by the header of the target, so no byte that was in
    the file is rewritten; the backup holds the old content; and no other
    file changes, the staged file included. *)
Theorem append_entity_extends_target
    (self : AppendWriter.writer) (timestamp : string) (fs : gmap string string)
    (entity csv_file staged_file original staged_content : string) :
  fs !! csv_file = Some original →
  fs !! staged_file = Some staged_content →
  Csv.reader staged_content ≠ [] →
  AppendWriter.backup_path_of self timestamp csv_file ≠ csv_file →
  AppendWriter.backup_path_of self timestamp csv_file ≠ staged_file →
  ∃ r fs',
    AppendWriter.append_entity self timestamp AppendWriter.NoFault fs entity
      csv_file staged_file = (AppendWriter.Returns r, fs')
    ∧ AppendWriter.error r = None
    ∧ AppendWriter.backup r
      = Some (AppendWriter.backup_path_of self timestamp csv_file)
    ∧ fs' !! csv_file
      = Some (original
              +:+ String.concat EmptyString
                    (AppendWriter.row_text (AppendWriter.first_record original)
                       <$> AppendWriter.data_rows_of staged_content))
    ∧ fs' !! AppendWriter.backup_path_of self timestamp csv_file = Some original
    ∧ ∀ p, p ≠ csv_file →
           p ≠ AppendWriter.backup_path_of self timestamp csv_file →
           fs' !! p = fs !! p.
Proof.
  intros Hcsv Hstaged Hrec Hbc Hbs.
  destruct (Csv.reader staged_content) as [|header records] eqn:Hrd; [done|].
  rewrite (append_entity_no_fault self timestamp fs entity csv_file staged_file
             original staged_content header records) by done.
  eexists _, _. split; [done|]. split; [done|]. split; [done|].
  split; [apply lookup_insert_eq|]. split.
  - rewrite lookup_insert_ne by done. apply lookup_insert_eq.
  - intros p ? ?. by rewrite !lookup_insert_ne.
Qed.

Lemma append_entity_extends_target_witness :
  ∃ r fs',
    AppendWriter.append_entity Samples.the_writer "20251103_120000"
      AppendWriter.NoFault (Samples.files_with Samples.target_unterminated)
      "CLUSTERS" Samples.target_path Samples.staged_path
    = (AppendWriter.Returns r, fs')
    ∧ AppendWriter.error r = None
    ∧ AppendWriter.backup r
      = Some (AppendWriter.backup_path_of Samples.the_writer "20251103_120000"
                Samples.target_path)
    ∧ fs' !! Samples.target_path
      = Some (Samples.target_unterminated
              +:+ String.concat EmptyString
                    (AppendWriter.row_text
                       (AppendWriter.first_record Samples.target_unterminated)
                       <$> AppendWriter.data_rows_of Samples.staged_one_row))
    ∧ fs' !! AppendWriter.backup_path_of Samples.the_writer "20251103_120000"
               Samples.target_path
      = Some Samples.target_unterminated
    ∧ ∀ p, p ≠ Samples.target_path →
           p ≠ AppendWriter.backup_path_of Samples.the_writer "20251103_120000"
                 Samples.target_path →
           fs' !! p = Samples.files_with Samples.target_unterminated !! p.
Proof.
  apply (append_entity_extends_target Samples.the_writer "20251103_120000"
           (Samples.files_with Samples.target_unterminated) "CLUSTERS"
           Samples.target_path Samples.staged_path Samples.target_unterminated
           Samples.staged_one_row).
  - vm_compute. reflexivity.
  - vm_compute. reflexivity.
  - vm_compute. discriminate.
  - vm_compute. discriminate.
  - vm_compute. discriminate.
Defined.

(** X16.  The count that [append_entity] reports is the number of
    records that follow the header record of the staged file, empty records
    (blank lines) included, whereas one line is written for each record that
    is not empty: the reported count is never less than the number of lines
    written, and exceeds it by the number of blank lines of the staged
    file. *)
Theorem append_entity_reported_count
    (self : AppendWriter.writer) (timestamp : string) (fs : gmap string string)
    (entity csv_file staged_file original staged_content : string)
    (header : list string) (records : list (list string)) :
  fs !! csv_file = Some original →
  fs !! staged_file = Some staged_content →
  Csv.reader staged_content = header :: records →
  AppendWriter.backup_path_of self timestamp csv_file ≠ csv_file →
  AppendWriter.backup_path_of self timestamp csv_file ≠ staged_file →
  ∃ r fs',
    AppendWriter.append_entity self timestamp AppendWriter.NoFault fs entity
      csv_file staged_file = (AppendWriter.Returns r, fs')
    ∧ AppendWriter.appended r = length records
    ∧ length (AppendWriter.data_rows_of staged_content)
      = length (List.filter (fun rec => negb (bool_decide (rec = []))) records)
    ∧ (length (AppendWriter.data_rows_of staged_content)
       ≤ AppendWriter.appended r)%nat.
Proof.
  intros Hcsv Hstaged Hrd Hbc Hbs.
  rewrite (append_entity_no_fault self timestamp fs entity csv_file staged_file
             original staged_content header records) by done.
  eexists _, _. split; [done|]. split; [done|].
  unfold AppendWriter.data_rows_of, Csv.dict_reader. rewrite Hrd.
  cbn [snd AppendWriter.appended]. rewrite length_fmap. split; [done|].
  apply List.filter_length_le.
Qed.

Lemma append_entity_reported_count_witness :
  ∃ r fs',
    AppendWriter.append_entity Samples.the_writer "20251103_120000"
      AppendWriter.NoFault
      {[ Samples.target_path := Samples.target_terminated;
         Samples.staged_path := Samples.staged_blank_line ]}
      "CLUSTERS" Samples.target_path Samples.staged_path
    = (AppendWriter.Returns r, fs')
    ∧ AppendWriter.appended r = 2%nat
    ∧ length (AppendWriter.data_rows_of Samples.staged_blank_line) = 1%nat.
Proof.
  destruct (append_entity_reported_count Samples.the_writer "20251103_120000"
           {[ Samples.target_path := Samples.target_terminated;
              Samples.staged_path := Samples.staged_blank_line ]}
           "CLUSTERS" Samples.target_path Samples.staged_path
           Samples.target_terminated Samples.staged_blank_line
           ["NAME"; "REGION"; "ID"] [ []; ["South"; "R2"; "c-2"] ])
    as (r & fs' & Hrun & Happ & Hlen & _).
  - vm_compute. reflexivity.
  - vm_compute. reflexivity.
  - vm_compute. reflexivity.
  - vm_compute. discriminate.
  - vm_compute. discriminate.
  - exists r, fs'. split; [exact Hrun|]. split; [exact Happ|]. exact Hlen.
Defined.

(** ** The csv module: what the writer writes, the reader reads back *)

Section csv_roundtrip.
Import Csv.

Local Abbreviation St recs p m := {| emitted := recs; cur := p; mode := m |}.
Local Abbreviation P s f fs := {| state := s; field := f; fields := fs |}.

Lemma stream_run_app st a b :
  stream_run st (a ++ b) = stream_run (stream_run st a) b.
Proof. unfold stream_run. apply foldl_app. Qed.

Lemma stream_run_cons st c s :
  stream_run st (c :: s) = stream_run (stream_step st c) s.
Proof. done. Qed.

(** A character other than a line ending, not after a pending CR. *)
Lemma stream_step_inline recs p m c :
  m ≠ AfterCR → Ascii.eqb c LF = false → Ascii.eqb c CR = false →
  stream_step (St recs p m) c = St recs (process_char p (Some c)) InLine.
Proof.
  intros Hm H1 H2. unfold stream_step, stream_char. cbn [mode emitted cur].
  destruct m; [| |done]; by rewrite H1, H2.
Qed.

Lemma end_of_line_quoted recs f fs :
  end_of_line recs (P IN_QUOTED_FIELD f fs) = (recs, P IN_QUOTED_FIELD f fs).
Proof. done. Qed.

(** Inside a quoted field every character is taken by the reader, line
    endings included, and no record ends. *)
Lemma stream_step_quoted recs f fs m c :
  stream_step (St recs (P IN_QUOTED_FIELD f fs) m) c
  = St recs (process_char (P IN_QUOTED_FIELD f fs) (Some c))
      (if Ascii.eqb c LF then LineStart
       else if Ascii.eqb c CR then AfterCR else InLine).
Proof.
  unfold stream_step, stream_char. cbn [mode emitted cur].
  assert (Hq : Ascii.eqb c LF = true → Ascii.eqb c quotechar = false).
  { intros ->%Ascii.eqb_eq. done. }
  destruct m; destruct (Ascii.eqb c LF) eqn:HLF;
    try (cbn [process_char state]; rewrite (Hq eq_refl); done);
    rewrite ?end_of_line_quoted; by destruct (Ascii.eqb c CR).
Qed.

Lemma run_double_quotes s recs f fs m :
  ∃ m', stream_run (St recs (P IN_QUOTED_FIELD f fs) m) (double_quotes s)
        = St recs (P IN_QUOTED_FIELD (reverse s ++ f) fs) m'.
Proof.
  revert f m. induction s as [|c s IH]; intros f m; [by exists m|].
  unfold double_quotes. rewrite bind_cons. fold (double_quotes s).
  rewrite stream_run_app.
  assert (Hc : ∃ m1, stream_run (St recs (P IN_QUOTED_FIELD f fs) m)
                       (if Ascii.eqb c quotechar then [c; c] else [c])
                     = St recs (P IN_QUOTED_FIELD (c :: f) fs) m1).
  { destruct (Ascii.eqb c quotechar) eqn:Hq.
    - apply Ascii.eqb_eq in Hq as ->. exists InLine.
      rewrite !stream_run_cons, stream_step_quoted.
      by rewrite stream_step_inline.
    - eexists. rewrite stream_run_cons, stream_step_quoted.
      cbn [process_char state]. by rewrite Hq. }
  destruct Hc as [m1 ->]. destruct (IH (c :: f) m1) as [m' ->].
  exists m'. by rewrite reverse_cons, <- app_assoc.
Qed.

(** The characters of a field that needs no quotes. *)
Lemma needs_quotes_cons c s :
  needs_quotes (c :: s) = false →
  Ascii.eqb c delimiter = false ∧ Ascii.eqb c quotechar = false
  ∧ Ascii.eqb c CR = false ∧ Ascii.eqb c LF = false
  ∧ needs_quotes s = false.
Proof.
  unfold needs_quotes, is_newline. cbn [existsb].
  intros [[[? ?]%orb_false_iff [? ?]%orb_false_iff]%orb_false_iff ?]
           %orb_false_iff.
  tauto.
Qed.

Lemma run_plain_in_field s recs f fs m :
  needs_quotes s = false → m ≠ AfterCR →
  ∃ m', m' ≠ AfterCR
        ∧ stream_run (St recs (P IN_FIELD f fs) m) s
          = St recs (P IN_FIELD (reverse s ++ f) fs) m'.
Proof.
  revert f m. induction s as [|c s IH]; intros f m Hs Hm; [by exists m|].
  apply needs_quotes_cons in Hs as (Hd & Hq & HCR & HLF & Hs).
  rewrite stream_run_cons, stream_step_inline by done.
  cbn [process_char state]. unfold is_newline. rewrite HCR, HLF, Hd.
  cbn [orb]. unfold add_char. cbn [field fields].
  destruct (IH (c :: f) InLine Hs) as (m' & Hm' & ->); [done|].
  exists m'. split; [done|]. by rewrite reverse_cons, <- app_assoc.
Qed.

(** The state of the reader after the text of a field, written at the
    start of a field: the field is collected, and the reader is inside an
    unquoted field, just after a closing quote, or (for an empty field
    written without quotes) still where it was. *)
Lemma run_format_field f recs s0 fs m :
  at_field_start s0 → m ≠ AfterCR →
  ∃ s1 m',
    m' ≠ AfterCR
    ∧ stream_run (St recs (P s0 [] fs) m) (format_field f)
      = St recs (P s1 (reverse f) fs) m'
    ∧ (s1 = IN_FIELD ∨ s1 = QUOTE_IN_QUOTED_FIELD
       ∨ (s1 = s0 ∧ format_field f = [])).
Proof.
  intros Hs0 Hm. unfold format_field.
  destruct (needs_quotes f) eqn:Hnq.
  - exists QUOTE_IN_QUOTED_FIELD, InLine. split; [done|]. split; [|tauto].
    rewrite stream_run_cons, stream_step_inline by done.
    assert (process_char (P s0 [] fs) (Some quotechar) = P IN_QUOTED_FIELD [] fs)
      as -> by (by destruct Hs0 as [-> | ->]).
    rewrite stream_run_app.
    destruct (run_double_quotes f recs [] fs InLine) as [m1 ->].
    rewrite app_nil_r, stream_run_cons, stream_step_quoted. done.
  - destruct f as [|c f].
    + exists s0, m. split; [done|]. split; [done|]. tauto.
    + apply needs_quotes_cons in Hnq as (Hd & Hq & HCR & HLF & Hf).
      rewrite stream_run_cons, stream_step_inline by done.
      assert (process_char (P s0 [] fs) (Some c) = P IN_FIELD [c] fs) as ->.
      { destruct Hs0 as [-> | ->]; cbn [process_char start_field state];
          unfold is_newline; by rewrite HCR, HLF, Hq, Hd. }
      destruct (run_plain_in_field f recs [c] fs InLine Hf) as (m' & Hm' & ->);
        [done|].
      exists IN_FIELD, m'. split; [done|]. split; [|tauto].
      by rewrite reverse_cons.
Qed.

(** The delimiter after a field. *)
Lemma step_delimiter recs s1 g fs m :
  m ≠ AfterCR →
  s1 = IN_FIELD ∨ s1 = QUOTE_IN_QUOTED_FIELD ∨ at_field_start s1 →
  stream_step (St recs (P s1 g fs) m) delimiter
  = St recs (P START_FIELD [] (string_of_list_ascii (reverse g) :: fs)) InLine.
Proof.
  intros Hm Hs1. rewrite stream_step_inline by done.
  by destruct Hs1 as [-> | [-> | [-> | ->]]].
Qed.

(** The line ending after the last field of a record. *)
Lemma run_crlf_field recs s1 g fs m :
  m ≠ AfterCR →
  s1 = IN_FIELD ∨ s1 = QUOTE_IN_QUOTED_FIELD ∨ s1 = START_FIELD →
  stream_run (St recs (P s1 g fs) m) [CR; LF]
  = St (recs ++ [reverse (string_of_list_ascii (reverse g) :: fs)]) reset
      LineStart.
Proof.
  intros Hm Hs1. rewrite !stream_run_cons.
  destruct Hs1 as [-> | [-> | ->]]; by destruct m.
Qed.

Lemma run_crlf_empty recs fs m :
  m ≠ AfterCR →
  stream_run (St recs (P START_RECORD [] fs) m) [CR; LF]
  = St (recs ++ [reverse fs]) reset LineStart.
Proof. intros Hm. rewrite !stream_run_cons. by destruct m. Qed.

Lemma run_join_fields fs :
  fs ≠ [] → ∀ recs acc m, m ≠ AfterCR →
  stream_run (St recs (P START_FIELD [] acc) m) (join_fields fs ++ [CR; LF])
  = St (recs ++ [reverse acc ++ (string_of_list_ascii <$> fs)]) reset LineStart.
Proof.
  induction fs as [|f fs IH]; [done|]. intros _ recs acc m Hm.
  destruct (run_format_field f recs START_FIELD acc m) as (s1 & m1 & Hm1 & Hf & Hs1);
    [by right|done|].
  destruct fs as [|f2 rest].
  - cbn [join_fields]. rewrite stream_run_app, Hf.
    rewrite run_crlf_field by (done || destruct Hs1 as [?|[?|[? _]]]; auto).
    by rewrite reverse_involutive, reverse_cons.
  - change (join_fields (f :: f2 :: rest))
      with (format_field f ++ delimiter :: join_fields (f2 :: rest)).
    rewrite <- app_assoc, stream_run_app, Hf. rewrite <- app_comm_cons.
    rewrite stream_run_cons, step_delimiter.
    + rewrite IH by done. rewrite reverse_involutive, reverse_cons.
      by rewrite <- app_assoc.
    + done.
    + destruct Hs1 as [?|[?|[-> _]]]; auto. right. right. by right.
Qed.

Lemma format_field_nonempty c f : format_field (c :: f) ≠ [].
Proof. unfold format_field. by destruct (needs_quotes (c :: f)). Qed.

(** One record as the writer writes it, read at the start of a record. *)
Lemma run_record fs recs :
  stream_run (St recs reset LineStart)
    (match fs with
     | [ [] ] => [quotechar; quotechar]
     | _ => join_fields fs
     end ++ [CR; LF])
  = St (recs ++ [string_of_list_ascii <$> fs]) reset LineStart.
Proof.
  destruct fs as [|f fs].
  { cbn [join_fields app]. unfold reset at 1. by rewrite run_crlf_empty. }
  destruct fs as [|f2 rest].
  - destruct f as [|c f]; [done|]. cbn [join_fields].
    destruct (run_format_field (c :: f) recs START_RECORD [] LineStart)
      as (s1 & m1 & Hm1 & Hf & Hs1); [by left|done|].
    rewrite stream_run_app. unfold reset. rewrite Hf.
    rewrite run_crlf_field.
    + by rewrite reverse_involutive.
    + done.
    + destruct Hs1 as [?|[?|[_ Hnil]]]; auto.
      by apply format_field_nonempty in Hnil.
  - assert (Hbody : match f :: f2 :: rest with
                    | [ [] ] => [quotechar; quotechar]
                    | _ => join_fields (f :: f2 :: rest)
                    end
                    = format_field f ++ delimiter :: join_fields (f2 :: rest)).
    { by destruct f. }
    rewrite Hbody. clear Hbody.
    destruct (run_format_field f recs START_RECORD [] LineStart)
      as (s1 & m1 & Hm1 & Hf & Hs1); [by left|done|].
    rewrite <- app_assoc, stream_run_app. unfold reset at 1. rewrite Hf.
    rewrite <- app_comm_cons, stream_run_cons, step_delimiter.
    + rewrite run_join_fields by done. by rewrite reverse_involutive.
    + done.
    + destruct Hs1 as [?|[?|[-> _]]]; auto. right. right. by left.
Qed.

Lemma list_ascii_app (a b : string) :
  list_ascii_of_string (a +:+ b)
  = list_ascii_of_string a ++ list_ascii_of_string b.
Proof.
  induction a as [|c a IH]; [done|]. rewrite app_String. simpl. by rewrite IH.
Qed.

Lemma string_concat_cons (x : string) (xs : list string) :
  String.concat EmptyString (x :: xs) = x +:+ String.concat EmptyString xs.
Proof.
  destruct xs as [|y xs]; simpl; [by rewrite string_app_nil_r|done].
Qed.

(** [writerow] then the reader: the record comes back. *)
Lemma run_format_row cells recs :
  stream_run (St recs reset LineStart) (list_ascii_of_string (format_row cells))
  = St (recs ++ [cells]) reset LineStart.
Proof.
  unfold format_row. cbv zeta. rewrite list_ascii_of_string_of_list_ascii.
  rewrite run_record. do 3 f_equal. rewrite <- list_fmap_compose.
  rewrite <- (list_fmap_id cells) at 2. apply list_fmap_ext.
  intros i c _. apply string_of_list_ascii_of_string.
Qed.

Lemma run_format_rows rows recs :
  stream_run (St recs reset LineStart)
    (list_ascii_of_string (String.concat EmptyString (format_row <$> rows)))
  = St (recs ++ rows) reset LineStart.
Proof.
  revert recs. induction rows as [|cells rows IH]; intros recs.
  - simpl. by rewrite app_nil_r.
  - rewrite fmap_cons, string_concat_cons, list_ascii_app, stream_run_app.
    rewrite run_format_row, IH. by rewrite <- app_assoc.
Qed.

(** A complete content: the pass over it ends where a record starts. *)
Lemma run_complete content :
  complete content →
  stream_run stream_start (list_ascii_of_string content)
  = St (reader content) reset LineStart.
Proof.
  rewrite reader_stream. unfold complete. cbv zeta.
  destruct (stream_run stream_start _) as [recs p m]. cbn [cur mode].
  intros [-> ->]. unfold stream_finish. cbn. by rewrite app_nil_r.
Qed.

(** Records written after a complete content are read after its records. *)
Lemma reader_append content rows :
  complete content →
  reader (content +:+ String.concat EmptyString (format_row <$> rows))
  = reader content ++ rows
  ∧ complete (content +:+ String.concat EmptyString (format_row <$> rows)).
Proof.
  intros Hc. rewrite reader_stream. unfold complete. cbv zeta.
  rewrite list_ascii_app, stream_run_app, (run_complete content Hc).
  rewrite run_format_rows. split; [|done].
  unfold stream_finish. cbn. by rewrite app_nil_r.
Qed.

Lemma complete_empty : complete EmptyString.
Proof. done. Qed.

End csv_roundtrip.

(** ** append_writer.append_entity: the rows of the target after an append *)

Section append_rows.
Import AppendWriter.

Lemma dict_get_fill_fun {V} (g : string → V) (l : list string) d k :
  k ∈ l →
  Py.dict_get k (foldl (fun d h => Py.dict_set h (g h) d) d l) = Some (g k).
Proof.
  induction l as [|x l IH] using rev_ind; [by intros ?%elem_of_nil|].
  rewrite foldl_app. cbn [foldl].
  destruct (decide (x = k)) as [->|Hne]; [intros _; apply dict_get_set_eq|].
  intros [?|?%list_elem_of_singleton]%elem_of_app; [|congruence].
  rewrite dict_get_set_ne by done. by apply IH.
Qed.

Lemma dict_fill_keys {V} (g : string → V) (l : list string) d k :
  k ∈ (foldl (fun d h => Py.dict_set h (g h) d) d l).*1 ↔ k ∈ d.*1 ∨ k ∈ l.
Proof.
  revert d. induction l as [|x l IH]; intros d; cbn [foldl].
  - rewrite elem_of_nil. tauto.
  - rewrite IH, dict_set_keys, elem_of_cons. tauto.
Qed.

(** The cells written for a staged row: one per column of the header, the
    text that the row has for the column or the empty text. *)
Lemma dict_row_cells_out_row headers r :
  Csv.dict_row_cells headers (out_row headers r) = aligned_cells headers r.
Proof.
  unfold Csv.dict_row_cells, aligned_cells, out_row.
  apply list_fmap_ext. intros i h Hh.
  rewrite (dict_get_fill_fun
             (fun h => default (Some EmptyString) (Py.dict_get h r)))
    by (by eapply list_elem_of_lookup_2).
  unfold cell. by destruct (Py.dict_get h r) as [[v|]|].
Qed.

Lemma row_text_aligned headers (rows : list Csv.dict_row) :
  row_text headers <$> rows
  = Csv.format_row <$> (aligned_cells headers <$> rows).
Proof.
  rewrite <- list_fmap_compose. apply list_fmap_ext. intros i r _.
  unfold row_text. cbn. by rewrite dict_row_cells_out_row.
Qed.

Lemma zip_row_fmap (f : string → string) (headers : list string) :
  Csv.zip_row headers (f <$> headers)
  = foldl (fun d h => Py.dict_set h (Some (f h)) d) [] headers.
Proof.
  unfold Csv.zip_row.
  assert (Himap : imap (fun (i : nat) h => (h, (f <$> headers) !! i)) headers
                  = (fun h => (h, Some (f h))) <$> headers).
  { apply list_eq. intros i. rewrite list_lookup_imap, !list_lookup_fmap.
    by destruct (headers !! i). }
  rewrite Himap. clear Himap. generalize (@nil (string * option string)).
  induction headers as [|h headers IH]; intros d; [done|].
  rewrite fmap_cons. cbn [foldl fst snd]. apply IH.
Qed.

(** The row read back has the columns of the header and nothing else. *)
Lemma aligned_row_spec headers r :
  (∀ h, h ∈ headers →
        Py.dict_get h (aligned_row headers r) = Some (Some (cell r h)))
  ∧ (∀ k, k ∈ (aligned_row headers r).*1 ↔ k ∈ headers).
Proof.
  unfold aligned_row, aligned_cells. rewrite zip_row_fmap. split.
  - intros h Hh. by rewrite (dict_get_fill_fun (fun h => Some (cell r h))).
  - intros k. rewrite (dict_fill_keys (fun h => Some (cell r h))).
    rewrite elem_of_nil. tauto.
Qed.

Lemma header_of_first_record content : header_of content = first_record content.
Proof.
  unfold header_of, first_record, Csv.dict_reader.
  by destruct (Csv.reader content).
Qed.

Lemma filter_nonempty_all {A} (ls : list (list A)) :
  (∀ l, l ∈ ls → l ≠ []) →
  List.filter (fun r => negb (bool_decide (r = []))) ls = ls.
Proof.
  induction ls as [|l ls IH]; intros Hall; [done|]. cbn [List.filter].
  rewrite bool_decide_eq_false_2 by (apply Hall; left). cbn [negb].
  rewrite IH; [done|]. intros l' ?. apply Hall. by right.
Qed.

(** The rows that a reader of the pipeline sees after records have been
    written behind a complete content with a non-empty header. *)
Lemma data_rows_append content header recs new_cells :
  Csv.reader content = header :: recs →
  (∀ cells, cells ∈ new_cells → cells ≠ []) →
  Csv.zip_row header
    <$> List.filter (fun r => negb (bool_decide (r = []))) (recs ++ new_cells)
  = data_rows_of content ++ (Csv.zip_row header <$> new_cells).
Proof.
  intros Hrd Hne. unfold data_rows_of, Csv.dict_reader. rewrite Hrd. cbn [snd].
  by rewrite List.filter_app, fmap_app, (filter_nonempty_all new_cells).
Qed.

End append_rows.

(** X17.  Appending to a target that ends where a record ends.  When the
    content of the existing target is complete (the reader is at the start
    of a record at its end: the last line is ended and no quote is open),
    a successful [append_entity] leaves the records of the target as they
    were and adds one record per staged row, holding for each column of the
    target's header the text that the staged row has for that column, or
    the empty text; staged columns that the header does not have are not
    written, and the new content is complete again.  With a non-empty
    header, the header that [csv.DictReader] reads is unchanged and the data
    rows are the old rows followed by the new ones. *)
Theorem append_entity_appends_aligned_records
    (self : AppendWriter.writer) (timestamp : string) (fs : gmap string string)
    (entity csv_file staged_file original staged_content : string) :
  fs !! csv_file = Some original →
  fs !! staged_file = Some staged_content →
  Csv.reader staged_content ≠ [] →
  AppendWriter.backup_path_of self timestamp csv_file ≠ csv_file →
  AppendWriter.backup_path_of self timestamp csv_file ≠ staged_file →
  Csv.complete original →
  ∃ r fs' updated,
    AppendWriter.append_entity self timestamp AppendWriter.NoFault fs entity
      csv_file staged_file = (AppendWriter.Returns r, fs')
    ∧ AppendWriter.error r = None
    ∧ fs' !! csv_file = Some updated
    ∧ Csv.complete updated
    ∧ Csv.reader updated
      = Csv.reader original
        ++ (AppendWriter.aligned_cells (AppendWriter.header_of original)
              <$> AppendWriter.data_rows_of staged_content)
    ∧ (AppendWriter.header_of original ≠ [] →
       AppendWriter.header_of updated = AppendWriter.header_of original
       ∧ AppendWriter.data_rows_of updated
         = AppendWriter.data_rows_of original
           ++ (AppendWriter.aligned_row (AppendWriter.header_of original)
                 <$> AppendWriter.data_rows_of staged_content))
    ∧ (∀ row h, h ∈ AppendWriter.header_of original →
         Py.dict_get h
           (AppendWriter.aligned_row (AppendWriter.header_of original) row)
         = Some (Some (AppendWriter.cell row h)))
    ∧ (∀ row k,
         k ∈ (AppendWriter.aligned_row (AppendWriter.header_of original) row).*1
         ↔ k ∈ AppendWriter.header_of original).
Proof.
  intros Hcsv Hstaged Hrec Hbc Hbs Hcomplete.
  destruct (Csv.reader staged_content) as [|sheader records] eqn:Hrd; [done|].
  rewrite (append_entity_no_fault self timestamp fs entity csv_file staged_file
             original staged_content sheader records) by done.
  rewrite row_text_aligned, <- header_of_first_record.
  set (header := AppendWriter.header_of original).
  set (new := AppendWriter.aligned_cells header
                <$> AppendWriter.data_rows_of staged_content).
  destruct (reader_append original new Hcomplete) as [Hread Hcomp'].
  eexists _, _, _. split; [done|]. split; [done|].
  split; [apply lookup_insert_eq|]. split; [done|]. split; [done|].
  split; [|split; intros row; apply aligned_row_spec].
  intros Hheader.
  assert (∃ recs, Csv.reader original = header :: recs) as [recs Hro].
  { subst header. unfold AppendWriter.header_of, Csv.dict_reader in *.
    destruct (Csv.reader original) as [|h recs]; [done|]. by exists recs. }
  rewrite Hro in Hread. split.
  - unfold AppendWriter.header_of at 1. unfold Csv.dict_reader.
    by rewrite Hread.
  - unfold AppendWriter.data_rows_of at 1. unfold Csv.dict_reader.
    rewrite Hread. cbn [snd app].
    rewrite (data_rows_append original header recs new Hro).
    + subst new. by rewrite <- list_fmap_compose.
    + intros cells (row & -> & _)%list_elem_of_fmap.
      unfold AppendWriter.aligned_cells. by destruct header.
Qed.

Lemma append_entity_appends_aligned_records_witness :
  ∃ r fs' updated,
    AppendWriter.append_entity Samples.the_writer "20251103_120000"
      AppendWriter.NoFault
      {[ Samples.target_path := Samples.target_terminated;
         Samples.staged_path := Samples.staged_two_rows ]}
      "CLUSTERS" Samples.target_path Samples.staged_path
    = (AppendWriter.Returns r, fs')
    ∧ fs' !! Samples.target_path = Some updated
    ∧ AppendWriter.header_of updated
      = AppendWriter.header_of Samples.target_terminated
    ∧ AppendWriter.data_rows_of updated
      = AppendWriter.data_rows_of Samples.target_terminated
        ++ (AppendWriter.aligned_row
              (AppendWriter.header_of Samples.target_terminated)
              <$> AppendWriter.data_rows_of Samples.staged_two_rows).
Proof.
  destruct (append_entity_appends_aligned_records Samples.the_writer
              "20251103_120000"
              {[ Samples.target_path := Samples.target_terminated;
                 Samples.staged_path := Samples.staged_two_rows ]}
              "CLUSTERS" Samples.target_path Samples.staged_path
              Samples.target_terminated Samples.staged_two_rows)
    as (r & fs' & updated & Hrun & _ & Hfile & _ & _ & Hrows & _).
  - vm_compute. reflexivity.
  - vm_compute. reflexivity.
  - vm_compute. discriminate.
  - vm_compute. discriminate.
  - vm_compute. discriminate.
  - vm_compute. split; reflexivity.
  - exists r, fs', updated. split; [exact Hrun|]. split; [exact Hfile|].
    apply Hrows. vm_compute. discriminate.
Defined.

Section append_new_target.
Import AppendWriter.

Lemma append_entity_new_target self timestamp (fs : gmap string string)
    entity csv_file staged_file staged_content header records :
  fs !! csv_file = None →
  fs !! staged_file = Some staged_content →
  Csv.reader staged_content = header :: records →
  append_entity self timestamp NoFault fs entity csv_file staged_file
  = (Returns {| res_entity := entity; appended := length records;
                backup := None; error := None |},
     <[csv_file :=
         String.concat EmptyString
           (Csv.format_row
              <$> header :: (aligned_cells header
                               <$> data_rows_of staged_content))]> fs).
Proof.
  intros Hcsv Hstaged Hrd.
  unfold append_entity, _get_headers, _backup_csv, first_record.
  rewrite Hstaged, Hcsv, Hstaged, Hrd.
  unfold write_rows, written. rewrite Hcsv.
  by rewrite row_text_aligned, fmap_cons, string_concat_cons.
Qed.

End append_new_target.

(** X18.  A target that does not exist is created from the staged file.
    [append_entity] then takes no backup, reports no error and the number of
    staged records, and writes the header of the staged file followed by one
    record per staged row: reading the new file back gives that header and,
    for every staged row, a record with the row's text for each column or
    the empty text (a short row is padded); the new content is complete and
    no other file changes. *)
Theorem append_entity_creates_target
    (self : AppendWriter.writer) (timestamp : string) (fs : gmap string string)
    (entity csv_file staged_file staged_content : string)
    (header : list string) (records : list (list string)) :
  fs !! csv_file = None →
  fs !! staged_file = Some staged_content →
  Csv.reader staged_content = header :: records →
  ∃ r fs' created,
    AppendWriter.append_entity self timestamp AppendWriter.NoFault fs entity
      csv_file staged_file = (AppendWriter.Returns r, fs')
    ∧ AppendWriter.error r = None
    ∧ AppendWriter.backup r = None
    ∧ AppendWriter.appended r = length records
    ∧ fs' !! csv_file = Some created
    ∧ Csv.complete created
    ∧ Csv.reader created
      = header :: (AppendWriter.aligned_cells header
                     <$> AppendWriter.data_rows_of staged_content)
    ∧ ∀ p, p ≠ csv_file → fs' !! p = fs !! p.
Proof.
  intros Hcsv Hstaged Hrd.
  rewrite (append_entity_new_target self timestamp fs entity csv_file
             staged_file staged_content header records) by done.
  destruct (reader_append EmptyString
              (header :: (AppendWriter.aligned_cells header
                            <$> AppendWriter.data_rows_of staged_content))
              complete_empty) as [Hread Hcomp].
  rewrite app_Empty in Hread, Hcomp.
  eexists _, _, _. split; [done|]. split; [done|]. split; [done|].
  split; [done|]. split; [apply lookup_insert_eq|]. split; [done|].
  split; [done|]. intros p ?. by rewrite lookup_insert_ne.
Qed.

Lemma append_entity_creates_target_witness :
  ∃ r fs' created,
    AppendWriter.append_entity Samples.the_writer "20251103_120000"
      AppendWriter.NoFault {[ Samples.staged_path := Samples.staged_two_rows ]}
      "CLUSTERS" Samples.target_path Samples.staged_path
    = (AppendWriter.Returns r, fs')
    ∧ AppendWriter.error r = None
    ∧ AppendWriter.backup r = None
    ∧ AppendWriter.appended r = 2%nat
    ∧ fs' !! Samples.target_path = Some created
    ∧ Csv.complete created
    ∧ Csv.reader created
      = ["NAME"; "REGION"; "ID"]
        :: (AppendWriter.aligned_cells ["NAME"; "REGION"; "ID"]
              <$> AppendWriter.data_rows_of Samples.staged_two_rows)
    ∧ ∀ p, p ≠ Samples.target_path →
           fs' !! p
           = ({[ Samples.staged_path := Samples.staged_two_rows ]}
                : gmap string string) !! p.
Proof.
  apply (append_entity_creates_target Samples.the_writer "20251103_120000"
           {[ Samples.staged_path := Samples.staged_two_rows ]}
           "CLUSTERS" Samples.target_path Samples.staged_path
           Samples.staged_two_rows ["NAME"; "REGION"; "ID"]
           [ ["South"; "R2"; "c-2"]; ["East"] ]).
  - vm_compute. reflexivity.
  - vm_compute. reflexivity.
  - vm_compute. reflexivity.
Defined.

(** X19.  A target that exists but is empty gets no header and no data.
    [append_entity] lays the rows out by the header of the existing file,
    which an empty file does not have: it writes one empty line per staged
    row, reports the staged records as appended with no error, and the
    target still reads as a file without header and without data rows; the
    cells of the staged rows are written nowhere. *)
Theorem append_entity_to_empty_target_writes_blank_lines
    (self : AppendWriter.writer) (timestamp : string) (fs : gmap string string)
    (entity csv_file staged_file staged_content : string)
    (header : list string) (records : list (list string)) :
  fs !! csv_file = Some EmptyString →
  fs !! staged_file = Some staged_content →
  Csv.reader staged_content = header :: records →
  AppendWriter.backup_path_of self timestamp csv_file ≠ csv_file →
  AppendWriter.backup_path_of self timestamp csv_file ≠ staged_file →
  ∃ r fs' updated,
    AppendWriter.append_entity self timestamp AppendWriter.NoFault fs entity
      csv_file staged_file = (AppendWriter.Returns r, fs')
    ∧ AppendWriter.error r = None
    ∧ AppendWriter.appended r = length records
    ∧ fs' !! csv_file = Some updated
    ∧ Csv.reader updated
      = replicate (length (AppendWriter.data_rows_of staged_content)) []
    ∧ AppendWriter.header_of updated = []
    ∧ AppendWriter.data_rows_of updated = [].
Proof.
  intros Hcsv Hstaged Hrd Hbc Hbs.
  rewrite (append_entity_no_fault self timestamp fs entity csv_file staged_file
             EmptyString staged_content header records) by done.
  rewrite row_text_aligned.
  change (AppendWriter.first_record EmptyString) with (@nil string).
  set (new := AppendWriter.aligned_cells []
                <$> AppendWriter.data_rows_of staged_content).
  assert (Hnew : new = replicate
                         (length (AppendWriter.data_rows_of staged_content)) []).
  { subst new. generalize (AppendWriter.data_rows_of staged_content).
    intros l. induction l as [|x l IH]; [done|].
    rewrite fmap_cons. cbn [length replicate]. by rewrite IH. }
  destruct (reader_append EmptyString new complete_empty) as [Hread _].
  change (Csv.reader EmptyString) with (@nil (list string)) in Hread.
  cbn [app] in Hread. rewrite Hnew in Hread.
  eexists _, _, _. split; [done|]. split; [done|]. split; [done|].
  split; [apply lookup_insert_eq|]. rewrite Hnew. split; [done|].
  clear Hnew. clearbody new.
  generalize dependent (length (AppendWriter.data_rows_of staged_content)).
  intros n Hread.
  unfold AppendWriter.header_of, AppendWriter.data_rows_of, Csv.dict_reader.
  rewrite Hread.
  destruct n as [|n]; [done|]. cbn [replicate fst snd]. split; [done|].
  clear Hread. induction n as [|n IH]; [done|]. cbn [replicate List.filter].
  rewrite bool_decide_eq_true_2 by done. cbn [negb]. apply IH.
Qed.

Lemma append_entity_to_empty_target_writes_blank_lines_witness :
  ∃ r fs' updated,
    AppendWriter.append_entity Samples.the_writer "20251103_120000"
      AppendWriter.NoFault
      {[ Samples.target_path := EmptyString;
         Samples.staged_path := Samples.staged_two_rows ]}
      "CLUSTERS" Samples.target_path Samples.staged_path
    = (AppendWriter.Returns r, fs')
    ∧ AppendWriter.error r = None
    ∧ AppendWriter.appended r = 2%nat
    ∧ fs' !! Samples.target_path = Some updated
    ∧ Csv.reader updated
      = replicate (length (AppendWriter.data_rows_of Samples.staged_two_rows)) []
    ∧ AppendWriter.header_of updated = []
    ∧ AppendWriter.data_rows_of updated = [].
Proof.
  apply (append_entity_to_empty_target_writes_blank_lines Samples.the_writer
           "20251103_120000"
           {[ Samples.target_path := EmptyString;
              Samples.staged_path := Samples.staged_two_rows ]}
           "CLUSTERS" Samples.target_path Samples.staged_path
           Samples.staged_two_rows ["NAME"; "REGION"; "ID"]
           [ ["South"; "R2"; "c-2"]; ["East"] ]).
  - vm_compute. reflexivity.
  - vm_compute. reflexivity.
  - vm_compute. reflexivity.
  - vm_compute. discriminate.
  - vm_compute. discriminate.
Defined.

(** ** append_writer.append_all *)

Section append_all_facts.
Import AppendWriter.

Context (self : writer) (clock : string → string) (faults : string → fault).

(** What one call of [append_entity] may change. *)
Lemma append_entity_frame timestamp flt (fs : gmap string string)
    entity csv_file staged_file p :
  p ≠ csv_file → p ≠ backup_path_of self timestamp csv_file →
  (append_entity self timestamp flt fs entity csv_file staged_file).2 !! p
  = fs !! p.
Proof.
  intros Hp Hb. unfold append_entity, _get_headers, _backup_csv.
  destruct (fs !! staged_file) as [staged_content|] eqn:Hs; [|done].
  set (bp := backup_path_of self timestamp csv_file) in *.
  assert (Hwrite : ∀ (fs0 : gmap string string) eh sh sc,
            fs0 !! p = fs !! p →
            (write_rows flt fs0 csv_file eh sh sc).1 !! p = fs !! p).
  { intros fs0 eh sh sc H0. unfold write_rows.
    destruct flt; destruct (fs0 !! csv_file);
      try destruct (written _ _); cbn [fst];
      by rewrite ?lookup_insert_ne. }
  destruct (fs !! csv_file) as [content|] eqn:Hc.
  - destruct (<[bp:=content]> fs !! staged_file) as [sc|]; cbn [snd];
      [|by rewrite lookup_insert_ne].
    destruct (Csv.reader sc) as [|h recs]; cbn [snd];
      [by rewrite lookup_insert_ne|].
    pose proof (Hwrite (<[bp:=content]> fs) (first_record content)
                  (first_record staged_content) sc) as Hw.
    destruct (write_rows flt _ csv_file _ _ sc) as [fs1 [exc|]]; cbn [fst snd] in *.
    + rewrite <- Hw by (by rewrite lookup_insert_ne).
      destruct (fs1 !! bp); [|done].
      destruct (restore_fault flt) as [[rmsg [left_content|]]|]; cbn [snd];
        by rewrite ?lookup_insert_ne.
    + apply Hw. by rewrite lookup_insert_ne.
  - rewrite Hs. destruct (Csv.reader staged_content) as [|h recs]; [done|].
    pose proof (Hwrite fs [] (first_record staged_content) staged_content
                  eq_refl) as Hw.
    destruct (write_rows flt fs csv_file _ _ staged_content) as [fs1 [exc|]];
      cbn [fst snd] in *; done.
Qed.

Lemma append_all_from_spec items :
  ∀ results (fs fs' : gmap string string) final,
    append_all_from self clock faults items results fs
      = (AllReturned final, fs') →
    (∀ k, k ∈ final.*1 ↔ k ∈ results.*1 ∨ k ∈ items.*1)
    ∧ (NoDup results.*1 → NoDup final.*1)
    ∧ (∀ p,
         (∀ e sr, (e, sr) ∈ items → has_rows sr = true →
                  p ≠ target_of self e
                  ∧ p ≠ backup_path_of self (clock e) (target_of self e)) →
         fs' !! p = fs !! p).
Proof.
  induction items as [|[entity sr] items IH]; intros results fs fs' final.
  - intros [= <- <-]. split; [|split]; try done.
    intros k. rewrite fmap_nil, elem_of_nil. tauto.
  - cbn [append_all_from]. unfold has_rows in *.
    destruct (staged_file_of sr) as [staged|] eqn:Hsf;
      [destruct (StagingEngine.valid_count sr) as [|n] eqn:Hvc|].
    + intros (Hk & Hnd & Hframe)%IH. split; [|split].
      * intros k. rewrite Hk, dict_set_keys, fmap_cons, elem_of_cons. cbn. tauto.
      * intros ?. by apply Hnd, dict_set_NoDup.
      * intros p Hp. apply Hframe. intros e sr' Hin. apply Hp. by right.
    + destruct (append_entity self (clock entity) (faults entity) fs entity
                  (target_of self entity) staged) as [[r|exc] fs1] eqn:Happ;
        [|done].
      intros (Hk & Hnd & Hframe)%IH. split; [|split].
      * intros k. rewrite Hk, dict_set_keys, fmap_cons, elem_of_cons. cbn. tauto.
      * intros ?. by apply Hnd, dict_set_NoDup.
      * intros p Hp. rewrite Hframe.
        -- replace fs1 with (append_entity self (clock entity) (faults entity)
                               fs entity (target_of self entity) staged).2
             by (by rewrite Happ).
           destruct (Hp entity sr) as [? ?]; [left|by rewrite Hsf, Hvc|].
           by apply append_entity_frame.
        -- intros e sr' Hin. apply Hp. by right.
    + intros (Hk & Hnd & Hframe)%IH. split; [|split].
      * intros k. rewrite Hk, dict_set_keys, fmap_cons, elem_of_cons. cbn. tauto.
      * intros ?. by apply Hnd, dict_set_NoDup.
      * intros p Hp. apply Hframe. intros e sr' Hin. apply Hp. by right.
Qed.

End append_all_facts.

(** X20.  When [append_all] returns, its result has exactly one entry
    for every entity of the staging results, and the only files that can
    differ from before are the target and the backup of an entity that has
    rows to append (a staged file and a valid count above zero): an entity
    without valid rows changes nothing, and no staged file is touched unless
    it is itself such a target or backup. *)
Theorem append_all_touches_only_targets_and_backups
    (self : AppendWriter.writer) (clock : string → string)
    (faults : string → AppendWriter.fault)
    (staging_results : list (string * StagingEngine.stage_result))
    (fs : gmap string string)
    (results : list (string * AppendWriter.append_result)) :
  (AppendWriter.append_all self clock faults staging_results fs).1
    = AppendWriter.AllReturned results →
  NoDup results.*1
  ∧ (∀ e, e ∈ results.*1 ↔ e ∈ staging_results.*1)
  ∧ ∀ p,
      (∀ e sr, (e, sr) ∈ staging_results → AppendWriter.has_rows sr = true →
               p ≠ AppendWriter.target_of self e
               ∧ p ≠ AppendWriter.backup_path_of self (clock e)
                       (AppendWriter.target_of self e)) →
      (AppendWriter.append_all self clock faults staging_results fs).2 !! p
      = fs !! p.
Proof.
  unfold AppendWriter.append_all.
  destruct (AppendWriter.append_all_from self clock faults staging_results [] fs)
    as [out fs'] eqn:Hrun.
  cbn [fst snd]. intros ->.
  apply append_all_from_spec in Hrun as (Hk & Hnd & Hframe).
  split; [apply Hnd, NoDup_nil_2|]. split; [|done].
  intros e. rewrite Hk, fmap_nil, elem_of_nil. tauto.
Qed.

Lemma append_all_touches_only_targets_and_backups_witness :
  (AppendWriter.append_all Samples.the_writer (fun _ => "20251103_120000")
     (fun _ => AppendWriter.NoFault) Samples.cluster_staging
     (Samples.files_with Samples.target_terminated)).2 !! Samples.staged_path
  = Samples.files_with Samples.target_terminated !! Samples.staged_path.
Proof.
  destruct (append_all_touches_only_targets_and_backups Samples.the_writer
              (fun _ => "20251103_120000") (fun _ => AppendWriter.NoFault)
              Samples.cluster_staging
              (Samples.files_with Samples.target_terminated)
              [ ("CLUSTERS",
                 {| AppendWriter.res_entity := "CLUSTERS";
                    AppendWriter.appended := 1;
                    AppendWriter.backup :=
                      Some "backups/CCTECH.DRS.ENTITIES-CLUSTERS_20251103_120000.bak.csv";
                    AppendWriter.error := None |});
                ("SPVS", AppendWriter.nothing_to_append "SPVS") ])
    as (_ & _ & Hframe).
  - vm_compute. reflexivity.
  - apply Hframe. intros e sr Hin Hrows.
    apply elem_of_cons in Hin as [[= -> ->]|Hin].
    + split; vm_compute; discriminate.
    + apply list_elem_of_singleton in Hin as [= -> ->]. discriminate Hrows.
Defined.

(** ** build_schema: the report and the ingestion order *)

Section build_schema_facts.
Import BuildSchema.

Lemma bool_filter_nil {A} (f : A → bool) (l : list A) :
  List.filter f l = [] ↔ ∀ x, x ∈ l → f x = false.
Proof.
  induction l as [|x l IH]; cbn [List.filter].
  - split; [|done]. by intros _ x ?%elem_of_nil.
  - destruct (f x) eqn:Hx.
    + split; [done|]. intros Hall. specialize (Hall x ltac:(left)). congruence.
    + rewrite IH. split.
      * intros Hall y [->|?]%elem_of_cons; auto.
      * intros Hall y ?. apply Hall. by right.
Qed.

Lemma compare_schema_lookup entities csvs A edef :
  NoDup entities.*1 → (A, edef) ∈ entities →
  Py.dict_get A (compare_schema_to_csv entities csvs)
  = Some (compare_entity edef (Py.dict_get A csvs)).
Proof.
  intros Hnd Hin.
  exact (dict_get_fill fst
           (fun e : string * CdsParser.entity_def =>
              compare_entity e.2 (Py.dict_get e.1 csvs))
           entities [] (A, edef) Hnd Hin).
Qed.

Lemma compare_schema_keys entities csvs k :
  k ∈ (compare_schema_to_csv entities csvs).*1 ↔ k ∈ entities.*1.
Proof.
  unfold compare_schema_to_csv.
  assert (Hgen : ∀ d : list (string * entity_report),
            k ∈ (foldl (fun out (e0 : string * CdsParser.entity_def) =>
                   Py.dict_set e0.1
                     (compare_entity e0.2 (Py.dict_get e0.1 csvs))
                     out) d entities).*1 ↔ k ∈ d.*1 ∨ k ∈ entities.*1).
  { induction entities as [|e0 ents IH]; intros d; cbn [foldl].
    - rewrite fmap_nil, elem_of_nil. tauto.
    - rewrite IH, dict_set_keys, fmap_cons, elem_of_cons. tauto. }
  rewrite Hgen, fmap_nil, elem_of_nil. tauto.
Qed.

Lemma compare_entity_agree edef csv_info :
  missingInCsv (compare_entity edef csv_info) = []
  ∧ extraInCsv (compare_entity edef csv_info) = []
  ↔ ∀ c, c ∈ CdsParser.field_name <$> CdsParser.fields edef
         ↔ c ∈ match csv_info with
               | Some info => Schema.csv_columns info
               | None => []
               end.
Proof.
  unfold compare_entity. cbn [missingInCsv extraInCsv].
  rewrite !bool_filter_nil. unfold Py.in_list. split.
  - intros [Hm He] c. split; intros Hc.
    + specialize (Hm c Hc). apply negb_false_iff in Hm.
      by apply bool_decide_eq_true in Hm.
    + specialize (He c Hc). apply negb_false_iff in He.
      by apply bool_decide_eq_true in He.
  - intros Hsame. split; intros c Hc; apply negb_false_iff, bool_decide_eq_true;
      by apply Hsame.
Qed.

Lemma compare_entity_id_field edef csv_info :
  uuidRequired (compare_entity edef csv_info) = true →
  ∃ f, f ∈ CdsParser.fields edef ∧ CdsParser.field_key f = true
       ∧ idField (compare_entity edef csv_info) = Some (CdsParser.field_name f).
Proof.
  unfold compare_entity. cbn [uuidRequired idField].
  intros (f0 & Hf0%list_elem_of_In & [Hk _]%andb_true_iff)%existsb_exists.
  destruct (List.filter CdsParser.field_key (CdsParser.fields edef))
    as [|f fs] eqn:Hfilter.
  - apply bool_filter_nil with (x := f0) in Hfilter; [congruence|done].
  - exists f.
    assert (Hin : In f (List.filter CdsParser.field_key (CdsParser.fields edef)))
      by (rewrite Hfilter; by left).
    apply filter_In in Hin as [Hin Hkey].
    split; [by apply list_elem_of_In|]. done.
Qed.

End build_schema_facts.

(** X21.  The report of [compare_schema_to_csv] has an entry for every
    entity of the parsed schema; the entry carries the CSV header found for
    the entity (none when the data directory has no file for it, in which
    case every field is reported missing); [missingInCsv] and [extraInCsv]
    are both empty exactly when the field names of the schema and the
    columns of the CSV file are the same set; and whenever [uuidRequired] is
    set, [idField] names a key field of the entity. *)
Theorem compare_schema_to_csv_report
    (entities : list (string * CdsParser.entity_def))
    (csvs : list (string * Schema.csv_info))
    (A : string) (edef : CdsParser.entity_def) :
  NoDup entities.*1 → (A, edef) ∈ entities →
  ∃ r,
    Py.dict_get A (BuildSchema.compare_schema_to_csv entities csvs) = Some r
    ∧ BuildSchema.er_csv r = Py.dict_get A csvs
    ∧ (Py.dict_get A csvs = None →
       BuildSchema.missingInCsv r
       = CdsParser.field_name <$> CdsParser.fields edef)
    ∧ (BuildSchema.missingInCsv r = [] ∧ BuildSchema.extraInCsv r = []
       ↔ ∀ c, c ∈ CdsParser.field_name <$> CdsParser.fields edef
              ↔ c ∈ match Py.dict_get A csvs with
                    | Some info => Schema.csv_columns info
                    | None => []
                    end)
    ∧ (BuildSchema.uuidRequired r = true →
       ∃ f, f ∈ CdsParser.fields edef ∧ CdsParser.field_key f = true
            ∧ BuildSchema.idField r = Some (CdsParser.field_name f)).
Proof.
  intros Hnd Hin. eexists. split; [by apply compare_schema_lookup|].
  split; [done|]. split; [|split].
  - intros ->. unfold BuildSchema.compare_entity. cbn.
    induction (CdsParser.field_name <$> CdsParser.fields edef) as [|c cs IH];
      [done|]. cbn [List.filter]. by rewrite IH.
  - apply compare_entity_agree.
  - apply compare_entity_id_field.
Qed.

Lemma compare_schema_to_csv_report_witness :
  ∃ r,
    Py.dict_get "ORDERS"
      (BuildSchema.compare_schema_to_csv [("ORDERS", Samples.c5_orders)] [])
    = Some r
    ∧ BuildSchema.er_csv r = None
    ∧ BuildSchema.missingInCsv r = ["ID"; "VENDOR_ID"].
Proof.
  destruct (compare_schema_to_csv_report [("ORDERS", Samples.c5_orders)] []
              "ORDERS" Samples.c5_orders) as (r & Hr & Hcsv & Hmissing & _).
  - apply NoDup_singleton.
  - left.
  - exists r. split; [exact Hr|]. split; [exact Hcsv|].
    apply Hmissing. reflexivity.
Defined.

Section ingestion_order_facts.
Import CdsParser TopoSort.

Lemma build_dependencies_keys ents k :
  k ∈ (build_dependencies ents).*1 ↔ k ∈ ents.*1.
Proof.
  unfold build_dependencies.
  assert (Hgen : ∀ d : list (string * list string),
            k ∈ (foldl (fun deps e => Py.dict_set e.1 (entity_targets e.1 e.2) deps)
                   d ents).*1 ↔ k ∈ d.*1 ∨ k ∈ ents.*1).
  { induction ents as [|e ents IH]; intros d; cbn [foldl].
    - rewrite fmap_nil, elem_of_nil. tauto.
    - rewrite IH, dict_set_keys, fmap_cons, elem_of_cons. tauto. }
  rewrite Hgen, fmap_nil, elem_of_nil. tauto.
Qed.

Lemma build_dependencies_nodes ents x :
  x ∈ nodes (build_dependencies ents)
  ↔ x ∈ ents.*1
    ∨ ∃ A ts, (A, ts) ∈ build_dependencies ents ∧ x ∈ ts.
Proof.
  unfold nodes. rewrite elem_of_union, !elem_of_list_to_set.
  rewrite build_dependencies_keys. apply or_iff_compat_l.
  rewrite elem_of_concat. split.
  - intros (ts & Hx & ([A ts'] & -> & Hin)%list_elem_of_fmap).
    by exists A, ts'.
  - intros (A & ts & Hin & Hx). exists ts. split; [done|].
    apply list_elem_of_fmap. by exists (A, ts).
Qed.

End ingestion_order_facts.

(** X22.  The ingestion order that [build_schema] writes lists every
    entity of the parsed schema, and each name once.  Whatever order the
    sets are iterated in, [topo_sort] applied to the dependency map of
    [build_dependencies] returns a list without repetition that contains
    every declared entity; any other name in it is the target of an
    association of a declared entity (a target that the schema does not
    declare is listed too). *)
Theorem ingestion_order_lists_every_entity
    (enum : gset string → list string)
    (entities : list (string * CdsParser.entity_def)) :
  (∀ X, enum X ≡ₚ elements X) →
  ∃ order,
    BuildSchema.ingestion_order enum entities = Some order
    ∧ NoDup order
    ∧ (∀ A, A ∈ entities.*1 → A ∈ order)
    ∧ (∀ x, x ∈ order →
         x ∈ entities.*1
         ∨ ∃ A edef a, (A, edef) ∈ entities
                       ∧ a ∈ CdsParser.associations edef
                       ∧ CdsParser.assoc_target a = x).
Proof.
  intros Henum. unfold BuildSchema.ingestion_order.
  set (deps := CdsParser.build_dependencies entities).
  destruct (topo_sort_shape deps enum Henum)
    as (resolved & rest & Hres & Hem & _ & Hnd & _ & Hndr & Hrest).
  exists (resolved ++ rest). split; [done|].
  assert (Hmem : ∀ x, x ∈ resolved ++ rest ↔ x ∈ TopoSort.nodes deps).
  { intros x. rewrite elem_of_app, Hrest. split.
    - intros [Hx|[? _]]; [by apply (emitted_nodes deps resolved)|done].
    - intros Hx. destruct (decide (x ∈ resolved)); [by left|by right]. }
  split; [|split].
  - apply NoDup_app. split; [done|]. split; [|done].
    intros x Hx [_ Hx']%Hrest. done.
  - intros A HA. apply Hmem, build_dependencies_nodes. by left.
  - intros x [?|(A & ts & Hin & Hx)]%Hmem%build_dependencies_nodes; [by left|].
    right. unfold deps, CdsParser.build_dependencies in Hin.
    apply dict_fold_elem in Hin as [Hin|([A' edef] & He & [= -> ->])];
      [by apply elem_of_nil in Hin|].
    cbn [fst snd] in Hx.
    rewrite entity_targets_assocs, foldl_add_target_elem in Hx.
    destruct Hx as [Hx|[(a & -> & Ha)%list_elem_of_fmap _]];
      [by apply elem_of_nil in Hx|].
    by exists A', edef, a.
Qed.

Lemma ingestion_order_lists_every_entity_witness :
  ∃ order,
    BuildSchema.ingestion_order elements [("ORDERS", Samples.c5_orders)]
    = Some order
    ∧ NoDup order
    ∧ ∀ A, A ∈ [("ORDERS", Samples.c5_orders)].*1 → A ∈ order.
Proof.
  destruct (ingestion_order_lists_every_entity elements
              [("ORDERS", Samples.c5_orders)])
    as (order & Hrun & Hnd & Hall & _).
  - intros X. reflexivity.
  - exists order. split; [exact Hrun|]. split; [exact Hnd|exact Hall].
Defined.

(** X23.  An entity that the schema declares but that has no CSV file in
    the data directory cannot be staged.  [build_schema] records a null
    [csv] for it, and with the schema so built [transform_entity] raises for
    the entity (it calls [.get] on the null entry) instead of returning
    empty lists, whereas an entity that the schema does not know at all
    yields empty lists and leaves the transformer as it was. *)
Theorem transform_entity_raises_without_csv
    (enum : gset string → list string) (enums : gmap string (list string))
    (entities : list (string * CdsParser.entity_def))
    (csvs : list (string * Schema.csv_info))
    (e : Transformer.env) (s : Transformer.state)
    (sheet_config : Mapping.sheet_config) (excel_rows : list Validator.row)
    (A : string) :
  BuildSchema.build_schema enum enums entities csvs
  = Some (Transformer.schema_of e) →
  (A ∈ entities.*1 → Py.dict_get A csvs = None →
   Transformer.transform_entity e s A sheet_config excel_rows = None)
  ∧ (A ∉ entities.*1 →
     Transformer.transform_entity e s A sheet_config excel_rows
     = Some (s, ([], []))).
Proof.
  unfold BuildSchema.build_schema.
  destruct (BuildSchema.ingestion_order enum entities) as [order|]; [|done].
  cbn. intros [= Hsch].
  unfold Transformer.transform_entity. rewrite <- Hsch.
  cbn [Schema.sch_entities].
  pose proof (compare_schema_keys entities csvs) as Hkeys.
  split.
  - intros HA Hcsv.
    destruct (list_to_map _ !! A) as [ei|] eqn:Hlook.
    + apply elem_of_list_to_map_2 in Hlook.
      apply list_elem_of_fmap in Hlook as ([A' r] & [= -> ->] & Hr).
      apply (dict_fold_elem fst
               (fun e0 : string * CdsParser.entity_def =>
                  BuildSchema.compare_entity e0.2 (Py.dict_get e0.1 csvs)))
        in Hr as [Hr|([A2 edef] & _ & [= -> ->])];
        [by apply elem_of_nil in Hr|].
      cbn. by rewrite Hcsv.
    + apply not_elem_of_list_to_map_2 in Hlook. exfalso. apply Hlook.
      rewrite <- list_fmap_compose.
      apply Hkeys in HA. apply list_elem_of_fmap in HA as ([A' r] & -> & Hr).
      apply list_elem_of_fmap. by exists (A', r).
  - intros HA.
    destruct (list_to_map _ !! A) as [ei|] eqn:Hlook; [|done].
    exfalso. apply HA, Hkeys.
    apply elem_of_list_to_map_2 in Hlook.
    apply list_elem_of_fmap in Hlook as ([A' r] & [= -> ->] & Hr).
    apply list_elem_of_fmap. by exists (A', r).
Qed.

Lemma transform_entity_raises_without_csv_witness :
  Transformer.transform_entity Samples.unfiled_env Samples.one_drawn "ORDERS"
    Samples.so_sheet [] = None
  ∧ Transformer.transform_entity Samples.unfiled_env Samples.one_drawn
      "CUSTOMERS" Samples.so_sheet []
    = Some (Samples.one_drawn, ([], [])).
Proof.
  destruct (transform_entity_raises_without_csv elements ∅
              [("ORDERS", Samples.c5_orders)] [] Samples.unfiled_env
              Samples.one_drawn Samples.so_sheet [] "ORDERS") as [Hraise _].
  { vm_compute. reflexivity. }
  destruct (transform_entity_raises_without_csv elements ∅
              [("ORDERS", Samples.c5_orders)] [] Samples.unfiled_env
              Samples.one_drawn Samples.so_sheet [] "CUSTOMERS") as [_ Hskip].
  { vm_compute. reflexivity. }
  split.
  - apply Hraise; [left|reflexivity].
  - apply Hskip. intros Hin. apply list_elem_of_singleton in Hin. discriminate.
Defined.

(** ** From the staged file to the target *)

Section staged_to_target.
Import Csv AppendWriter StagedCsv.

Lemma reader_empty : Csv.reader EmptyString = [].
Proof. reflexivity. Qed.

Lemma reader_staged_content csv_columns valid_rows :
  Csv.reader (staged_content csv_columns valid_rows)
  = csv_columns :: (output_cells csv_columns <$> valid_rows)
  ∧ Csv.complete (staged_content csv_columns valid_rows).
Proof.
  unfold staged_content.
  destruct (reader_append EmptyString
              (csv_columns :: (output_cells csv_columns <$> valid_rows))
              complete_empty) as [Hrd Hc].
  rewrite app_Empty in Hrd, Hc. by rewrite Hrd, reader_empty.
Qed.

Lemma data_rows_staged_content csv_columns valid_rows :
  csv_columns ≠ [] →
  data_rows_of (staged_content csv_columns valid_rows)
  = (fun row => Csv.zip_row csv_columns (output_cells csv_columns row))
      <$> valid_rows.
Proof.
  intros Hne. unfold data_rows_of, Csv.dict_reader.
  rewrite (proj1 (reader_staged_content _ _)). cbn [snd].
  rewrite filter_nonempty_all.
  - by rewrite <- list_fmap_compose.
  - intros cells (row & -> & _)%list_elem_of_fmap. unfold output_cells.
    destruct csv_columns; [done|]. by rewrite fmap_cons.
Qed.

Lemma cell_of_staged_row csv_columns row h :
  cell (Csv.zip_row csv_columns (output_cells csv_columns row)) h
  = if bool_decide (h ∈ csv_columns)
    then cell_text (default (Py.VStr EmptyString) (Py.dict_get h row))
    else EmptyString.
Proof.
  unfold cell, output_cells. rewrite zip_row_fmap.
  case_bool_decide as Hin.
  - by rewrite (dict_get_fill_fun
                  (fun h0 => Some (cell_text
                     (default (Py.VStr EmptyString) (Py.dict_get h0 row))))).
  - destruct (Py.dict_get h _) as [v|] eqn:Hget; [|done].
    exfalso. apply Hin.
    assert (His : is_Some (Py.dict_get h
              (foldl (fun d h0 => Py.dict_set h0
                        (Some (cell_text (default (Py.VStr EmptyString)
                                            (Py.dict_get h0 row)))) d)
                 [] csv_columns))) by (rewrite Hget; eauto).
    apply dict_get_is_Some in His.
    apply list_elem_of_fmap in His as ([k v'] & -> & Hkv).
    apply (dict_fold_elem id
             (fun h0 : string => Some (cell_text
                (default (Py.VStr EmptyString) (Py.dict_get h0 row)))))
      in Hkv as [Hkv|(h0 & Hh0 & [= -> _])]; [by apply elem_of_nil in Hkv|].
    done.
Qed.

End staged_to_target.

(** X24.  What [stage_entity] stages is what [append_entity] appends.
    When the staged file is the one that [stage_entity] writes for the valid
    rows, under a non-empty list of CSV columns, and the target ends where a
    record ends, a successful [append_entity] reports exactly as many
    appended rows as there are valid rows, and the target gains one record
    per valid row, in order: under each column of the target's header it
    holds the text of the row's value for that column ([None] and a missing
    key give the empty text) when the column is one of the schema's CSV
    columns, and the empty text otherwise. *)
Theorem staged_rows_reach_target
    (self : AppendWriter.writer) (timestamp : string) (fs : gmap string string)
    (entity csv_file staged_file original : string)
    (csv_columns : list string) (valid_rows : list Validator.row) :
  fs !! csv_file = Some original →
  fs !! staged_file
  = Some (StagedCsv.staged_content csv_columns valid_rows) →
  AppendWriter.backup_path_of self timestamp csv_file ≠ csv_file →
  AppendWriter.backup_path_of self timestamp csv_file ≠ staged_file →
  Csv.complete original →
  csv_columns ≠ [] →
  ∃ r fs' updated,
    AppendWriter.append_entity self timestamp AppendWriter.NoFault fs entity
      csv_file staged_file = (AppendWriter.Returns r, fs')
    ∧ AppendWriter.error r = None
    ∧ AppendWriter.appended r = length valid_rows
    ∧ fs' !! csv_file = Some updated
    ∧ Csv.complete updated
    ∧ Csv.reader updated
      = Csv.reader original
        ++ ((fun row =>
               (fun h =>
                  if bool_decide (h ∈ csv_columns)
                  then StagedCsv.cell_text
                         (default (Py.VStr EmptyString) (Py.dict_get h row))
                  else EmptyString)
                 <$> AppendWriter.header_of original)
              <$> valid_rows).
Proof.
  intros Hcsv Hstaged Hbc Hbs Hcomplete Hcols.
  destruct (reader_staged_content csv_columns valid_rows) as [Hrd _].
  rewrite (append_entity_no_fault self timestamp fs entity csv_file staged_file
             original _ csv_columns
             (StagedCsv.output_cells csv_columns <$> valid_rows)) by done.
  rewrite row_text_aligned, <- header_of_first_record.
  rewrite data_rows_staged_content by done.
  set (header := AppendWriter.header_of original).
  destruct (reader_append original
              (AppendWriter.aligned_cells header
                 <$> ((fun row => Csv.zip_row csv_columns
                                    (StagedCsv.output_cells csv_columns row))
                        <$> valid_rows)) Hcomplete) as [Hread Hcomp'].
  eexists _, _, _. split; [done|]. split; [done|].
  split; [cbn; by rewrite length_fmap|].
  split; [apply lookup_insert_eq|]. split; [done|].
  rewrite Hread, <- list_fmap_compose. f_equal.
  apply list_fmap_ext. intros _ row _. cbn.
  unfold AppendWriter.aligned_cells. apply list_fmap_ext. intros _ h _.
  apply cell_of_staged_row.
Qed.

Lemma staged_rows_reach_target_witness :
  ∃ r fs' updated,
    AppendWriter.append_entity Samples.the_writer "20251103_120000"
      AppendWriter.NoFault
      {[ Samples.target_path := Samples.target_terminated;
         Samples.staged_path
         := StagedCsv.staged_content ["NAME"; "REGION"; "ID"]
              [ [("ID", Py.VStr "c-2"); ("NAME", Py.VStr "South")] ] ]}
      "CLUSTERS" Samples.target_path Samples.staged_path
    = (AppendWriter.Returns r, fs')
    ∧ AppendWriter.appended r = 1
    ∧ fs' !! Samples.target_path = Some updated
    ∧ Csv.reader updated = [["ID"; "NAME"]; ["c-1"; "North"]; ["c-2"; "South"]].
Proof.
  destruct (staged_rows_reach_target Samples.the_writer "20251103_120000"
              {[ Samples.target_path := Samples.target_terminated;
                 Samples.staged_path
                 := StagedCsv.staged_content ["NAME"; "REGION"; "ID"]
                      [ [("ID", Py.VStr "c-2"); ("NAME", Py.VStr "South")] ] ]}
              "CLUSTERS" Samples.target_path Samples.staged_path
              Samples.target_terminated ["NAME"; "REGION"; "ID"]
              [ [("ID", Py.VStr "c-2"); ("NAME", Py.VStr "South")] ])
    as (r & fs' & updated & Hrun & _ & Hcount & Hfile & _ & Hread).
  - vm_compute. reflexivity.
  - vm_compute. reflexivity.
  - vm_compute. discriminate.
  - vm_compute. discriminate.
  - vm_compute. split; reflexivity.
  - discriminate.
  - exists r, fs', updated. split; [exact Hrun|]. split; [exact Hcount|].
    split; [exact Hfile|]. rewrite Hread. vm_compute. reflexivity.
Defined.

(** ** The merged headers of a sheet (introspect_excel.py) *)

Section introspect_facts.
Import IntrospectExcel.

Lemma mapM_total {A B} (f : A → option B) (g : A → B) (l : list A) :
  (∀ x, x ∈ l → f x = Some (g x)) → mapM f l = Some (g <$> l).
Proof.
  induction l as [|x l IH]; intros Hf; [done|].
  cbn. rewrite (Hf x) by left. cbn.
  rewrite IH by (intros y ?; apply Hf; by right). done.
Qed.

Lemma max_cols_ge (raw : list (list string)) (row : list string) :
  row ∈ raw → (length row ≤ max_cols raw)%nat.
Proof.
  unfold max_cols. induction raw as [|r raw IH]; [by intros ?%elem_of_nil|].
  rewrite fmap_cons. cbn [foldr].
  intros [->|Hin]%elem_of_cons; [lia|]. specialize (IH Hin). lia.
Qed.

Lemma normalize_length (m : nat) (row : list string) :
  (length row ≤ m)%nat → length (normalize m row) = m.
Proof.
  intros Hle. unfold normalize. rewrite length_app, length_replicate. lia.
Qed.

Lemma normalize_lookup (m : nat) (row : list string) (i : nat) :
  (i < m)%nat → (length row ≤ m)%nat →
  normalize m row !! i = Some (default EmptyString (row !! i)).
Proof.
  intros Hi Hle. unfold normalize.
  destruct (decide (i < length row)) as [Hlt|Hge].
  - rewrite lookup_app_l by done.
    destruct (lookup_lt_is_Some_2 row i Hlt) as [c Hc]. by rewrite Hc.
  - rewrite lookup_app_r by lia. rewrite lookup_replicate_2 by lia.
    by rewrite (lookup_ge_None_2 row i) by lia.
Qed.

(** The non-empty stripped cells of a column of the header rows as they
    were read; a row without the column has no cell there. *)
Lemma parts_normalized (raw : list (list string)) (i : nat) :
  (i < max_cols raw)%nat →
  parts (normalize (max_cols raw) <$> raw) i
  = Some (List.filter (fun val => negb (String.eqb val EmptyString))
            ((fun row : list string =>
                Py.strip (default EmptyString (row !! i))) <$> raw)).
Proof.
  intros Hi. unfold parts.
  rewrite (mapM_total _ (fun row : list string => default EmptyString (row !! i))).
  - cbn. rewrite <- !list_fmap_compose.
    do 2 f_equal. apply list_fmap_ext. intros j row Hrow. cbn.
    assert (Hin : row ∈ raw) by (by eapply list_elem_of_lookup_2).
    by rewrite normalize_lookup; [|done|by apply max_cols_ge].
  - intros row' (row & -> & Hin)%list_elem_of_fmap.
    by rewrite normalize_lookup; [|done|by apply max_cols_ge].
Qed.

Lemma header_name_concat ps : header_name ps = String.concat " > " ps.
Proof. by destruct ps as [|p [|q ps]]. Qed.

Lemma pop_from_end_spec (reversed : list string) :
  ∃ k, reversed = replicate k EmptyString ++ pop_from_end reversed
       ∧ head (pop_from_end reversed) ≠ Some EmptyString.
Proof.
  induction reversed as [|h rest (k & Hk & Hhead)].
  - by exists 0.
  - cbn [pop_from_end]. destruct (String.eqb_spec h EmptyString) as [->|Hne].
    + exists (S k). split; [|done]. cbn. by rewrite <- Hk.
    + exists 0. split; [done|]. cbn. congruence.
Qed.

Lemma pop_empty_spec (hs : list string) :
  ∃ k, hs = pop_empty hs ++ replicate k EmptyString
       ∧ last (pop_empty hs) ≠ Some EmptyString.
Proof.
  unfold pop_empty.
  destruct (pop_from_end_spec (reverse hs)) as (k & Hk & Hhead).
  exists k. split.
  - rewrite <- (reverse_involutive hs) at 1. rewrite Hk at 1.
    by rewrite reverse_app, reverse_replicate.
  - by rewrite last_reverse.
Qed.

Lemma concat_nonempty_parts (sep : string) (ps : list string) :
  (∀ p, p ∈ ps → p ≠ EmptyString) →
  String.concat sep ps = EmptyString → ps = [].
Proof.
  destruct ps as [|p ps]; [done|]. intros Hne Hcat. exfalso.
  apply (Hne p); [left|].
  destruct p as [|c p]; [done|].
  destruct ps; cbn in Hcat; discriminate.
Qed.

Lemma nonempty_filter_elem (vals : list string) p :
  p ∈ List.filter (fun val => negb (String.eqb val EmptyString)) vals →
  p ≠ EmptyString.
Proof.
  intros [_ Hp]%list_elem_of_In%filter_In ->. done.
Qed.

Lemma introspect_sheet_Some header_rows sheet_name ws :
  read_raw_headers ws header_rows ≠ [] →
  introspect_sheet header_rows sheet_name ws
  = Some [ {| name := sheet_name;
              headers :=
                pop_empty
                  ((fun i =>
                      String.concat " > "
                        (List.filter (fun val => negb (String.eqb val EmptyString))
                           ((fun row : list string =>
                               Py.strip (default EmptyString (row !! i)))
                              <$> read_raw_headers ws header_rows)))
                     <$> seq 0 (max_cols (read_raw_headers ws header_rows)));
              raw_headers :=
                normalize (max_cols (read_raw_headers ws header_rows))
                  <$> read_raw_headers ws header_rows |} ].
Proof.
  intros Hraw. unfold introspect_sheet.
  destruct (read_raw_headers ws header_rows) as [|r raw] eqn:Hrd; [done|].
  rewrite (mapM_total _
             (fun i =>
                String.concat " > "
                  (List.filter (fun val => negb (String.eqb val EmptyString))
                     ((fun row : list string =>
                         Py.strip (default EmptyString (row !! i)))
                        <$> r :: raw)))); [done|].
  intros i [_ Hi]%elem_of_seq.
  rewrite parts_normalized by lia. cbn. by rewrite header_name_concat.
Qed.

Lemma introspect_sheet_is_Some header_rows sheet_name ws :
  is_Some (introspect_sheet header_rows sheet_name ws).
Proof.
  destruct (decide (read_raw_headers ws header_rows = [])) as [Hnil|Hne].
  - unfold introspect_sheet. rewrite Hnil. eauto.
  - rewrite introspect_sheet_Some by done. eauto.
Qed.

End introspect_facts.

(** X25.  The merged headers of a sheet.  For a sheet with at least one
    non-empty header row, [introspect_workbook] records an entry (building
    it raises no [IndexError]) whose list of headers does not end with an
    empty header; the header of each column that is kept is its non-empty
    stripped header cells, from the top row down, joined by [" > "] (a
    header row that is too short has no cell there); and a column that is
    not kept has no non-empty cell in any header row, so only blank columns
    at the right end are dropped. *)
Theorem introspect_sheet_merges_headers
    (header_rows : nat) (sheet_name : string)
    (ws : IntrospectExcel.worksheet) :
  IntrospectExcel.read_raw_headers ws header_rows ≠ [] →
  ∃ info,
    IntrospectExcel.introspect_sheet header_rows sheet_name ws = Some [info]
    ∧ IntrospectExcel.name info = sheet_name
    ∧ last (IntrospectExcel.headers info) ≠ Some EmptyString
    ∧ (∀ i h, IntrospectExcel.headers info !! i = Some h →
         h = String.concat " > "
               (List.filter (fun val => negb (String.eqb val EmptyString))
                  ((fun row : list string =>
                      Py.strip (default EmptyString (row !! i)))
                     <$> IntrospectExcel.read_raw_headers ws header_rows)))
    ∧ (∀ i, IntrospectExcel.headers info !! i = None →
         List.filter (fun val => negb (String.eqb val EmptyString))
           ((fun row : list string =>
               Py.strip (default EmptyString (row !! i)))
              <$> IntrospectExcel.read_raw_headers ws header_rows) = []).
Proof.
  intros Hraw. eexists. split; [by apply introspect_sheet_Some|].
  cbn [IntrospectExcel.name IntrospectExcel.headers].
  set (raw := IntrospectExcel.read_raw_headers ws header_rows).
  set (col := fun i =>
         List.filter (fun val => negb (String.eqb val EmptyString))
           ((fun row : list string =>
               Py.strip (default EmptyString (row !! i))) <$> raw)).
  set (full := (fun i => String.concat " > " (col i))
                 <$> seq 0 (IntrospectExcel.max_cols raw)).
  change (IntrospectExcel.pop_empty _) with (IntrospectExcel.pop_empty full).
  destruct (pop_empty_spec full) as (k & Hfull & Hlast).
  assert (Hlook : ∀ i, (i < IntrospectExcel.max_cols raw)%nat →
            full !! i = Some (String.concat " > " (col i))).
  { intros i Hi. unfold full. rewrite list_lookup_fmap, lookup_seq_lt by done.
    done. }
  assert (Hlen : length full = IntrospectExcel.max_cols raw).
  { unfold full. by rewrite length_fmap, length_seq. }
  split; [done|]. split; [done|]. split.
  - intros i h Hi.
    assert (Hi' : full !! i = Some h).
    { rewrite Hfull. by apply lookup_app_l_Some. }
    rewrite Hlook in Hi'.
    + by injection Hi' as <-.
    + rewrite <- Hlen. by eapply lookup_lt_Some.
  - intros i Hi. apply lookup_ge_None in Hi.
    destruct (decide (i < IntrospectExcel.max_cols raw)%nat) as [Hlt|Hge].
    + apply (concat_nonempty_parts " > ").
      { intros p. apply nonempty_filter_elem. }
      pose proof (Hlook i Hlt) as Hi'. rewrite Hfull in Hi'.
      rewrite lookup_app_r in Hi' by done.
      apply lookup_replicate in Hi' as [Hi' _]. done.
    + apply bool_filter_nil.
      intros val (row & -> & Hrow)%list_elem_of_fmap.
      rewrite (lookup_ge_None_2 row i).
      * reflexivity.
      * pose proof (max_cols_ge raw row Hrow). lia.
Qed.

Lemma introspect_sheet_merges_headers_witness :
  ∃ info,
    IntrospectExcel.introspect_sheet 3 "Projects" Samples.projects_sheet
    = Some [info]
    ∧ IntrospectExcel.headers info
      = ["Cluster"; EmptyString; "Vendor > Code"; "Vendor > Name"].
Proof.
  destruct (introspect_sheet_merges_headers 3 "Projects" Samples.projects_sheet)
    as (info & Hrun & _).
  - vm_compute. discriminate.
  - exists info. split; [exact Hrun|].
    vm_compute in Hrun. injection Hrun as <-. reflexivity.
Defined.

(** ** The data rows of a sheet (staging_engine.py, [_read_excel_data]) *)

Section read_excel_facts.
Import IntrospectExcel.

Lemma row_dict_snoc hs (data : list Py.pyval) v :
  row_dict hs (data ++ [v])
  = match hs !! length data with
    | Some h => Py.dict_set h v (row_dict hs data)
    | None => row_dict hs data
    end.
Proof.
  unfold row_dict. rewrite imap_app, foldl_app. cbn.
  by rewrite Nat.add_0_r.
Qed.

Lemma row_dict_get hs (data : list Py.pyval) h v :
  Py.dict_get h (row_dict hs data) = Some v
  ↔ ∃ i, hs !! i = Some h ∧ data !! i = Some v
         ∧ ∀ j, (i < j)%nat → (j < length data)%nat → hs !! j ≠ Some h.
Proof.
  induction data as [|x data IH] using rev_ind.
  - split; [done|]. by intros (i & _ & ? & _).
  - rewrite row_dict_snoc, length_app. cbn [length].
    assert (Hold : ∀ i, (i < length data)%nat →
              (data ++ [x]) !! i = data !! i).
    { intros i Hi. by rewrite lookup_app_l. }
    assert (Hnew : (data ++ [x]) !! length data = Some x).
    { by rewrite lookup_app_r, Nat.sub_diag. }
    assert (Hrange : ∀ i w, (data ++ [x]) !! i = Some w →
              (i < length data)%nat ∨ i = length data).
    { intros i w Hi%lookup_lt_Some. rewrite length_app in Hi. cbn in Hi. lia. }
    destruct (hs !! length data) as [h0|] eqn:Hh0.
    + destruct (decide (h0 = h)) as [->|Hne].
      * rewrite dict_get_set_eq. split.
        -- intros [= ->]. exists (length data).
           split; [done|]. split; [done|]. intros j ? ?. lia.
        -- intros (i & Hi & Hv & Hlater).
           destruct (Hrange i v Hv) as [Hlt| ->].
           ++ exfalso. apply (Hlater (length data)); [done|lia|done].
           ++ rewrite Hnew in Hv. done.
      * rewrite dict_get_set_ne by done. rewrite IH. split.
        -- intros (i & Hi & Hv & Hlater).
           pose proof (lookup_lt_Some _ _ _ Hv) as Hlt.
           exists i. split; [done|]. split; [by rewrite Hold|].
           intros j Hij Hj.
           destruct (decide (j = length data)) as [->|?]; [congruence|].
           apply Hlater; lia.
        -- intros (i & Hi & Hv & Hlater).
           destruct (Hrange i v Hv) as [Hlt| ->]; [|congruence].
           exists i. split; [done|]. split; [by rewrite <- Hold|].
           intros j Hij Hj. apply Hlater; lia.
    + rewrite IH. split.
      * intros (i & Hi & Hv & Hlater).
        pose proof (lookup_lt_Some _ _ _ Hv) as Hlt.
        exists i. split; [done|]. split; [by rewrite Hold|].
        intros j Hij Hj.
        destruct (decide (j = length data)) as [->|?]; [congruence|].
        apply Hlater; lia.
      * intros (i & Hi & Hv & Hlater).
        destruct (Hrange i v Hv) as [Hlt| ->]; [|congruence].
        exists i. split; [done|]. split; [by rewrite <- Hold|].
        intros j Hij Hj. apply Hlater; lia.
Qed.

(** The entries that the loop of [introspect_workbook] adds for a sheet
    name. *)
Lemma introspect_workbook_Some (wb : workbook) header_rows :
  introspect_workbook wb header_rows
  = Some (concat
            ((fun sheet_name =>
                default [] (ws ← Py.dict_get sheet_name wb;
                            introspect_sheet header_rows sheet_name ws))
               <$> wb.*1)).
Proof.
  unfold introspect_workbook.
  rewrite (mapM_total _
             (fun sheet_name =>
                default [] (ws ← Py.dict_get sheet_name wb;
                            introspect_sheet header_rows sheet_name ws)));
    [done|].
  intros sheet_name [ws Hws]%dict_get_is_Some. rewrite Hws. cbn.
  by destruct (introspect_sheet_is_Some header_rows sheet_name ws) as [infos ->].
Qed.

Lemma introspect_sheet_names header_rows sheet_name ws infos info :
  introspect_sheet header_rows sheet_name ws = Some infos →
  info ∈ infos → name info = sheet_name.
Proof.
  destruct (decide (read_raw_headers ws header_rows = [])) as [Hnil|Hne].
  - unfold introspect_sheet. rewrite Hnil. intros [= <-]. by intros ?%elem_of_nil.
  - rewrite introspect_sheet_Some by done. intros [= <-].
    by intros ->%list_elem_of_singleton.
Qed.

Lemma find_by_name (G : string → list sheet_info) (names : list string)
    (sheet_name : string) :
  (∀ n info, info ∈ G n → name info = n) →
  List.find (fun s => String.eqb (name s) sheet_name) (concat (G <$> names))
  = if decide (sheet_name ∈ names) then head (G sheet_name) else None.
Proof.
  intros Hname. induction names as [|n names IH].
  - by rewrite decide_False by apply not_elem_of_nil.
  - rewrite fmap_cons. cbn [concat].
    assert (Hfind : ∀ (l rest : list sheet_info),
              (∀ info, info ∈ l → name info = n) →
              List.find (fun s => String.eqb (name s) sheet_name) (l ++ rest)
              = if decide (n = sheet_name)
                then match l with
                     | [] => List.find
                               (fun s => String.eqb (name s) sheet_name) rest
                     | info :: _ => Some info
                     end
                else List.find (fun s => String.eqb (name s) sheet_name) rest).
    { intros l rest Hl. induction l as [|info l IHl].
      - by destruct (decide (n = sheet_name)).
      - cbn. rewrite (Hl info) by left.
        destruct (decide (n = sheet_name)) as [->|Hne].
        + by rewrite String.eqb_refl.
        + apply String.eqb_neq in Hne as ->.
          by rewrite IHl by (intros ? ?; apply Hl; by right). }
    rewrite Hfind by (intros info; apply Hname). rewrite IH.
    destruct (decide (n = sheet_name)) as [->|Hne].
    + rewrite (decide_True (P := sheet_name ∈ sheet_name :: names)) by left.
      destruct (G sheet_name) as [|info l]; [|done].
      by destruct (decide (sheet_name ∈ names)).
    + destruct (decide (sheet_name ∈ names)) as [Hin|Hnin].
      * by rewrite decide_True by (by right).
      * rewrite decide_False; [done|].
        intros [?|?]%elem_of_cons; [congruence|done].
Qed.

End read_excel_facts.

(** X26.  [_read_excel_data] raises neither [KeyError] nor [IndexError].
    For a sheet that the workbook does not have it returns no rows; for a
    sheet without a header row it returns no rows either, whatever data the
    sheet holds; otherwise it returns, in the order of the sheet, one dict
    for each data row that has a cell with a true value (a row whose cells
    are all [None], empty, zero or [False] is skipped), built under the
    merged headers that [introspect_workbook] records for the sheet. *)
Theorem read_excel_data_rows
    (wb : IntrospectExcel.workbook) (sheet_name : string) (header_rows : nat) :
  ∃ rows,
    IntrospectExcel.read_excel_data wb sheet_name header_rows = Some rows
    ∧ match Py.dict_get sheet_name wb with
      | None => rows = []
      | Some ws =>
          ∃ infos,
            IntrospectExcel.introspect_sheet header_rows sheet_name ws
            = Some infos
            ∧ rows
              = match infos with
                | [] => []
                | info :: _ =>
                    IntrospectExcel.row_dict (IntrospectExcel.headers info)
                      <$> List.filter (existsb Py.truthy)
                            (IntrospectExcel.rows_from ws (header_rows + 1))
                end
      end.
Proof.
  unfold IntrospectExcel.read_excel_data.
  rewrite introspect_workbook_Some. cbn [mbind option_bind].
  rewrite find_by_name.
  - destruct (Py.dict_get sheet_name wb) as [ws|] eqn:Hws.
    + rewrite decide_True by (apply dict_get_is_Some; eauto).
      destruct (introspect_sheet_is_Some header_rows sheet_name ws)
        as [infos Hinfos].
      cbn [mbind option_bind]. rewrite Hinfos. cbn [default].
      destruct infos as [|info infos]; cbn [head]; eauto.
    + rewrite decide_False by (by apply dict_get_None). eauto.
  - intros n info.
    destruct (Py.dict_get n wb) as [ws|]; cbn; [|by intros ?%elem_of_nil].
    destruct (IntrospectExcel.introspect_sheet header_rows n ws) as [infos|]
      eqn:Hinfos; cbn; [|by intros ?%elem_of_nil].
    by apply introspect_sheet_names with (ws := ws) (header_rows := header_rows).
Qed.

(** X27.  The dict that [_read_excel_data] builds for a data row maps a
    header to the value of the last column of the row that carries this
    header: when two columns have the same merged header (for instance
    blank columns between the headers, which all have the empty header),
    only the rightmost value is kept; the values of columns beyond the last
    header are dropped, a row shorter than the headers has no key for the
    columns it lacks, and every key of the dict is one of the headers. *)
Theorem row_dict_last_column_wins
    (headers : list string) (row_data : list Py.pyval)
    (h : string) (v : Py.pyval) :
  Py.dict_get h (IntrospectExcel.row_dict headers row_data) = Some v
  ↔ ∃ i, headers !! i = Some h ∧ row_data !! i = Some v
         ∧ ∀ j, (i < j)%nat → (j < length row_data)%nat →
                headers !! j ≠ Some h.
Proof. apply row_dict_get. Qed.

(** ** The CSV files of the data directory (csv_introspect.py) *)

Section csv_introspect_facts.
Import AppendWriter CsvIntrospect.

Lemma take_until_app c (l r : list ascii) :
  c ∉ l → take_until c (l ++ c :: r) = l.
Proof.
  induction l as [|x l IH]; intros Hc; cbn.
  - by rewrite Ascii.eqb_refl.
  - apply not_elem_of_cons in Hc as [Hne Hc].
    destruct (Ascii.eqb_spec x c) as [->|_]; [done|]. by rewrite IH.
Qed.

Lemma last_piece_app c (l r : list ascii) :
  c ∉ r → last_piece c (l ++ c :: r) = r.
Proof.
  intros Hc. unfold last_piece.
  rewrite reverse_app, reverse_cons, <- app_assoc. cbn.
  rewrite take_until_app by (by rewrite elem_of_reverse).
  apply reverse_involutive.
Qed.

Lemma path_name_join (dir name : string) :
  slash ∉ list_ascii_of_string name →
  path_name (dir +:+ "/" +:+ name) = list_ascii_of_string name.
Proof.
  intros Hname. unfold path_name. rewrite !list_ascii_app.
  exact (last_piece_app slash (list_ascii_of_string dir)
           (list_ascii_of_string name) Hname).
Qed.

Lemma path_stem_csv (dir base : string) :
  slash ∉ list_ascii_of_string base →
  base ≠ EmptyString →
  path_stem (dir +:+ "/" +:+ base +:+ ".csv") = base.
Proof.
  intros Hbase Hne. unfold path_stem.
  rewrite path_name_join.
  - rewrite list_ascii_app, reverse_app.
    change (reverse (list_ascii_of_string ".csv"))
      with (["v"; "s"; "c"]%char ++ dot :: []).
    rewrite <- app_assoc. cbn [app].
    change ("v"%char :: "s"%char :: "c"%char
              :: dot :: reverse (list_ascii_of_string base))
      with (["v"; "s"; "c"]%char
              ++ dot :: reverse (list_ascii_of_string base)).
    rewrite take_until_app.
    + cbn [length]. rewrite length_app. cbn [length].
      rewrite length_reverse.
      destruct base as [|c base]; [done|]. cbn [list_ascii_of_string length].
      replace ((0 <? 3)%nat && (3 <? 3 + S (S (length (list_ascii_of_string base))) - 1)%nat)
        with true.
      * change (drop 4 (["v"; "s"; "c"]%char
                          ++ dot :: reverse (c :: list_ascii_of_string base)))
          with (reverse (c :: list_ascii_of_string base)).
        rewrite reverse_involutive.
        apply (string_of_list_ascii_of_string (String c base)).
      * symmetry. apply andb_true_iff. split; apply Nat.ltb_lt; lia.
    + intros Hin. unfold dot in Hin.
      repeat (apply elem_of_cons in Hin as [Hin|Hin]; [discriminate|]).
      by apply elem_of_nil in Hin.
  - rewrite list_ascii_app. intros [Hin|Hin]%elem_of_app; [done|].
    cbn in Hin. unfold slash in Hin.
    repeat (apply elem_of_cons in Hin as [Hin|Hin]; [discriminate|]).
    by apply elem_of_nil in Hin.
Qed.

Lemma entity_of_target self (e : string) :
  "-"%char ∉ list_ascii_of_string e →
  slash ∉ list_ascii_of_string e →
  entity_of (target_of self e) = e.
Proof.
  intros Hdash Hslash. unfold entity_of, target_of.
  assert (Hstem : path_stem (data_dir self +:+ "/" +:+ "CCTECH.DRS.ENTITIES-"
                             +:+ e +:+ ".csv")
                  = "CCTECH.DRS.ENTITIES-" +:+ e).
  { rewrite <- (path_stem_csv (data_dir self) ("CCTECH.DRS.ENTITIES-" +:+ e)).
    - by rewrite <- !string_app_assoc.
    - rewrite list_ascii_app. intros [Hin|Hin]%elem_of_app; [|done].
      cbn in Hin. unfold slash in Hin.
      repeat (apply elem_of_cons in Hin as [Hin|Hin]; [discriminate|]).
      by apply elem_of_nil in Hin.
    - done. }
  rewrite Hstem, list_ascii_app.
  change (list_ascii_of_string "CCTECH.DRS.ENTITIES-")
    with (list_ascii_of_string "CCTECH.DRS.ENTITIES" ++ ["-"%char]).
  rewrite <- app_assoc. cbn [app].
  replace (existsb _ _) with true.
  - rewrite last_piece_app by done. apply string_of_list_ascii_of_string.
  - symmetry. apply existsb_exists. exists "-"%char. split; [|done].
    apply in_or_app. right. by left.
Qed.

Lemma list_csv_headers_snoc listing p fs :
  list_csv_headers (listing ++ [p]) fs
  = (results ← list_csv_headers listing fs;
     content ← fs !! p;
     Some (Py.dict_set (entity_of p)
             {| Schema.csv_file := Some p;
                Schema.csv_columns := first_record content |} results)).
Proof. unfold list_csv_headers. by rewrite foldl_app. Qed.

Lemma list_csv_headers_get listing (fs : gmap string string) target content :
  target ∈ listing →
  fs !! target = Some content →
  (∀ p, p ∈ listing → is_Some (fs !! p)) →
  (∀ p, p ∈ listing → entity_of p = entity_of target → p = target) →
  ∃ csvs,
    list_csv_headers listing fs = Some csvs
    ∧ Py.dict_get (entity_of target) csvs
      = Some {| Schema.csv_file := Some target;
                Schema.csv_columns := first_record content |}.
Proof.
  intros Hin Hcontent Hfiles Honly.
  assert (Htotal : ∀ l, (∀ p, p ∈ l → is_Some (fs !! p)) →
            is_Some (list_csv_headers l fs)).
  { induction l as [|p l IH] using rev_ind; intros Hl; [by eexists|].
    rewrite list_csv_headers_snoc.
    destruct IH as [csvs ->]; [intros q ?; apply Hl, elem_of_app; by left|].
    destruct (Hl p) as [c ->]; [apply elem_of_app; right; by left|].
    by eexists. }
  induction listing as [|p l IH] using rev_ind;
    [by apply elem_of_nil in Hin|].
  rewrite list_csv_headers_snoc.
  destruct (Htotal l) as [csvs Hcsvs];
    [intros q ?; apply Hfiles, elem_of_app; by left|].
  rewrite Hcsvs. cbn [mbind option_bind].
  destruct (decide (p = target)) as [->|Hne].
  - rewrite Hcontent. cbn [mbind option_bind]. eexists. split; [done|].
    apply dict_get_set_eq.
  - destruct (Hfiles p) as [c Hc]; [apply elem_of_app; right; by left|].
    rewrite Hc. cbn [mbind option_bind]. eexists. split; [done|].
    rewrite dict_get_set_ne.
    + destruct IH as (csvs' & Hcsvs' & Hget).
      * apply elem_of_app in Hin as [?|Hin]; [done|].
        apply list_elem_of_singleton in Hin. congruence.
      * intros q ?. apply Hfiles, elem_of_app. by left.
      * intros q ? ?. apply Honly; [apply elem_of_app; by left|done].
      * rewrite Hcsvs in Hcsvs'. by injection Hcsvs' as <-.
    + intros Heq. apply Hne, Honly; [apply elem_of_app; right; by left|done].
Qed.

End csv_introspect_facts.

(** X28.  [build_schema] and [append_all] agree on the file of an
    entity.  For an entity name without ['-'] and ['/'], the name that
    [list_csv_headers] reads off the path to which [append_all] appends,
    [CCTECH.DRS.ENTITIES-<entity>.csv] in the data directory, is the entity
    again; and when this file is among the listed CSV files, every listed
    file can be opened and no other listed file stands for the same entity,
    [list_csv_headers] records under the entity exactly this path, with the
    first record of the file as its columns. *)
Theorem list_csv_headers_finds_append_target
    (self : AppendWriter.writer) (e : string) (listing : list string)
    (fs : gmap string string) (content : string) :
  "-"%char ∉ list_ascii_of_string e →
  "/"%char ∉ list_ascii_of_string e →
  AppendWriter.target_of self e ∈ listing →
  fs !! AppendWriter.target_of self e = Some content →
  (∀ p, p ∈ listing → is_Some (fs !! p)) →
  (∀ p, p ∈ listing → CsvIntrospect.entity_of p = e →
        p = AppendWriter.target_of self e) →
  CsvIntrospect.entity_of (AppendWriter.target_of self e) = e
  ∧ ∃ csvs,
      CsvIntrospect.list_csv_headers listing fs = Some csvs
      ∧ Py.dict_get e csvs
        = Some {| Schema.csv_file := Some (AppendWriter.target_of self e);
                  Schema.csv_columns := AppendWriter.first_record content |}.
Proof.
  intros Hdash Hslash Hin Hcontent Hfiles Honly.
  pose proof (entity_of_target self e Hdash Hslash) as Hent.
  split; [done|].
  destruct (list_csv_headers_get listing fs (AppendWriter.target_of self e)
              content Hin Hcontent Hfiles) as (csvs & Hrun & Hget).
  - intros p Hp Hpe. apply Honly; [done|]. by rewrite Hpe.
  - exists csvs. split; [done|]. by rewrite <- Hent at 1.
Qed.

Lemma list_csv_headers_finds_append_target_witness :
  CsvIntrospect.entity_of (AppendWriter.target_of Samples.the_writer "CLUSTERS")
  = "CLUSTERS"
  ∧ ∃ csvs,
      CsvIntrospect.list_csv_headers
        ["data/CCTECH.DRS.ENTITIES-CLUSTERS.csv"; "data/notes.csv"]
        {[ "data/CCTECH.DRS.ENTITIES-CLUSTERS.csv" := Samples.target_terminated;
           "data/notes.csv" := EmptyString ]}
      = Some csvs
      ∧ Py.dict_get "CLUSTERS" csvs
        = Some {| Schema.csv_file := Some "data/CCTECH.DRS.ENTITIES-CLUSTERS.csv";
                  Schema.csv_columns := ["ID"; "NAME"] |}.
Proof.
  destruct (list_csv_headers_finds_append_target Samples.the_writer "CLUSTERS"
              ["data/CCTECH.DRS.ENTITIES-CLUSTERS.csv"; "data/notes.csv"]
              {[ "data/CCTECH.DRS.ENTITIES-CLUSTERS.csv" := Samples.target_terminated;
                 "data/notes.csv" := EmptyString ]}
              Samples.target_terminated) as [Hent (csvs & Hrun & Hget)].
  - vm_compute. intros Hin. repeat (inversion Hin as [|? ? ? Hin']; clear Hin; rename Hin' into Hin).
  - vm_compute. intros Hin. repeat (inversion Hin as [|? ? ? Hin']; clear Hin; rename Hin' into Hin).
  - left.
  - vm_compute. reflexivity.
  - intros p Hp.
    apply elem_of_cons in Hp as [->|Hp];
      [vm_compute; eauto|].
    apply list_elem_of_singleton in Hp as ->. vm_compute. eauto.
  - intros p Hp Hpe.
    apply elem_of_cons in Hp as [->|Hp]; [reflexivity|].
    apply list_elem_of_singleton in Hp as ->. vm_compute in Hpe. discriminate.
  - split; [exact Hent|]. exists csvs. split; [exact Hrun|].
    rewrite Hget. vm_compute. reflexivity.
Defined.

(** ** The [@assert.unique] annotations (cds_parser.py, [_parse_unique]) *)

Section parse_unique_facts.
Import CdsUnique.

Lemma split_nonempty sep s : split sep s ≠ [].
Proof.
  destruct s as [|c s]; cbn; [done|].
  destruct (Ascii.eqb c sep); [done|]. by destruct (split sep s).
Qed.

Lemma split_elem sep s p :
  p ∈ split sep s →
  (sep ∉ list_ascii_of_string p)
  ∧ ∀ ch, ch ∈ list_ascii_of_string p → ch ∈ list_ascii_of_string s.
Proof.
  revert p. induction s as [|c s IH]; intros p; cbn.
  - intros ->%list_elem_of_singleton. split; [apply not_elem_of_nil|done].
  - destruct (Ascii.eqb_spec c sep) as [->|Hne].
    + intros [->|Hp]%elem_of_cons.
      * split; [apply not_elem_of_nil|]. by intros ch ?%elem_of_nil.
      * destruct (IH p Hp) as [Hsep Hch]. split; [done|].
        intros ch ?. right. by apply Hch.
    + destruct (split sep s) as [|q qs] eqn:Hsplit;
        [by destruct (split_nonempty sep s)|].
      intros [->|Hp]%elem_of_cons.
      * destruct (IH q) as [Hsep Hch]; [left|]. cbn. split.
        -- intros [?|?]%elem_of_cons; [congruence|done].
        -- intros ch [->|?]%elem_of_cons; [left|right; by apply Hch].
      * destruct (IH p) as [Hsep Hch]; [by right|]. split; [done|].
        intros ch ?. right. by apply Hch.
Qed.

Lemma strip_chars s ch :
  ch ∈ list_ascii_of_string (Py.strip s) → ch ∈ list_ascii_of_string s.
Proof.
  unfold Py.strip. intros Hch.
  destruct (rstrip_prefix (Py.lstrip s)) as [suf Hsuf].
  destruct (lstrip_suffix s) as [pre Hpre].
  rewrite Hpre, list_ascii_app, Hsuf, list_ascii_app.
  apply elem_of_app. right. apply elem_of_app. by left.
Qed.

Lemma stripped_pieces_elem s col :
  col ∈ stripped_pieces s →
  col ≠ EmptyString ∧ Py.strip col = col
  ∧ (","%char ∉ list_ascii_of_string col)
  ∧ ∀ ch, ch ∈ list_ascii_of_string col → ch ∈ list_ascii_of_string s.
Proof.
  unfold stripped_pieces.
  intros [Hin Hne]%list_elem_of_In%filter_In. apply list_elem_of_In in Hin.
  apply list_elem_of_fmap in Hin as (p & -> & Hp).
  destruct (split_elem _ _ _ Hp) as [Hsep Hch].
  split; [|split; [apply strip_strip|split]].
  - intros Heq. rewrite Heq in Hne. done.
  - intros Hin. by apply Hsep, strip_chars.
  - intros ch Hin. by apply Hch, strip_chars.
Qed.

Lemma until_bracket_chars s g :
  until_bracket s = Some g →
  ("]"%char ∉ list_ascii_of_string g) ∧ (Csv.LF ∉ list_ascii_of_string g)
  ∧ ∀ ch, ch ∈ list_ascii_of_string g → ch ∈ list_ascii_of_string s.
Proof.
  revert g. induction s as [|c s IH]; intros g; cbn; [done|].
  destruct (Ascii.eqb_spec c "]"%char) as [->|Hb].
  - intros [= <-]. cbn. split; [apply not_elem_of_nil|].
    split; [apply not_elem_of_nil|]. by intros ch ?%elem_of_nil.
  - destruct (Ascii.eqb_spec c Csv.LF) as [->|Hl]; [done|].
    destruct (until_bracket s) as [g'|]; [|done]. cbn. intros [= <-].
    destruct (IH g' eq_refl) as (Hb' & Hl' & Hch). cbn.
    split; [|split].
    + intros [?|?]%elem_of_cons; [congruence|done].
    + intros [?|?]%elem_of_cons; [congruence|done].
    + intros ch [->|?]%elem_of_cons; [left|right; by apply Hch].
Qed.

Lemma match_columns_chars cols g :
  match_columns cols = Some g →
  ("]"%char ∉ list_ascii_of_string g) ∧ (Csv.LF ∉ list_ascii_of_string g).
Proof.
  destruct cols as [|c rest]; cbn; [done|].
  destruct (Ascii.eqb c "["%char); [|done].
  intros (? & ? & _)%until_bracket_chars. done.
Qed.

Lemma split_once_first sep s :
  sep ∉ list_ascii_of_string (split_once sep s).1.
Proof.
  induction s as [|c s IH]; cbn; [apply not_elem_of_nil|].
  destruct (Ascii.eqb_spec c sep) as [->|Hne]; [apply not_elem_of_nil|].
  destruct (split_once sep s) as [a b]. cbn in *.
  intros [?|?]%elem_of_cons; [congruence|done].
Qed.

Lemma parse_pair_clean pair c :
  parse_pair pair = Some c →
  Py.strip (CdsParser.uc_name c) = CdsParser.uc_name c
  ∧ (":"%char ∉ list_ascii_of_string (CdsParser.uc_name c))
  ∧ ∀ col, col ∈ CdsParser.uc_columns c →
      col ≠ EmptyString ∧ Py.strip col = col
      ∧ (","%char ∉ list_ascii_of_string col)
      ∧ ("]"%char ∉ list_ascii_of_string col)
      ∧ (Csv.LF ∉ list_ascii_of_string col).
Proof.
  unfold parse_pair. destruct (Py.contains ":" pair); [|done].
  pose proof (split_once_first ":"%char pair) as Hname.
  destruct (split_once ":"%char pair) as [name cols]. cbn [fst] in Hname.
  destruct (match_columns (Py.strip cols)) as [g|] eqn:Hg; [|done].
  intros [= <-]. cbn [CdsParser.uc_name CdsParser.uc_columns].
  destruct (match_columns_chars _ _ Hg) as [Hb Hl].
  split; [apply strip_strip|]. split.
  - intros Hin. by apply Hname, strip_chars.
  - intros col (Hne & Hstrip & Hcomma & Hch)%stripped_pieces_elem.
    split; [done|]. split; [done|]. split; [done|].
    split; intros Hin; [apply Hb|apply Hl]; by apply Hch.
Qed.

End parse_unique_facts.

(** X29.  What [_parse_unique] returns is clean, whatever the text of the
    annotation: the name of every constraint has no white space around it
    and no colon in it, and every column of every constraint is a non-empty
    name without white space around it that contains no comma, no closing
    bracket and no line feed.  An empty column (two commas in a row, a comma
    before the bracket) is never returned. *)
Theorem parse_unique_returns_clean_names
    (body : string) (c : CdsParser.unique_constraint) :
  c ∈ CdsUnique._parse_unique body →
  Py.strip (CdsParser.uc_name c) = CdsParser.uc_name c
  ∧ (":"%char ∉ list_ascii_of_string (CdsParser.uc_name c))
  ∧ ∀ col, col ∈ CdsParser.uc_columns c →
      col ≠ EmptyString ∧ Py.strip col = col
      ∧ (","%char ∉ list_ascii_of_string col)
      ∧ ("]"%char ∉ list_ascii_of_string col)
      ∧ (Csv.LF ∉ list_ascii_of_string col).
Proof.
  unfold CdsUnique._parse_unique.
  intros (pair & _ & Hpair)%list_elem_of_omap.
  by apply (parse_pair_clean pair).
Qed.

Lemma parse_unique_returns_clean_names_witness :
  {| CdsParser.uc_name := "a"; CdsParser.uc_columns := ["X"; "Y"] |}
    ∈ CdsUnique._parse_unique " a : [ X ,, Y ] , b:[]"
  ∧ Py.strip "a" = "a"
  ∧ (":"%char ∉ list_ascii_of_string "a").
Proof.
  assert (Hin : {| CdsParser.uc_name := "a"; CdsParser.uc_columns := ["X"; "Y"] |}
                  ∈ CdsUnique._parse_unique " a : [ X ,, Y ] , b:[]")
    by (vm_compute; left).
  split; [exact Hin|].
  destruct (parse_unique_returns_clean_names _ _ Hin) as (Hname & Hcolon & _).
  split; [exact Hname|exact Hcolon].
Defined.

Section parse_unique_roundtrip.
Import CdsUnique.

Lemma split_app_sep sep (a b : string) :
  split sep (a +:+ String sep b) = split sep a ++ split sep b.
Proof.
  induction a as [|c a IH].
  - rewrite app_Empty. cbn. by rewrite Ascii.eqb_refl.
  - rewrite app_String. cbn. destruct (Ascii.eqb c sep).
    + by rewrite IH.
    + rewrite IH. destruct (split sep a) as [|q qs] eqn:Hq;
        [by destruct (split_nonempty sep a)|]. done.
Qed.

Lemma split_no_sep sep (a : string) :
  sep ∉ list_ascii_of_string a → split sep a = [a].
Proof.
  induction a as [|c a IH]; cbn; [done|].
  intros [Hne Ha]%not_elem_of_cons.
  destruct (Ascii.eqb_spec c sep) as [->|_]; [done|]. by rewrite IH.
Qed.

Lemma stripped_pieces_comma (a b : string) :
  stripped_pieces (a +:+ String ","%char b)
  = stripped_pieces a ++ stripped_pieces b.
Proof.
  unfold stripped_pieces.
  by rewrite split_app_sep, fmap_app, List.filter_app.
Qed.

Lemma stripped_pieces_space (s : string) :
  stripped_pieces (String " "%char s) = stripped_pieces s.
Proof.
  unfold stripped_pieces. cbn [split].
  change (Ascii.eqb " "%char ","%char) with false. cbv iota.
  destruct (split ","%char s) as [|q qs] eqn:Hq;
    [by destruct (split_nonempty ","%char s)|].
  by rewrite !fmap_cons.
Qed.

Lemma strip_fixed s :
  Py.no_lead s → Py.no_lead (String.rev s) → Py.strip s = s.
Proof.
  intros Hl Hr. unfold Py.strip. rewrite lstrip_fixed by done.
  by apply rstrip_fixed.
Qed.

Lemma stripped_pieces_one (s : string) :
  (","%char ∉ list_ascii_of_string s) → s ≠ EmptyString →
  Py.no_lead s → Py.no_lead (String.rev s) →
  stripped_pieces s = [s].
Proof.
  intros Hc Hne Hl Hr. unfold stripped_pieces.
  rewrite split_no_sep by done. cbn [fmap list_fmap].
  rewrite strip_fixed by done. cbn [List.filter].
  by destruct s.
Qed.

Lemma contains_char ch (s : string) :
  Py.contains (String ch EmptyString) s = bool_decide (ch ∈ list_ascii_of_string s).
Proof.
  induction s as [|c s IH]; cbn.
  - by rewrite bool_decide_eq_false_2 by apply not_elem_of_nil.
  - destruct (ascii_dec ch c) as [->|Hne]; cbn.
    + rewrite bool_decide_eq_true_2 by left. by destruct s.
    + rewrite IH. apply bool_decide_ext. rewrite elem_of_cons. split; [auto|].
      intros [?|?]; [congruence|done].
Qed.

Lemma rev_chars (s : string) ch :
  ch ∈ list_ascii_of_string (String.rev s) ↔ ch ∈ list_ascii_of_string s.
Proof.
  induction s as [|c s IH]; [done|].
  rewrite rev_String, list_ascii_app, elem_of_app, IH. cbn.
  rewrite !elem_of_cons, elem_of_nil. tauto.
Qed.

Lemma no_lead_app (s t : string) :
  s ≠ EmptyString → Py.no_lead s → Py.no_lead (s +:+ t).
Proof. by destruct s. Qed.

Lemma rev_nonempty (s : string) : s ≠ EmptyString → String.rev s ≠ EmptyString.
Proof.
  destruct s as [|c s]; [done|]. intros _. rewrite rev_String.
  by destruct (String.rev s).
Qed.

Lemma no_trail_app (s t : string) :
  t ≠ EmptyString → Py.no_lead (String.rev t) →
  Py.no_lead (String.rev (s +:+ t)).
Proof.
  intros Hne Ht. rewrite rev_app_distr.
  apply no_lead_app; [by apply rev_nonempty|done].
Qed.

Lemma plain_no_lead s : plain s → Py.no_lead s.
Proof.
  intros [Hne Hch]. destruct s as [|c s]; [done|]. cbn.
  apply Hch. left.
Qed.

Lemma plain_no_trail s : plain s → Py.no_lead (String.rev s).
Proof.
  intros [Hne Hch]. pose proof (rev_nonempty s Hne) as Hr.
  destruct (String.rev s) as [|c r] eqn:Hrev; [done|]. cbn.
  apply Hch, rev_chars. rewrite Hrev. left.
Qed.

Lemma plain_notin s ch :
  plain s → ch ∈ [","; ":"; "]"; Csv.LF]%char → ch ∉ list_ascii_of_string s.
Proof.
  intros [_ Hch] Hin Hs. destruct (Hch ch Hs) as [Hsp Hnot].
  apply elem_of_cons in Hin as [->|Hin]; [apply Hnot; left|].
  apply elem_of_cons in Hin as [->|Hin]; [apply Hnot; right; left|].
  apply elem_of_cons in Hin as [->|Hin]; [apply Hnot; do 2 right; left|].
  apply list_elem_of_singleton in Hin as ->. done.
Qed.

Ltac str_norm :=
  repeat first [ rewrite <- string_app_assoc | rewrite app_String
               | rewrite app_Empty ].

Lemma plain_nonempty s : plain s → s ≠ EmptyString.
Proof. by intros [? _]. Qed.

Lemma plain_piece (pre c post : string) :
  plain c →
  (","%char ∉ list_ascii_of_string pre) →
  (","%char ∉ list_ascii_of_string post) →
  (pre ≠ EmptyString → Py.no_lead pre) →
  (post ≠ EmptyString → Py.no_lead (String.rev post)) →
  stripped_pieces (pre +:+ c +:+ post) = [pre +:+ c +:+ post].
Proof.
  intros Hc Hpre Hpost Hlead Htrail.
  pose proof (plain_nonempty c Hc) as Hne.
  apply stripped_pieces_one.
  - rewrite !list_ascii_app, !elem_of_app.
    intros [?|[Hin|?]]; [done| |done].
    revert Hin. apply plain_notin; [done|left].
  - destruct pre; [|done]. rewrite app_Empty. by destruct c.
  - destruct pre as [|x pre].
    + rewrite app_Empty. apply no_lead_app; [done|by apply plain_no_lead].
    + by apply no_lead_app; [|apply Hlead].
  - destruct post as [|x post].
    + rewrite string_app_nil_r.
      apply no_trail_app; [done|by apply plain_no_trail].
    + rewrite string_app_assoc. by apply no_trail_app; [|apply Htrail].
Qed.

Lemma rejoin_step_keep buf acc p :
  ("]"%char ∉ list_ascii_of_string p) →
  rejoin_step (buf, acc) p
  = (buf, acc +:+ (if String.eqb acc EmptyString then EmptyString else ",")
          +:+ p).
Proof.
  intros Hp. unfold rejoin_step.
  by rewrite contains_char, bool_decide_eq_false_2.
Qed.

Lemma rejoin_step_push buf acc p :
  "]"%char ∈ list_ascii_of_string p →
  rejoin_step (buf, acc) p
  = (buf ++ [acc +:+ (if String.eqb acc EmptyString then EmptyString else ",")
                 +:+ p], EmptyString).
Proof.
  intros Hp. unfold rejoin_step.
  by rewrite contains_char, bool_decide_eq_true_2.
Qed.

Lemma eqb_nonempty (acc : string) :
  acc ≠ EmptyString → String.eqb acc EmptyString = false.
Proof. by intros ?%String.eqb_neq. Qed.

(** The columns after the first one: they are added to the pair that is
    being put together, which the last one completes. *)
Lemma rejoin_columns (more : list string) :
  ∀ (c1 : string) (buf : list string) (acc : string),
    acc ≠ EmptyString → plain c1 → Forall plain more →
    foldl rejoin_step (buf, acc)
      (stripped_pieces (String.concat ", " (c1 :: more) +:+ "]"))
    = (buf ++ [acc +:+ "," +:+ String.concat "," (c1 :: more) +:+ "]"],
       EmptyString).
Proof.
  induction more as [|c2 more IH]; intros c1 buf acc Hacc Hc1 Hmore.
  - cbn [String.concat].
    rewrite <- (app_Empty (c1 +:+ "]")).
    rewrite plain_piece; [|done|apply not_elem_of_nil| |done|done].
    + cbn [foldl]. rewrite rejoin_step_push.
      * rewrite eqb_nonempty by done. by rewrite app_Empty.
      * rewrite app_Empty, list_ascii_app. apply elem_of_app. right. left.
    + cbn. intros [?|?%elem_of_nil]%elem_of_cons; [discriminate|done].
  - apply Forall_cons in Hmore as [Hc2 Hmore].
    assert (Htext : String.concat ", " (c1 :: c2 :: more) +:+ "]"
                    = c1 +:+ String ","%char
                        (String " "%char
                           (String.concat ", " (c2 :: more) +:+ "]"))).
    { change (String.concat ", " (c1 :: c2 :: more))
        with (c1 +:+ ", " +:+ String.concat ", " (c2 :: more)).
      by str_norm. }
    rewrite Htext, stripped_pieces_comma, stripped_pieces_space.
    rewrite <- (app_Empty c1) at 1. rewrite <- (string_app_nil_r c1) at 1.
    rewrite plain_piece by (done || apply not_elem_of_nil).
    rewrite app_Empty, string_app_nil_r. cbn [app foldl].
    rewrite rejoin_step_keep by (apply plain_notin; [done|do 2 right; left]).
    rewrite eqb_nonempty by done.
    rewrite IH; [|by destruct acc|done|done].
    do 2 f_equal.
    change (String.concat "," (c1 :: c2 :: more))
      with (c1 +:+ "," +:+ String.concat "," (c2 :: more)).
    by str_norm.
Qed.

(** One constraint as the annotation writes it: its pieces are put
    together again, without the space after the commas. *)
Lemma rejoin_constraint (name : string) (cols : list string)
    (buf : list string) :
  plain name → Forall plain cols →
  foldl rejoin_step (buf, EmptyString)
    (stripped_pieces (name +:+ ": [" +:+ String.concat ", " cols +:+ "]"))
  = (buf ++ [name +:+ ": [" +:+ String.concat "," cols +:+ "]"], EmptyString).
Proof.
  intros Hname Hcols.
  destruct cols as [|c1 [|c2 more]].
  - cbn [String.concat]. rewrite !app_Empty.
    rewrite <- (app_Empty (name +:+ ": [" +:+ "]")).
    rewrite plain_piece; [|done|apply not_elem_of_nil| |done|done].
    + cbn [foldl]. rewrite rejoin_step_push; [done|].
      rewrite app_Empty, list_ascii_app. apply elem_of_app. right.
      cbn. do 3 right. left.
    + cbn. intros Hin.
      repeat (apply elem_of_cons in Hin as [Hin|Hin]; [discriminate|]).
      by apply elem_of_nil in Hin.
  - apply Forall_cons in Hcols as [Hc1 _]. cbn [String.concat].
    assert (Hpiece : stripped_pieces (name +:+ ": [" +:+ c1 +:+ "]")
                     = [name +:+ ": [" +:+ c1 +:+ "]"]).
    { rewrite (string_app_assoc name ": [" (c1 +:+ "]")).
      apply plain_piece; [done| |by cbn; intros [?|?%elem_of_nil]%elem_of_cons|
                          |done].
      - rewrite list_ascii_app. intros [Hin|Hin]%elem_of_app.
        + revert Hin. apply plain_notin; [done|left].
        + cbn in Hin.
          repeat (apply elem_of_cons in Hin as [Hin|Hin]; [discriminate|]).
          by apply elem_of_nil in Hin.
      - intros _. apply no_lead_app; [by apply plain_nonempty|].
        by apply plain_no_lead. }
    rewrite Hpiece. cbn [foldl]. rewrite rejoin_step_push; [done|].
    rewrite !list_ascii_app, !elem_of_app. do 3 right. left.
  - apply Forall_cons in Hcols as [Hc1 Hmore].
    assert (Htext : name +:+ ": [" +:+ String.concat ", " (c1 :: c2 :: more)
                      +:+ "]"
                    = (name +:+ ": [" +:+ c1)
                        +:+ String ","%char
                              (String " "%char
                                 (String.concat ", " (c2 :: more) +:+ "]"))).
    { change (String.concat ", " (c1 :: c2 :: more))
        with (c1 +:+ ", " +:+ String.concat ", " (c2 :: more)).
      by str_norm. }
    rewrite Htext, stripped_pieces_comma, stripped_pieces_space.
    assert (Hpiece : stripped_pieces (name +:+ ": [" +:+ c1)
                     = [name +:+ ": [" +:+ c1]).
    { rewrite (string_app_assoc name ": [" c1).
      rewrite <- (string_app_nil_r ((name +:+ ": [") +:+ c1)).
      rewrite <- (string_app_assoc (name +:+ ": [") c1 EmptyString).
      apply plain_piece; [done| |apply not_elem_of_nil| |done].
      - rewrite list_ascii_app. intros [Hin|Hin]%elem_of_app.
        + revert Hin. apply plain_notin; [done|left].
        + cbn in Hin.
          repeat (apply elem_of_cons in Hin as [Hin|Hin]; [discriminate|]).
          by apply elem_of_nil in Hin.
      - intros _. apply no_lead_app; [by apply plain_nonempty|].
        by apply plain_no_lead. }
    rewrite Hpiece. cbn [app foldl].
    rewrite rejoin_step_keep.
    + cbn [String.eqb]. rewrite !app_Empty.
      rewrite rejoin_columns; [|by destruct name|by apply Forall_cons_1 in Hmore as [? ?]|by apply Forall_cons_1 in Hmore as [? ?]].
      do 2 f_equal.
      change (String.concat "," (c1 :: c2 :: more))
        with (c1 +:+ "," +:+ String.concat "," (c2 :: more)).
      by str_norm.
    + rewrite !list_ascii_app, !elem_of_app. intros [Hin|[Hin|Hin]].
      * revert Hin. apply plain_notin; [done|do 2 right; left].
      * cbn in Hin.
        repeat (apply elem_of_cons in Hin as [Hin|Hin]; [discriminate|]).
        by apply elem_of_nil in Hin.
      * revert Hin. apply plain_notin; [done|do 2 right; left].
Qed.

(** The text of the constraints, one after the other. *)
Lemma rejoin_body (cs : list CdsParser.unique_constraint) :
  Forall (fun c => plain (CdsParser.uc_name c)
                   ∧ Forall plain (CdsParser.uc_columns c)) cs →
  ∀ buf,
    foldl rejoin_step (buf, EmptyString)
      (stripped_pieces
         (String.concat ", "
            ((fun c => CdsParser.uc_name c +:+ ": ["
                       +:+ String.concat ", " (CdsParser.uc_columns c) +:+ "]")
               <$> cs)))
    = (buf ++ ((fun c => CdsParser.uc_name c +:+ ": ["
                         +:+ String.concat "," (CdsParser.uc_columns c) +:+ "]")
                 <$> cs), EmptyString).
Proof.
  induction cs as [|c cs IH]; intros Hcs buf.
  - cbn. by rewrite app_nil_r.
  - apply Forall_cons in Hcs as [[Hname Hcols] Hcs].
    destruct cs as [|c' cs].
    + cbn [fmap list_fmap String.concat]. by apply rejoin_constraint.
    + set (R := fun c0 => CdsParser.uc_name c0 +:+ ": ["
                          +:+ String.concat ", " (CdsParser.uc_columns c0)
                          +:+ "]") in *.
      set (J := fun c0 => CdsParser.uc_name c0 +:+ ": ["
                          +:+ String.concat "," (CdsParser.uc_columns c0)
                          +:+ "]") in *.
      rewrite !fmap_cons.
      change (String.concat ", " (R c :: R c' :: (R <$> cs)))
        with (R c +:+ ", " +:+ String.concat ", " (R c' :: (R <$> cs))).
      change (R c +:+ ", " +:+ String.concat ", " (R c' :: (R <$> cs)))
        with (R c +:+ String ","%char
                (String " "%char (String.concat ", " (R c' :: (R <$> cs))))).
      rewrite stripped_pieces_comma, stripped_pieces_space, foldl_app.
      unfold R at 1. rewrite rejoin_constraint by done.
      rewrite <- fmap_cons, (IH Hcs). by rewrite <- app_assoc.
Qed.

Lemma split_once_app sep (a b : string) :
  sep ∉ list_ascii_of_string a →
  split_once sep (a +:+ String sep b) = (a, b).
Proof.
  induction a as [|c a IH]; intros Ha.
  - rewrite app_Empty. cbn. by rewrite Ascii.eqb_refl.
  - cbn in Ha. apply not_elem_of_cons in Ha as [Hne Ha].
    rewrite app_String. cbn.
    destruct (Ascii.eqb_spec c sep) as [->|_]; [done|]. by rewrite IH.
Qed.

Lemma until_bracket_app (g r : string) :
  ("]"%char ∉ list_ascii_of_string g) → (Csv.LF ∉ list_ascii_of_string g) →
  until_bracket (g +:+ String "]"%char r) = Some g.
Proof.
  induction g as [|c g IH]; intros Hb Hl.
  - by rewrite app_Empty.
  - cbn in Hb, Hl. apply not_elem_of_cons in Hb as [Hb1 Hb].
    apply not_elem_of_cons in Hl as [Hl1 Hl].
    rewrite app_String. cbn.
    destruct (Ascii.eqb_spec c "]"%char) as [->|_]; [done|].
    destruct (Ascii.eqb_spec c Csv.LF) as [->|_]; [done|].
    by rewrite IH.
Qed.

Lemma concat_chars (sep : string) (cols : list string) ch :
  ch ∈ list_ascii_of_string (String.concat sep cols) →
  ch ∈ list_ascii_of_string sep
  ∨ ∃ col, col ∈ cols ∧ ch ∈ list_ascii_of_string col.
Proof.
  induction cols as [|c1 cols IH]; [by intros ?%elem_of_nil|].
  destruct cols as [|c2 cols].
  - cbn. intros ?. right. exists c1. split; [left|done].
  - change (String.concat sep (c1 :: c2 :: cols))
      with (c1 +:+ sep +:+ String.concat sep (c2 :: cols)).
    rewrite !list_ascii_app, !elem_of_app. intros [?|[?|Hin]].
    + right. exists c1. split; [left|done].
    + by left.
    + destruct (IH Hin) as [?|(col & ? & ?)]; [by left|].
      right. exists col. split; [by right|done].
Qed.

Lemma stripped_pieces_columns (cols : list string) :
  Forall plain cols → stripped_pieces (String.concat "," cols) = cols.
Proof.
  induction cols as [|c1 cols IH]; intros Hcols; [done|].
  apply Forall_cons in Hcols as [Hc1 Hcols].
  assert (Hone : stripped_pieces c1 = [c1]).
  { rewrite <- (app_Empty c1) at 1. rewrite <- (string_app_nil_r c1) at 1.
    rewrite plain_piece by (done || apply not_elem_of_nil).
    by rewrite app_Empty, string_app_nil_r. }
  destruct cols as [|c2 cols]; [done|].
  change (String.concat "," (c1 :: c2 :: cols))
    with (c1 +:+ String ","%char (String.concat "," (c2 :: cols))).
  by rewrite stripped_pieces_comma, Hone, IH.
Qed.

Lemma parse_pair_rejoined (c : CdsParser.unique_constraint) :
  plain (CdsParser.uc_name c) → Forall plain (CdsParser.uc_columns c) →
  parse_pair (CdsParser.uc_name c +:+ ": ["
              +:+ String.concat "," (CdsParser.uc_columns c) +:+ "]")
  = Some c.
Proof.
  destruct c as [name cols]. cbn [CdsParser.uc_name CdsParser.uc_columns].
  intros Hname Hcols. set (g := String.concat "," cols).
  assert (Hg : ∀ ch, ch ∈ ["]"; Csv.LF]%char → ch ∉ list_ascii_of_string g).
  { intros ch Hch [Hin|(col & Hcol & Hin)]%concat_chars.
    - cbn in Hin. apply list_elem_of_singleton in Hin as ->.
      repeat (apply elem_of_cons in Hch as [Hch|Hch]; [discriminate|]).
      by apply elem_of_nil in Hch.
    - rewrite Forall_forall in Hcols.
      revert Hin. apply plain_notin; [by apply Hcols|].
      apply elem_of_cons in Hch as [->|Hch]; [do 2 right; left|].
      apply list_elem_of_singleton in Hch as ->. do 3 right. left. }
  assert (Htext : name +:+ ": [" +:+ g +:+ "]"
                  = name +:+ String ":"%char
                      (String " "%char (String "["%char (g +:+ "]"))))
    by (by str_norm).
  rewrite Htext. unfold parse_pair.
  rewrite contains_char, bool_decide_eq_true_2
    by (rewrite list_ascii_app; apply elem_of_app; right; left).
  rewrite split_once_app by (apply plain_notin; [done|right; left]).
  assert (Hstrip : Py.strip (String " "%char (String "["%char (g +:+ "]")))
                   = String "["%char (g +:+ "]")).
  { unfold Py.strip. cbn [Py.lstrip].
    change (Py.is_space " "%char) with true.
    change (Py.is_space "["%char) with false. cbv iota.
    apply rstrip_fixed.
    change (String "["%char (g +:+ "]")) with (String "["%char g +:+ "]").
    by apply no_trail_app. }
  rewrite Hstrip. cbn [match_columns].
  change (Ascii.eqb "["%char "["%char) with true. cbv iota.
  rewrite until_bracket_app.
  - rewrite strip_fixed; [|by apply plain_no_lead|by apply plain_no_trail].
    unfold g. by rewrite stripped_pieces_columns.
  - apply Hg. left.
  - apply Hg. right. left.
Qed.

Lemma plain_check (s : string) :
  negb (String.eqb s EmptyString)
  && forallb (fun ch => negb (Py.is_space ch)
                        && negb (bool_decide (ch ∈ [","; ":"; "]"]%char)))
       (list_ascii_of_string s) = true →
  plain s.
Proof.
  intros [Hne Hall]%andb_true_iff. split.
  - intros ->. done.
  - intros ch Hch%list_elem_of_In.
    rewrite forallb_forall in Hall.
    destruct (andb_prop _ _ (Hall ch Hch)) as [Hsp Hnot].
    split; [by apply negb_true_iff|].
    apply negb_true_iff in Hnot. by apply bool_decide_eq_false in Hnot.
Qed.

End parse_unique_roundtrip.

(** X30.  [_parse_unique] reads an annotation as the schema writes it.
    For constraints whose names and columns are plain (not empty, without
    white space, comma, colon and closing bracket), the text
    [name: [col, col, ...]] of the constraints, separated by a comma and a
    space, is parsed into exactly these constraints, in order: each with its
    name and its columns in order, a constraint without columns
    included. *)
Theorem parse_unique_reads_annotation
    (cs : list CdsParser.unique_constraint) :
  Forall (fun c => CdsUnique.plain (CdsParser.uc_name c)
                   ∧ Forall CdsUnique.plain (CdsParser.uc_columns c)) cs →
  CdsUnique._parse_unique
    (String.concat ", "
       ((fun c => CdsParser.uc_name c +:+ ": ["
                  +:+ String.concat ", " (CdsParser.uc_columns c) +:+ "]")
          <$> cs))
  = cs.
Proof.
  intros Hcs. unfold CdsUnique._parse_unique, CdsUnique.rejoin.
  rewrite (rejoin_body cs Hcs []). cbn [String.eqb app].
  induction Hcs as [|c cs [Hname Hcols] Hcs IH]; [done|].
  rewrite fmap_cons. cbn [omap list_omap].
  by rewrite parse_pair_rejoined, IH.
Qed.

Lemma parse_unique_reads_annotation_witness :
  CdsUnique._parse_unique "unique_uom: [CODE], another_one: [A, B]"
  = [ {| CdsParser.uc_name := "unique_uom"; CdsParser.uc_columns := ["CODE"] |};
      {| CdsParser.uc_name := "another_one";
         CdsParser.uc_columns := ["A"; "B"] |} ].
Proof.
  apply (parse_unique_reads_annotation
           [ {| CdsParser.uc_name := "unique_uom";
                CdsParser.uc_columns := ["CODE"] |};
             {| CdsParser.uc_name := "another_one";
                CdsParser.uc_columns := ["A"; "B"] |} ]).
  repeat (first [ (apply plain_check; vm_compute; reflexivity)
                | apply Forall_nil_2 | apply Forall_cons_2 | split ]).
Defined.
